(* ===== verification/_CoqProject ===== *)
-Q . S2P
Prelude.v
Detector.v
HashDetector.v
GoFloat.v
GoJson.v
JsonTyping.v
GoJsonPrint.v
GoFloatPrint.v
GoJsonObject.v
GoJsonTree.v
StructuralHasher.v
ToolMatcher.v
VelocityBreaker.v
Pipeline.v
GoStrings.v
GoFlag.v
Pricing.v
Fetcher.v
Registry.v
Fairness.v
Refresher.v
GoTime.v
Store.v
Sqlite.v
Budget.v
Hub.v
Logging.v
Metrics.v
UsageTracking.v
GoSha256.v
GoUrl.v
GoHttp.v
GoReverseProxy.v
Auth.v
Handler.v
Traffic.v
Accounting.v
EventLog.v
Wrapper.v
Recovery.v
MockServer.v
Child.v
StatusBar.v
MetricsWire.v
Main.v
Documents.v
Startup.v
CommandLine.v
Serving.v
