(* ===== verification/Prelude.v ===== *)
(** * Verification of the FinOps proxy

    The program is a reverse proxy in front of an LLM API. It fingerprints every request
    body, answers 429 to requests that repeat in a loop, enforces per-caller budgets read
    from a request log, prices every completed call, and reports on a live log, to a
    notifier and through metrics. A supervisor, finops-run, restarts a child agent whose
    output shows such a 429.

    ** Reading order and correspondence

    Each file models the source named after it; a definition keeps the source's name where
    it can, and a long Go method may be cut into named steps. A Go int or int64 is a Z and
    every addition or product that can overflow is written with [wrap64]; a time is a Z of
    nanoseconds since year 1 (time.Time's zero), and every clock reading is an argument.
    The order in which Go traverses a map is an argument too (class [RangeOrder]), so that
    a theorem holds for every order.

    Foundations (the part of the Go standard library the source uses):
    - Prelude: int64, durations, bytes, map traversal and eviction, results, tactics;
    - GoFloat: IEEE 754 binary64 on the Standard Library's [spec_float];
    - GoJson: encoding/json (parser and typed decoding), utf8, strconv;
    - JsonTyping: the types of decoded values; the decoder is sound for them;
    - GoJsonPrint, GoFloatPrint: the texts of strings, integers and floats (the shortest
      that rounds back), all of which read back;
    - GoJsonObject, GoJsonTree: the encoder on flat structs, whose output is one line, and
      on nested structs and slices; both decode back;
    - GoFlag: flag sets, with the integers and durations a command line may hold;
    - GoStrings, GoTime, GoSha256, GoHttp: strings, bytes and paths, the UTC calendar,
      SHA-256 and hex, headers with requests and responses;
    - GoUrl: URLs with their escaping and queries, and the joining of two of them;
    - GoReverseProxy: what httputil.ReverseProxy makes of a request before its transport
      sends it - hop-by-hop and forwarding headers, unparsable queries, SetURL and
      SetXForwarded;
    - Fairness: infinite runs of a transition system, weak fairness, a progress rule.

    Loop detection (pkg/circuitbreaker):
    - Detector: fingerprints, results, and the class [Detector] with its laws;
    - HashDetector (hash_detector.go, status.go): the exact detector implements the class;
      repeats are blocked exactly from the limit on within the window, agents do not
      affect one another, capacity is bounded and eviction takes the oldest;
    - StructuralHasher, ToolMatcher, VelocityBreaker: the dynamic detectors, each against
      a reference definition (minimum over a set of shingles, least period of a window of
      calls, sums over a sliding window);
    - Pipeline (pipeline.go): the composition over any exact detector; what a request
      sees is the first block of the stages in order, and Reset clears them all.

    Pricing (pkg/pricing):
    - Pricing (pricing.go, load.go, price_source.go): resolution by longest prefix, cost
      and estimates without overflow, validation of the configuration; class [PriceSource];
    - Fetcher (fetcher.go): the catalog request and its parsing;
    - Registry (registry.go): the refresh state machine, in every interleaving of refresh
      commits and writers: readers always see a valid table;
    - Refresher (registry.go): the background loop's start and stop; Stop returns, and
      then the loop is gone.

    The request path (pkg/proxy, internal/store, internal/logging):
    - Store (store.go, caller.go, memory.go): the persistence seams as classes, the law of
      a ledger, and the memory store, which satisfies it;
    - Sqlite (sqlite.go): the SQLite store on a class of what it calls of gorm and the
      driver, with their documented laws; it refines the memory store, and seeding its
      price book never overwrites a row;
    - Budget (budget.go, notifier.go): the UTC windows and the daily monitor;
    - Auth (caller.go): keys, hashing, middleware;
    - UsageTracking (cost_tracking.go): the passive observer of upstream responses, its
      one report, and what of a stream it parses when a read overflows its buffer;
    - Hub (pkg/logstream/hub.go): the live log, with publishers and consumers interleaved
      at the granularity of single channel operations;
    - Logging (jsonlog.go, slog.go): the two JSON loggers against each other, on every
      field of their events, and a log file read back, write failures included;
    - Metrics (metrics.go): counters, the token window, the trigger history;
    - Handler (handler.go, alerting.go, reverseproxy.go, emitter.go and onCost): a request
      served by a small state and trace monad over a world (detector, store, budget
      monitor), first as the code has it and then as a [verdict] that decides its effects
      ([ServeHTTP_run] is the refinement between them). The theorems say that every
      request is answered once, what a block reports, field by field, when the budget gate
      answers, what goes upstream and to which URL, what a completion records, and that a
      caller's monthly spend stays below its budget plus one call;
    - Traffic: requests and completions of any callers interleaved; the budget holds up to
      what is in flight, and a looping agent is stopped whatever else is served;
    - Accounting: one call from the request to its row; it is billed once, for what its
      response says, when the response ends;
    - EventLog: publishers, notifying requests and the logger's goroutine interleaved, and
      what the log file then holds.

    Programs:
    - Wrapper (internal/wrapper): the supervision loop, the marker scan over the child's
      output, the cleanup call, the derived agent id;
    - Child (child.go): the child, its group, the watchdog, os/exec's goroutine and Wait as
      one transition system; under weak fairness the child is always reaped;
    - StatusBar (stats.go): the metrics poll and what a terminal shows of it;
    - MetricsWire (metrics.go): the document of GET /v1/metrics, byte by byte, as the status
      bar decodes it;
    - Main (cmd/proxy): flags, keys file, thresholds, detector and budget wiring, routes;
    - Documents: the keys file and the usage object, read back as they were written;
    - Startup (cmd/proxy, run): the whole start, in order, its errors, and the server it
      ends with, which has all of its configuration; with a keys file no other key gets
      through;
    - CommandLine (args.go, cmd/finops-run, the flags of cmd/proxy): the two command lines;
    - Serving: the started proxy in operation at its root mux, with its metrics and its
      dashboard; whatever happens, its metrics keep the books of its request log;
    - Recovery: finops-run's cleanup against the routes, the authentication and the
      detectors of the proxy; a looping child restarts clean, unless the proxy has keys;
    - MockServer (cmd/mockserver): the mock upstream, and the proxy in front of it.

    ** How the parts meet

    Handler is proved against the classes [Detector], [PayloadCapability],
    [RequestLogStore], [BudgetLedger], [BudgetSpender] and [PriceSource]. HashDetector and
    Pipeline instantiate the first two, MemoryStore (with [LedgerLaws]) and the SQLite
    store the next two, BudgetMonitor the fifth, Pricing and Registry the last (with
    [PriceSourceLaws]). Traffic is proved against the same classes; Startup builds the
    instances cmd/proxy chooses between at run time. The SQLite store is related to the
    memory store by the tables behind its handle, to gorm by the class [Gorm]. Recovery
    asks of a detector that it forgets what it resets (class [Recoverable]), which the exact
    detector and the pipeline do. Serving, Recovery, Accounting, EventLog and MockServer are
    the compositions: each takes the operations of the files it joins as they are.
    The witnesses run a concrete proxy: the exact detector, the memory store, a flat price;
    that of Startup starts one from its flags, a price file, a keys file and a database.

    ** Fuel and bounds

    Recursions that are not structural carry fuel fixed by their input: the JSON parser
    and the line loop of the observer the number of bytes left, eviction the size of the
    map, the retry loop the number of retries plus one, a flag set the number of arguments.
    Integers are printed with twenty digits, enough for an int64; the text of a float is
    searched up to seventeen digits, enough for a binary64. The supervision loop is given fuel
    and proved to return with any fuel above the restart limit. The sums of the ledger and
    the counters wrap at 64 bits; theorems that state exact values carry the hypothesis
    that the exact value fits.

    ** Concurrency

    A method that holds a mutex for its whole body is one atomic step. Where the code lets
    others run in between - the registry's fetch outside its lock, a consumer receiving
    while a publisher works on its channel, a completion while other requests are served,
    the goroutines around a child or the refresh loop - the steps are separate and the
    theorems hold for every interleaving; liveness is for every weakly fair one. A request
    reads one price table and one settings value.

    ** Not modelled

    Transport and connection handling (net/http, and httputil.ReverseProxy from its
    transport on: dialing, copying a response's headers, switching protocols), url.Parse
    (its result is an argument of the start), the text fmt and slog make of a value,
    log.Printf, the lock-free pools and their reuse, and the bytes of the embedded
    dashboard page. What the operating system, SQLite, an upstream or the catalog answers is an
    argument, or a class with laws and a concrete instance. *)

From Stdlib Require Export ZArith Lia.
From Stdlib Require Export Strings.Byte.
From stdpp Require Export gmap strings list fin_maps sorting.

#[global] Open Scope Z_scope.

(** ** Machine integers: Go's int, int64, time.Duration (signed 64 bit) and uint64 *)

Definition int64_min : Z := - 2 ^ 63.
Definition int64_max : Z := 2 ^ 63 - 1.
Definition in_int64 (z : Z) : Prop := int64_min <= z <= int64_max.

(** Two's complement wrap-around of a signed 64-bit result. *)
Definition wrap64 (z : Z) : Z := (z + 2 ^ 63) mod 2 ^ 64 - 2 ^ 63.

(** Wrap-around of an unsigned 64-bit result. *)
Definition wrapu64 (z : Z) : Z := z mod 2 ^ 64.

(** ** time.Duration and time.Time

    A duration is its number of nanoseconds.  An instant is its number of
    nanoseconds since Go's zero Time (January 1, year 1, 00:00 UTC), so that
    [time_is_zero] is IsZero.  Sub saturates, as Time.Sub does. *)

Definition Nanosecond : Z := 1.
Definition Microsecond : Z := 1000.
Definition Millisecond : Z := 1000000.
Definition Second : Z := 1000000000.
Definition Minute : Z := 60 * Second.
Definition Hour : Z := 60 * Minute.

Definition zero_time : Z := 0.
Definition time_is_zero (t : Z) : bool := t =? zero_time.
Definition time_before (t u : Z) : bool := t <? u.
Definition time_after (t u : Z) : bool := u <? t.
Definition time_add (t d : Z) : Z := t + d.
Definition time_sub (t u : Z) : Z := Z.max int64_min (Z.min int64_max (t - u)).

(** Seconds between the zero Time and the Unix epoch. *)
Definition unix_epoch_seconds : Z := 62135596800.
(** Time.Unix: whole seconds since the epoch (rounded towards the past). *)
Definition time_unix (t : Z) : Z := t / Second - unix_epoch_seconds.
(** time.Unix(sec, 0). *)
Definition unix_time (sec : Z) : Z := (sec + unix_epoch_seconds) * Second.

(** The idiom (d + time.Second - 1) / time.Second: int64 addition wraps and
    the division truncates. *)
Definition div_ceil_second (d : Z) : Z := Z.quot (wrap64 (d + Second - 1)) Second.

(** ** Bytes and strings

    A []byte is a list of bytes and a Go string a [string]; both are the same
    sequences of bytes. *)

Definition byte_to_Z (b : byte) : Z := Z.of_N (Byte.to_N b).
Definition bytes_of_string : string -> list byte := String.list_byte_of_string.
Definition string_of_bytes : list byte -> string := String.string_of_list_byte.
Definition byte_eqb (a b : byte) : bool := Byte.eqb a b.

(** bytes.HasPrefix / strings.HasPrefix. *)
Fixpoint has_prefix (p l : list byte) : bool :=
  match p, l with
  | [], _ => true
  | a :: p', b :: l' => byte_eqb a b && has_prefix p' l'
  | _ :: _, [] => false
  end.

(** The longest prefix satisfying a test, and the rest. *)
Fixpoint span (f : byte -> bool) (l : list byte) : list byte * list byte :=
  match l with
  | [] => ([], [])
  | c :: l' => if f c then let '(a, b) := span f l' in (c :: a, b) else ([], l)
  end.

(** ** Ranging over a Go map

    A [range] statement visits every entry once, in an order the language
    leaves open.  [RangeOrder] is that order: any function that enumerates the
    entries of a map, so a theorem stated for an arbitrary instance holds
    whatever order the runtime picks. *)

Class RangeOrder (K V : Type) `{Countable K} := {
  range : gmap K V -> list (K * V);
  range_perm : forall m, range m ≡ₚ map_to_list m
}.

(** One concrete order, used to evaluate the definitions. *)
Definition canonical_range (K V : Type) `{Countable K} : RangeOrder K V :=
  {| range := map_to_list; range_perm := fun m => reflexivity _ |}.

(** Another concrete order: the canonical one reversed. *)
Definition reversed_range (K V : Type) `{Countable K} : RangeOrder K V :=
  {| range m := reverse (map_to_list m); range_perm m := reverse_Permutation _ |}.

(** ** The eviction loop shared by the detectors

    HashDetector, StructuralHasher, ToolMatcher and VelocityBreaker bound their
    map with the same loop: while [len(m) >= max], scan for the entry with the
    smallest stamp and delete it. *)

Section Eviction.
Context {K V : Type} `{Countable K} (R : RangeOrder K V) (stamp : V -> Z).

Definition oldest_step (acc : option (K * Z)) (kv : K * V) : option (K * Z) :=
  match acc with
  | None => Some (kv.1, stamp kv.2)
  | Some (_, t) => if time_before (stamp kv.2) t then Some (kv.1, stamp kv.2) else acc
  end.

Definition oldest_entry (m : gmap K V) : option (K * Z) :=
  foldl oldest_step None (range m).

Fixpoint evict_loop (fuel : nat) (max : Z) (m : gmap K V) : gmap K V :=
  match fuel with
  | O => m
  | S fuel' =>
      if max <=? Z.of_nat (size m) then
        match oldest_entry m with
        | None => m
        | Some (k, _) => evict_loop fuel' max (delete k m)
        end
      else m
  end.

(** Each turn deletes one entry and an empty map ends the loop, so
    [size m + 1] turns are enough. *)
Definition evict_to (max : Z) (m : gmap K V) : gmap K V :=
  evict_loop (S (size m)) max m.
End Eviction.

(** ** Results

    A Go function that returns a value and an error, used as one or the other. *)

Inductive result (E A : Type) := Ok (a : A) | Err (e : E).
Arguments Ok {E A} a.
Arguments Err {E A} e.

Definition rbind {E A B} (r : result E A) (f : A -> result E B) : result E B :=
  match r with Ok a => f a | Err e => Err e end.

Declare Scope result_scope.
Delimit Scope result_scope with result.
Notation "'let*' x ':=' r 'in' k" := (rbind r (fun x => k))
  (at level 10, x pattern, r at level 100, k at level 200, only parsing) : result_scope.

(** ** Sums *)

Fixpoint sumZ (l : list Z) : Z :=
  match l with [] => 0 | x :: l' => x + sumZ l' end.

(** ** Tactics and hint databases *)

Create HintDb goint.
Create HintDb gotime.

Ltac unfold_time :=
  unfold time_is_zero, time_before, time_after, time_add, time_sub, zero_time,
    Hour, Minute, Second, Millisecond, Microsecond, Nanosecond in *.

(** Case analysis on the scrutinee of a [match] or [if]. *)
Ltac destr_match :=
  match goal with
  | |- context [match ?x with _ => _ end] => destruct x eqn:?
  end.

(** Turn boolean comparisons of the context and the goal into propositions. *)
Ltac zbool :=
  repeat match goal with
  | H : (_ <? _) = true |- _ => apply Z.ltb_lt in H
  | H : (_ <? _) = false |- _ => apply Z.ltb_ge in H
  | H : (_ <=? _) = true |- _ => apply Z.leb_le in H
  | H : (_ <=? _) = false |- _ => apply Z.leb_gt in H
  | H : (_ =? _) = true |- _ => apply Z.eqb_eq in H
  | H : (_ =? _) = false |- _ => apply Z.eqb_neq in H
  | H : _ && _ = true |- _ => apply andb_true_iff in H as [? ?]
  | H : _ || _ = false |- _ => apply orb_false_iff in H as [? ?]
  | H : negb _ = true |- _ => apply negb_true_iff in H
  | H : negb _ = false |- _ => apply negb_false_iff in H
  end.

(** Split on a boolean test and close the branches linear arithmetic refutes. *)
Ltac zcase b :=
  let E := fresh "E" in destruct b eqn:E; zbool; try lia.

(** ** Lemmas on integers and time *)

Lemma wrap64_id z : in_int64 z -> wrap64 z = z.
Proof.
  unfold in_int64, int64_min, int64_max, wrap64. intros.
  rewrite Z.mod_small; lia.
Qed.

Lemma wrap64_range z : in_int64 (wrap64 z).
Proof.
  unfold in_int64, int64_min, int64_max, wrap64.
  pose proof (Z.mod_pos_bound (z + 2 ^ 63) (2 ^ 64)). lia.
Qed.

Lemma wrap64_wrap64_add a b : wrap64 (wrap64 a + b) = wrap64 (a + b).
Proof.
  unfold wrap64. f_equal.
  replace ((a + 2 ^ 63) mod 2 ^ 64 - 2 ^ 63 + b + 2 ^ 63)
    with ((a + 2 ^ 63) mod 2 ^ 64 + b) by lia.
  rewrite Zplus_mod_idemp_l. f_equal. lia.
Qed.

Lemma wrap64_wrap64_sub a b : wrap64 (wrap64 a - b) = wrap64 (a - b).
Proof. unfold Z.sub. apply (wrap64_wrap64_add a (- b)). Qed.

Lemma time_sub_exact t u : in_int64 (t - u) -> time_sub t u = t - u.
Proof. unfold in_int64, time_sub, int64_min, int64_max. lia. Qed.

Create Rewrite HintDb goint_rw.
#[export] Hint Rewrite wrap64_wrap64_add wrap64_wrap64_sub : goint_rw.
#[export] Hint Resolve wrap64_range : goint.

(** [div_ceil_second] is the ceiling of a positive duration in seconds as long
    as the intermediate sum fits an int64. *)
Lemma div_ceil_second_bounds d :
  0 < d <= int64_max - Second + 1 ->
  1 <= div_ceil_second d
  /\ (div_ceil_second d - 1) * Second < d <= div_ceil_second d * Second.
Proof.
  unfold div_ceil_second, int64_max. unfold_time. intros.
  rewrite wrap64_id by (unfold in_int64, int64_min, int64_max; lia).
  rewrite Z.quot_div_nonneg by lia.
  pose proof (Z.div_mod (d + 1000000000 - 1) 1000000000 ltac:(lia)).
  pose proof (Z.mod_pos_bound (d + 1000000000 - 1) 1000000000 ltac:(lia)).
  lia.
Qed.

Lemma rbind_Ok {E A B} (r : result E A) (f : A -> result E B) b :
  rbind r f = Ok b <-> exists a, r = Ok a /\ f a = Ok b.
Proof. destruct r; simpl; naive_solver. Qed.

Lemma sumZ_app l1 l2 : sumZ (l1 ++ l2) = sumZ l1 + sumZ l2.
Proof. induction l1; simpl; lia. Qed.

#[export] Instance sumZ_permutation : Proper ((≡ₚ) ==> eq) sumZ.
Proof. induction 1; simpl; lia. Qed.

#[export] Hint Rewrite sumZ_app : goint_rw.

(** ** Lemmas on bytes *)

#[export] Instance byte_eq_dec : EqDecision byte := Byte.byte_eq_dec.

Lemma byte_eqb_eq a b : byte_eqb a b = true <-> a = b.
Proof. unfold byte_eqb. split; [apply Byte.byte_dec_bl|apply Byte.byte_dec_lb]. Qed.

Lemma byte_eqb_refl a : byte_eqb a a = true.
Proof. by apply byte_eqb_eq. Qed.

Lemma bytes_of_string_of_bytes l : bytes_of_string (string_of_bytes l) = l.
Proof. apply String.list_byte_of_string_of_list_byte. Qed.

Lemma string_of_bytes_of_string s : string_of_bytes (bytes_of_string s) = s.
Proof. apply String.string_of_list_byte_of_string. Qed.

Lemma bytes_of_string_app s1 s2 : bytes_of_string (s1 +:+ s2) = bytes_of_string s1 ++ bytes_of_string s2.
Proof.
  unfold bytes_of_string, String.list_byte_of_string. induction s1 as [|c s1 IH]; [done|].
  change (String.String c s1 +:+ s2) with (String.String c (s1 +:+ s2)).
  cbn [String.list_ascii_of_string map app]. by rewrite IH.
Qed.

Lemma span_app f l : let '(a, b) := span f l in
  l = a ++ b /\ Forall (fun c => f c = true) a
  /\ match b with [] => True | c :: _ => f c = false end.
Proof.
  induction l as [|c l IH]; simpl; [done|].
  destruct (f c) eqn:E; [|by rewrite E].
  destruct (span f l) as [a b]. destruct IH as (-> & Ha & Hb).
  split_and!; [done|by constructor|done].
Qed.

Lemma span_exact f a b :
  Forall (fun c => f c = true) a -> match b with [] => True | c :: _ => f c = false end ->
  span f (a ++ b) = (a, b).
Proof.
  intros Ha Hb. induction Ha as [|c a Hc Ha IH]; simpl.
  - destruct b as [|c b]; simpl; [done|]. by rewrite Hb.
  - by rewrite Hc, IH.
Qed.

Lemma has_prefix_spec p l : has_prefix p l = true <-> exists r, l = p ++ r.
Proof.
  revert l. induction p as [|a p IH]; intros [|b l]; simpl.
  - split; [by exists []|done].
  - split; [by exists (b :: l)|done].
  - split; [done|by intros [r ?]].
  - rewrite andb_true_iff, byte_eqb_eq, IH. split.
    + intros [-> [r ->]]. by exists r.
    + intros [r ?]. simplify_eq. split; [done|by exists r].
Qed.

(** ** Lemmas on ranging and eviction *)

Section RangeLemmas.
Context {K V : Type} `{Countable K} (R : RangeOrder K V).
Implicit Types m : gmap K V.

Lemma elem_of_range m k v : (k, v) ∈ range m <-> m !! k = Some v.
Proof. rewrite (range_perm m). apply elem_of_map_to_list. Qed.

Lemma NoDup_fst_range m : NoDup (range m).*1.
Proof. rewrite (range_perm m). apply NoDup_fst_map_to_list. Qed.

Lemma length_range m : length (range m) = size m.
Proof. rewrite (range_perm m). apply length_map_to_list. Qed.

Context (stamp : V -> Z).

Lemma oldest_fold_spec (l : list (K * V)) acc :
  match foldl (oldest_step stamp) acc l with
  | None => acc = None /\ l = []
  | Some (k, t) =>
      ((exists v, (k, v) ∈ l /\ t = stamp v) \/ acc = Some (k, t))
      /\ Forall (fun kv => t <= stamp kv.2) l
      /\ (forall k' t', acc = Some (k', t') -> t <= t')
  end.
Proof.
  revert acc. induction l as [|[k v] l IH]; intros acc; simpl.
  - destruct acc as [[k t]|]; [|done].
    split_and!; [by right|constructor|]. intros ?? [= -> ->]. lia.
  - specialize (IH (oldest_step stamp acc (k, v))).
    destruct (foldl _ _ l) as [[k0 t0]|].
    + destruct IH as (Hin & Hall & Hacc). unfold oldest_step, time_before in *; simpl in *.
      destruct acc as [[k1 t1]|].
      * revert Hin Hacc. destruct (stamp v <? t1) eqn:Hlt; intros Hin Hacc; zbool.
        -- specialize (Hacc _ _ eq_refl). split_and!.
           ++ left. destruct Hin as [(v' & ? & ?)|?]; simplify_eq; set_solver.
           ++ constructor; [simpl; lia|done].
           ++ intros ?? [= -> ->]. lia.
        -- specialize (Hacc _ _ eq_refl). split_and!.
           ++ destruct Hin as [(v' & ? & ?)|?]; [left; set_solver|by right].
           ++ constructor; [simpl; lia|done].
           ++ intros ?? [= -> ->]. lia.
      * specialize (Hacc _ _ eq_refl). split_and!.
        -- left. destruct Hin as [(v' & ? & ?)|?]; simplify_eq; set_solver.
        -- constructor; [simpl; lia|done].
        -- done.
    + destruct IH as [IH _]. unfold oldest_step in IH.
      destruct acc as [[??]|]; [|done]. by destruct (time_before _ _).
Qed.

Lemma oldest_entry_Some m k t :
  oldest_entry R stamp m = Some (k, t) ->
  exists v, m !! k = Some v /\ t = stamp v /\ map_Forall (fun _ v' => t <= stamp v') m.
Proof.
  unfold oldest_entry. intros E.
  pose proof (oldest_fold_spec (range m) None) as Hs. rewrite E in Hs.
  destruct Hs as ([(v & Hin & ->)|?] & Hall & _); [|done].
  exists v. split_and!; [by apply elem_of_range|done|].
  intros k' v' Hk'%elem_of_range. rewrite Forall_forall in Hall. by apply (Hall (k', v')).
Qed.

Lemma oldest_entry_None m : oldest_entry R stamp m = None -> m = ∅.
Proof.
  unfold oldest_entry. intros E.
  pose proof (oldest_fold_spec (range m) None) as Hs. rewrite E in Hs.
  destruct Hs as [_ Hs]. apply map_size_empty_inv. by rewrite <- length_range, Hs.
Qed.

Lemma evict_loop_noop n max m : Z.of_nat (size m) < max -> evict_loop R stamp n max m = m.
Proof. intros. destruct n; simpl; [done|]. by zcase (max <=? Z.of_nat (size m)). Qed.

Lemma evict_to_noop max m : Z.of_nat (size m) < max -> evict_to R stamp max m = m.
Proof. apply evict_loop_noop. Qed.

Lemma evict_loop_subseteq n max m : evict_loop R stamp n max m ⊆ m.
Proof.
  revert m. induction n as [|n IH]; intros m; simpl; [done|].
  destruct (_ <=? _); [|done]. destruct (oldest_entry R stamp m) as [[k t]|]; [|done].
  etrans; [apply IH|apply delete_subseteq].
Qed.

(** Eviction only forgets: what stays was there. *)
Lemma evict_to_subseteq max m : evict_to R stamp max m ⊆ m.
Proof. apply evict_loop_subseteq. Qed.

Lemma evict_loop_size n max m :
  (size m < n)%nat -> 0 < max -> Z.of_nat (size (evict_loop R stamp n max m)) < max.
Proof.
  revert m. induction n as [|n IH]; intros m Hn Hmax; [lia|]. simpl.
  zcase (max <=? Z.of_nat (size m)).
  destruct (oldest_entry R stamp m) as [[k t]|] eqn:Ho.
  - apply oldest_entry_Some in Ho as (v & Hk & _). apply IH; [|done].
    rewrite map_size_delete_Some by eauto.
    assert (size m <> 0%nat); [|lia]. intros ->%map_size_empty_inv. by rewrite lookup_empty in Hk.
  - apply oldest_entry_None in Ho as ->. rewrite map_size_empty in *. lia.
Qed.

(** After the loop there is room for one more entry. *)
Lemma evict_to_size max m :
  0 < max -> Z.of_nat (size (evict_to R stamp max m)) < max.
Proof. apply evict_loop_size. lia. Qed.

Lemma evict_loop_oldest n max m k v k' v' :
  m !! k = Some v -> evict_loop R stamp n max m !! k = None ->
  evict_loop R stamp n max m !! k' = Some v' -> stamp v <= stamp v'.
Proof.
  revert m. induction n as [|n IH]; intros m Hk Hgone Hk'; simpl in *; [congruence|].
  destruct (_ <=? _); [|congruence].
  destruct (oldest_entry R stamp m) as [[ko t]|] eqn:Ho; [|congruence].
  apply oldest_entry_Some in Ho as (vo & Hko & -> & Hmin).
  destruct (decide (k = ko)) as [->|Hne].
  - assert (v = vo) as -> by congruence. apply (Hmin k').
    eapply lookup_weaken; [done|]. etrans; [apply evict_loop_subseteq|apply delete_subseteq].
  - eapply IH; [|done..]. by rewrite lookup_delete_ne.
Qed.

(** Whatever was evicted is at most as recent as everything kept. *)
Lemma evict_to_oldest max m k v k' v' :
  m !! k = Some v -> evict_to R stamp max m !! k = None ->
  evict_to R stamp max m !! k' = Some v' -> stamp v <= stamp v'.
Proof. apply evict_loop_oldest. Qed.

Lemma evict_loop_keeps n max m k v :
  m !! k = Some v ->
  (forall k' v', m !! k' = Some v' -> k' <> k -> stamp v' < stamp v) ->
  1 < max -> evict_loop R stamp n max m !! k = Some v.
Proof.
  revert m. induction n as [|n IH]; intros m Hk Hlt Hmax; simpl; [done|].
  zcase (max <=? Z.of_nat (size m)); [|done].
  destruct (oldest_entry R stamp m) as [[ko t]|] eqn:Ho; [|done].
  apply oldest_entry_Some in Ho as (vo & Hko & -> & Hmin).
  destruct (decide (ko = k)) as [->|Hne].
  - exfalso. assert (size (delete k m) <> 0%nat) as Hs.
    { rewrite map_size_delete_Some by eauto. lia. }
    apply Hs. rewrite <- (map_size_empty (M := gmap K) (A := V)). f_equal. apply map_eq. intros i.
    rewrite lookup_empty. destruct (delete k m !! i) as [x|] eqn:Hi; [|done].
    apply lookup_delete_Some in Hi as [Hik Hi]. specialize (Hlt _ _ Hi ltac:(done)).
    specialize (Hmin _ _ Hi). simpl in Hmin. assert (vo = v) as -> by congruence. lia.
  - apply IH; [by rewrite lookup_delete_ne| |done].
    intros k' v' Hk'. apply lookup_delete_Some in Hk' as [_ Hk']. eauto.
Qed.
End RangeLemmas.

#[export] Hint Resolve evict_to_subseteq : gotime.

Lemma size_insert_le `{Countable K} {V} (m : gmap K V) k v :
  (size (<[k := v]> m) <= S (size m))%nat.
Proof.
  destruct (m !! k) eqn:E.
  - rewrite map_size_insert_Some by eauto. lia.
  - rewrite map_size_insert_None by done. lia.
Qed.

(** ** Lemmas on folds *)

(** A fold whose step commutes does not depend on the order of the list. *)
Lemma foldl_permutation {A B} (f : A -> B -> A) (a : A) (l1 l2 : list B) :
  (forall a x y, f (f a x) y = f (f a y) x) -> l1 ≡ₚ l2 -> foldl f a l1 = foldl f a l2.
Proof.
  intros Hf Hp. revert a. induction Hp as [|x l1 l2 _ IH|x y l|l1 l2 l3 _ IH1 _ IH2]; intros a; simpl.
  - done.
  - apply IH.
  - by rewrite Hf.
  - by rewrite IH1.
Qed.

(** Deleting while ranging keeps exactly the entries that were not selected. *)
Lemma foldl_delete_lookup {K V} `{Countable K} (p : K * V -> bool) (l : list (K * V))
    (m : gmap K V) k :
  foldl (fun m kv => if p kv then delete kv.1 m else m) m l !! k
  = if existsb (fun kv => bool_decide (kv.1 = k) && p kv) l then None else m !! k.
Proof.
  revert m. induction l as [|[k' v'] l IH]; intros m; simpl; [done|].
  rewrite IH. destruct (existsb _ l) eqn:E; [by rewrite orb_true_r|]. rewrite orb_false_r.
  case_bool_decide; subst; simpl.
  - destruct (p _); simpl; [by rewrite lookup_delete_eq|done].
  - destruct (p _); simpl; [by rewrite lookup_delete_ne|done].
Qed.

Lemma foldl_delete_range {K V} `{Countable K} (R : RangeOrder K V) (p : K * V -> bool)
    (m : gmap K V) :
  foldl (fun m kv => if p kv then delete kv.1 m else m) m (range m)
  = filter (fun kv => p kv = false) m.
Proof.
  apply map_eq. intros k. rewrite foldl_delete_lookup.
  destruct (existsb _ _) eqn:E.
  - apply existsb_exists in E as ([k' v'] & Hin & [Hk Hp]%andb_true_iff).
    apply bool_decide_eq_true in Hk. simpl in *. subst.
    apply list_elem_of_In, elem_of_range in Hin. symmetry. apply map_lookup_filter_None. right.
    intros v'' Hv''. congruence.
  - destruct (m !! k) as [v|] eqn:Hm; symmetry.
    + apply map_lookup_filter_Some. split; [done|]. destruct (p (k, v)) eqn:Hp; [|done].
      exfalso. revert E. apply not_false_iff_true, existsb_exists. exists (k, v).
      rewrite Hp. simpl. rewrite bool_decide_true by done.
      split; [|done]. by apply list_elem_of_In, elem_of_range.
    + apply map_lookup_filter_None. by left.
Qed.

Lemma NoDup_fst_filter {K V} (P : K * V -> Prop) `{forall x, Decision (P x)} (l : list (K * V)) :
  NoDup l.*1 -> NoDup (filter P l).*1.
Proof.
  intros Hnd. induction l as [|[k v] l IH]; [done|]. simpl in Hnd.
  apply NoDup_cons in Hnd as [Hk Hnd]. rewrite filter_cons.
  destruct (decide _); [|auto]. simpl. apply NoDup_cons. split; [|auto].
  intros ([k' v'] & Heq & [_ Hin]%list_elem_of_filter)%list_elem_of_fmap. simpl in *. subst.
  apply Hk. apply list_elem_of_fmap. by exists (k', v').
Qed.

Lemma map_to_list_filter `{Countable K} {V} (P : K * V -> Prop) `{forall x, Decision (P x)}
    (m : gmap K V) :
  map_to_list (filter P m) ≡ₚ filter P (map_to_list m).
Proof.
  rewrite map_filter_alt. apply map_to_list_to_map.
  apply NoDup_fst_filter, NoDup_fst_map_to_list.
Qed.

Lemma lookup_filter_decide `{Countable K} {V} (P : K * V -> Prop) `{forall x, Decision (P x)}
    (m : gmap K V) k :
  filter P m !! k = match m !! k with
                    | Some v => if decide (P (k, v)) then Some v else None
                    | None => None
                    end.
Proof.
  destruct (m !! k) as [v|] eqn:E.
  - destruct (decide _).
    + by apply map_lookup_filter_Some.
    + apply map_lookup_filter_None. right. intros v' ?. by simplify_eq.
  - apply map_lookup_filter_None. by left.
Qed.

(** Filters that agree on the elements of a list. *)
Lemma filter_agree {A} (P Q : A -> Prop) `{forall x, Decision (P x)} `{forall x, Decision (Q x)}
    (l : list A) :
  (forall x, x ∈ l -> P x <-> Q x) -> filter P l = filter Q l.
Proof.
  induction l as [|x l IH]; intros HPQ; [done|]. rewrite !filter_cons.
  rewrite (IH ltac:(intros; apply HPQ; by right)).
  destruct (HPQ x ltac:(by left)). repeat case_decide; naive_solver.
Qed.

Lemma filter_none {A} (Q : A -> Prop) `{forall x, Decision (Q x)} (l : list A) :
  (forall x, x ∈ l -> ~ Q x) -> filter Q l = [].
Proof.
  induction l as [|x l IH]; intros Hn; [done|]. rewrite filter_cons, decide_False by (apply Hn; by left).
  apply IH. intros y Hy. apply Hn. by right.
Qed.

Lemma filter_unique {A B} `{EqDecision B} (f : A -> B) (l : list A) x :
  NoDup (f <$> l) -> x ∈ l -> filter (fun y => f y = f x) l = [x].
Proof.
  induction l as [|y l IH]; intros Hnd Hx; [by apply not_elem_of_nil in Hx|].
  rewrite fmap_cons in Hnd. apply NoDup_cons in Hnd as [Hy Hnd]. rewrite filter_cons.
  apply elem_of_cons in Hx as [->|Hx].
  - rewrite decide_True by done. f_equal. apply filter_none. intros z Hz Heq. apply Hy.
    rewrite <- Heq. by apply list_elem_of_fmap_2.
  - rewrite decide_False; [by apply IH|]. intros Heq. apply Hy. rewrite Heq. by apply list_elem_of_fmap_2.
Qed.

Lemma filter_fmap {A B} (f : A -> B) (Q : B -> Prop) `{forall x, Decision (Q x)} (l : list A) :
  filter Q (f <$> l) = f <$> filter (fun x => Q (f x)) l.
Proof.
  induction l as [|x l IH]; [done|]. rewrite fmap_cons, !filter_cons, IH. by destruct (decide (Q (f x))).
Qed.

(** A loop that appends the selected images is a map and a filter. *)
Lemma foldl_append_if {A B} (f : A -> B) (p : B -> bool) (l : list A) (out : list B) :
  foldl (fun out x => let y := f x in if p y then out ++ [y] else out) out l
  = out ++ filter (fun y => p y = true) (f <$> l).
Proof.
  revert out. induction l as [|x l IH]; intros out; csimpl; [by rewrite app_nil_r|].
  rewrite IH, filter_cons. destruct (p (f x)) eqn:E.
  - rewrite decide_True by done. by rewrite <- app_assoc.
  - by rewrite decide_False by congruence.
Qed.
