(* ===== verification/Detector.v ===== *)
(** * pkg/circuitbreaker/detector.go and status.go: the types the proxy and the
    loop detectors exchange, and the interfaces between them. *)

From S2P Require Import Prelude.

(** detector.go: a Fingerprint and an AgentID are strings. *)
Definition Fingerprint : Type := string.
Definition AgentID : Type := string.

(** detector.go, CheckResult. *)
Record CheckResult := {
  Block : bool;
  Reason : string;
  RetryAfter : Z;
  FirstBlock : bool
}.

(** The zero CheckResult: proceed. *)
Definition proceed : CheckResult :=
  {| Block := false; Reason := ""; RetryAfter := 0; FirstBlock := false |}.

Definition ReasonExactHash : string :=
  "identical request fingerprint observed within TTL window (possible infinite loop)".
Definition ReasonStructural : string :=
  "structurally identical request observed within TTL window (possible loop with dynamic values)".
Definition ReasonToolCycle : string :=
  "repeating tool-call cycle detected (possible A->B->A->B agent loop)".
Definition ReasonVelocity : string :=
  "abnormal token consumption velocity (possible unbounded consumption loop)".

(** status.go, AgentStatus. *)
Record AgentStatus := {
  st_Agent : AgentID;
  st_Blocked : bool;
  st_Fingerprints : Z;
  st_BlockedFP : Z;
  st_FirstBlocked : Z;
  st_LastBlocked : Z
}.

(** AgentStatus{Agent: agent}. *)
Definition new_status (agent : AgentID) : AgentStatus :=
  {| st_Agent := agent; st_Blocked := false; st_Fingerprints := 0; st_BlockedFP := 0;
     st_FirstBlocked := zero_time; st_LastBlocked := zero_time |}.

(** The Detector interface: check-and-record, and reset of one agent.  The
    clock reading is an argument: every implementation reads its own clock once
    per call. *)
Class Detector (D : Type) := {
  det_check : D -> Z -> AgentID -> Fingerprint -> D * CheckResult;
  det_reset : D -> AgentID -> D * Z
}.

(** The laws the documentation of the interface states: a fingerprint never seen
    by the agent proceeds, and after Reset the agent has no history, so that its
    next check proceeds and a second Reset removes nothing. *)
Class DetectorLaws (D : Type) `{Detector D} (ok : D -> Prop) := {
  law_check_ok d now a fp : ok d -> ok (det_check d now a fp).1;
  law_reset_ok d a : ok d -> ok (det_reset d a).1;
  law_reset_proceeds d now a fp :
    ok d -> (det_check (det_reset d a).1 now a fp).2 = proceed;
  law_reset_again d a : ok d -> (det_reset (det_reset d a).1 a).2 = 0;
  law_reset_nonneg d a : ok d -> 0 <= (det_reset d a).2
}.

(** ceilSeconds of structural_hasher.go, shared by the dynamic detectors. *)
Definition ceilSeconds (d : Z) : Z := if d <=? 0 then 1 else div_ceil_second d.

Lemma ceilSeconds_bounds d :
  d <= int64_max - Second + 1 ->
  1 <= ceilSeconds d /\ d <= ceilSeconds d * Second
  /\ (0 < d -> (ceilSeconds d - 1) * Second < d).
Proof.
  intros. unfold ceilSeconds. zcase (d <=? 0).
  - unfold Second. lia.
  - pose proof (div_ceil_second_bounds d ltac:(lia)). lia.
Qed.

#[export] Instance CheckResult_eq_dec : EqDecision CheckResult.
Proof. solve_decision. Defined.
#[export] Instance AgentStatus_eq_dec : EqDecision AgentStatus.
Proof. solve_decision. Defined.
