(* ===== verification/HashDetector.v ===== *)
(** * pkg/circuitbreaker/hash_detector.go: exact-fingerprint loop detection

    The state of a HashDetector is the [seen] map with the TTL, the repeat
    threshold and the capacity; the clock reading and the order of each [range]
    statement are arguments of the operations that use them. *)

From S2P Require Import Prelude Detector.

Record key := Key { key_agent : AgentID; key_fp : Fingerprint }.

#[export] Instance key_eq_dec : EqDecision key.
Proof. solve_decision. Defined.
#[export] Instance key_countable : Countable key.
Proof.
  refine (inj_countable' (fun k => (key_agent k, key_fp k)) (fun p => Key p.1 p.2) _).
  by intros [].
Defined.

Record entry := Entry {
  e_count : Z;
  e_expires : Z;
  e_blockedAt : Z;
  e_lastBlock : Z
}.

Record HashDetector := {
  seen : gmap key entry;
  ttl : Z;
  limit : Z;
  max_entries : Z
}.

Definition maxEntries : Z := 100000.

Definition with_seen (d : HashDetector) (m : gmap key entry) : HashDetector :=
  {| seen := m; ttl := ttl d; limit := limit d; max_entries := max_entries d |}.

Definition NewHashDetector (ttl limit : Z) : HashDetector :=
  {| seen := ∅; ttl := ttl; limit := if limit <=? 0 then 2 else limit;
     max_entries := maxEntries |}.

Definition SetLimit (d : HashDetector) (n : Z) : HashDetector :=
  {| seen := seen d; ttl := ttl d; limit := if n <? 1 then 1 else n;
     max_entries := max_entries d |}.

(** An entry whose window is over at [now]. *)
Definition expired (now : Z) (e : entry) : bool := negb (time_before now (e_expires e)).

Section Operations.
Context {R : RangeOrder key entry}.

Definition evictIfNeeded (d : HashDetector) : HashDetector :=
  with_seen d (evict_to R e_expires (max_entries d) (seen d)).

(** The bookkeeping of a repeat inside the window: the entry written back and
    whether this is its transition into the blocked state. *)
Definition bump (lim now : Z) (e : entry) : entry * bool :=
  let count := e_count e + 1 in
  if lim <=? count then
    let first := time_is_zero (e_blockedAt e) in
    (Entry count (e_expires e) (if first then now else e_blockedAt e) now, first)
  else (Entry count (e_expires e) (e_blockedAt e) (e_lastBlock e), false).

Definition Check (d : HashDetector) (now : Z) (agent : AgentID) (fp : Fingerprint) :
    HashDetector * CheckResult :=
  let k := Key agent fp in
  let fresh :=
    let d' := evictIfNeeded d in
    (with_seen d' (<[k := Entry 1 (time_add now (ttl d)) zero_time zero_time]> (seen d')),
     proceed) in
  match seen d !! k with
  | None => fresh
  | Some e =>
      if expired now e then fresh
      else
        let '(e', firstBlock) := bump (limit d) now e in
        let d' := with_seen d (<[k := e']> (seen d)) in
        if e_count e' <? limit d then (d', proceed)
        else
          let remaining := time_sub (e_expires e') now in
          (d', {| Block := true; FirstBlock := firstBlock; Reason := ReasonExactHash;
                  RetryAfter := div_ceil_second remaining |})
  end.

(** Reset: delete every entry of the agent while ranging, counting them. *)
Definition reset_step (agent : AgentID) (acc : gmap key entry * Z) (kv : key * entry) :
    gmap key entry * Z :=
  if bool_decide (key_agent kv.1 = agent) then (delete kv.1 acc.1, acc.2 + 1) else acc.

Definition Reset (d : HashDetector) (agent : AgentID) : HashDetector * Z :=
  let '(m, n) := foldl (reset_step agent) (seen d, 0) (range (seen d)) in
  (with_seen d m, n).

(** The aggregation of one live entry into a status: lines shared by
    AgentStatus and BlockedAgents. *)
Definition count_entry (lim : Z) (st : AgentStatus) (e : entry) : AgentStatus :=
  let fps := st_Fingerprints st + 1 in
  if lim <=? e_count e then
    {| st_Agent := st_Agent st; st_Blocked := st_Blocked st; st_Fingerprints := fps;
       st_BlockedFP := st_BlockedFP st + 1;
       st_FirstBlocked :=
         if negb (time_is_zero (e_blockedAt e))
            && (time_is_zero (st_FirstBlocked st)
                || time_before (e_blockedAt e) (st_FirstBlocked st))
         then e_blockedAt e else st_FirstBlocked st;
       st_LastBlocked :=
         if negb (time_is_zero (e_lastBlock e))
            && time_after (e_lastBlock e) (st_LastBlocked st)
         then e_lastBlock e else st_LastBlocked st |}
  else
    {| st_Agent := st_Agent st; st_Blocked := st_Blocked st; st_Fingerprints := fps;
       st_BlockedFP := st_BlockedFP st; st_FirstBlocked := st_FirstBlocked st;
       st_LastBlocked := st_LastBlocked st |}.

(** st.Blocked = st.BlockedFP > 0. *)
Definition set_blocked (st : AgentStatus) : AgentStatus :=
  {| st_Agent := st_Agent st; st_Blocked := 0 <? st_BlockedFP st;
     st_Fingerprints := st_Fingerprints st; st_BlockedFP := st_BlockedFP st;
     st_FirstBlocked := st_FirstBlocked st; st_LastBlocked := st_LastBlocked st |}.

Definition status_step (lim now : Z) (agent : AgentID)
    (acc : gmap key entry * AgentStatus * bool) (kv : key * entry) :
    gmap key entry * AgentStatus * bool :=
  let '(m, st, found) := acc in
  if negb (bool_decide (key_agent kv.1 = agent)) then acc
  else if expired now kv.2 then (delete kv.1 m, st, found)
  else (m, count_entry lim st kv.2, true).

Definition agent_status (d : HashDetector) (now : Z) (agent : AgentID) :
    HashDetector * (AgentStatus * bool) :=
  let '(m, st, found) :=
    foldl (status_step (limit d) now agent) (seen d, new_status agent, false)
      (range (seen d)) in
  (with_seen d m, if found then (set_blocked st, true) else (new_status "", false)).

(** BlockedAgents: byAgent accumulates one status per agent. *)
Definition by_agent_step (lim now : Z)
    (acc : gmap key entry * gmap AgentID AgentStatus) (kv : key * entry) :
    gmap key entry * gmap AgentID AgentStatus :=
  let '(m, byAgent) := acc in
  if expired now kv.2 then (delete kv.1 m, byAgent)
  else
    let a := key_agent kv.1 in
    let st := default (new_status a) (byAgent !! a) in
    (m, <[a := count_entry lim st kv.2]> byAgent).

(** Agents are ordered as Go compares strings, byte by byte. *)
Definition agent_le (x y : AgentStatus) : Prop :=
  String.leb (st_Agent x) (st_Agent y) = true.
#[export] Instance agent_le_dec : RelDecision agent_le.
Proof. unfold agent_le. intros x y. apply _. Defined.

Definition BlockedAgents {RA : RangeOrder AgentID AgentStatus} (d : HashDetector) (now : Z) :
    HashDetector * list AgentStatus :=
  let '(m, byAgent) := foldl (by_agent_step (limit d) now) (seen d, ∅) (range (seen d)) in
  let out :=
    foldl (fun out kv =>
      let st := set_blocked (snd kv) in if st_Blocked st then out ++ [st] else out)
      [] (range byAgent) in
  (with_seen d m, merge_sort agent_le out).
End Operations.

#[export] Instance hash_detector_Detector {R : RangeOrder key entry} : Detector HashDetector :=
  {| det_check := Check; det_reset := Reset |}.

(** ** Specification-level views *)

(** The live entries of one agent, in the order of a list of map entries. *)
Definition live_entries (now : Z) (agent : AgentID) (l : list (key * entry)) : list entry :=
  snd <$> filter (fun kv => key_agent kv.1 = agent /\ expired now kv.2 = false) l.

(** Earliest of the non-zero instants, zero when there is none. *)
Definition earliest (acc t : Z) : Z :=
  if negb (time_is_zero t) && (time_is_zero acc || time_before t acc) then t else acc.
Definition latest (acc t : Z) : Z :=
  if negb (time_is_zero t) && time_after t acc then t else acc.

Definition blocked_entries (lim : Z) (es : list entry) : list entry :=
  filter (fun e => lim <= e_count e) es.

(** What AgentStatus reports for an agent whose live entries are [es]. *)
Definition summary (lim : Z) (agent : AgentID) (es : list entry) : AgentStatus :=
  let bl := blocked_entries lim es in
  {| st_Agent := agent;
     st_Blocked := bool_decide (bl <> []);
     st_Fingerprints := Z.of_nat (length es);
     st_BlockedFP := Z.of_nat (length bl);
     st_FirstBlocked := foldl earliest zero_time (e_blockedAt <$> bl);
     st_LastBlocked := foldl latest zero_time (e_lastBlock <$> bl) |}.

(** The operations of a detector as one step, for statements about histories:
    each carries its clock reading. *)
Inductive op :=
  | OpCheck (now : Z) (agent : AgentID) (fp : Fingerprint)
  | OpReset (agent : AgentID)
  | OpSetLimit (n : Z)
  | OpStatus (now : Z) (agent : AgentID)
  | OpBlocked (now : Z).

Definition apply_op {R : RangeOrder key entry} {RA : RangeOrder AgentID AgentStatus}
    (d : HashDetector) (o : op) : HashDetector * option CheckResult :=
  match o with
  | OpCheck now a fp => let '(d', r) := Check d now a fp in (d', Some r)
  | OpReset a => ((Reset d a).1, None)
  | OpSetLimit n => (SetLimit d n, None)
  | OpStatus now a => ((agent_status d now a).1, None)
  | OpBlocked now => ((BlockedAgents d now).1, None)
  end.

(** A history, and the results of the checks of one agent along it.  The order
    of the map traversals may differ at every step. *)
Fixpoint run (d : HashDetector)
    (h : list (RangeOrder key entry * RangeOrder AgentID AgentStatus * op)) :
    HashDetector * list (op * option CheckResult) :=
  match h with
  | [] => (d, [])
  | (R, RA, o) :: h' =>
      let '(d1, r) := @apply_op R RA d o in
      let '(d2, rs) := run d1 h' in
      (d2, (o, r) :: rs)
  end.

(** The operations that can affect one agent's checks. *)
Definition concerns (a : AgentID) (o : op) : bool :=
  match o with
  | OpCheck _ a' _ | OpReset a' | OpStatus _ a' => bool_decide (a' = a)
  | OpSetLimit _ | OpBlocked _ => true
  end.

(** Consecutive checks of one fingerprint at the given clock readings. *)
Fixpoint check_seq {R : RangeOrder key entry} (d : HashDetector) (a : AgentID)
    (fp : Fingerprint) (ts : list Z) : list CheckResult :=
  match ts with
  | [] => []
  | t :: ts' => let '(d', r) := Check d t a fp in r :: check_seq d' a fp ts'
  end.

(** ** Lemmas *)

(** The state invariant: the map never holds more than [max_entries] entries. *)
Definition wf (d : HashDetector) : Prop :=
  0 < max_entries d /\ Z.of_nat (size (seen d)) <= max_entries d.

Section Lemmas.
Context {R : RangeOrder key entry}.
Implicit Types (d : HashDetector) (a : AgentID).

Lemma Check_seen_other d now a fp k :
  k <> Key a fp -> Z.of_nat (size (seen d)) < max_entries d ->
  seen (Check d now a fp).1 !! k = seen d !! k.
Proof.
  intros Hne Hroom. unfold Check, evictIfNeeded. cbn [seen with_seen].
  rewrite (evict_to_noop R) by done.
  destruct (seen d !! Key a fp) as [e|]; [|by simpl; rewrite lookup_insert_ne].
  destruct (expired now e); [by simpl; rewrite lookup_insert_ne|].
  destruct (bump _ _ _) as [e' b]. destruct (_ <? _); simpl; by rewrite lookup_insert_ne.
Qed.

Lemma Check_params d now a fp :
  limit (Check d now a fp).1 = limit d /\ ttl (Check d now a fp).1 = ttl d
  /\ max_entries (Check d now a fp).1 = max_entries d.
Proof.
  unfold Check. destruct (seen d !! _) as [e|]; [|done].
  destruct (expired now e); [done|]. destruct (bump _ _ _) as [e' b]. by destruct (_ <? _).
Qed.

(** What a check stores and answers for its own key depends only on that key's
    entry, the limit and the TTL. *)
Lemma Check_own d1 d2 now a fp :
  seen d1 !! Key a fp = seen d2 !! Key a fp -> limit d1 = limit d2 -> ttl d1 = ttl d2 ->
  seen (Check d1 now a fp).1 !! Key a fp = seen (Check d2 now a fp).1 !! Key a fp
  /\ (Check d1 now a fp).2 = (Check d2 now a fp).2.
Proof.
  intros Hk Hl Ht. unfold Check. rewrite <- Hk, <- Hl, <- Ht.
  destruct (seen d1 !! Key a fp) as [e|]; [|simpl; by rewrite !lookup_insert_eq].
  destruct (expired now e); [simpl; by rewrite !lookup_insert_eq|].
  destruct (bump _ _ _) as [e' b].
  destruct (_ <? _); simpl; by rewrite !lookup_insert_eq.
Qed.

Lemma Check_size d now a fp :
  wf d ->
  Z.of_nat (size (seen (Check d now a fp).1)) <= max_entries d
  /\ (size (seen (Check d now a fp).1) <= S (size (seen d)))%nat.
Proof.
  intros [Hmax Hsz]. unfold Check, evictIfNeeded. cbn [seen with_seen max_entries].
  pose proof (evict_to_size R e_expires (max_entries d) (seen d) Hmax) as Hev.
  pose proof (map_subseteq_size _ _ (evict_to_subseteq R e_expires (max_entries d) (seen d))).
  destruct (seen d !! Key a fp) as [e|] eqn:Hk.
  - destruct (expired now e); simpl.
    + pose proof (size_insert_le (evict_to R e_expires (max_entries d) (seen d)) (Key a fp)
        (Entry 1 (time_add now (ttl d)) zero_time zero_time)). lia.
    + destruct (bump _ _ _) as [e' b].
      destruct (_ <? _); simpl; rewrite map_size_insert_Some by eauto; lia.
  - simpl. pose proof (size_insert_le (evict_to R e_expires (max_entries d) (seen d)) (Key a fp)
      (Entry 1 (time_add now (ttl d)) zero_time zero_time)). lia.
Qed.

(** Reset keeps exactly the other agents' entries and counts the others. *)
Lemma Reset_fold a (l : list (key * entry)) m n :
  foldl (reset_step a) (m, n) l
  = (foldl (fun m kv => if bool_decide (key_agent kv.1 = a) then delete kv.1 m else m) m l,
     n + Z.of_nat (length (filter (fun kv => key_agent kv.1 = a) l))).
Proof.
  revert m n. induction l as [|[k e] l IH]; intros m n; simpl; [f_equal; lia|].
  unfold reset_step at 2. simpl. rewrite filter_cons. simpl.
  case_bool_decide; rewrite IH; f_equal.
  - rewrite decide_True by done. simpl. lia.
  - by rewrite decide_False.
Qed.

Lemma Reset_seen d a :
  seen (Reset d a).1 = filter (fun kv => key_agent kv.1 <> a) (seen d).
Proof.
  unfold Reset. rewrite Reset_fold. simpl.
  rewrite (foldl_delete_range R (fun kv => bool_decide (key_agent kv.1 = a))).
  apply map_filter_ext. intros i x _. simpl. by rewrite bool_decide_eq_false.
Qed.

Lemma length_filter_range (P : key * entry -> Prop) `{forall x, Decision (P x)} m :
  length (filter P (range m)) = size (filter P m).
Proof.
  rewrite (range_perm m), <- (map_to_list_filter P m). apply length_map_to_list.
Qed.

Lemma Reset_count d a :
  (Reset d a).2 = Z.of_nat (size (filter (fun kv => key_agent kv.1 = a) (seen d))).
Proof.
  unfold Reset. rewrite Reset_fold. simpl. by rewrite length_filter_range.
Qed.

Lemma Reset_params d a :
  limit (Reset d a).1 = limit d /\ ttl (Reset d a).1 = ttl d
  /\ max_entries (Reset d a).1 = max_entries d.
Proof. unfold Reset. by destruct (foldl _ _ _). Qed.

Lemma status_fold lim now a l m st found :
  foldl (status_step lim now a) (m, st, found) l
  = (foldl (fun m kv => if bool_decide (key_agent kv.1 = a) && expired now kv.2
                        then delete kv.1 m else m) m l,
     foldl (count_entry lim) st (live_entries now a l),
     found || bool_decide (live_entries now a l <> [])).
Proof.
  revert m st found. induction l as [|[k e] l IH]; intros m st found; simpl.
  { by rewrite orb_false_r. }
  unfold live_entries. rewrite filter_cons. simpl.
  destruct (decide (key_agent k = a)) as [Ha|Ha].
  - rewrite (bool_decide_true (key_agent k = a)) by done. simpl.
    destruct (expired now e) eqn:Hx; rewrite IH.
    + by rewrite decide_False by (intros [_ ?]; congruence).
    + rewrite decide_True by done. simpl. by rewrite orb_true_r.
  - rewrite (bool_decide_false (key_agent k = a)) by done. simpl.
    by rewrite IH, decide_False by (intros [? _]; congruence).
Qed.

Lemma earliest_min acc t :
  earliest acc t = if t =? 0 then acc else if acc =? 0 then t else Z.min acc t.
Proof.
  unfold earliest, time_is_zero, time_before, zero_time.
  zcase (t =? 0); simpl; [done|]. zcase (acc =? 0); simpl; [done|]. zcase (t <? acc).
Qed.

Lemma latest_max acc t : latest acc t = if t =? 0 then acc else Z.max acc t.
Proof.
  unfold latest, time_is_zero, time_after, zero_time.
  zcase (t =? 0); simpl; [done|]. zcase (acc <? t).
Qed.

Lemma earliest_comm acc t u : earliest (earliest acc t) u = earliest (earliest acc u) t.
Proof.
  rewrite !earliest_min. zcase (t =? 0); zcase (u =? 0); zcase (acc =? 0);
    try (zcase (t =? 0)); try (zcase (u =? 0));
    try (zcase (Z.min acc t =? 0)); try (zcase (Z.min acc u =? 0)).
Qed.

Lemma latest_comm acc t u : latest (latest acc t) u = latest (latest acc u) t.
Proof. rewrite !latest_max. zcase (t =? 0); zcase (u =? 0). Qed.

Lemma count_entry_comm lim st e1 e2 :
  count_entry lim (count_entry lim st e1) e2 = count_entry lim (count_entry lim st e2) e1.
Proof.
  unfold count_entry. destruct st; simpl.
  destruct (lim <=? e_count e1), (lim <=? e_count e2); simpl; try done.
  f_equal; [apply earliest_comm|apply latest_comm].
Qed.

(** The accumulated status is the declarative summary. *)
Lemma count_fold lim st es :
  foldl (count_entry lim) st es
  = {| st_Agent := st_Agent st; st_Blocked := st_Blocked st;
       st_Fingerprints := st_Fingerprints st + Z.of_nat (length es);
       st_BlockedFP := st_BlockedFP st + Z.of_nat (length (blocked_entries lim es));
       st_FirstBlocked :=
         foldl earliest (st_FirstBlocked st) (e_blockedAt <$> blocked_entries lim es);
       st_LastBlocked :=
         foldl latest (st_LastBlocked st) (e_lastBlock <$> blocked_entries lim es) |}.
Proof.
  revert st. induction es as [|e es IH]; intros st.
  { destruct st; simpl. f_equal; lia. }
  simpl. rewrite IH. unfold count_entry, blocked_entries. rewrite filter_cons.
  destruct (lim <=? e_count e) eqn:E; zbool.
  - rewrite decide_True by done. simpl. f_equal; lia.
  - rewrite decide_False by lia. simpl. f_equal; lia.
Qed.

Lemma set_blocked_summary lim a es :
  set_blocked (foldl (count_entry lim) (new_status a) es) = summary lim a es.
Proof.
  rewrite count_fold. unfold set_blocked, summary. simpl. f_equal.
  by destruct (blocked_entries lim es).
Qed.

Lemma live_entries_perm now a l1 l2 :
  l1 ≡ₚ l2 -> live_entries now a l1 ≡ₚ live_entries now a l2.
Proof. intros Hp. unfold live_entries. by rewrite Hp. Qed.

Lemma summary_perm lim a es1 es2 : es1 ≡ₚ es2 -> summary lim a es1 = summary lim a es2.
Proof.
  intros Hp. rewrite <- !set_blocked_summary. f_equal.
  apply foldl_permutation; [apply count_entry_comm|done].
Qed.

Lemma elem_of_live now a m e :
  e ∈ live_entries now a (range m)
  <-> exists fp, m !! Key a fp = Some e /\ expired now e = false.
Proof.
  unfold live_entries. rewrite list_elem_of_fmap. split.
  - intros ([[a' fp] e'] & -> & [[Ha Hx] Hin]%list_elem_of_filter). simpl in *. subst.
    exists fp. split; [|done]. by apply (elem_of_range R).
  - intros (fp & Hm & Hx). exists (Key a fp, e). split; [done|].
    apply list_elem_of_filter. split; [done|]. by apply (elem_of_range R).
Qed.
End Lemmas.

(** ** The repeat threshold *)

Section Threshold.
Context {R : RangeOrder key entry}.

(** The entry of a window in which the fingerprint was seen [n] times, under a
    limit [lim] that did not change. *)
Definition sighted (lim expires n : Z) (e : entry) : Prop :=
  e_count e = n /\ e_expires e = expires /\ (e_blockedAt e = zero_time <-> n < Z.max 2 lim).

Lemma sighted_first lim x : sighted lim x 1 (Entry 1 x zero_time zero_time).
Proof. unfold sighted. simpl. lia. Qed.

(** The verdict on the [n]-th sighting of a window. *)
Definition verdict (lim n : Z) : bool * bool := ((2 <=? n) && (lim <=? n), n =? Z.max 2 lim).

Lemma Check_repeat d now a fp e n :
  seen d !! Key a fp = Some e -> sighted (limit d) (e_expires e) n e -> 1 <= n ->
  0 < now < e_expires e ->
  exists e', seen (Check d now a fp).1 !! Key a fp = Some e'
    /\ sighted (limit d) (e_expires e) (n + 1) e'
    /\ (Block (Check d now a fp).2, FirstBlock (Check d now a fp).2)
       = verdict (limit d) (n + 1).
Proof.
  intros He (Hc & _ & Hb) Hn Hnow. unfold Check, expired, time_before. rewrite He.
  zcase (now <? e_expires e). simpl. unfold bump, verdict, sighted. rewrite Hc.
  rewrite (proj2 (Z.leb_le 2 (n + 1))) by lia. unfold time_is_zero, zero_time in *.
  zcase (limit d <=? n + 1); simpl.
  - zcase (n + 1 <? limit d). simpl. rewrite lookup_insert_eq.
    eexists. split_and!; [done|done|done| |]; simpl.
    + zcase (e_blockedAt e =? 0).
    + f_equal. zcase (e_blockedAt e =? 0); zcase (n + 1 =? Z.max 2 (limit d)).
  - zcase (n + 1 <? limit d). simpl. rewrite lookup_insert_eq.
    eexists. split_and!; [done|done|done| |]; simpl.
    + lia.
    + f_equal. zcase (n + 1 =? Z.max 2 (limit d)).
Qed.

Lemma Check_fresh d now a fp :
  match seen d !! Key a fp with None => True | Some e => expired now e = true end ->
  (Check d now a fp).2 = proceed
  /\ seen (Check d now a fp).1 !! Key a fp
     = Some (Entry 1 (time_add now (ttl d)) zero_time zero_time).
Proof.
  intros Hf. unfold Check. destruct (seen d !! Key a fp) as [e|]; [rewrite Hf|];
    simpl; by rewrite lookup_insert_eq.
Qed.

Lemma check_seq_repeats d a fp ts e n :
  seen d !! Key a fp = Some e -> sighted (limit d) (e_expires e) n e -> 1 <= n ->
  Forall (fun t => 0 < t < e_expires e) ts ->
  (fun r => (Block r, FirstBlock r)) <$> check_seq d a fp ts
  = imap (fun i _ => verdict (limit d) (n + 1 + Z.of_nat i)) ts.
Proof.
  intros He Hs Hn Hts. revert d e n He Hs Hn Hts.
  induction ts as [|t ts IH]; intros d e n He Hs Hn Hts; [done|].
  apply Forall_cons in Hts as [Ht Hts]. csimpl.
  destruct (Check_repeat d t a fp e n He Hs Hn Ht) as (e' & He' & Hs' & Hv).
  destruct (Check_params d t a fp) as (Hl & _).
  destruct (Check d t a fp) as [d' r]. csimpl in *. rewrite Hv. f_equal; [f_equal; lia|].
  rewrite <- Hl in Hs' |- *. destruct Hs' as (Hc' & Hx' & Hb').
  rewrite (IH d' e' (n + 1)); [|done|by split_and!|lia|by rewrite Hx'].
  apply imap_ext. intros i x _. simpl. f_equal. lia.
Qed.
End Threshold.

(** C2. The repeat threshold: from the first sighting of a fingerprint in a fresh window, the
    n-th sighting inside the window is blocked exactly when n >= 2 and n >= limit,
    and FirstBlock marks exactly one of them, the first blocked one. *)
Theorem repeats_block_exactly (R : RangeOrder key entry) d a fp t0 ts :
  match seen d !! Key a fp with None => True | Some e => expired t0 e = true end ->
  Forall (fun t => 0 < t < time_add t0 (ttl d)) ts ->
  (fun r => (Block r, FirstBlock r)) <$> check_seq d a fp (t0 :: ts)
  = imap (fun i _ => verdict (limit d) (1 + Z.of_nat i)) (t0 :: ts).
Proof.
  intros Hf Hts. csimpl. destruct (Check_fresh d t0 a fp Hf) as [Hr He].
  destruct (Check_params d t0 a fp) as (Hl & Ht & _).
  destruct (Check d t0 a fp) as [d' r]. csimpl in *. subst r.
  assert (verdict (limit d) (1 + Z.of_nat 0) = (false, false)) as ->.
  { unfold verdict. by rewrite (proj2 (Z.eqb_neq _ _)) by lia. }
  f_equal. rewrite (check_seq_repeats d' a fp ts _ 1 He); simpl; [|apply sighted_first|lia|done].
  rewrite Hl. apply imap_ext. intros i x _. simpl. f_equal. lia.
Qed.

Lemma repeats_block_exactly_witness :
  let R := canonical_range key entry in
  let d := NewHashDetector Minute 3 in
  (fun r => (Block r, FirstBlock r)) <$> check_seq d "agent" "fp" [1; 2; 3; 4; 5]
  = [(false, false); (false, false); (true, true); (true, false); (true, false)].
Proof.
  intros R d. rewrite (repeats_block_exactly R d "agent" "fp" 1 [2; 3; 4; 5]).
  - reflexivity.
  - exact I.
  - repeat constructor; vm_compute; reflexivity.
Defined.

(** ** Capacity *)

Lemma wf_with_seen d m : wf d -> m ⊆ seen d -> wf (with_seen d m).
Proof.
  intros [Hm Hs] Hsub. split; simpl; [done|]. apply map_subseteq_size in Hsub. lia.
Qed.

Lemma foldl_delete_subseteq (p : key * entry -> bool) l (m : gmap key entry) :
  foldl (fun m kv => if p kv then delete kv.1 m else m) m l ⊆ m.
Proof.
  revert m. induction l as [|kv l IH]; intros m; simpl; [done|].
  destruct (p kv); [|apply IH]. etrans; [apply IH|apply delete_subseteq].
Qed.

Lemma by_agent_fold_seen lim now l m b :
  (foldl (by_agent_step lim now) (m, b) l).1
  = foldl (fun m kv => if expired now kv.2 then delete kv.1 m else m) m l.
Proof.
  revert m b. induction l as [|[k e] l IH]; intros m b; simpl; [done|].
  destruct (expired now e); apply IH.
Qed.

(** The step relation's effect on parameters and on the invariant. *)
Lemma apply_op_wf {R : RangeOrder key entry} {RA : RangeOrder AgentID AgentStatus} d o :
  wf d -> wf (apply_op d o).1 /\ (size (seen (apply_op d o).1) <= S (size (seen d)))%nat
  /\ max_entries (apply_op d o).1 = max_entries d.
Proof.
  intros Hwf. destruct o as [now a fp|a|n|now a|now]; simpl.
  - destruct (Check_size d now a fp Hwf) as [H1 H2].
    destruct (Check_params d now a fp) as (_ & _ & H3).
    destruct (Check d now a fp) as [d' r]. simpl in *.
    split_and!; [|done|done]. destruct Hwf. split; lia.
  - assert (seen (Reset d a).1 ⊆ seen d) as Hsub by (rewrite Reset_seen; apply map_filter_subseteq).
    destruct (Reset_params d a) as (_ & _ & ->). pose proof (map_subseteq_size _ _ Hsub).
    split_and!; [|lia|done]. destruct Hwf. split; rewrite ?(proj2 (proj2 (Reset_params d a))); lia.
  - destruct Hwf. split_and!; [done|simpl; lia|done].
  - unfold agent_status. rewrite status_fold. simpl.
    assert (foldl (fun m kv => if bool_decide (key_agent kv.1 = a) && expired now kv.2
                               then delete kv.1 m else m) (seen d) (range (seen d)) ⊆ seen d) as Hsub
      by apply (foldl_delete_subseteq (fun kv => bool_decide (key_agent kv.1 = a) && expired now kv.2)).
    pose proof (map_subseteq_size _ _ Hsub).
    split_and!; [by apply wf_with_seen|lia|done].
  - unfold BlockedAgents. pose proof (by_agent_fold_seen (limit d) now (range (seen d)) (seen d) ∅) as Hf.
    destruct (foldl (by_agent_step _ _) _ _) as [m b]. simpl in *. subst m.
    assert (foldl (fun m kv => if expired now kv.2 then delete kv.1 m else m)
              (seen d) (range (seen d)) ⊆ seen d) as Hsub
      by apply (foldl_delete_subseteq (fun kv => expired now kv.2)).
    pose proof (map_subseteq_size _ _ Hsub).
    split_and!; [by apply wf_with_seen|lia|done].
Qed.

(** C33. Bounded memory: whatever sequence of operations a new detector goes through,
    its map never holds more than maxEntries entries. *)
Theorem capacity_invariant ttl limit h :
  Z.of_nat (size (seen (run (NewHashDetector ttl limit) h).1)) <= maxEntries.
Proof.
  assert (forall d, wf d -> max_entries d = maxEntries ->
    Z.of_nat (size (seen (run d h).1)) <= maxEntries) as Hgen.
  { induction h as [|[[R RA] o] h IH]; intros d Hwf Hmax; simpl.
    - destruct Hwf. lia.
    - destruct (@apply_op_wf R RA d o Hwf) as (Hwf' & _ & Hm').
      destruct (apply_op d o) as [d1 r]. simpl in *.
      specialize (IH d1 Hwf' ltac:(congruence)). by destruct (run d1 h). }
  apply Hgen; [|done]. split; simpl; [done|]. rewrite map_size_empty. done.
Qed.

(** Eviction at capacity: checking a new fingerprint when the map is full makes
    room for it by dropping entries none of which outlives an entry that is kept,
    and the new entry is recorded. *)
Theorem eviction_drops_oldest (R : RangeOrder key entry) d now a fp k e k' e' :
  wf d -> seen d !! Key a fp = None ->
  seen d !! k = Some e -> seen (Check d now a fp).1 !! k = None ->
  k' <> Key a fp -> seen (Check d now a fp).1 !! k' = Some e' ->
  Z.of_nat (size (seen d)) = max_entries d
  /\ e_expires e <= e_expires e'
  /\ seen (Check d now a fp).1 !! Key a fp
     = Some (Entry 1 (time_add now (ttl d)) zero_time zero_time).
Proof.
  intros [Hmax Hsz] Hnew Hk Hgone Hne Hk'. unfold Check in *. rewrite Hnew in *. simpl in *.
  assert (k <> Key a fp) by congruence. rewrite lookup_insert_ne in Hgone, Hk' by done.
  split_and!.
  - destruct (decide (Z.of_nat (size (seen d)) < max_entries d)); [|lia].
    rewrite (evict_to_noop R) in Hgone by done. congruence.
  - by eapply (evict_to_oldest R e_expires).
  - by rewrite lookup_insert_eq.
Qed.

(** A full detector of capacity two, used to evaluate the eviction. *)
Definition small_detector : HashDetector :=
  {| seen := {[Key "a" "1" := Entry 1 10 0 0; Key "a" "2" := Entry 1 20 0 0]};
     ttl := Minute; limit := 2; max_entries := 2 |}.

Lemma eviction_drops_oldest_witness :
  let R := canonical_range key entry in
  Z.of_nat (size (seen small_detector)) = max_entries small_detector
  /\ 10 <= 20
  /\ seen (Check small_detector 5 "b" "3").1 !! Key "b" "3"
     = Some (Entry 1 (5 + Minute) 0 0).
Proof.
  intros R.
  apply (eviction_drops_oldest R small_detector 5 "b" "3" (Key "a" "1") (Entry 1 10 0 0)
           (Key "a" "2") (Entry 1 20 0 0)); try (vm_compute; reflexivity); try discriminate.
  split; vm_compute; congruence.
Defined.

(** ** Isolation of agents *)

(** Two detectors that agree on everything agent [a] can observe. *)
Definition agree (a : AgentID) (d1 d2 : HashDetector) : Prop :=
  limit d1 = limit d2 /\ ttl d1 = ttl d2
  /\ forall fp, seen d1 !! Key a fp = seen d2 !! Key a fp.

Definition is_check_of (a : AgentID) (o : op * option CheckResult) : bool :=
  match o.1 with OpCheck _ a' _ => bool_decide (a' = a) | _ => false end.

(** An entry lookup after a sweep of the expired entries. *)
Definition keep_live (now : Z) (o : option entry) : option entry :=
  match o with Some e => if expired now e then None else Some e | None => None end.

(** The map left by the operations that only delete, seen from one agent. *)
Lemma deleting_ops_lookup {R : RangeOrder key entry} {RA : RangeOrder AgentID AgentStatus} d a fp :
  seen (Reset d a).1 !! Key a fp = None
  /\ (forall b, a <> b -> seen (Reset d b).1 !! Key a fp = seen d !! Key a fp)
  /\ (forall now b, seen (agent_status d now b).1 !! Key a fp
        = if bool_decide (a = b) then keep_live now (seen d !! Key a fp)
          else seen d !! Key a fp)
  /\ (forall now, seen (BlockedAgents d now).1 !! Key a fp
        = keep_live now (seen d !! Key a fp)).
Proof.
  split_and!.
  - rewrite Reset_seen. apply map_lookup_filter_None. right. simpl. naive_solver.
  - intros b Hb. rewrite Reset_seen, lookup_filter_decide.
    destruct (seen d !! Key a fp) as [e|]; [|done]. by rewrite decide_True.
  - intros now b. unfold agent_status. rewrite status_fold. simpl.
    rewrite (foldl_delete_range R (fun kv => bool_decide (key_agent kv.1 = b) && expired now kv.2)).
    rewrite lookup_filter_decide. destruct (seen d !! Key a fp) as [e|]; [|by case_bool_decide].
    simpl. case_bool_decide; simpl; [|done].
    by destruct (expired now e).
  - intros now. unfold BlockedAgents.
    pose proof (by_agent_fold_seen (limit d) now (range (seen d)) (seen d) ∅) as Hf.
    destruct (foldl (by_agent_step _ _) _ _) as [m b]. simpl in *. subst m.
    rewrite (foldl_delete_range R (fun kv => expired now kv.2)), lookup_filter_decide.
    destruct (seen d !! Key a fp) as [e|]; [|done]. simpl.
    by destruct (expired now e).
Qed.

Lemma agree_step R1 R2 RA1 RA2 a d1 d2 o :
  agree a d1 d2 -> concerns a o = true ->
  Z.of_nat (size (seen d1)) < max_entries d1 -> Z.of_nat (size (seen d2)) < max_entries d2 ->
  agree a (@apply_op R1 RA1 d1 o).1 (@apply_op R2 RA2 d2 o).1
  /\ (is_check_of a (o, None) = true -> (@apply_op R1 RA1 d1 o).2 = (@apply_op R2 RA2 d2 o).2).
Proof.
  intros (Hl & Ht & Hs) Hc Hr1 Hr2. destruct o as [now b fp|b|n|now b|now]; simpl in *.
  - apply bool_decide_eq_true in Hc as ->.
    pose proof (@Check_own R1 d1 d2 now a fp (Hs fp) Hl Ht) as [He1 Hr].
    assert (@Check R1 d2 now a fp = @Check R2 d2 now a fp) as Heq.
    { unfold Check, evictIfNeeded. by rewrite (evict_to_noop R1), (evict_to_noop R2). }
    rewrite Heq in He1, Hr.
    destruct (@Check_params R1 d1 now a fp) as (Hl1 & Ht1 & _).
    destruct (@Check_params R2 d2 now a fp) as (Hl2 & Ht2 & _).
    pose proof (fun k => @Check_seen_other R1 d1 now a fp k) as Ho1.
    pose proof (fun k => @Check_seen_other R2 d2 now a fp k) as Ho2.
    destruct (@Check R1 d1 now a fp) as [d1' r1], (@Check R2 d2 now a fp) as [d2' r2]. simpl in *.
    split; [|by rewrite Hr]. split_and!; [congruence..|]. intros fp'.
    destruct (decide (fp' = fp)) as [->|Hne]; [done|].
    rewrite Ho1, Ho2 by (done || congruence). apply Hs.
  - apply bool_decide_eq_true in Hc as ->. split; [|done].
    pose proof (@Reset_params R1 d1 a). pose proof (@Reset_params R2 d2 a).
    split_and!; [destruct_and!; congruence..|]. intros fp. by rewrite !(proj1 (deleting_ops_lookup _ a fp)).
  - split; [|done]. by split_and!.
  - apply bool_decide_eq_true in Hc as ->. split; [|done].
    split_and!; [unfold agent_status; by rewrite !status_fold..|]. intros fp.
    rewrite !(proj1 (proj2 (proj2 (deleting_ops_lookup _ a fp)))). by rewrite !bool_decide_true, Hs.
  - split; [|done]. split_and!.
    + unfold BlockedAgents. by repeat destruct (foldl (by_agent_step _ _) _ _).
    + unfold BlockedAgents. by repeat destruct (foldl (by_agent_step _ _) _ _).
    + intros fp. by rewrite !(proj2 (proj2 (proj2 (deleting_ops_lookup _ a fp)))), Hs.
Qed.

Lemma agree_skip {R : RangeOrder key entry} {RA : RangeOrder AgentID AgentStatus} a d o :
  concerns a o = false -> Z.of_nat (size (seen d)) < max_entries d ->
  agree a (apply_op d o).1 d.
Proof.
  intros Hc Hroom. destruct o as [now b fp|b|n|now b|now]; simpl in *; try done.
  - apply bool_decide_eq_false in Hc.
    destruct (Check_params d now b fp) as (Hl & Ht & _).
    pose proof (fun k => Check_seen_other d now b fp k) as Ho.
    destruct (Check d now b fp) as [d' r]. simpl in *.
    split_and!; [done|done|]. intros fp'. apply Ho; [congruence|done].
  - apply bool_decide_eq_false in Hc. destruct (Reset_params d b) as (Hl & Ht & _).
    split_and!; [done|done|]. intros fp.
    by apply (proj1 (proj2 (deleting_ops_lookup d a fp))).
  - apply bool_decide_eq_false in Hc.
    split_and!; [unfold agent_status; by rewrite status_fold..|]. intros fp.
    rewrite (proj1 (proj2 (proj2 (deleting_ops_lookup d a fp)))). by rewrite bool_decide_false.
Qed.

Lemma agree_trans a d1 d2 d3 : agree a d1 d2 -> agree a d2 d3 -> agree a d1 d3.
Proof. intros (?&?&H1) (?&?&H2). split_and!; [congruence..|]. intros fp. by rewrite H1. Qed.

Lemma isolation_gen a h d1 d2 :
  agree a d1 d2 -> wf d1 -> wf d2 ->
  Z.of_nat (size (seen d1) + length h) < max_entries d1 ->
  Z.of_nat (size (seen d2) + length h) < max_entries d2 ->
  filter (fun o => is_check_of a o) (run d1 h).2
  = filter (fun o => is_check_of a o) (run d2 (filter (fun o => concerns a o.2) h)).2.
Proof.
  revert d1 d2. induction h as [|[[R RA] o] h IH]; intros d1 d2 Ha Hw1 Hw2 Hr1 Hr2; [done|].
  rewrite filter_cons. simpl in Hr1, Hr2 |- *.
  destruct (@apply_op_wf R RA d1 o Hw1) as (Hw1' & Hsz1 & Hm1).
  destruct (concerns a o) eqn:Hc.
  - rewrite decide_True by done. simpl.
    destruct (@apply_op_wf R RA d2 o Hw2) as (Hw2' & Hsz2 & Hm2).
    destruct (agree_step R R RA RA a d1 d2 o Ha Hc ltac:(lia) ltac:(lia)) as [Ha' Hres].
    destruct (@apply_op R RA d1 o) as [d1' r1], (@apply_op R RA d2 o) as [d2' r2]. simpl in *.
    specialize (IH d1' d2' Ha' Hw1' Hw2' ltac:(lia) ltac:(lia)).
    destruct (run d1' h) as [? rs1], (run d2' _) as [? rs2]. simpl in *.
    rewrite !filter_cons, IH. unfold is_check_of in *. simpl in *.
    destruct o; simpl in *; try done. case_bool_decide; simpl; [by rewrite Hres|done].
  - rewrite decide_False by (simpl; congruence).
    pose proof (@agree_skip R RA a d1 o Hc ltac:(lia)) as Ha'.
    destruct (@apply_op R RA d1 o) as [d1' r1]. simpl in *.
    specialize (IH d1' d2 (agree_trans a _ _ _ Ha' Ha) Hw1' Hw2 ltac:(lia) ltac:(lia)).
    destruct (run d1' h) as [? rs1]. simpl in *. rewrite filter_cons, IH.
    assert (is_check_of a (o, r1) = false) as Hn by (by destruct o).
    rewrite decide_False; [done|]. rewrite Hn. by intros [].
Qed.

(** Isolation: as long as the capacity is not reached, the results of one agent's
    checks in any history are those of the history with every operation on other
    agents removed: one agent's loop never blocks, nor unblocks, another. *)
Theorem agents_isolated a d h :
  wf d -> Z.of_nat (size (seen d) + length h) < max_entries d ->
  filter (fun o => is_check_of a o) (run d h).2
  = filter (fun o => is_check_of a o) (run d (filter (fun o => concerns a o.2) h)).2.
Proof. intros Hw Hr. by apply isolation_gen. Qed.

Lemma agents_isolated_witness :
  let R := canonical_range key entry in
  let RA := canonical_range AgentID AgentStatus in
  let d := NewHashDetector Minute 2 in
  let h := [(R, RA, OpCheck 1 "a" "x"); (R, RA, OpCheck 2 "b" "x"); (R, RA, OpReset "b");
            (R, RA, OpCheck 3 "a" "x")] in
  Z.of_nat (size (seen d) + length h) < max_entries d
  /\ filter (fun o => is_check_of "a" o) (run d h).2
     = filter (fun o => is_check_of "a" o)
         (run d [(R, RA, OpCheck 1 "a" "x"); (R, RA, OpCheck 3 "a" "x")]).2.
Proof.
  intros R RA d h. split; [vm_compute; reflexivity|].
  apply (agents_isolated "a" d h).
  - split; vm_compute; congruence.
  - vm_compute. reflexivity.
Defined.

(** ** Retry-After *)

(** Retry-After is exact: a blocked request is told the smallest whole number of
    seconds after which its window is over.  Repeated at or after that delay it
    proceeds; repeated with a full second less it is still blocked. *)
Theorem retry_after_exact (R : RangeOrder key entry) d now a fp d' r :
  Check d now a fp = (d', r) -> Block r = true ->
  (forall e, seen d !! Key a fp = Some e -> e_expires e - now <= int64_max - Second + 1) ->
  1 <= RetryAfter r
  /\ (forall t, now + RetryAfter r * Second <= t -> (Check d' t a fp).2 = proceed)
  /\ (forall t, t <= now + (RetryAfter r - 1) * Second ->
        Block (Check d' t a fp).2 = true).
Proof.
  intros Hc Hb Hfit. unfold Check in Hc.
  destruct (seen d !! Key a fp) as [e|] eqn:He; [|by simplify_eq].
  destruct (expired now e) eqn:Hx; [by simplify_eq|].
  unfold expired, time_before in Hx. zbool. specialize (Hfit e eq_refl).
  destruct (bump (limit d) now e) as [e' fb] eqn:Hbump.
  assert (e_expires e' = e_expires e) as Hexp by (unfold bump in Hbump; by destruct (_ <=? _); simplify_eq).
  zcase (e_count e' <? limit d); simplify_eq; simpl.
  unfold Second in Hfit. rewrite (time_sub_exact _ _) by (unfold in_int64, int64_min, int64_max in *; lia).
  destruct (div_ceil_second_bounds (e_expires e' - now)) as (H1 & H2 & H3);
    [unfold int64_max, Second in *; lia|].
  split_and!; [done| |]; intros t Ht.
  - apply Check_fresh. simpl. rewrite lookup_insert_eq. unfold expired, time_before.
    apply negb_true_iff, Z.ltb_ge. lia.
  - unfold Check. simpl. rewrite lookup_insert_eq. unfold expired, time_before.
    zcase (t <? e_expires e'). simpl. unfold bump.
    zcase (limit d <=? e_count e' + 1). simpl. zcase (e_count e' + 1 <? limit d). done.
Qed.

Lemma retry_after_exact_witness :
  let R := canonical_range key entry in
  let d := (Check (NewHashDetector Minute 2) 1 "a" "x").1 in
  let r := (Check d (2 * Second) "a" "x").2 in
  Block r = true /\ RetryAfter r = 59
  /\ (Check (Check d (2 * Second) "a" "x").1 (61 * Second) "a" "x").2 = proceed.
Proof.
  intros R d r.
  pose proof (retry_after_exact R d (2 * Second) "a" "x" _ _ (surjective_pairing _)) as H.
  split_and!; [reflexivity..|]. apply H; [reflexivity| |vm_compute; congruence].
  intros e He. vm_compute in He. injection He as <-. vm_compute. congruence.
Defined.

(** ** Reset and the read side *)

(** Reset removes every entry of the agent, keeps every other entry, and returns the
    number removed; the agent's next check proceeds. *)
Theorem reset_clears_agent (R : RangeOrder key entry) d a :
  (forall k, seen (Reset d a).1 !! k
             = if decide (key_agent k = a) then None else seen d !! k)
  /\ (Reset d a).2 = Z.of_nat (size (seen d)) - Z.of_nat (size (seen (Reset d a).1))
  /\ (forall now fp, (Check (Reset d a).1 now a fp).2 = proceed).
Proof.
  split_and!.
  - intros k. rewrite Reset_seen, lookup_filter_decide.
    destruct (seen d !! k); simpl; by repeat case_decide.
  - rewrite Reset_count, Reset_seen.
    rewrite <- (map_filter_union_complement (fun kv : key * entry => key_agent kv.1 = a) (seen d)) at 2.
    rewrite map_size_disj_union by apply map_disjoint_filter_complement. lia.
  - intros now fp. apply Check_fresh.
    rewrite Reset_seen, lookup_filter_decide. destruct (seen d !! _); [|done].
    rewrite decide_False; [done|]. simpl. tauto.
Qed.

(** AgentStatus: the reported snapshot is the summary of the agent's unexpired
    entries, whatever the traversal order; exactly the agent's expired entries are
    deleted on the way. *)
Theorem agent_status_exact (R : RangeOrder key entry) d now a :
  let es := live_entries now a (map_to_list (seen d)) in
  (agent_status d now a).2
  = (if bool_decide (es = []) then (new_status "", false) else (summary (limit d) a es, true))
  /\ seen (agent_status d now a).1
     = filter (fun kv => bool_decide (key_agent kv.1 = a) && expired now kv.2 = false) (seen d).
Proof.
  intros es. unfold agent_status. rewrite status_fold. simpl. split.
  - pose proof (live_entries_perm now a _ _ (range_perm (seen d))) as Hp. fold es in Hp.
    rewrite set_blocked_summary, (summary_perm _ _ _ _ Hp).
    case_bool_decide as Hr; case_bool_decide as He; try done; exfalso.
    + rewrite He in Hp. by apply Permutation_nil_r in Hp.
    + apply He. rewrite Hr in Hp. by apply Permutation_nil in Hp.
  - apply (foldl_delete_range R (fun kv => bool_decide (key_agent kv.1 = a) && expired now kv.2)).
Qed.

Lemma by_agent_fold lim now l m b a :
  (foldl (by_agent_step lim now) (m, b) l).2 !! a
  = match live_entries now a l with
    | [] => b !! a
    | es => Some (foldl (count_entry lim) (default (new_status a) (b !! a)) es)
    end.
Proof.
  revert m b. induction l as [|[k e] l IH]; intros m b; [done|]. simpl.
  unfold live_entries. rewrite filter_cons. simpl.
  destruct (expired now e) eqn:Hx.
  { rewrite IH, decide_False by (intros [_ ?]; congruence). done. }
  rewrite IH. destruct (decide (key_agent k = a)) as [->|Hne].
  - rewrite decide_True by done. csimpl. rewrite lookup_insert_eq. simpl.
    fold (live_entries now a l). by destruct (live_entries now a l).
  - rewrite decide_False by (intros [? _]; congruence).
    fold (live_entries now a l). by rewrite lookup_insert_ne.
Qed.

Lemma set_blocked_agent lim a es :
  st_Agent (set_blocked (foldl (count_entry lim) (new_status a) es)) = a.
Proof. by rewrite set_blocked_summary. Qed.

#[local] Instance agent_le_total : Total agent_le.
Proof.
  intros x y. unfold agent_le, String.leb.
  rewrite (String.compare_antisym (st_Agent y)). by destruct (String.compare _ _); auto.
Qed.

(** BlockedAgents: the result is sorted by agent, and lists exactly the snapshots
    AgentStatus reports as blocked; every expired entry is deleted. *)
Theorem blocked_agents_exact (R : RangeOrder key entry) (RA : RangeOrder AgentID AgentStatus)
    d now :
  let '(d', out) := BlockedAgents d now in
  Sorted agent_le out
  /\ (forall st, st ∈ out <->
        st_Blocked st = true /\ (agent_status d now (st_Agent st)).2 = (st, true))
  /\ seen d' = filter (fun kv => expired now kv.2 = false) (seen d).
Proof.
  unfold BlockedAgents.
  pose proof (by_agent_fold_seen (limit d) now (range (seen d)) (seen d) ∅) as Hseen.
  pose proof (by_agent_fold (limit d) now (range (seen d)) (seen d) ∅) as Hby.
  destruct (foldl (by_agent_step _ _) _ _) as [m b]. cbn [fst snd] in Hseen, Hby. subst m.
  rewrite (foldl_append_if (fun kv => set_blocked kv.2) st_Blocked). cbn [app]. split_and!.
  - apply Sorted_merge_sort, _.
  - intros st. rewrite merge_sort_Permutation, list_elem_of_filter, !list_elem_of_fmap.
    unfold agent_status. rewrite status_fold. simpl. split.
    + intros (Hbl & kv & -> & Hin). split; [done|].
      destruct kv as [a st1]. apply elem_of_range in Hin. cbn [fst snd default] in *. rewrite Hby, lookup_empty in Hin.
      destruct (live_entries now a _) as [|e es] eqn:Hes; [done|]. apply (inj Some) in Hin as <-.
      change (default (new_status a) None) with (new_status a).
      by rewrite set_blocked_agent, Hes.
    + intros [Hbl Hst]. split; [done|].
      destruct (live_entries now (st_Agent st) (range (seen d))) as [|e es] eqn:Hes; [done|].
      rewrite bool_decide_true in Hst by done.
      injection Hst as H.
      eexists (st_Agent st, foldl (count_entry (limit d)) (new_status (st_Agent st)) (e :: es)).
 split; [symmetry; exact H|].
      apply elem_of_range. by rewrite Hby, Hes, lookup_empty.
  - apply (foldl_delete_range R (fun kv => expired now kv.2)).
Qed.

(** ** The Detector contract *)

#[export] Instance hash_detector_laws (R : RangeOrder key entry) : DetectorLaws HashDetector wf.
Proof.
  split; simpl.
  - intros d now a fp Hwf. destruct (Check_size d now a fp Hwf) as [Hs _].
    destruct (Check_params d now a fp) as (_ & _ & Hm). destruct Hwf. split; lia.
  - intros d a [Hm Hs]. destruct (Reset_params d a) as (_ & _ & Hm').
    pose proof (map_subseteq_size (seen (Reset d a).1) (seen d)
      ltac:(rewrite Reset_seen; apply map_filter_subseteq)). split; lia.
  - intros d now a fp _. apply Check_fresh. rewrite Reset_seen, lookup_filter_decide.
    destruct (seen d !! _); [|done]. rewrite decide_False; [done|]. simpl. tauto.
  - intros d a _. rewrite Reset_count, Reset_seen, map_filter_filter.
    assert (filter (fun '(i, x) => key_agent (i, x : entry).1 = a /\ key_agent (i, x).1 <> a)
              (seen d) = ∅) as ->; [|by rewrite map_size_empty].
    apply map_empty. intros i. apply map_lookup_filter_None. right. intros x _ [? ?]. done.
  - intros d a _. rewrite Reset_count. lia.
Qed.

(** ** Runtime changes of the limit *)

(** Raising the limit above a window's count lets the fingerprint through again
    inside that very window, although the window was already blocked, and no
    second FirstBlock is ever reported for it. *)
Lemma set_limit_unblocks (R : RangeOrder key entry) d now a fp e n :
  seen d !! Key a fp = Some e -> now < e_expires e ->
  1 <= limit d <= e_count e -> e_count e + 1 < n ->
  (Check (SetLimit d n) now a fp).2 = proceed.
Proof.
  intros He Hnow Hc Hn. unfold Check. simpl. rewrite He. unfold expired, time_before.
  zcase (now <? e_expires e). simpl. unfold bump. zcase (n <? 1).
  zcase (n <=? e_count e + 1). simpl. zcase (e_count e + 1 <? n). done.
Qed.

(** With a limit of one, an agent whose only request proceeded is already
    reported as blocked. *)
Lemma limit_one_status (R : RangeOrder key entry) :
  let d := NewHashDetector Minute 1 in
  let '(d', r) := Check d 1 "agent" "fp" in
  Block r = false
  /\ (agent_status d' 2 "agent").2
     = ({| st_Agent := "agent"; st_Blocked := true; st_Fingerprints := 1; st_BlockedFP := 1;
           st_FirstBlocked := 0; st_LastBlocked := 0 |}, true).
Proof.
  intros d. assert (Check d 1 "agent" "fp"
    = (with_seen d {[Key "agent" "fp" := Entry 1 (1 + Minute) 0 0]}, proceed)) as ->.
  { unfold Check, evictIfNeeded. rewrite (evict_to_noop R); [done|].
    subst d. unfold NewHashDetector. cbn [seen max_entries].
    rewrite map_size_empty. unfold maxEntries. lia. }
  split; [done|]. rewrite (proj1 (agent_status_exact R _ 2 "agent")).
  cbn [seen with_seen]. by rewrite map_to_list_singleton.
Qed.
