(* ===== verification/GoFloat.v ===== *)
(** * Go's float64: IEEE 754 binary64 as executable functions

    The arithmetic is the executable specification of binary64 that comes with
    the prover (Corelib's SpecFloat: round to nearest even, 53-bit significand);
    here it is instantiated, and completed with the conversions and the math
    functions the sources use. *)

From Stdlib Require Import SpecFloat.
From S2P Require Import Prelude.

Definition float64 : Type := spec_float.
Definition f64_prec : Z := 53.
Definition f64_emax : Z := 1024.

Definition f64_of_Z (z : Z) : float64 := binary_normalize f64_prec f64_emax z 0 false.
Definition f64_add : float64 -> float64 -> float64 := SFadd f64_prec f64_emax.
Definition f64_mul : float64 -> float64 -> float64 := SFmul f64_prec f64_emax.
Definition f64_div : float64 -> float64 -> float64 := SFdiv f64_prec f64_emax.

(** Comparison of the values; None when a NaN is involved. *)
Definition f64_signed (f : float64) : Z * Z :=
  match f with
  | S754_finite s m e => (if s then Zneg m else Zpos m, e)
  | _ => (0, 0)
  end.
Definition f64_compare (x y : float64) : option comparison :=
  match x, y with
  | S754_nan, _ | _, S754_nan => None
  | S754_infinity s, S754_infinity s' =>
      Some (if Bool.eqb s s' then Eq else if s then Lt else Gt)
  | S754_infinity s, _ => Some (if s then Lt else Gt)
  | _, S754_infinity s => Some (if s then Gt else Lt)
  | _, _ =>
      let '(m, e) := f64_signed x in
      let '(m', e') := f64_signed y in
      let k := Z.min e e' in
      Some (Z.compare (m * 2 ^ (e - k)) (m' * 2 ^ (e' - k)))
  end.
Definition f64_ltb (x y : float64) : bool :=
  match f64_compare x y with Some Lt => true | _ => false end.
Definition f64_leb (x y : float64) : bool :=
  match f64_compare x y with Some Lt | Some Eq => true | _ => false end.
Definition f64_zero : float64 := S754_zero false.

(** math.IsNaN and math.IsInf(f, 0). *)
Definition f64_is_nan (f : float64) : bool := match f with S754_nan => true | _ => false end.
Definition f64_is_inf (f : float64) : bool := match f with S754_infinity _ => true | _ => false end.

(** math.Ceil: the least integral value not below the argument. *)
Definition f64_ceil (f : float64) : float64 :=
  match f with
  | S754_finite s m e =>
      if 0 <=? e then f
      else
        let d := 2 ^ (- e) in
        if s then
          match Zpos m / d with
          | 0 => S754_zero true
          | q => f64_of_Z (- q)
          end
        else f64_of_Z ((Zpos m + d - 1) / d)
  | _ => f
  end.

(** math.Round: the nearest integral value, halves away from zero. *)
Definition f64_round (f : float64) : float64 :=
  match f with
  | S754_finite s m e =>
      if 0 <=? e then f
      else
        let d := 2 ^ (- e) in
        match (2 * Zpos m + d) / (2 * d) with
        | 0 => S754_zero s
        | q => f64_of_Z (if s then - q else q)
        end
  | _ => f
  end.

(** The conversion int64(f): truncation; a value out of range (the language
    leaves it open) gives the minimal int64, as on amd64. *)
Definition f64_to_int64 (f : float64) : Z :=
  match f with
  | S754_zero _ => 0
  | S754_finite s m e =>
      let mag := if 0 <=? e then Zpos m * 2 ^ e else Zpos m / 2 ^ (- e) in
      let z := if s then - mag else mag in
      if (int64_min <=? z) && (z <=? int64_max) then z else int64_min
  | _ => int64_min
  end.

(** Duration.Seconds: float64(d / Second) + float64(d % Second) / 1e9, with
    Go's truncated division. *)
Definition duration_seconds (d : Z) : float64 :=
  f64_add (f64_of_Z (Z.quot d Second)) (f64_div (f64_of_Z (Z.rem d Second)) (f64_of_Z Second)).

(** ** Lemmas: conversion of small integers and division by four *)

Lemma digits2_pos_size p : digits2_pos p = Pos.size p.
Proof. induction p; simpl; congruence. Qed.

Lemma pos_size_bounds p : 2 ^ (Zpos (Pos.size p) - 1) <= Zpos p < 2 ^ Zpos (Pos.size p).
Proof.
  pose proof (Pos.size_le p) as Hle. pose proof (Pos.size_gt p) as Hgt.
  apply Pos2Z.pos_le_pos in Hle. apply Pos2Z.pos_lt_pos in Hgt.
  rewrite Pos2Z.inj_pow in Hle, Hgt.
  assert (2 ^ Zpos (Pos.size p) = 2 * 2 ^ (Zpos (Pos.size p) - 1))
    by (rewrite <- Z.pow_succ_r by lia; f_equal; lia).
  lia.
Qed.

Lemma iter_xO m d : Zpos (Pos.iter xO m d) = Zpos m * 2 ^ Zpos d.
Proof.
  revert m. induction d as [|d IH] using Pos.peano_ind; intros m; [simpl; lia|].
  rewrite Pos.iter_succ. change (Zpos (xO (Pos.iter xO m d))) with (2 * Zpos (Pos.iter xO m d)).
  rewrite IH, Pos2Z.inj_succ, Z.pow_succ_r by lia. lia.
Qed.

(** The digits of a number scaled by a power of two. *)
Lemma size_unique p n : 0 < n -> 2 ^ (n - 1) <= Zpos p < 2 ^ n -> Zpos (Pos.size p) = n.
Proof.
  intros Hn Hp. pose proof (pos_size_bounds p) as Hs.
  assert (n - 1 < Zpos (Pos.size p)) by (apply (Z.pow_lt_mono_r_iff 2); lia).
  assert (Zpos (Pos.size p) - 1 < n) by (apply (Z.pow_lt_mono_r_iff 2); lia).
  lia.
Qed.

(** A positive integer below 2^53, as a canonical binary64 number. *)
Definition canonical53 (n : Z) (f : float64) : Prop :=
  exists m e, f = S754_finite false m e /\ -53 < e <= 0
    /\ Zpos m = n * 2 ^ (- e) /\ Pos.size m = 53%positive.

Lemma round_aux_exact53 m e :
  Pos.size m = 53%positive -> -1021 <= e <= 971 ->
  binary_round_aux f64_prec f64_emax false (Zpos m) e loc_Exact = S754_finite false m e.
Proof.
  intros Hs He. unfold binary_round_aux, shr_fexp. cbn [Zdigits2 shr_record_of_loc].
  rewrite digits2_pos_size, Hs. unfold fexp, SpecFloat.emin, f64_prec, f64_emax.
  replace (Z.max (53 + e - 53) (3 - 1024 - 53) - e) with 0 by lia.
  cbn [shr shr_m loc_of_shr_record round_nearest_even shr_record_of_loc Zdigits2].
  rewrite digits2_pos_size, Hs.
  replace (Z.max (53 + e - 53) (3 - 1024 - 53) - e) with 0 by lia.
  cbn [shr shr_m]. by rewrite (proj2 (Z.leb_le _ _)) by lia.
Qed.

Lemma f64_of_small_Z n : 0 < n < 2 ^ 53 -> canonical53 n (f64_of_Z n).
Proof.
  intros Hn. destruct n as [|p|]; try lia. unfold f64_of_Z. cbn [binary_normalize].
  unfold binary_round. rewrite digits2_pos_size.
  pose proof (pos_size_bounds p) as Hp. set (d := Zpos (Pos.size p)) in *.
  assert (1 <= d <= 53) as Hd.
  { split; [lia|]. assert (d - 1 < 53); [|lia]. apply (Z.pow_lt_mono_r_iff 2); lia. }
  unfold fexp, SpecFloat.emin. unfold f64_prec at 1 2 3, f64_emax at 1.
  replace (Z.max (d + 0 - 53) (3 - 1024 - 53)) with (d - 53) by lia.
  unfold shl_align. replace (d - 53 - 0) with (d - 53) by lia.
  destruct (d - 53) as [|q|q] eqn:E.
  - exists p, 0. rewrite round_aux_exact53 by lia. split_and!; lia || done.
  - lia.
  - assert (Pos.size (Pos.iter xO p q) = 53%positive) as Hsz.
    { apply (inj Zpos), size_unique; [done|]. rewrite iter_xO.
      assert (2 ^ (53 - 1) = 2 ^ (d - 1) * 2 ^ Zpos q) as ->
        by (rewrite <- Z.pow_add_r by lia; f_equal; lia).
      assert (2 ^ 53 = 2 ^ d * 2 ^ Zpos q) as ->
        by (rewrite <- Z.pow_add_r by lia; f_equal; lia).
      assert (0 < 2 ^ Zpos q) by (apply Z.pow_pos_nonneg; lia). nia. }
    exists (Pos.iter xO p q), (Zneg q). rewrite round_aux_exact53 by (done || lia).
    split_and!; [done|lia|lia|by rewrite iter_xO|done].
Qed.

Definition f64_four : float64 := f64_of_Z 4.

Lemma div_four_exact n f :
  canonical53 n f -> exists m e, f = S754_finite false m e
    /\ f64_div f f64_four = S754_finite false m (e - 2).
Proof.
  intros (m & e & -> & He & Hm & Hs). exists m, e. split; [done|].
  unfold f64_div, f64_four.
  replace (f64_of_Z 4) with (S754_finite false 4503599627370496 (-50)) by (vm_compute; done).
  unfold SFdiv, SFdiv_core_binary. cbn [Zdigits2]. rewrite digits2_pos_size, Hs.
  replace (digits2_pos 4503599627370496) with 53%positive by (vm_compute; done).
  unfold fexp, SpecFloat.emin, f64_prec, f64_emax.
  replace (Z.max (53 + e - (53 + -50) - 53) (3 - 1024 - 53)) with (e - 3) by lia.
  replace (Z.min (e - 3) (e - -50)) with (e - 3) by lia.
  replace (e - -50 - (e - 3)) with 53 by lia. rewrite Z.shiftl_mul_pow2 by lia.
  assert (Z.div_eucl (Zpos m * 2 ^ 53) 4503599627370496 = (2 * Zpos m, 0)) as ->.
  { pose proof (Z_div_mod_eq_full (Zpos m * 2 ^ 53) 4503599627370496) as Hdm.
    unfold Z.div, Z.modulo in Hdm.
    pose proof (Z_div_mod (Zpos m * 2 ^ 53) 4503599627370496 ltac:(lia)) as Hsp.
    destruct (Z.div_eucl _ _) as [q r]. f_equal; lia. }
  replace (new_location 4503599627370496 0) with loc_Exact by (vm_compute; done).
  unfold binary_round_aux, shr_fexp. change (2 * Zpos m) with (Zpos (xO m)).
  cbn [Zdigits2 shr_record_of_loc digits2_pos]. rewrite digits2_pos_size, Hs.
  unfold fexp, SpecFloat.emin. change (Zpos (Pos.succ 53)) with 54.
  replace (Z.max (54 + (e - 3) - 53) (3 - 1024 - 53) - (e - 3)) with 1 by lia.
  cbn [shr].
  change (SpecFloat.iter_pos shr_1 1 {| shr_m := Zpos (xO m); shr_r := false; shr_s := false |})
    with {| shr_m := Zpos m; shr_r := false; shr_s := false |}.
  cbn [shr_m loc_of_shr_record round_nearest_even shr_record_of_loc Zdigits2].
  rewrite digits2_pos_size, Hs. replace (e - 3 + 1) with (e - 2) by lia.
  replace (Z.max (53 + (e - 2) - 53) (3 - 1024 - 53) - (e - 2)) with 0 by lia.
  cbn [shr shr_m]. simpl. by rewrite (proj2 (Z.leb_le _ _)) by lia.
Qed.

Lemma f64_small_to_int64 n : 0 <= n < 2 ^ 53 -> f64_to_int64 (f64_of_Z n) = n.
Proof.
  intros Hn. destruct (decide (n = 0)) as [->|]; [done|].
  destruct (f64_of_small_Z n ltac:(lia)) as (m & e & -> & He & Hm & _).
  unfold f64_to_int64. assert ((if 0 <=? e then Zpos m * 2 ^ e else Zpos m / 2 ^ (- e)) = n) as ->.
  { zcase (0 <=? e).
    - assert (e = 0) as -> by lia. simpl in *. lia.
    - rewrite Hm, Z.div_mul; [done|]. apply Z.pow_nonzero; lia. }
  unfold int64_min, int64_max.
  rewrite (proj2 (Z.leb_le _ _)), (proj2 (Z.leb_le _ _)) by lia. done.
Qed.

(** int(math.Ceil(float64(n) / 4.0)) is the integer ceiling. *)
Lemma ceil_div_four n :
  0 < n < 2 ^ 53 -> f64_to_int64 (f64_ceil (f64_div (f64_of_Z n) f64_four)) = (n + 3) / 4.
Proof.
  intros Hn. pose proof (f64_of_small_Z n Hn) as Hc.
  destruct (div_four_exact n _ Hc) as (m & e & Hf & ->).
  destruct Hc as (m' & e' & Hf' & He & Hm & _). rewrite Hf in Hf'. simplify_eq.
  unfold f64_ceil. zcase (0 <=? e' - 2).
  assert ((Zpos m' + 2 ^ (- (e' - 2)) - 1) / 2 ^ (- (e' - 2)) = (n + 3) / 4) as ->.
  { replace (- (e' - 2)) with (- e' + 2) by lia. rewrite Z.pow_add_r, Hm by lia.
    change (2 ^ 2) with 4. set (k := 2 ^ (- e')).
    assert (0 < k) by (apply Z.pow_pos_nonneg; lia).
    replace (n * k + k * 4 - 1) with ((n + 3) * k + (k - 1)) by lia.
    rewrite <- Z.div_div by lia. f_equal.
    rewrite Z.div_add_l by lia. rewrite Z.div_small by lia. lia. }
  apply f64_small_to_int64. split; [apply Z.div_pos; lia|].
  apply Z.div_lt_upper_bound; lia.
Qed.

(** ** Lemmas: an upper bound on rounding *)

Lemma shr_1_m mrs : 0 <= shr_m mrs -> shr_m (shr_1 mrs) = shr_m mrs / 2.
Proof.
  destruct mrs as [m r s]. simpl. intros Hm. rewrite <- Z.div2_div.
  by destruct m as [|[p|p|]|p].
Qed.

Lemma iter_shr_1_m p mrs :
  0 <= shr_m mrs -> shr_m (SpecFloat.iter_pos shr_1 p mrs) = shr_m mrs / 2 ^ Zpos p.
Proof.
  assert (forall q m, 0 <= m -> 0 <= m / 2 ^ Zpos q) as Hnn
    by (intros; apply Z.div_pos; [lia|by apply Z.pow_pos_nonneg]).
  revert mrs. induction p as [p IH|p IH|]; intros mrs Hm; cbn [SpecFloat.iter_pos].
  - assert (0 <= shr_m (shr_1 mrs)) by (rewrite shr_1_m by done; apply (Hnn 1%positive); done).
    rewrite !IH, shr_1_m by (done || rewrite IH by done; auto).
    rewrite !Z.div_div by lia. f_equal.
    replace (Zpos p~1) with (1 + Zpos p + Zpos p) by lia. rewrite !Z.pow_add_r by lia. lia.
  - rewrite !IH by (done || rewrite IH by done; auto). rewrite Z.div_div by lia. f_equal.
    replace (Zpos p~0) with (Zpos p + Zpos p) by lia. rewrite Z.pow_add_r by lia. lia.
  - by rewrite shr_1_m.
Qed.

Lemma shr_m_spec mrs e n :
  0 <= shr_m mrs -> shr_m (shr mrs e n).1 = shr_m mrs / 2 ^ Z.max 0 n
  /\ (shr mrs e n).2 = e + Z.max 0 n.
Proof.
  intros Hm. destruct n as [|p|p]; cbn [shr fst snd].
  - rewrite Z.div_1_r. split; [done|lia].
  - rewrite iter_shr_1_m by done. split; [done|lia].
  - rewrite Z.div_1_r. split; [done|lia].
Qed.

Lemma round_nearest_even_bounds m l : m <= round_nearest_even m l <= m + 1.
Proof. destruct l as [|[]]; simpl; try lia. destruct (Z.even m); lia. Qed.

Lemma digits_bounds m : 0 < m -> 2 ^ (Zdigits2 m - 1) <= m < 2 ^ Zdigits2 m.
Proof.
  destruct m as [|p|p]; try lia. intros _. cbn [Zdigits2]. rewrite digits2_pos_size.
  apply pos_size_bounds.
Qed.

(** The two shifts of a rounding: how far each can move the exponent. *)
Lemma round_upper K p ex :
  Zdigits2 (Zpos p) + ex <= 31 -> ex <= -22 -> - K <= ex -> 22 <= K ->
  match binary_round_aux f64_prec f64_emax false (Zpos p) ex loc_Exact with
  | S754_zero s => s = false
  | S754_finite s m e =>
      s = false /\ - K <= e
      /\ Zpos m * 2 ^ (e + K) <= Zpos p * 2 ^ (ex + K) + 2 ^ (-22 + K)
  | _ => False
  end.
Proof.
  intros Hd Hex Hlo HK. unfold binary_round_aux, shr_fexp.
  set (k := fexp f64_prec f64_emax (Zdigits2 (Zpos p) + ex) - ex).
  pose proof (digits_bounds (Zpos p) ltac:(lia)) as Hp.
  assert (0 < Zdigits2 (Zpos p)) as Hdpos by done.
  assert (ex + Z.max 0 k <= -22 /\ Zdigits2 (Zpos p) - 53 <= Z.max 0 k) as [Hk1 Hk2].
  { unfold k, fexp, SpecFloat.emin, f64_prec, f64_emax. lia. }
  pose proof (shr_m_spec (shr_record_of_loc (Zpos p) loc_Exact) ex k ltac:(done)) as [Hm1 He1].
  assert (Z.max 0 k = 0 -> loc_of_shr_record (shr (shr_record_of_loc (Zpos p) loc_Exact) ex k).1
                           = loc_Exact) as Hexact.
  { intros Hk. destruct k as [|q|q]; [done|lia|done]. }
  destruct (shr _ ex k) as [mrs1 e1]. cbn [fst snd] in *. change (shr_m (shr_record_of_loc _ _))
    with (Zpos p) in Hm1. subst e1.
  pose proof (round_nearest_even_bounds (shr_m mrs1) (loc_of_shr_record mrs1)) as Hr.
  set (q := Z.max 0 k) in *. assert (0 <= q) as Hq by lia.
  assert (0 < 2 ^ q) as Hq2 by (by apply Z.pow_pos_nonneg).
  pose proof (Z.div_mod (Zpos p) (2 ^ q) ltac:(lia)) as Hdm.
  pose proof (Z.mod_pos_bound (Zpos p) (2 ^ q) Hq2) as Hmod. rewrite <- Hm1 in Hdm.
  assert (0 <= shr_m mrs1) as Hm0 by (rewrite Hm1; apply Z.div_pos; lia).
  set (m1 := round_nearest_even _ _) in *.
  assert (shr_m mrs1 < 2 ^ 53) as Hlt.
  { rewrite Hm1. apply Z.div_lt_upper_bound; [done|]. rewrite <- Z.pow_add_r by lia.
    eapply Z.lt_le_trans; [apply Hp|]. apply Z.pow_le_mono_r; lia. }
  assert (m1 * 2 ^ q <= Zpos p + 2 ^ q) as Hup by nia.
  assert (Zdigits2 m1 <= 54) as Hd1.
  { destruct (decide (0 < m1)) as [Hpos|]; [|destruct m1; simpl; lia].
    pose proof (digits_bounds m1 Hpos). assert (Zdigits2 m1 - 1 < 54); [|lia].
    apply (Z.pow_lt_mono_r_iff 2); lia. }
  set (k2 := fexp f64_prec f64_emax (Zdigits2 m1 + (ex + q)) - (ex + q)).
  pose proof (shr_m_spec (shr_record_of_loc m1 loc_Exact) (ex + q) k2 ltac:(simpl; lia)) as [Hm2 He2].
  destruct (shr _ (ex + q) k2) as [mrs2 e2]. cbn [fst snd] in *.
  change (shr_m (shr_record_of_loc m1 loc_Exact)) with m1 in Hm2. subst e2.
  set (q2 := Z.max 0 k2) in *. assert (0 <= q2) by lia.
  assert (ex + q + q2 <= 900) as He2.
  { unfold q2, k2, fexp, SpecFloat.emin, f64_prec, f64_emax. lia. }
  assert (0 < 2 ^ q2) as Hq22 by (by apply Z.pow_pos_nonneg).
  pose proof (Z.mul_div_le m1 (2 ^ q2) Hq22) as Hfl. rewrite <- Hm2 in Hfl.
  assert (0 <= shr_m mrs2) by (rewrite Hm2; apply Z.div_pos; lia).
  destruct (shr_m mrs2) as [|m|m]; [done| |lia].
  unfold f64_emax, f64_prec. rewrite (proj2 (Z.leb_le _ _)) by lia. split; [done|]. split; [lia|].
  replace (ex + q + q2 + K) with (q2 + q + (ex + K)) by lia. rewrite !Z.pow_add_r by lia.
  assert (0 < 2 ^ (ex + K)) as Hx by (apply Z.pow_pos_nonneg; lia).
  assert (2 ^ q * 2 ^ (ex + K) <= 2 ^ (-22 + K)) as Hb.
  { rewrite <- Z.pow_add_r by lia. apply Z.pow_le_mono_r; lia. }
  nia.
Qed.

Lemma f64_round_bound m e K X :
  0 <= X < 2 ^ 53 -> - K <= e -> 22 <= K ->
  Zpos m * 2 ^ (e + K) <= X * 2 ^ K + 2 ^ (-22 + K) ->
  0 <= f64_to_int64 (f64_round (S754_finite false m e)) <= X.
Proof.
  intros HX He HK Hle. unfold f64_round.
  assert (0 < 2 ^ (-22 + K)) as Hk22 by (apply Z.pow_pos_nonneg; lia).
  assert (2 ^ K = 2 ^ 22 * 2 ^ (-22 + K)) as HKs by (rewrite <- Z.pow_add_r by lia; f_equal; lia).
  zcase (0 <=? e).
  - rewrite Z.pow_add_r in Hle by lia.
    assert (Zpos m * 2 ^ e <= X) as Hm by nia.
    unfold f64_to_int64. rewrite (proj2 (Z.leb_le 0 e)) by done.
    assert (0 <= Zpos m * 2 ^ e) by nia.
    unfold int64_min, int64_max. rewrite !(proj2 (Z.leb_le _ _)) by lia. simpl. lia.
  - set (d := 2 ^ (- e)). assert (0 < d) as Hd by (apply Z.pow_pos_nonneg; lia).
    assert (0 <= (2 * Zpos m + d) / (2 * d) <= X) as Hq.
    { split; [apply Z.div_pos; lia|]. apply Z.lt_succ_r, Z.div_lt_upper_bound; [lia|].
      assert (2 ^ K = d * 2 ^ (e + K)) as HKd
        by (unfold d; rewrite <- Z.pow_add_r by lia; f_equal; lia).
      assert (0 < 2 ^ (e + K)) by (apply Z.pow_pos_nonneg; lia).
      assert (2 * Zpos m < 2 * d * X + d); [|lia].
      assert ((2 * Zpos m) * 2 ^ (e + K) < (2 * d * X + d) * 2 ^ (e + K)); [|nia].
      nia. }
    destruct ((2 * Zpos m + d) / (2 * d)) as [|q|q] eqn:Eq; [simpl; lia| |lia].
    rewrite f64_small_to_int64 by lia. lia.
Qed.
