(* ===== verification/GoJson.v ===== *)
(** * The part of encoding/json, unicode/utf8 and strconv the program uses

    [parse] is the scanner with its syntax check (a body with a syntax error has
    no decoded effect at all); [decode] is the reflection-driven decoder on a
    schema of the target type, with the behaviours a client can observe: keys are
    matched exactly, then case-insensitively; unknown keys are skipped; null is a
    no-op except on pointers, slices and maps; a value of the wrong type is
    skipped and the first such error is returned at the end; a repeated key is
    decoded over the value of its earlier occurrence. *)

From S2P Require Import Prelude GoFloat.

(** ** Documents *)

#[warnings="-register-all"]
Inductive json :=
  | JNull
  | JBool (b : bool)
  | JNum (lit : list byte)
  | JStr (s : list byte)
  | JArr (l : list json)
  | JObj (kvs : list (list byte * json)).

(** ** Bytes *)

Definition between (lo hi : Z) (c : byte) : bool := (lo <=? byte_to_Z c) && (byte_to_Z c <=? hi).
Definition is_digit : byte -> bool := between 48 57.
Definition is_ws (c : byte) : bool :=
  byte_eqb c " " || byte_eqb c "009" || byte_eqb c "010" || byte_eqb c "013".
Definition byte_of_Z (z : Z) : byte := default "000"%byte (Byte.of_N (Z.to_N z)).

Definition hex_val (c : byte) : option Z :=
  if between 48 57 c then Some (byte_to_Z c - 48)
  else if between 97 102 c then Some (byte_to_Z c - 87)
  else if between 65 70 c then Some (byte_to_Z c - 55)
  else None.

(** The four digits of a \u escape. *)
Definition hex4 (l : list byte) : option (Z * list byte) :=
  match l with
  | a :: b :: c :: d :: r =>
      match hex_val a, hex_val b, hex_val c, hex_val d with
      | Some x, Some y, Some z, Some w => Some (((x * 16 + y) * 16 + z) * 16 + w, r)
      | _, _, _, _ => None
      end
  | _ => None
  end.

(** ** UTF-8 *)

Definition cont : byte -> bool := between 128 191.

(** The length of the valid encoding at the head of a string, 0 when there is
    none (the rune is then U+FFFD and one byte is consumed). *)
Definition utf8_len (l : list byte) : nat :=
  match l with
  | [] => 0%nat
  | a :: r =>
      if byte_to_Z a <? 128 then 1%nat
      else if between 194 223 a then
        match r with b :: _ => if cont b then 2%nat else 0%nat | _ => 0%nat end
      else if between 224 239 a then
        match r with
        | b :: c :: _ =>
            let lo := if byte_to_Z a =? 224 then 160 else 128 in
            let hi := if byte_to_Z a =? 237 then 159 else 191 in
            if between lo hi b && cont c then 3%nat else 0%nat
        | _ => 0%nat
        end
      else if between 240 244 a then
        match r with
        | b :: c :: d :: _ =>
            let lo := if byte_to_Z a =? 240 then 144 else 128 in
            let hi := if byte_to_Z a =? 244 then 143 else 191 in
            if between lo hi b && cont c && cont d then 4%nat else 0%nat
        | _ => 0%nat
        end
      else 0%nat
  end.

(** utf8.AppendRune for a code point that is not a surrogate. *)
Definition encode_rune (r : Z) : list byte :=
  if r <? 128 then [byte_of_Z r]
  else if r <? 2048 then [byte_of_Z (192 + r / 64); byte_of_Z (128 + r mod 64)]
  else if r <? 65536 then
    [byte_of_Z (224 + r / 4096); byte_of_Z (128 + r / 64 mod 64); byte_of_Z (128 + r mod 64)]
  else
    [byte_of_Z (240 + r / 262144); byte_of_Z (128 + r / 4096 mod 64);
     byte_of_Z (128 + r / 64 mod 64); byte_of_Z (128 + r mod 64)].

Definition replacement : list byte := ["239"; "191"; "189"]%byte.

(** ** The scanner *)

Fixpoint skip_ws (l : list byte) : list byte :=
  match l with c :: l' => if is_ws c then skip_ws l' else l | [] => [] end.

Definition surrogate (r : Z) : bool := (55296 <=? r) && (r <? 57344).

(** The body of a string literal after its opening quote: the unquoted content
    and what follows the closing quote. *)
Fixpoint parse_string (fuel : nat) (l : list byte) : option (list byte * list byte) :=
  match fuel with
  | O => None
  | S fuel' =>
      let emit (out : list byte) (r : list byte) :=
        match parse_string fuel' r with Some (s, r') => Some (out ++ s, r') | None => None end in
      match l with
      | [] => None
      | c :: r =>
          if byte_eqb c "034" then Some ([], r)
          else if byte_eqb c "\" then
            match r with
            | [] => None
            | e :: r' =>
                if byte_eqb e "034" || byte_eqb e "\" || byte_eqb e "/" then emit [e] r'
                else if byte_eqb e "b" then emit ["008"%byte] r'
                else if byte_eqb e "f" then emit ["012"%byte] r'
                else if byte_eqb e "n" then emit ["010"%byte] r'
                else if byte_eqb e "r" then emit ["013"%byte] r'
                else if byte_eqb e "t" then emit ["009"%byte] r'
                else if byte_eqb e "u" then
                  match hex4 r' with
                  | None => None
                  | Some (u, r1) =>
                      if negb (surrogate u) then emit (encode_rune u) r1
                      else
                        match r1 with
                        | b1 :: b2 :: r2 =>
                            match (if byte_eqb b1 "\" && byte_eqb b2 "u" then hex4 r2 else None) with
                            | Some (u2, r3) =>
                                if (u <? 56320) && (56320 <=? u2) && (u2 <? 57344)
                                then emit (encode_rune ((u - 55296) * 1024 + (u2 - 56320) + 65536)) r3
                                else emit replacement r1
                            | None => emit replacement r1
                            end
                        | _ => emit replacement r1
                        end
                  end
                else None
            end
          else if byte_to_Z c <? 32 then None
          else
            match utf8_len l with
            | O => emit replacement r
            | n => emit (take n l) (drop n l)
            end
      end
  end.

(** A number literal: the grammar of RFC 8259. *)
Definition parse_number (l : list byte) : option (list byte * list byte) :=
  let '(sign, l1) := match l with
    | c :: r => if byte_eqb c "-" then ([c], r) else ([], l) | [] => ([], l) end in
  let int :=
    match l1 with
    | c :: r => if byte_eqb c "0" then Some ([c], r)
                else if is_digit c then Some (span is_digit l1) else None
    | [] => None
    end in
  match int with
  | None => None
  | Some (i, l2) =>
      let frac :=
        match l2 with
        | c :: r =>
            if byte_eqb c "." then
              match span is_digit r with ([], _) => None | (d, r') => Some (c :: d, r') end
            else Some ([], l2)
        | [] => Some ([], l2)
        end in
      match frac with
      | None => None
      | Some (f, l3) =>
          let exp :=
            match l3 with
            | c :: r =>
                if byte_eqb c "e" || byte_eqb c "E" then
                  let '(s, r1) := match r with
                    | x :: y => if byte_eqb x "+" || byte_eqb x "-" then ([x], y) else ([], r)
                    | [] => ([], r) end in
                  match span is_digit r1 with
                  | ([], _) => None
                  | (d, r') => Some (c :: s ++ d, r')
                  end
                else Some ([], l3)
            | [] => Some ([], l3)
            end in
          match exp with
          | None => None
          | Some (e, l4) => Some (sign ++ i ++ f ++ e, l4)
          end
      end
  end.

(** Nesting beyond 10000 levels is a syntax error. *)
Definition maxNestingDepth : Z := 10000.

Definition literal (w : string) (l : list byte) (j : json) : option (json * list byte) :=
  if has_prefix (bytes_of_string w) l then Some (j, drop (String.length w) l) else None.

(** A value at the head of [l] (white space before it is skipped), the rest of an
    array after its opening bracket or a comma, and the rest of an object.  Every
    call consumes a byte or hands over to the next one, so twice the length of
    the text is enough fuel. *)
Fixpoint parse_value (fuel : nat) (depth : Z) (l : list byte) : option (json * list byte) :=
  match fuel with
  | O => None
  | S fuel' =>
      let l := skip_ws l in
      match l with
      | [] => None
      | c :: r =>
          if byte_eqb c "034" then
            match parse_string (length l) r with Some (s, r') => Some (JStr s, r') | None => None end
          else if byte_eqb c "[" then
            if maxNestingDepth <=? depth then None
            else
              match skip_ws r with
              | x :: r' =>
                  if byte_eqb x "]" then Some (JArr [], r')
                  else
                    match parse_elems fuel' (depth + 1) r with
                    | Some (js, r'') => Some (JArr js, r'')
                    | None => None
                    end
              | [] => None
              end
          else if byte_eqb c "{" then
            if maxNestingDepth <=? depth then None
            else
              match skip_ws r with
              | x :: r' =>
                  if byte_eqb x "}" then Some (JObj [], r')
                  else
                    match parse_members fuel' (depth + 1) r with
                    | Some (kvs, r'') => Some (JObj kvs, r'')
                    | None => None
                    end
              | [] => None
              end
          else if byte_eqb c "t" then literal "true" l (JBool true)
          else if byte_eqb c "f" then literal "false" l (JBool false)
          else if byte_eqb c "n" then literal "null" l JNull
          else match parse_number l with Some (n, r') => Some (JNum n, r') | None => None end
      end
  end
with parse_elems (fuel : nat) (depth : Z) (l : list byte) : option (list json * list byte) :=
  match fuel with
  | O => None
  | S fuel' =>
      match parse_value fuel' depth l with
      | None => None
      | Some (j, r) =>
          match skip_ws r with
          | x :: r' =>
              if byte_eqb x "]" then Some ([j], r')
              else if byte_eqb x "," then
                match parse_elems fuel' depth r' with
                | Some (js, r'') => Some (j :: js, r'')
                | None => None
                end
              else None
          | [] => None
          end
      end
  end
with parse_members (fuel : nat) (depth : Z) (l : list byte) :
    option (list (list byte * json) * list byte) :=
  match fuel with
  | O => None
  | S fuel' =>
      match skip_ws l with
      | q :: r0 =>
          if byte_eqb q "034" then
            match parse_string (length l) r0 with
            | None => None
            | Some (k, r1) =>
                match skip_ws r1 with
                | x :: r2 =>
                    if byte_eqb x ":" then
                      match parse_value fuel' depth r2 with
                      | None => None
                      | Some (j, r3) =>
                          match skip_ws r3 with
                          | y :: r4 =>
                              if byte_eqb y "}" then Some ([(k, j)], r4)
                              else if byte_eqb y "," then
                                match parse_members fuel' depth r4 with
                                | Some (kvs, r5) => Some ((k, j) :: kvs, r5)
                                | None => None
                                end
                              else None
                          | [] => None
                          end
                      end
                    else None
                | [] => None
                end
            end
          else None
      | [] => None
      end
  end.

(** A whole document: one value and nothing but white space after it. *)
Definition parse (l : list byte) : option json :=
  match parse_value (2 * length l + 2) 0 l with
  | Some (j, r) => match skip_ws r with [] => Some j | _ => None end
  | None => None
  end.

(** ** strconv *)

Definition digit_val (c : byte) : Z := byte_to_Z c - 48.
Definition digits_val (l : list byte) : Z := foldl (fun acc c => acc * 10 + digit_val c) 0 l.

(** ParseInt(s, 10, 64) and Atoi: an optional sign, then digits only. *)
Definition parse_int64 (l : list byte) : option Z :=
  let '(neg, d) := match l with
    | c :: r => if byte_eqb c "-" then (true, r) else if byte_eqb c "+" then (false, r) else (false, l)
    | [] => (false, l) end in
  match d with
  | [] => None
  | _ =>
      if forallb is_digit d then
        let v := if neg then - digits_val d else digits_val d in
        if (int64_min <=? v) && (v <=? int64_max) then Some v else None
      else None
  end.

(** The decimal parts of a literal: sign, the digits as one integer, the power of
    ten. *)
Definition decimal_parts (l : list byte) : option (bool * Z * Z) :=
  let '(neg, l1) := match l with
    | c :: r => if byte_eqb c "-" then (true, r) else if byte_eqb c "+" then (false, r) else (false, l)
    | [] => (false, l) end in
  let '(i, l2) := span is_digit l1 in
  let '(f, l3) := match l2 with
    | c :: r => if byte_eqb c "." then span is_digit r else ([], l2)
    | [] => ([], l2) end in
  match i ++ f with
  | [] => None
  | ds =>
      let mk (e : Z) := Some (neg, digits_val ds, e - Z.of_nat (length f)) in
      match l3 with
      | [] => mk 0
      | c :: r =>
          if byte_eqb c "e" || byte_eqb c "E" then
            let '(eneg, d) := match r with
              | x :: y => if byte_eqb x "-" then (true, y) else if byte_eqb x "+" then (false, y)
                          else (false, r)
              | [] => (false, r) end in
            match d with
            | [] => None
            | _ => if forallb is_digit d
                   then mk (if eneg then - digits_val d else digits_val d) else None
            end
          else None
      end
  end.

(** The binary64 number nearest to d * 10^e (ties to even).  The first two tests
    only decide values far outside the range of binary64 without computing the
    power of ten. *)
Definition round_decimal (neg : bool) (d e : Z) : float64 :=
  match d with
  | Zpos p =>
      if 400 <? e + Z.log2 d / 4 then SpecFloat.S754_infinity neg
      else if e + Z.log2 d / 3 + 1 <? -400 then SpecFloat.S754_zero neg
      else if 0 <=? e then
        SpecFloat.binary_normalize f64_prec f64_emax
          (if neg then - (d * 10 ^ e) else d * 10 ^ e) 0 neg
      else
        let '(mz, ez, lz) :=
          SpecFloat.SFdiv_core_binary f64_prec f64_emax d 0 (10 ^ (- e)) 0 in
        SpecFloat.binary_round_aux f64_prec f64_emax neg mz ez lz
  | _ => SpecFloat.S754_zero neg
  end.

(** ParseFloat on a decimal literal: None for a syntax error and for a value
    whose nearest float is infinite. *)
Definition parse_float (l : list byte) : option float64 :=
  match decimal_parts l with
  | Some (neg, d, e) =>
      let f := round_decimal neg d e in if f64_is_inf f then None else Some f
  | None => None
  end.

(** ** The decoder *)

(** Target types. *)
#[warnings="-register-all"]
Inductive ty :=
  | TString
  | TInt
  | TFloat
  | TBool
  | TStruct (fields : list (string * ty))
  | TSlice (t : ty)
  | TPtr (t : ty)
  | TMap (t : ty).

(** Values.  A slice carries, after its elements, what its backing array still
    holds beyond its length: a later decode into the same slice starts from it. *)
#[warnings="-register-all"]
Inductive gov :=
  | GStr (s : list byte)
  | GInt (z : Z)
  | GFloat (f : float64)
  | GBool (b : bool)
  | GStruct (l : list gov)
  | GSlice (elems stale : list gov)
  | GNil
  | GRef (v : gov)
  | GMap (m : list (list byte * gov)).

Fixpoint zero_of (t : ty) : gov :=
  match t with
  | TString => GStr []
  | TInt => GInt 0
  | TFloat => GFloat f64_zero
  | TBool => GBool false
  | TStruct fs => GStruct (map (fun f => zero_of (snd f)) fs)
  | TSlice _ => GSlice [] []
  | TPtr _ => GNil
  | TMap _ => GMap []
  end.

(** Case folding of a key, as far as it can equal a folded ASCII field name: the
    ASCII letters, U+017F (folds to S) and U+212A (folds to K). *)
Fixpoint fold_name (l : list byte) : list byte :=
  match l with
  | [] => []
  | c :: r =>
      if between 97 122 c then byte_of_Z (byte_to_Z c - 32) :: fold_name r
      else
        match l with
        | "197"%byte :: "191"%byte :: r' => "S"%byte :: fold_name r'
        | "226"%byte :: "132"%byte :: "170"%byte :: r' => "K"%byte :: fold_name r'
        | _ => c :: fold_name r
        end
  end.

Definition bytes_eqb (a b : list byte) : bool := bool_decide (a = b).

(** The index of the field a key selects: an exact match first, then a match up
    to case. *)
Fixpoint find_index {A} (p : A -> bool) (l : list A) : option nat :=
  match l with
  | [] => None
  | x :: l' => if p x then Some 0%nat else S <$> find_index p l'
  end.

Definition find_field (fs : list (string * ty)) (k : list byte) : option nat :=
  match find_index (fun f => bytes_eqb (bytes_of_string (fst f)) k) fs with
  | Some i => Some i
  | None =>
      find_index (fun f => bytes_eqb (fold_name (bytes_of_string (fst f))) (fold_name k)) fs
  end.

Fixpoint map_set (k : list byte) (v : gov) (m : list (list byte * gov)) : list (list byte * gov) :=
  match m with
  | [] => [(k, v)]
  | (k', v') :: m' => if bytes_eqb k k' then (k, v) :: m' else (k', v') :: map_set k v m'
  end.

(** [decode j t v]: the value after decoding [j] over [v] of type [t], and whether
    no error was saved. *)
Fixpoint decode (j : json) (t : ty) (v : gov) {struct j} : gov * bool :=
  let fix with_type (t : ty) (v : gov) {struct t} : gov * bool :=
    match t with
    | TPtr t' =>
        match j with
        | JNull => (GNil, true)
        | _ =>
            let v0 := match v with GRef w => w | _ => zero_of t' end in
            let '(w, ok) := with_type t' v0 in (GRef w, ok)
        end
    | TString => match j with JNull => (v, true) | JStr s => (GStr s, true) | _ => (v, false) end
    | TBool => match j with JNull => (v, true) | JBool b => (GBool b, true) | _ => (v, false) end
    | TInt =>
        match j with
        | JNull => (v, true)
        | JNum n => match parse_int64 n with Some z => (GInt z, true) | None => (v, false) end
        | _ => (v, false)
        end
    | TFloat =>
        match j with
        | JNull => (v, true)
        | JNum n => match parse_float n with Some f => (GFloat f, true) | None => (v, false) end
        | _ => (v, false)
        end
    | TStruct fs =>
        match j with
        | JNull => (v, true)
        | JObj kvs =>
            let vs := match v with GStruct vs => vs | _ => [] end in
            let '(vs', ok) :=
              foldl (fun acc kv =>
                let '(k, jv) := kv in
                let '(vs, ok) := acc in
                match find_field fs k with
                | None => (vs, ok)
                | Some i =>
                    match fs !! i, vs !! i with
                    | Some (_, ft), Some fv =>
                        let '(w, ok') := decode jv ft fv in (<[i := w]> vs, ok && ok')
                    | _, _ => (vs, ok)
                    end
                end) (vs, true) kvs in
            (GStruct vs', ok)
        | _ => (v, false)
        end
    | TSlice t' =>
        match j with
        | JNull => (GSlice [] [], true)
        | JArr [] => (GSlice [] [], true)
        | JArr js =>
            let backing := match v with GSlice a b => a ++ b | _ => [] end in
            let '(out, rest, ok) :=
              foldl (fun acc jv =>
                let '(out, backing, ok) := acc in
                let prev := match backing with x :: _ => x | [] => zero_of t' end in
                let '(w, ok') := decode jv t' prev in
                (out ++ [w], tail backing, ok && ok')) ([], backing, true) js in
            (GSlice out rest, ok)
        | _ => (v, false)
        end
    | TMap t' =>
        match j with
        | JNull => (GMap [], true)
        | JObj kvs =>
            let m := match v with GMap m => m | _ => [] end in
            let '(m', ok) :=
              foldl (fun acc kv =>
                let '(k, jv) := kv in
                let '(m, ok) := acc in
                let '(w, ok') := decode jv t' (zero_of t') in
                (map_set k w m, ok && ok')) (m, true) kvs in
            (GMap m', ok)
        | _ => (v, false)
        end
    end in
  with_type t v.

(** json.Unmarshal into a fresh value of type [t]: None when it returns an error. *)
Definition unmarshal (t : ty) (l : list byte) : option gov :=
  match parse l with
  | None => None
  | Some j => let '(v, ok) := decode j t (zero_of t) in if ok then Some v else None
  end.

(** ** Reading a decoded value *)

Definition g_str (v : gov) : list byte := match v with GStr s => s | _ => [] end.
Definition g_int (v : gov) : Z := match v with GInt z => z | _ => 0 end.
Definition g_float (v : gov) : float64 := match v with GFloat f => f | _ => f64_zero end.
Definition g_bool (v : gov) : bool := match v with GBool b => b | _ => false end.
Definition g_elems (v : gov) : list gov := match v with GSlice l _ => l | _ => [] end.
Definition g_entries (v : gov) : list (list byte * gov) := match v with GMap m => m | _ => [] end.
Definition g_ptr (v : gov) : option gov := match v with GRef w => Some w | _ => None end.
(** The [i]-th field of a struct. *)
Definition g_field (i : nat) (v : gov) : gov :=
  match v with GStruct l => default GNil (l !! i) | _ => GNil end.

(** ** Examples *)

Example parse_float_examples :
  parse_float (bytes_of_string "0.1") = Some (SpecFloat.S754_finite false 7205759403792794 (-56))
  /\ parse_float (bytes_of_string "0.85") = Some (SpecFloat.S754_finite false 7656119366529843 (-53))
  /\ parse_float (bytes_of_string "-2.5e-1") = Some (SpecFloat.S754_finite true 4503599627370496 (-54))
  /\ parse_float (bytes_of_string "4e0") = Some (f64_of_Z 4)
  /\ parse_float (bytes_of_string "1e999") = None.
Proof. vm_compute. done. Qed.

(** Double quotes are written as ' in the examples. *)
Definition text (s : string) : list byte :=
  map (fun c => if byte_eqb c "'" then "034"%byte else c) (bytes_of_string s).

Example unmarshal_examples :
  let t := TStruct [("model"%string, TString); ("n"%string, TInt); ("xs"%string, TSlice TInt);
                    ("p"%string, TPtr (TStruct [("q"%string, TInt)]))] in
  unmarshal t (text "{'model':'gpt\u002d4','other':[{}],'N': -12,'xs':[1,2],'p':{'q':3}}")
    = Some (GStruct [GStr (bytes_of_string "gpt-4"); GInt (-12); GSlice [GInt 1; GInt 2] [];
                     GRef (GStruct [GInt 3])])
  /\ unmarshal t (text "{'model':1}") = None
  /\ unmarshal t (text "{'n':1.5}") = None
  /\ unmarshal t (text "{'model':'a',}") = None
  /\ unmarshal t (text " null ") = Some (zero_of t).
Proof. vm_compute. done. Qed.
