(* ===== verification/JsonTyping.v ===== *)
(** * Type soundness of the JSON decoder

    The decoder of GoJson fills a value of the target's static type, as reflection does in
    encoding/json; the readers ([g_int], [g_field], ...) are total and would fall back to a
    default on a value of another shape. The judgement below is the typing of decoded
    values, the decoder is sound for it, and the canonical forms say that a reader of a
    well-typed value never falls back. *)

From S2P Require Import Prelude GoFloat GoJson.

(** ** The judgement *)

#[warnings="-register-all"]
Inductive has_type : ty -> gov -> Prop :=
  | HT_string s : has_type TString (GStr s)
  | HT_int z : in_int64 z -> has_type TInt (GInt z)
  | HT_float f : f64_is_inf f = false -> has_type TFloat (GFloat f)
  | HT_bool b : has_type TBool (GBool b)
  | HT_struct fs vs :
      Forall2 (fun f v => has_type (snd f) v) fs vs -> has_type (TStruct fs) (GStruct vs)
  | HT_slice t elems stale :
      Forall (has_type t) elems -> Forall (has_type t) stale -> has_type (TSlice t) (GSlice elems stale)
  | HT_nil t : has_type (TPtr t) GNil
  | HT_ref t v : has_type t v -> has_type (TPtr t) (GRef v)
  | HT_map t m : Forall (fun kv => has_type t (snd kv)) m -> has_type (TMap t) (GMap m).

Create HintDb typing.
#[export] Hint Constructors has_type : typing.

(** ** Induction principles for the nested types *)

Lemma json_nested_ind (Q : json -> Prop) :
  Q JNull -> (forall b, Q (JBool b)) -> (forall n, Q (JNum n)) -> (forall s, Q (JStr s)) ->
  (forall js, Forall Q js -> Q (JArr js)) ->
  (forall kvs, Forall (fun kv => Q (snd kv)) kvs -> Q (JObj kvs)) -> forall j, Q j.
Proof.
  intros Hn Hb Hm Hs Ha Ho. fix IH 1. intros [|b|n|s|js|kvs]; [done|done|done|done| |].
  - apply Ha. induction js as [|j js IHjs]; constructor; [apply IH|exact IHjs].
  - apply Ho. induction kvs as [|[k j] kvs IHkvs]; constructor; [apply IH|exact IHkvs].
Qed.

Lemma ty_nested_ind (Q : ty -> Prop) :
  Q TString -> Q TInt -> Q TFloat -> Q TBool ->
  (forall fs, Forall (fun f => Q (snd f)) fs -> Q (TStruct fs)) ->
  (forall t, Q t -> Q (TSlice t)) -> (forall t, Q t -> Q (TPtr t)) -> (forall t, Q t -> Q (TMap t)) ->
  forall t, Q t.
Proof.
  intros Hs Hi Hf Hb Hst Hsl Hp Hm. fix IH 1. intros [| | | |fs|t|t|t]; [done..| | | |].
  - apply Hst. induction fs as [|[k t] fs IHfs]; constructor; [apply IH|exact IHfs].
  - apply Hsl, IH.
  - apply Hp, IH.
  - apply Hm, IH.
Qed.

(** ** Canonical forms *)

Lemma canonical_string v : has_type TString v -> exists s, v = GStr s.
Proof. inversion 1. eauto. Qed.
Lemma canonical_int v : has_type TInt v -> exists z, v = GInt z /\ in_int64 z.
Proof. inversion 1. eauto. Qed.
Lemma canonical_struct fs v :
  has_type (TStruct fs) v -> exists vs, v = GStruct vs /\ Forall2 (fun f v => has_type (snd f) v) fs vs.
Proof. inversion 1. eauto. Qed.
Lemma canonical_slice t v :
  has_type (TSlice t) v -> exists elems stale, v = GSlice elems stale /\ Forall (has_type t) elems.
Proof. inversion 1. eauto. Qed.
Lemma canonical_ptr t v : has_type (TPtr t) v -> v = GNil \/ exists w, v = GRef w /\ has_type t w.
Proof. inversion 1; eauto. Qed.

(** The readers on a well-typed value. *)
Lemma typed_field fs v i f : has_type (TStruct fs) v -> fs !! i = Some f -> has_type (snd f) (g_field i v).
Proof.
  intros (vs & -> & Hvs)%canonical_struct Hi. cbn [g_field].
  destruct (Forall2_lookup_l _ _ _ _ _ Hvs Hi) as (w & Hw & Ht). by rewrite Hw.
Qed.
Lemma typed_elems t v : has_type (TSlice t) v -> Forall (has_type t) (g_elems v).
Proof. by intros (elems & stale & -> & Hf)%canonical_slice. Qed.
Lemma typed_ptr t v w : has_type (TPtr t) v -> g_ptr v = Some w -> has_type t w.
Proof. intros [->|(w' & -> & Hw)]%canonical_ptr; [done|]. by intros [= ->]. Qed.
Lemma typed_int v : has_type TInt v -> in_int64 (g_int v).
Proof. by intros (z & -> & Hz)%canonical_int. Qed.

#[export] Hint Resolve typed_elems typed_ptr typed_int : typing.

(** ** Soundness *)

Lemma zero_typed t : has_type t (zero_of t).
Proof.
  induction t as [| | | |fs IH|t IH|t IH|t IH] using ty_nested_ind; cbn; auto with typing.
  - constructor. unfold in_int64, int64_min, int64_max. lia.
  - constructor. by induction IH; constructor.
Qed.

Lemma parse_int64_range l z : parse_int64 l = Some z -> in_int64 z.
Proof.
  unfold parse_int64. destruct (match l with [] => _ | _ => _ end) as [neg d].
  destruct d as [|c d]; [done|]. destruct (forallb _ _); [|done].
  set (v := if neg then _ else _). unfold in_int64. zcase (int64_min <=? v); zcase (v <=? int64_max); try done.
  cbn. intros [= <-]. done.
Qed.

Lemma parse_float_finite l f : parse_float l = Some f -> f64_is_inf f = false.
Proof.
  unfold parse_float. destruct (decimal_parts l) as [[[neg d] e]|]; [|done].
  destruct (f64_is_inf (round_decimal neg d e)) eqn:E; [done|]. by intros [= <-].
Qed.

Lemma map_set_typed t k v m :
  has_type t v -> Forall (fun kv => has_type t (snd kv)) m ->
  Forall (fun kv => has_type t (snd kv)) (map_set k v m).
Proof.
  intros Hv Hm. induction Hm as [|[k' v'] m Hkv Hm IH]; cbn [map_set]; [by repeat constructor|].
  destruct (bytes_eqb k k'); by constructor.
Qed.

(** One member of an object, decoded into its field. *)
Definition member_step (fs : list (string * ty)) (acc : list gov * bool) (kv : list byte * json) :
    list gov * bool :=
  let '(k, jv) := kv in
  let '(vs, ok) := acc in
  match find_field fs k with
  | None => (vs, ok)
  | Some i =>
      match fs !! i, vs !! i with
      | Some (_, ft), Some fv => let '(w, ok') := decode jv ft fv in (<[i := w]> vs, ok && ok')
      | _, _ => (vs, ok)
      end
  end.

Definition sound (j : json) : Prop := forall t v, has_type t v -> has_type t (decode j t v).1.

Lemma member_step_typed fs vs ok kv :
  sound (snd kv) -> Forall2 (fun f v => has_type (snd f) v) fs vs ->
  Forall2 (fun f v => has_type (snd f) v) fs (member_step fs (vs, ok) kv).1.
Proof.
  destruct kv as [k jv]. intros Hj Hvs. cbn in Hj |- *. destruct (find_field fs k) as [i|]; [|done].
  destruct (fs !! i) as [[n ft]|] eqn:Hi; [|done]. destruct (vs !! i) as [fv|] eqn:Hv; [|done].
  pose proof (Forall2_lookup_lr _ _ _ _ _ _ Hvs Hi Hv) as Hfv.
  specialize (Hj ft fv Hfv). destruct (decode jv ft fv) as [w ok']. cbn [fst] in *.
  rewrite <- (list_insert_id fs i (n, ft) Hi). by apply Forall2_insert.
Qed.

Lemma members_typed fs kvs vs ok :
  Forall (fun kv => sound (snd kv)) kvs -> Forall2 (fun f v => has_type (snd f) v) fs vs ->
  Forall2 (fun f v => has_type (snd f) v) fs (foldl (member_step fs) (vs, ok) kvs).1.
Proof.
  intros Hk. revert vs ok. induction Hk as [|kv kvs Hj Hk IH]; intros vs ok Hvs; [done|]. cbn [foldl].
  pose proof (member_step_typed fs vs ok kv Hj Hvs) as Hs.
  destruct (member_step fs (vs, ok) kv) as [vs1 ok1]. by apply IH.
Qed.

(** One element of an array, decoded over what the backing array still holds. *)
Definition element_step (t : ty) (acc : list gov * list gov * bool) (jv : json) :
    list gov * list gov * bool :=
  let '(out, backing, ok) := acc in
  let prev := match backing with x :: _ => x | [] => zero_of t end in
  let '(w, ok') := decode jv t prev in (out ++ [w], tail backing, ok && ok').

Lemma elements_typed t js out backing ok :
  Forall sound js -> Forall (has_type t) out -> Forall (has_type t) backing ->
  let '(out', rest, _) := foldl (element_step t) (out, backing, ok) js in
  Forall (has_type t) out' /\ Forall (has_type t) rest.
Proof.
  intros Hj. revert out backing ok. induction Hj as [|j js Hj Hjs IH]; intros out backing ok Ho Hb; [done|].
  cbn [foldl element_step]. set (prev := match backing with x :: _ => x | [] => _ end).
  assert (has_type t prev) as Hp by (subst prev; destruct Hb; cbn; auto using zero_typed).
  specialize (Hj t prev Hp). destruct (decode j t prev) as [w ok']. cbn [fst] in Hj. apply IH.
  - apply Forall_app. auto.
  - by destruct Hb.
Qed.

Definition entry_step (t : ty) (acc : list (list byte * gov) * bool) (kv : list byte * json) :
    list (list byte * gov) * bool :=
  let '(k, jv) := kv in
  let '(m, ok) := acc in
  let '(w, ok') := decode jv t (zero_of t) in (map_set k w m, ok && ok').

Lemma entries_typed t kvs m ok :
  Forall (fun kv => sound (snd kv)) kvs -> Forall (fun kv => has_type t (snd kv)) m ->
  Forall (fun kv => has_type t (snd kv)) (foldl (entry_step t) (m, ok) kvs).1.
Proof.
  intros Hk. revert m ok. induction Hk as [|[k j] kvs Hj Hk IH]; intros m ok Hm; [done|].
  cbn [foldl entry_step]. cbn [snd] in Hj. specialize (Hj t (zero_of t) (zero_typed t)).
  destruct (decode j t (zero_of t)) as [w ok']. apply IH. by apply map_set_typed.
Qed.

Lemma decode_ptr j t v :
  j <> JNull ->
  decode j (TPtr t) v
  = let '(w, ok) := decode j t (match v with GRef w => w | _ => zero_of t end) in (GRef w, ok).
Proof. by destruct j. Qed.

(** The decoder is sound where it follows pointers, if it is on what they point to. *)
Lemma sound_ptr j t :
  j <> JNull -> (forall v, has_type t v -> has_type t (decode j t v).1) ->
  forall v, has_type (TPtr t) v -> has_type (TPtr t) (decode j (TPtr t) v).1.
Proof.
  intros Hj IH v Hv. rewrite decode_ptr by done.
  specialize (IH (match v with GRef w => w | _ => zero_of t end)).
  destruct (decode j t _) as [w ok]. cbn [fst] in *. constructor. apply IH.
  apply canonical_ptr in Hv as [->|(w' & -> & Hw)]; [apply zero_typed|done].
Qed.

Lemma decode_sound j : sound j.
Proof.
  induction j as [|b|n|s|js IH|kvs IH] using json_nested_ind;
    intros t; induction t as [| | | |fs|t IHt|t IHt|t IHt]; intros v Hv; try exact Hv;
    try (by apply sound_ptr); cbn; try (by repeat constructor).
  - destruct (parse_int64 n) as [z|] eqn:E; [|done]. constructor. by eapply parse_int64_range.
  - destruct (parse_float n) as [f|] eqn:E; [|done]. constructor. by eapply parse_float_finite.
  - destruct js as [|j js]; [by repeat constructor|].
    inversion Hv; subst. cbn zeta.
    pose proof (elements_typed t (j :: js) [] (elems ++ stale) true IH (Forall_nil_2 _)) as He.
    unfold element_step in He. destruct (foldl _ _ _) as [[out rest] ok].
    destruct He as [Ho Hr]; [by apply Forall_app|]. by constructor.
  - inversion Hv; subst.
    pose proof (members_typed fs kvs vs true IH) as Hm. unfold member_step in Hm.
    destruct (foldl _ _ _) as [vs' ok]. constructor. by apply Hm.
  - inversion Hv; subst.
    pose proof (entries_typed t kvs m true IH) as Hm. unfold entry_step in Hm.
    destruct (foldl _ _ _) as [m' ok]. constructor. by apply Hm.
Qed.

(** Whatever bytes arrive, what decodes has the type of its target. *)
Lemma unmarshal_typed t l v : unmarshal t l = Some v -> has_type t v.
Proof.
  unfold unmarshal. destruct (parse l) as [j|]; [|done].
  pose proof (decode_sound j t (zero_of t) (zero_typed t)) as Hd.
  destruct (decode j t (zero_of t)) as [w []]; [|done]. by intros [= <-].
Qed.
