(* ===== verification/GoJsonPrint.v ===== *)
(** * The encoder of encoding/json, as far as the program uses it

    Strings, with HTML escaping on (the default of json.Encoder), and integers, against the
    parser of GoJson: what is printed parses back, invalid UTF-8 replaced as both sides of
    encoding/json do, and holds no control character. *)

From S2P Require Import Prelude GoFloat GoJson JsonTyping.

(** ** Strings *)

Definition lower_hex (n : Z) : byte := byte_of_Z (if n <? 10 then 48 + n else 87 + n).

Definition html_unsafe (c : byte) : bool := byte_eqb c "<" || byte_eqb c ">" || byte_eqb c "&".

(** appendString on an ASCII byte. *)
Definition print_ascii (c : byte) : list byte :=
  if byte_eqb c "034" || byte_eqb c "\" then ["\"%byte; c]
  else if byte_eqb c "008" then ["\"; "b"]%byte
  else if byte_eqb c "012" then ["\"; "f"]%byte
  else if byte_eqb c "010" then ["\"; "n"]%byte
  else if byte_eqb c "013" then ["\"; "r"]%byte
  else if byte_eqb c "009" then ["\"; "t"]%byte
  else if (byte_to_Z c <? 32) || html_unsafe c
  then ["\"; "u"; "0"; "0"]%byte ++ [lower_hex (byte_to_Z c / 16); lower_hex (byte_to_Z c mod 16)]
  else [c].

Definition line_separator : list byte := ["226"; "128"; "168"]%byte.
Definition paragraph_separator : list byte := ["226"; "128"; "169"]%byte.

(** One rune at the head of [l]: its text, and the bytes it took. *)
Definition print_rune (c : byte) (l : list byte) : list byte * nat :=
  if byte_to_Z c <? 128 then (print_ascii c, 1%nat)
  else match utf8_len (c :: l) with
       | O => (bytes_of_string "\ufffd", 1%nat)
       | n =>
           if bool_decide (take n (c :: l) = line_separator) then (bytes_of_string "\u2028", n)
           else if bool_decide (take n (c :: l) = paragraph_separator) then (bytes_of_string "\u2029", n)
           else (take n (c :: l), n)
       end.

Fixpoint print_body (fuel : nat) (l : list byte) : list byte :=
  match fuel, l with
  | S fuel', c :: r => let '(t, n) := print_rune c r in t ++ print_body fuel' (drop n l)
  | _, _ => []
  end.

Definition print_string (s : list byte) : list byte :=
  "034"%byte :: print_body (length s) s ++ ["034"%byte].

(** A string with every invalid byte replaced by U+FFFD (strings.ToValidUTF8, rune by rune). *)
Fixpoint valid_body (fuel : nat) (l : list byte) : list byte :=
  match fuel, l with
  | S fuel', c :: r =>
      match utf8_len l with
      | O => replacement ++ valid_body fuel' r
      | n => take n l ++ valid_body fuel' (drop n l)
      end
  | _, _ => []
  end.
Definition to_valid (s : list byte) : list byte := valid_body (length s) s.

(** ** Integers *)

Fixpoint print_digits (fuel : nat) (n : Z) (acc : list byte) : list byte :=
  match fuel with
  | O => acc
  | S fuel' =>
      let acc := byte_of_Z (48 + n mod 10) :: acc in
      if n / 10 =? 0 then acc else print_digits fuel' (n / 10) acc
  end.

(** strconv.AppendInt in base 10: at most twenty digits. *)
Definition print_int (z : Z) : list byte :=
  if z <? 0 then "-"%byte :: print_digits 20 (- z) [] else print_digits 20 z [].

(** ** Strings parse back *)

Lemma print_ascii_parses c pf tail :
  (byte_to_Z c <? 128) = true ->
  parse_string (S pf) (print_ascii c ++ tail)
  = match parse_string pf tail with Some (s, r) => Some ([c] ++ s, r) | None => None end.
Proof. destruct c; first [discriminate|intros _; reflexivity]. Qed.

Lemma utf8_len_bounds l : (utf8_len l <= length l)%nat.
Proof. unfold utf8_len. repeat case_match; cbn; lia. Qed.

Lemma utf8_len_take l n tail : utf8_len l = S n -> utf8_len (take (S n) l ++ tail) = S n.
Proof.
  destruct l as [|a l]; [done|]. cbn [utf8_len take app].
  destruct (byte_to_Z a <? 128); [by intros [= <-]|].
  destruct (between 194 223 a).
  { destruct l as [|b l]; [done|]. destruct (cont b) eqn:Eb; [|done]. intros [= <-]. cbn. by rewrite Eb. }
  destruct (between 224 239 a).
  { destruct l as [|b [|c l]]; try done. destruct (between _ _ b && cont c) eqn:E; [|done].
    intros [= <-]. cbn. by rewrite E. }
  destruct (between 240 244 a); [|done].
  destruct l as [|b [|c [|d l]]]; try done. destruct (between _ _ b && cont c && cont d) eqn:E; [|done].
  intros [= <-]. cbn. by rewrite E.
Qed.

(** What a decoder reads for the rune at the head of [c :: l]. *)
Definition rune_value (c : byte) (l : list byte) (n : nat) : list byte :=
  match utf8_len (c :: l) with O => replacement | _ => take n (c :: l) end.

(** The text of one rune parses to the rune, U+FFFD for an invalid byte. *)
Lemma print_rune_parses c l pf tail :
  let '(t, n) := print_rune c l in
  parse_string (S pf) (t ++ tail)
  = (match parse_string pf tail with
     | Some (s, r) => Some (rune_value c l n ++ s, r)
     | None => None
     end)
  /\ n = Nat.max 1 (utf8_len (c :: l)).
Proof.
  unfold print_rune, rune_value. destruct (byte_to_Z c <? 128) eqn:Ec.
  { assert (utf8_len (c :: l) = 1%nat) as -> by (cbn; by rewrite Ec).
    split; [|done]. by apply print_ascii_parses. }
  destruct (utf8_len (c :: l)) as [|n] eqn:En; [by split|].
  case_bool_decide as Hl; [split; [rewrite Hl; reflexivity|done]|].
  case_bool_decide as Hp; [split; [rewrite Hp; reflexivity|done]|]. split; [|done].
  pose proof (utf8_len_take _ _ tail En) as Ht. pose proof (utf8_len_bounds (c :: l)) as Hb.
  rewrite En in Hb.
  assert (take (S n) (take (S n) (c :: l) ++ tail) = take (S n) (c :: l)
          /\ drop (S n) (take (S n) (c :: l) ++ tail) = tail) as [Ht1 Hd1].
  { assert (length (take (S n) (c :: l)) = S n) as Hn by (apply firstn_length_le; lia).
    by rewrite take_app_length', drop_app_length'. }
  destruct (take (S n) (c :: l)) as [|c' l'] eqn:Etk; [done|].
  assert (c' = c) as -> by (cbn in Etk; congruence). cbn [app] in *. cbn [parse_string].
  assert (byte_eqb c "034" = false /\ byte_eqb c "\" = false /\ (byte_to_Z c <? 32) = false) as (-> & -> & ->)
    by (clear -Ec; by destruct c).
  by rewrite Ht, Ht1, Hd1.
Qed.

Lemma print_body_parses fuel l pf rest :
  (length l <= fuel)%nat -> (length (print_body fuel l) < pf)%nat ->
  parse_string pf (print_body fuel l ++ "034"%byte :: rest) = Some (valid_body fuel l, rest).
Proof.
  revert l pf. induction fuel as [|fuel IH]; intros l pf Hl Hpf.
  { destruct l; [|cbn in Hl; lia]. destruct pf; [cbn in Hpf; lia|]. done. }
  destruct l as [|c l]; [destruct pf; [cbn in Hpf; lia|done]|]. cbn [print_body valid_body] in *.
  destruct pf as [|pf]; [lia|].
  pose proof (print_rune_parses c l pf (print_body fuel (drop (Nat.max 1 (utf8_len (c :: l))) (c :: l))
    ++ "034"%byte :: rest)) as Hr.
  assert (1 <= length (print_rune c l).1)%nat as Ht.
  { unfold print_rune. destruct (_ <? _); [clear; by destruct c; cbn; lia|].
    pose proof (utf8_len_bounds (c :: l)). destruct (utf8_len (c :: l)); [cbn; lia|].
    do 2 (case_bool_decide; [cbn; lia|]). cbn [fst]. rewrite firstn_length_le by done. lia. }
  destruct (print_rune c l) as [t n]. destruct Hr as [Hr ->]. cbn [fst] in Ht.
  rewrite length_app in Hpf. rewrite <- app_assoc, Hr, IH; [| |lia]; unfold rune_value.
  - destruct (utf8_len (c :: l)) as [|k]; [done|]. by replace (Nat.max 1 (S k)) with (S k) by lia.
  - rewrite length_drop. cbn [length] in *. lia.
Qed.

Lemma print_string_parses s rest pf :
  (length (print_string s) <= pf)%nat ->
  parse_string pf (print_body (length s) s ++ "034"%byte :: rest) = Some (to_valid s, rest).
Proof.
  intros Hpf. apply print_body_parses; [done|]. unfold print_string in Hpf. cbn in Hpf.
  rewrite length_app in Hpf. cbn in Hpf. lia.
Qed.

(** Text with no invalid byte is printed unchanged. *)
Definition utf8_valid (s : list byte) : Prop := to_valid s = s.
#[global] Instance utf8_valid_dec s : Decision (utf8_valid s) := _.

(** ** Integers parse back *)

Lemma digit_facts k :
  0 <= k < 10 ->
  is_digit (byte_of_Z (48 + k)) = true /\ digit_val (byte_of_Z (48 + k)) = k
  /\ byte_eqb (byte_of_Z (48 + k)) "0" = (k =? 0) /\ byte_eqb (byte_of_Z (48 + k)) "-" = false
  /\ byte_eqb (byte_of_Z (48 + k)) "+" = false.
Proof.
  intros Hk. assert (In k [0; 1; 2; 3; 4; 5; 6; 7; 8; 9]) as Hin by (cbn; lia).
  cbn in Hin. destruct_or!; subst; done.
Qed.

Lemma digits_val_snoc ds d : digits_val (ds ++ [d]) = digits_val ds * 10 + digit_val d.
Proof. unfold digits_val. by rewrite foldl_app. Qed.

(** The digits of [n], most significant first, without a leading zero. *)
Record numeral (n : Z) (c : byte) (ds : list byte) : Prop := {
  num_digits : Forall (fun c => is_digit c = true) (c :: ds);
  num_val : digits_val (c :: ds) = n;
  num_zero : byte_eqb c "0" = (n =? 0);
  num_single : n = 0 -> ds = []
}.

Lemma print_digits_numeral fuel n acc :
  0 <= n < 10 ^ Z.of_nat fuel -> (0 < fuel)%nat ->
  exists c ds, print_digits fuel n acc = c :: ds ++ acc /\ numeral n c ds.
Proof.
  revert n acc. induction fuel as [|fuel IH]; intros n acc Hn Hf; [lia|]. cbn [print_digits].
  rewrite Nat2Z.inj_succ, Z.pow_succ_r in Hn by lia.
  pose proof (Z.mod_pos_bound n 10 ltac:(lia)) as Hm. pose proof (Z.div_mod n 10 ltac:(lia)) as Hd.
  destruct (digit_facts _ Hm) as (Hdig & Hval & Hzero & _).
  destruct (n / 10 =? 0) eqn:E.
  { apply Z.eqb_eq in E. assert (n mod 10 = n) as Hn' by lia.
    exists (byte_of_Z (48 + n mod 10)), []. split; [done|].
    split; [by repeat constructor|unfold digits_val; cbn; lia|by rewrite Hzero, Hn'|done]. }
  apply Z.eqb_neq in E. destruct fuel as [|fuel]; [cbn in Hn; nia|].
  destruct (IH (n / 10) (byte_of_Z (48 + n mod 10) :: acc)) as (c & ds & -> & [H1 H2 H3 H4]);
    [split; [apply Z.div_pos; lia|apply Z.div_lt_upper_bound; lia]|lia|].
  exists c, (ds ++ [byte_of_Z (48 + n mod 10)]). split; [by rewrite <- app_assoc|]. split.
  - change (c :: ds ++ ?x) with ((c :: ds) ++ x). apply Forall_app. split; [done|by repeat constructor].
  - change (c :: ds ++ ?x) with ((c :: ds) ++ x). rewrite digits_val_snoc, H2, Hval. lia.
  - rewrite H3. assert (n <> 0) by (intros ->; done).
    by rewrite (proj2 (Z.eqb_neq _ _) E), (proj2 (Z.eqb_neq n 0) H).
  - intros ->. done.
Qed.

(** What follows a value inside an object. *)
Definition delimited (rest : list byte) : Prop :=
  exists c r, rest = c :: r /\ (c = "," \/ c = "}" \/ c = "]")%byte.

Lemma numeral_sign n c ds :
  numeral n c ds -> byte_eqb c "-" = false /\ byte_eqb c "+" = false /\ is_digit c = true
                    /\ is_ws c = false.
Proof.
  intros [Hd _ _ _]. apply Forall_cons in Hd as [Hd _]. clear -Hd.
  by destruct c; first [discriminate Hd|done].
Qed.

(** A numeral, signed or not, is scanned as one number. *)
Lemma parse_numeral n c ds sign rest :
  numeral n c ds -> sign = [] \/ sign = ["-"%byte] -> delimited rest ->
  parse_number (sign ++ c :: ds ++ rest) = Some (sign ++ c :: ds, rest).
Proof.
  intros Hn Hs (x & r & -> & Hx). pose proof (numeral_sign _ _ _ Hn) as (Hm & Hp & Hdig & _).
  destruct Hn as [Hd _ Hz H0].
  assert (span is_digit (c :: ds ++ x :: r) = (c :: ds, x :: r)) as Hspan.
  { apply (span_exact is_digit (c :: ds) (x :: r)); [done|]. by destruct Hx as [-> | [-> | ->]]. }
  unfold parse_number. destruct Hs as [-> | ->]; cbn [app].
  - rewrite Hm. cbv beta iota zeta. rewrite Hz, Hdig, Hspan. destruct (n =? 0) eqn:E0; [rewrite (H0 (proj1 (Z.eqb_eq _ _) E0))|];
      destruct Hx as [-> | [-> | ->]]; cbn; by rewrite ?app_nil_r.
  - change (byte_eqb "-" "-") with true. cbv beta iota zeta. rewrite Hz, Hdig, Hspan.
    destruct (n =? 0) eqn:E0; [rewrite (H0 (proj1 (Z.eqb_eq _ _) E0))|];
      destruct Hx as [-> | [-> | ->]]; cbn; by rewrite ?app_nil_r.
Qed.

(** [print_int] on the two signs. *)
Lemma print_int_numeral z :
  in_int64 z ->
  exists sign c ds, print_int z = sign ++ c :: ds /\ (sign = [] \/ sign = ["-"%byte])
    /\ numeral (Z.abs z) c ds /\ z = (if bool_decide (sign = []) then Z.abs z else - Z.abs z).
Proof.
  intros Hz. assert (0 <= Z.abs z < 10 ^ Z.of_nat 20) as Hb by (cbn; unfold in_int64, int64_min, int64_max in *; lia).
  destruct (print_digits_numeral 20 (Z.abs z) [] Hb ltac:(lia)) as (c & ds & Hp & Hn).
  rewrite app_nil_r in Hp. unfold print_int.
  destruct (Z.ltb_spec z 0).
  - exists ["-"%byte], c, ds. rewrite <- Z.abs_neq, Hp by lia. split_and!; [done|by right|done|cbn; lia].
  - exists [], c, ds. rewrite <- (Z.abs_eq z) at 1 by lia. rewrite Hp.
    split_and!; [done|by left|done|cbn; lia].
Qed.

Lemma print_int_parses z rest :
  in_int64 z -> delimited rest -> parse_number (print_int z ++ rest) = Some (print_int z, rest).
Proof.
  intros Hz Hr. destruct (print_int_numeral z Hz) as (sign & c & ds & -> & Hs & Hn & _).
  rewrite <- app_assoc. by apply (parse_numeral _ _ _ _ _ Hn Hs Hr).
Qed.

Lemma print_int_reads z : in_int64 z -> parse_int64 (print_int z) = Some z.
Proof.
  intros Hz. destruct (print_int_numeral z Hz) as (sign & c & ds & -> & Hs & Hn & Hsz).
  pose proof (numeral_sign _ _ _ Hn) as (Hm & Hp & _). destruct Hn as [Hd Hv _ _].
  assert (forallb is_digit (c :: ds) = true) as Hf by (by apply forallb_forall, List.Forall_forall).
  unfold parse_int64. unfold in_int64 in Hz.
  destruct Hs as [-> | ->]; cbn [app bool_decide] in *.
  - rewrite Hm, Hp, Hf, Hv. cbn in Hsz. rewrite <- Hsz.
    by rewrite (proj2 (Z.leb_le _ _) (proj1 Hz)), (proj2 (Z.leb_le _ _) (proj2 Hz)).
  - change (byte_eqb "-" "-") with true. cbv beta iota zeta. rewrite Hf, Hv. cbn in Hsz. rewrite <- Hsz.
    by rewrite (proj2 (Z.leb_le _ _) (proj1 Hz)), (proj2 (Z.leb_le _ _) (proj2 Hz)).
Qed.

(** ** No control character is printed *)

Definition printable (c : byte) : Prop := 32 <= byte_to_Z c.

Lemma between_printable lo hi c : 32 <= lo -> between lo hi c = true -> printable c.
Proof. unfold between, printable. intros Hlo [H _]%andb_true_iff. lia. Qed.

Lemma utf8_printable c l :
  (byte_to_Z c <? 128) = false -> Forall printable (take (utf8_len (c :: l)) (c :: l)).
Proof.
  intros Hc. assert (printable c) as Hp by (unfold printable; lia). cbn [utf8_len]. rewrite Hc.
  assert (forall b, cont b = true -> printable b) as Hcont.
  { intros b. apply between_printable. lia. }
  destruct (between 194 223 c).
  { destruct l as [|b l]; [constructor|]. destruct (cont b) eqn:Eb; [|constructor].
    cbn. by repeat (constructor; auto). }
  destruct (between 224 239 c).
  { destruct l as [|b [|d l]]; try by constructor. case_match; [|constructor].
    apply andb_true_iff in H as [H1 H2]. cbn. repeat (constructor; auto).
    eapply between_printable; [|exact H1]. case_match; lia. }
  destruct (between 240 244 c); [|constructor].
  destruct l as [|b [|d [|e l]]]; try by constructor. case_match; [|constructor].
  apply andb_true_iff in H as [[H1 H2]%andb_true_iff H3]. cbn. repeat (constructor; auto).
  eapply between_printable; [|exact H1]. case_match; lia.
Qed.

Lemma print_ascii_printable c : Forall printable (print_ascii c).
Proof. unfold printable. destruct c; cbv; repeat (constructor; [intros H; discriminate H|]); constructor. Qed.

Lemma print_rune_printable c l : Forall printable (print_rune c l).1.
Proof.
  unfold print_rune. destruct (byte_to_Z c <? 128) eqn:Hc; [apply print_ascii_printable|].
  pose proof (utf8_printable c l Hc) as Hu.
  destruct (utf8_len (c :: l)) as [|n]; [by repeat (constructor; [vm_compute; discriminate|])|].
  do 2 (case_bool_decide; [by repeat (constructor; [vm_compute; discriminate|])|]). done.
Qed.

Lemma print_body_printable fuel l : Forall printable (print_body fuel l).
Proof.
  revert l. induction fuel as [|fuel IH]; intros [|c l]; cbn [print_body]; try constructor.
  pose proof (print_rune_printable c l) as Hr. destruct (print_rune c l) as [t n].
  by apply Forall_app.
Qed.

Lemma print_string_printable s : Forall printable (print_string s).
Proof.
  constructor; [vm_compute; discriminate|]. apply Forall_app. split; [apply print_body_printable|].
  by repeat (constructor; [vm_compute; discriminate|]).
Qed.

Lemma print_digits_printable fuel n acc : Forall printable acc -> Forall printable (print_digits fuel n acc).
Proof.
  revert n acc. induction fuel as [|fuel IH]; intros n acc Ha; [done|]. cbn [print_digits].
  assert (printable (byte_of_Z (48 + n mod 10))) as Hd.
  { pose proof (digit_facts (n mod 10) ltac:(apply Z.mod_pos_bound; lia)) as [Hd _].
    eapply between_printable; [|exact Hd]. lia. }
  case_match; [by constructor|]. apply IH. by constructor.
Qed.

Lemma print_int_printable z : Forall printable (print_int z).
Proof.
  unfold print_int. case_match; [constructor; [vm_compute; discriminate|]|]; by apply print_digits_printable.
Qed.
