(* ===== verification/GoFloatPrint.v ===== *)
(** * strconv.FormatFloat(f, _, -1, 64) as encoding/json writes a float64

    The shortest decimal that reads back as the number, nearest to it among those; written
    without an exponent from 1e-6 up to 1e21 and with one outside. *)

From Stdlib Require Import SpecFloat.
From S2P Require Import Prelude GoFloat GoJson JsonTyping GoJsonPrint.

(** ** The shortest decimal *)

#[export] Instance spec_float_eq_dec : EqDecision spec_float.
Proof. solve_decision. Defined.

(** The magnitude m * 2^e as a fraction. *)
Definition f64_fraction (m : positive) (e : Z) : Z * Z :=
  if 0 <=? e then (Zpos m * 2 ^ e, 1) else (Zpos m, 2 ^ (- e)).

(** 10^k <= num / den. *)
Definition ten_le (k num den : Z) : bool :=
  if 0 <=? k then 10 ^ k * den <=? num else den <=? num * 10 ^ (- k).

(** The exponent of the leading decimal digit: [k] moved up while the next power of ten
    still fits. *)
Fixpoint leading (fuel : nat) (k num den : Z) : Z :=
  match fuel with
  | O => k
  | S fuel' => if ten_le (k + 1) num den then leading fuel' (k + 1) num den else k
  end.
Definition leading_exponent (m : positive) (e : Z) : Z :=
  let '(num, den) := f64_fraction m e in
  leading 8 ((Z.log2 (Zpos m) + e) * 30103 / 100000 - 2) num den.

(** The two integers around num / den * 10^(-p), the nearest (ties to even) first. *)
Definition candidates (num den p : Z) : list Z :=
  let '(a, b) := if 0 <=? p then (num, den * 10 ^ p) else (num * 10 ^ (- p), den) in
  let q := a / b in
  let up := match Z.compare (2 * (a mod b)) b with Lt => false | Gt => true | Eq => Z.odd q end in
  if up then [q + 1; q] else [q; q + 1].

(** The digits carry no trailing zero. *)
Fixpoint strip_zeros (fuel : nat) (d p : Z) : Z * Z :=
  match fuel with
  | O => (d, p)
  | S fuel' => if (d mod 10 =? 0) && (0 <? d) then strip_zeros fuel' (d / 10) (p + 1) else (d, p)
  end.

(** ** The text of d * 10^p *)

Definition decimal_text (d : Z) : list byte := print_digits (Z.to_nat (Z.log2 d) + 1) d [].

Definition zeros (n : Z) : list byte := replicate (Z.to_nat n) "0"%byte.

(** 'f': [ds] holds at least one digit. *)
Definition fixed_text (ds : list byte) (p : Z) : list byte :=
  let dp := Z.of_nat (length ds) + p in
  (if dp <=? 0 then ["0"%byte] else take (Z.to_nat dp) ds ++ zeros p)
  ++ (if 0 <=? p then [] else "."%byte :: zeros (- dp) ++ drop (Z.to_nat dp) ds).

(** 'e', with encoding/json's clean-up of the exponent (no leading zero). *)
Definition exponent_text (ds : list byte) (p : Z) : list byte :=
  let x := Z.of_nat (length ds) - 1 + p in
  match ds with
  | [] => []
  | c :: r =>
      c :: (match r with [] => [] | _ => "."%byte :: r end)
      ++ "e"%byte :: (if x <? 0 then "-"%byte else "+"%byte) :: decimal_text (Z.abs x)
  end.

Definition number_text (s exponent : bool) (d p : Z) : list byte :=
  (if s then ["-"%byte] else [])
  ++ (if exponent then exponent_text (decimal_text d) p else fixed_text (decimal_text d) p).

(** ** The search

    From [n] digits up, [fuel] of them: the first candidate whose text reads back as [f]. *)
Fixpoint search_digits (fuel : nat) (n k num den : Z) (s exponent : bool) (f : float64) : option (list byte) :=
  match fuel with
  | O => None
  | S fuel' =>
      let p := k - n + 1 in
      let texts := (fun d => let '(d, p) := strip_zeros 20 d p in number_text s exponent d p) <$>
                     filter (fun d => 0 < d) (candidates num den p) in
      match filter (fun t => parse_float t = Some f) texts with
      | t :: _ => Some t
      | [] => search_digits fuel' (n + 1) k num den s exponent f
      end
  end.

(** 1e-6 and 1e21, between which no exponent is written. *)
Definition f64_1em6 : float64 := round_decimal false 1 (-6).
Definition f64_1e21 : float64 := round_decimal false 1 21.

(** floatEncoder: None is an UnsupportedValueError (seventeen digits are always enough for
    a finite number). *)
Definition print_float (f : float64) : option (list byte) :=
  match f with
  | S754_zero s => Some ((if s then ["-"%byte] else []) ++ ["0"%byte])
  | S754_finite s m e =>
      let abs := S754_finite false m e in
      let '(num, den) := f64_fraction m e in
      search_digits 17 1 (leading_exponent m e) num den s
        (f64_ltb abs f64_1em6 || f64_leb f64_1e21 abs) f
  | _ => None
  end.

Example print_float_examples :
  let show f := string_of_bytes <$> print_float f in
  show (f64_div (f64_of_Z 12) (f64_of_Z 5)) = Some "2.4"%string
  /\ show (f64_of_Z 1200) = Some "1200"%string
  /\ show (f64_div (f64_of_Z 1) (f64_of_Z 3)) = Some "0.3333333333333333"%string
  /\ show (round_decimal true 1 23) = Some "-1e+23"%string
  /\ show (round_decimal false 15 (-8)) = Some "1.5e-7"%string
  /\ show (round_decimal false 1 (-6)) = Some "0.000001"%string
  /\ show (f64_of_Z (2 ^ 60)) = Some "1152921504606847000"%string
  /\ show (S754_finite false 1 (-1074)) = Some "5e-324"%string
  /\ show (round_decimal false 17976931348623157 292) = Some "1.7976931348623157e+308"%string
  /\ show (S754_zero true) = Some "-0"%string /\ show S754_nan = None.
Proof. vm_compute. repeat split. Qed.

(** ** What is printed is a JSON number and reads back *)

Lemma search_reads fuel n k num den s ex f t :
  search_digits fuel n k num den s ex f = Some t ->
  parse_float t = Some f /\ exists d p, 0 < d /\ t = number_text s ex d p.
Proof.
  revert n. induction fuel as [|fuel IH]; intros n Hs; [done|]. cbn [search_digits] in Hs.
  destruct (filter _ (_ <$> _)) as [|t' ts] eqn:Ef; [by apply IH in Hs|]. injection Hs as ->.
  assert (t ∈ t :: ts) as Hin by (by left). rewrite <- Ef in Hin.
  apply list_elem_of_filter in Hin as [Hr Hin]. split; [done|].
  apply list_elem_of_fmap in Hin as (d & -> & [Hd _]%list_elem_of_filter).
  assert (forall m d p, 0 < d -> 0 < (strip_zeros m d p).1) as Hstrip.
  { clear. induction m as [|m IH]; intros d p Hd; [done|]. cbn [strip_zeros].
    destruct (d mod 10 =? 0) eqn:E; [|done]. cbn [andb]. destruct (0 <? d); [|done]. zbool. apply IH.
    Z.to_euclidean_division_equations. lia. }
  pose proof (Hstrip 20%nat d (k - n + 1) Hd). destruct (strip_zeros _ _ _) as [d' p']. by exists d', p'.
Qed.

Lemma decimal_numeral d : 0 <= d -> exists c ds, decimal_text d = c :: ds /\ numeral d c ds.
Proof.
  intros Hd. destruct (print_digits_numeral (Z.to_nat (Z.log2 d) + 1) d []) as (c & ds & Ht & Hn); [|lia|].
  - split; [done|]. rewrite Nat2Z.inj_add, Z2Nat.id by apply Z.log2_nonneg. change (Z.of_nat 1) with 1.
    destruct (decide (d = 0)) as [->|]; [done|]. pose proof (Z.log2_spec d ltac:(lia)) as [_ Hlt].
    eapply Z.lt_le_trans; [exact Hlt|]. rewrite <- Z.add_1_r. apply Z.pow_le_mono_l.
    pose proof (Z.log2_nonneg d). lia.
  - exists c, ds. split; [|done]. unfold decimal_text. by rewrite Ht, app_nil_r.
Qed.

(** The three parts of a number literal. *)
Definition all_digits (l : list byte) : Prop := Forall (fun c => is_digit c = true) l.
Definition int_part (i : list byte) : Prop :=
  exists c r, i = c :: r /\ all_digits i /\ (byte_eqb c "0" = true -> r = []).
Definition frac_part (f : list byte) : Prop :=
  f = [] \/ exists c r, f = "."%byte :: c :: r /\ all_digits (c :: r).
Definition exp_part (e : list byte) : Prop :=
  e = [] \/ exists sg c r, e = "e"%byte :: sg :: c :: r /\ (sg = "-" \/ sg = "+")%byte /\ all_digits (c :: r).

Lemma span_digits l r :
  all_digits l -> (match r with c :: _ => is_digit c = false | [] => True end) -> span is_digit (l ++ r) = (l, r).
Proof. intros Hl Hr. apply (span_exact is_digit l r); [done|]. by destruct r. Qed.

Definition ends_digits (r : list byte) : Prop := match r with c :: _ => is_digit c = false | [] => True end.

Lemma delimited_ends rest : delimited rest ->
  exists c r, rest = c :: r /\ is_digit c = false /\ byte_eqb c "." = false
              /\ byte_eqb c "e" = false /\ byte_eqb c "E" = false.
Proof. intros (c & r & -> & Hc). exists c, r. by destruct Hc as [-> | [-> | ->]]. Qed.

(** A literal made of the parts is scanned as one number. *)
Lemma parse_number_parts sg i f e rest :
  sg = [] \/ sg = ["-"%byte] -> int_part i -> frac_part f -> exp_part e -> delimited rest ->
  parse_number (sg ++ i ++ f ++ e ++ rest) = Some (sg ++ i ++ f ++ e, rest).
Proof.
  intros Hs (c & r & -> & Hi & H0) Hf He Hr. destruct (delimited_ends _ Hr) as (x & rr & -> & Hx & Hp & He1 & He2).
  assert (byte_eqb c "-" = false /\ is_digit c = true) as [Hm Hdig].
  { apply Forall_cons in Hi as [Hi _]. split; [|done]. clear -Hi. by destruct c. }
  assert (forall tl, ends_digits tl ->
    (if byte_eqb c "0" then Some ([c], r ++ tl) else if is_digit c then Some (span is_digit (c :: r ++ tl)) else None)
    = Some (c :: r, tl)) as Hint.
  { intros tl Htl. rewrite Hdig. destruct (byte_eqb c "0") eqn:E; [by rewrite (H0 eq_refl)|].
    f_equal. by apply (span_digits (c :: r) tl). }
  assert (ends_digits (e ++ x :: rr)
          /\ match e ++ x :: rr with y :: _ => byte_eqb y "." = false | [] => True end) as [Hee Hed]
    by (destruct He as [-> | (? & ? & ? & -> & _)]; done).
  assert (ends_digits (f ++ e ++ x :: rr)) as Hfe by (destruct Hf as [-> | (? & ? & -> & _)]; done).
  set (tl2 := e ++ x :: rr) in *.
  assert (match f ++ tl2 with
    | y :: r' => if byte_eqb y "." then match span is_digit r' with ([], _) => None | (d, r'') => Some (y :: d, r'') end
                 else Some ([], f ++ tl2)
    | [] => Some ([], f ++ tl2) end = Some (f, tl2)) as Hfrac.
  { destruct Hf as [-> | (c' & r' & -> & Hd)]; cbn [app]; [destruct tl2; [done|by rewrite Hed]|].
    change (byte_eqb "." ".") with true. cbv iota. pose proof (span_digits (c' :: r') tl2 Hd Hee) as Hsp. cbn [app] in Hsp. by rewrite Hsp. }
  assert (match tl2 with
    | y :: r' =>
        if byte_eqb y "e" || byte_eqb y "E" then
          let '(s, r1) := match r' with
            | x :: z => if byte_eqb x "+" || byte_eqb x "-" then ([x], z) else ([], r')
            | [] => ([], r') end in
          match span is_digit r1 with ([], _) => None | (d, r'') => Some (y :: s ++ d, r'') end
        else Some ([], tl2)
    | [] => Some ([], tl2) end = Some (e, x :: rr)) as Hexp.
  { subst tl2. destruct He as [-> | (sn & c' & r' & -> & Hsn & Hd)]; cbn [app]; [by rewrite He1, He2|].
    change (byte_eqb "e" "e" || byte_eqb "e" "E") with true. cbv iota.
    assert (byte_eqb sn "+" || byte_eqb sn "-" = true) as -> by (by destruct Hsn as [-> | ->]).
    pose proof (span_digits (c' :: r') (x :: rr) Hd Hx) as Hsp. cbn [app] in Hsp. by rewrite Hsp. }
  unfold parse_number. destruct Hs as [-> | ->]; cbn [app];
    [rewrite Hm|change (byte_eqb "-" "-") with true]; cbv beta iota zeta;
    by rewrite Hint, Hfrac, Hexp by done.
Qed.

Lemma zeros_digits n : all_digits (zeros n).
Proof. apply Forall_replicate. done. Qed.

Lemma fixed_parts n c ds p :
  numeral n c ds -> 0 < n -> exists i f, fixed_text (c :: ds) p = i ++ f /\ int_part i /\ frac_part f.
Proof.
  intros [Hd _ Hz _] Hn. unfold fixed_text. set (l := c :: ds) in *. set (dp := Z.of_nat (length l) + p).
  eexists _, _. split; [reflexivity|]. split.
  - zcase (dp <=? 0); [exists "0"%byte, []; by repeat constructor|].
    assert (Z.to_nat dp = S (Z.to_nat dp - 1)) as -> by lia. unfold l at 1. cbn [take app].
    exists c, (take (Z.to_nat dp - 1) ds ++ zeros p). split; [done|]. split.
    + apply Forall_cons in Hd as [Hc Hd]. constructor; [done|]. apply Forall_app.
      split; [by apply Forall_take|apply zeros_digits].
    + rewrite Hz. intros E0. zbool. lia.
  - zcase (0 <=? p); [by left|]. right.
    assert (all_digits (zeros (- dp) ++ drop (Z.to_nat dp) l)) as Hall
      by (apply Forall_app; split; [apply zeros_digits|by apply Forall_drop]).
    destruct (zeros (- dp) ++ drop (Z.to_nat dp) l) as [|c' r'] eqn:Ez; [|by exists c', r'].
    apply (f_equal length) in Ez. rewrite length_app, length_drop in Ez. unfold zeros in Ez.
    rewrite length_replicate in Ez. unfold dp in Ez. cbn [length] in Ez. unfold l in *. cbn [length] in *. lia.
Qed.

Lemma exponent_parts n c ds p :
  numeral n c ds -> exists i f e, exponent_text (c :: ds) p = i ++ f ++ e
    /\ int_part i /\ frac_part f /\ exp_part e.
Proof.
  intros [Hd _ _ _]. apply Forall_cons in Hd as [Hc Hd]. unfold exponent_text.
  set (x := Z.of_nat (length (c :: ds)) - 1 + p).
  destruct (decimal_numeral (Z.abs x) ltac:(lia)) as (c' & r' & -> & [Hd' _ _ _]).
  exists [c], (match ds with [] => [] | _ => "."%byte :: ds end),
    ("e"%byte :: (if x <? 0 then "-"%byte else "+"%byte) :: c' :: r').
  split_and!; [done| | |].
  - exists c, []. split_and!; [done|by repeat constructor|done].
  - destruct ds as [|c2 ds]; [by left|right]. by exists c2, ds.
  - right. eexists _, c', r'. split; [done|]. split; [|done]. destruct (x <? 0); [by left|by right].
Qed.

Lemma number_text_parts s ex d p :
  0 < d -> exists sg i f e, number_text s ex d p = sg ++ i ++ f ++ e
    /\ (sg = [] \/ sg = ["-"%byte]) /\ int_part i /\ frac_part f /\ exp_part e.
Proof.
  intros Hd. destruct (decimal_numeral d ltac:(lia)) as (c & ds & Hc & Hn). unfold number_text. rewrite Hc.
  exists (if s then ["-"%byte] else []).
  assert ((if s then ["-"%byte] else []) = [] \/ (if s then ["-"%byte] else []) = ["-"%byte]) as Hs
    by (destruct s; [by right|by left]).
  destruct ex.
  - destruct (exponent_parts d c ds p Hn) as (i & f & e & -> & ? & ? & ?). by exists i, f, e.
  - destruct (fixed_parts d c ds p Hn Hd) as (i & f & -> & ? & ?). exists i, f, []. rewrite app_nil_r.
    split_and!; try done. by left.
Qed.

Lemma print_float_parts f t :
  print_float f = Some t ->
  exists sg i fr e, t = sg ++ i ++ fr ++ e /\ (sg = [] \/ sg = ["-"%byte]) /\ int_part i
    /\ frac_part fr /\ exp_part e.
Proof.
  intros Hp. destruct f as [s|s| |s m e]; try done.
  - injection Hp as <-. exists (if s then ["-"%byte] else []), ["0"%byte], [], [].
    split_and!; [by destruct s|destruct s; [by right|by left]| |by left|by left].
    exists "0"%byte, []. by repeat constructor.
  - cbn [print_float] in Hp. destruct (f64_fraction m e) as [num den].
    apply search_reads in Hp as (_ & d & p & Hd & ->). by apply number_text_parts.
Qed.

(** The text of a number is one JSON number wherever it stands in a document, and reads
    back as the same number. *)
Lemma print_float_back f t rest :
  print_float f = Some t -> delimited rest ->
  parse_float t = Some f /\ parse_number (t ++ rest) = Some (t, rest)
  /\ exists c r, t = c :: r /\ (is_digit c || byte_eqb c "-") = true.
Proof.
  intros Hp Hr.
  destruct (print_float_parts f t Hp) as (sg & i & fr & e & Ht & Hsg & Hi & Hf & He).
  split_and!.
  - destruct f as [s|s| |s m' e']; try done.
    + injection Hp as <-. by destruct s.
    + cbn [print_float] in Hp. destruct (f64_fraction m' e') as [num den]. by apply search_reads in Hp as [? _].
  - rewrite Ht, <- !app_assoc. by apply parse_number_parts.
  - subst t. destruct Hsg as [-> | ->]; [|by eexists _, _].
    destruct Hi as (c & r & -> & Hd & _). apply Forall_cons in Hd as [Hd _]. exists c, (r ++ fr ++ e).
    split; [done|]. by rewrite Hd.
Qed.

Lemma digits_printable l : all_digits l -> Forall printable l.
Proof. intros Hl. eapply Forall_impl; [exact Hl|]. intros c Hc. eapply between_printable; [|exact Hc]. lia. Qed.

Lemma print_float_printable f t : print_float f = Some t -> Forall printable t.
Proof.
  intros (sg & i & fr & e & -> & Hsg & (c & r & -> & Hi & _) & Hf & He)%print_float_parts.
  repeat apply Forall_app_2; [|by apply digits_printable|..].
  - by destruct Hsg as [-> | ->]; repeat constructor; vm_compute.
  - destruct Hf as [-> |(c' & r' & -> & Hd)]; [constructor|].
    constructor; [by vm_compute|by apply digits_printable].
  - destruct He as [-> |(sn & c' & r' & -> & Hsn & Hd)]; [constructor|].
    constructor; [by vm_compute|]. constructor; [by destruct Hsn as [-> | ->]; vm_compute|by apply digits_printable].
Qed.
