(* ===== verification/GoJsonObject.v ===== *)
(** * The encoder of encoding/json on flat objects

    Objects of strings, integers, booleans and floats, as the struct tags of the program
    declare them: what is printed parses back, member by member, and is one line. *)

From S2P Require Import Prelude GoFloat GoJson JsonTyping GoJsonPrint GoFloatPrint.

(** ** Values and flat objects *)

Inductive scalar :=
  | SStr (s : list byte)
  | SInt (z : Z)
  | SBool (b : bool)
  | SFloat (f : float64).

(** A float the encoder refuses (UnsupportedValueError) has no text. *)
Definition float_text (f : float64) : list byte := default [] (print_float f).

Definition print_scalar (v : scalar) : list byte :=
  match v with
  | SStr s => print_string s
  | SInt z => print_int z
  | SBool true => bytes_of_string "true"
  | SBool false => bytes_of_string "false"
  | SFloat f => float_text f
  end.

Definition print_member (kv : string * scalar) : list byte :=
  print_string (bytes_of_string kv.1) ++ ":"%byte :: print_scalar kv.2.

Fixpoint print_members (kvs : list (string * scalar)) : list byte :=
  match kvs with
  | [] => []
  | [kv] => print_member kv
  | kv :: kvs' => print_member kv ++ ","%byte :: print_members kvs'
  end.

Definition print_object (kvs : list (string * scalar)) : list byte :=
  "{"%byte :: print_members kvs ++ ["}"%byte].

(** omitempty: a float is empty when it equals zero, whatever its sign. *)
Definition f64_is_zero (f : float64) : bool := match f with SpecFloat.S754_zero _ => true | _ => false end.
Definition is_empty (v : scalar) : bool :=
  match v with
  | SStr s => bool_decide (s = [])
  | SInt z => z =? 0
  | SBool b => negb b
  | SFloat f => f64_is_zero f
  end.

(** A struct: its fields with their tags, in order. *)
Record field := Field { f_name : string; f_omitempty : bool; f_value : scalar }.
Definition struct_members (fs : list field) : list (string * scalar) :=
  (fun f => (f_name f, f_value f)) <$> filter (fun f => (f_omitempty f && is_empty (f_value f)) = false) fs.

(** json.Encoder.Encode: the object and a newline, nothing when a member cannot be encoded. *)
Definition encodable (v : scalar) : bool :=
  match v with SFloat f => bool_decide (is_Some (print_float f)) | _ => true end.
Definition encode_line (fs : list field) : option (list byte) :=
  if forallb (fun kv => encodable (snd kv)) (struct_members fs)
  then Some (print_object (struct_members fs) ++ ["010"%byte]) else None.

(** ** Values and objects parse back *)

(** Integers fit; a float has a text and is no negative zero, which an omitted member would
    lose. *)
Definition scalar_ok (v : scalar) : Prop :=
  match v with
  | SInt z => in_int64 z
  | SFloat f => is_Some (print_float f) /\ f <> SpecFloat.S754_zero true
  | _ => True
  end.

#[export] Instance scalar_ok_dec v : Decision (scalar_ok v).
Proof. destruct v; cbn; apply _. Defined.

Lemma scalar_ok_encodable v : scalar_ok v -> encodable v = true.
Proof. destruct v; cbn; try done. intros [? _]. by apply bool_decide_eq_true. Qed.

(** The document a value is read back as. *)
Definition json_of (v : scalar) : json :=
  match v with
  | SStr s => JStr (to_valid s)
  | SInt z => JNum (print_int z)
  | SBool b => JBool b
  | SFloat f => JNum (float_text f)
  end.
Definition json_member (kv : string * scalar) : list byte * json :=
  (to_valid (bytes_of_string kv.1), json_of kv.2).

Lemma parse_value_number fuel depth c l :
  (is_digit c || byte_eqb c "-") = true ->
  parse_value (S fuel) depth (c :: l)
  = match parse_number (c :: l) with Some (n, r') => Some (JNum n, r') | None => None end.
Proof. destruct c; first [discriminate|reflexivity]. Qed.

Lemma print_scalar_parses fuel depth v rest :
  scalar_ok v -> delimited rest ->
  parse_value (S fuel) depth (print_scalar v ++ rest) = Some (json_of v, rest).
Proof.
  intros Hv Hr. destruct v as [s|z|[|]|f]; [| |done|done|].
  - unfold print_scalar, print_string. cbn [app]. rewrite <- app_assoc. cbn [app].
    transitivity (match parse_string (length ("034"%byte :: print_body (length s) s ++ "034"%byte :: rest))
                          (print_body (length s) s ++ "034"%byte :: rest) with
                  | Some (s, r') => Some (JStr s, r') | None => None end); [reflexivity|].
    rewrite print_body_parses; [done|done|]. cbn [length]. rewrite length_app. cbn. lia.
  - cbn [print_scalar json_of scalar_ok] in *.
    pose proof (print_int_parses z rest Hv Hr) as Hp.
    destruct (print_int_numeral z Hv) as (sign & c & ds & Hz & Hs & Hn & _).
    pose proof (numeral_sign _ _ _ Hn) as (_ & _ & Hdig & _). rewrite Hz in Hp |- *.
    destruct Hs as [-> | ->]; cbn [app] in *; rewrite parse_value_number, Hp by (by rewrite ?Hdig); done.
  - destruct Hv as [[t Ht] _]. cbn [print_scalar json_of]. unfold float_text. rewrite Ht. cbn [from_option id].
    destruct (print_float_back f t rest Ht Hr) as (_ & Hp & c & r & -> & Hc). cbn [app] in *.
    by rewrite parse_value_number, Hp.
Qed.

Lemma print_member_parses fuel depth kv (c : byte) rest :
  scalar_ok kv.2 -> (c = "," \/ c = "}")%byte ->
  parse_members (S (S fuel)) depth (print_member kv ++ c :: rest)
  = (if byte_eqb c "}" then Some ([json_member kv], rest)
     else match parse_members (S fuel) depth rest with
          | Some (kvs, r) => Some (json_member kv :: kvs, r)
          | None => None
          end).
Proof.
  intros Hv Hc. unfold print_member, print_string. cbn [app]. rewrite <- !app_assoc. cbn [app].
  set (l := ("034"%byte :: print_body _ _ ++ _)).
  transitivity (match parse_string (length l) (tail l) with
    | None => None
    | Some (k, r1) =>
        match skip_ws r1 with
        | x :: r2 =>
            if byte_eqb x ":" then
              match parse_value (S fuel) depth r2 with
              | None => None
              | Some (j, r3) =>
                  match skip_ws r3 with
                  | y :: r4 =>
                      if byte_eqb y "}" then Some ([(k, j)], r4)
                      else if byte_eqb y "," then
                        match parse_members (S fuel) depth r4 with
                        | Some (kvs, r5) => Some ((k, j) :: kvs, r5)
                        | None => None
                        end
                      else None
                  | [] => None
                  end
              end
            else None
        | [] => None
        end
    end); [reflexivity|].
  subst l. cbn [tail].
  rewrite print_body_parses; [|done|cbn [length]; rewrite length_app; cbn; lia].
  cbn [skip_ws]. change (is_ws ":") with false. cbv beta iota. change (byte_eqb ":" ":") with true.
  cbv iota. rewrite print_scalar_parses by (by eauto || (exists c, rest; naive_solver)).
  by destruct Hc as [-> | ->].
Qed.

Lemma print_members_parses fuel depth kv kvs rest :
  Forall (fun kv => scalar_ok kv.2) (kv :: kvs) -> (length (kv :: kvs) < fuel)%nat ->
  parse_members fuel depth (print_members (kv :: kvs) ++ "}"%byte :: rest)
  = Some (json_member <$> kv :: kvs, rest).
Proof.
  revert fuel kv. induction kvs as [|kv' kvs IH]; intros fuel kv Hok Hf; inversion_clear Hok as [|? ? H1 H2];
    (destruct fuel as [|[|fuel]]; [cbn in Hf; lia|cbn in Hf; lia|]).
  - cbn [print_members]. rewrite print_member_parses by auto. done.
  - change (print_members (kv :: kv' :: kvs)) with (print_member kv ++ ","%byte :: print_members (kv' :: kvs)).
    rewrite <- app_assoc. cbn [app]. rewrite print_member_parses by auto.
    change (byte_eqb "," "}") with false. cbv iota. rewrite IH; [done|done|cbn [length] in *; lia].
Qed.

Lemma print_members_length kvs : (length kvs <= length (print_members kvs))%nat.
Proof.
  induction kvs as [|kv [|kv' kvs] IH]; [done|cbn; lia|].
  change (print_members (kv :: kv' :: kvs)) with (print_member kv ++ ","%byte :: print_members (kv' :: kvs)).
  rewrite length_app. cbn [length] in *. lia.
Qed.

(** An object, with white space after it, is read back member by member. *)
Lemma print_object_parses kvs tl :
  Forall (fun kv => scalar_ok kv.2) kvs -> skip_ws tl = [] ->
  parse (print_object kvs ++ tl) = Some (JObj (json_member <$> kvs)).
Proof.
  intros Hm Htl. destruct kvs as [|kv kvs].
  { transitivity (match skip_ws tl with [] => Some (JObj []) | _ => None end); [reflexivity|].
    rewrite Htl. reflexivity. }
  pose proof (print_members_length (kv :: kvs)) as Hlen. unfold parse, print_object.
  rewrite length_app. cbn [app length] in *. rewrite length_app. cbn [length].
  set (n := length (print_members _)) in *.
  replace (2 * (S (n + 1) + length tl) + 2)%nat with (S (S (2 * n + 2 * length tl + 4)))%nat by lia.
  rewrite <- app_assoc. cbn [app].
  assert (print_members (kv :: kvs) = "034"%byte :: tail (print_members (kv :: kvs))) as Hq by (by destruct kvs).
  transitivity (match (match parse_members (S (2 * n + 2 * length tl + 4)) 1
                               (print_members (kv :: kvs) ++ "}"%byte :: tl) with
     | Some (kvs, r'') => Some (JObj kvs, r'') | None => None end) with
     | Some (j, r) => match skip_ws r with [] => Some j | _ => None end | None => None end).
  { rewrite Hq. reflexivity. }
  rewrite print_members_parses; [rewrite Htl; reflexivity|done|]. cbn [length] in *. lia.
Qed.

Lemma struct_members_ok fs :
  Forall (fun f => scalar_ok (f_value f)) fs ->
  Forall (fun kv : string * scalar => scalar_ok kv.2) (struct_members fs).
Proof.
  intros Hok. apply Forall_fmap, Forall_forall. intros f [_ Hf]%list_elem_of_filter.
  by apply (proj1 (Forall_forall _ _) Hok).
Qed.

(** ** Structs are decoded back *)

Definition ty_of (v : scalar) : ty :=
  match v with SStr _ => TString | SInt _ => TInt | SBool _ => TBool | SFloat _ => TFloat end.
Definition gov_of (v : scalar) : gov :=
  match v with SStr s => GStr (to_valid s) | SInt z => GInt z | SBool b => GBool b | SFloat f => GFloat f end.

(** The target type a struct is decoded into: its own. *)
Definition schema (fs : list field) : list (string * ty) :=
  (fun f => (f_name f, ty_of (f_value f))) <$> fs.

(** Field names are distinct and valid text, integers fit their width. *)
Record well_tagged (fs : list field) : Prop := {
  wt_distinct : NoDup (f_name <$> fs);
  wt_names : Forall (fun f => utf8_valid (bytes_of_string (f_name f))) fs;
  wt_values : Forall (fun f => scalar_ok (f_value f)) fs
}.

Lemma find_index_first {A} (p : A -> bool) l x l' :
  Forall (fun y => p y = false) l -> p x = true -> find_index p (l ++ x :: l') = Some (length l).
Proof.
  intros Hl Hx. induction Hl as [|y l Hy Hl IH]; cbn; [by rewrite Hx|]. by rewrite Hy, IH.
Qed.

Lemma find_field_own fs1 f fs2 :
  NoDup (f_name <$> fs1 ++ f :: fs2) ->
  find_field (schema (fs1 ++ f :: fs2)) (bytes_of_string (f_name f)) = Some (length fs1).
Proof.
  intros Hnd. unfold find_field, schema. rewrite fmap_app, fmap_cons.
  rewrite find_index_first; [by rewrite length_fmap| |by apply bool_decide_eq_true].
  apply Forall_fmap, Forall_forall. intros g Hg. apply bool_decide_eq_false. cbn [fst]. intros Heq.
  rewrite fmap_app, fmap_cons in Hnd. apply NoDup_app in Hnd as (_ & Hd & _).
  apply (Hd (f_name g)); [by apply list_elem_of_fmap_2|].
  apply (f_equal string_of_bytes) in Heq. rewrite !string_of_bytes_of_string in Heq. rewrite Heq. left.
Qed.

Lemma decode_scalar v : scalar_ok v -> decode (json_of v) (ty_of v) (zero_of (ty_of v)) = (gov_of v, true).
Proof.
  destruct v as [s|z|b|f]; cbn; intros H; [done|by rewrite print_int_reads|done|].
  destruct H as [[t Ht] _]. unfold float_text. rewrite Ht. cbn [from_option id].
  by destruct (print_float_back f t [","%byte] Ht) as (-> & _); [exists ","%byte, []; split; [done|by left]|].
Qed.

Lemma empty_is_zero v : scalar_ok v -> is_empty v = true -> zero_of (ty_of v) = gov_of v.
Proof.
  destruct v as [s|z|[]|f]; cbn; intros Hok; [intros ->%bool_decide_eq_true|intros ->%Z.eqb_eq|..]; try done.
  destruct f as [[]| | |]; try done. by destruct Hok.
Qed.

Definition zero_fields (fs : list field) : list gov := (fun f => zero_of (ty_of (f_value f))) <$> fs.
Definition gov_fields (fs : list field) : list gov := (fun f => gov_of (f_value f)) <$> fs.

Lemma member_step_own fs1 f fs2 :
  well_tagged (fs1 ++ f :: fs2) ->
  member_step (schema (fs1 ++ f :: fs2)) (gov_fields fs1 ++ zero_fields (f :: fs2), true)
    (json_member (f_name f, f_value f))
  = (gov_fields (fs1 ++ [f]) ++ zero_fields fs2, true).
Proof.
  intros [Hnd Hnm Hv]. unfold member_step, json_member. cbn [fst snd].
  apply Forall_app in Hnm as [_ Hnm]. apply Forall_cons in Hnm as [Hnm _]. unfold utf8_valid in Hnm.
  apply Forall_app in Hv as [_ Hv]. apply Forall_cons in Hv as [Hv _].
  rewrite Hnm, find_field_own by done. unfold schema, gov_fields, zero_fields.
  rewrite fmap_cons, !fmap_app, !fmap_cons.
  rewrite (list_lookup_middle _ _ (f_name f, ty_of (f_value f))) by (by rewrite length_fmap).
  rewrite (list_lookup_middle _ _ (zero_of (ty_of (f_value f)))) by (by rewrite length_fmap).
  rewrite decode_scalar by done.
  rewrite insert_app_r_alt by (by rewrite length_fmap). rewrite length_fmap, Nat.sub_diag.
  cbn. by rewrite <- app_assoc.
Qed.

Lemma members_own fs1 fs2 :
  well_tagged (fs1 ++ fs2) ->
  foldl (member_step (schema (fs1 ++ fs2))) (gov_fields fs1 ++ zero_fields fs2, true)
    (json_member <$> struct_members fs2)
  = (gov_fields (fs1 ++ fs2), true).
Proof.
  revert fs1. induction fs2 as [|f fs2 IH]; intros fs1 Hw.
  { cbn. by rewrite !app_nil_r. }
  assert (fs1 ++ f :: fs2 = (fs1 ++ [f]) ++ fs2) as Heq by (by rewrite <- app_assoc).
  unfold struct_members. rewrite filter_cons. case_decide as Hf.
  - rewrite !fmap_cons. cbn [foldl]. rewrite member_step_own by done. rewrite Heq in *. by apply IH.
  - apply not_false_iff_true, andb_true_iff in Hf as [_ Hf].
    assert (scalar_ok (f_value f)) as Hok by (destruct Hw as [_ _ [_ [Hok _]%Forall_cons]%Forall_app]; done).
    assert (gov_fields fs1 ++ zero_fields (f :: fs2) = gov_fields (fs1 ++ [f]) ++ zero_fields fs2) as ->.
    { unfold gov_fields, zero_fields. rewrite fmap_app, fmap_cons, <- app_assoc. cbn.
      by rewrite (empty_is_zero _ Hok Hf). }
    rewrite Heq in *. by apply IH.
Qed.

(** The object of a struct is decoded back into its fields, the omitted ones zero. *)
Lemma object_decoded fs :
  well_tagged fs ->
  decode (JObj (json_member <$> struct_members fs)) (TStruct (schema fs)) (zero_of (TStruct (schema fs)))
  = (GStruct (gov_fields fs), true).
Proof.
  intros Hw. pose proof (members_own [] fs Hw) as Hm. cbn [app] in Hm. unfold member_step in Hm.
  assert (zero_of (TStruct (schema fs)) = GStruct (zero_fields fs)) as ->.
  { cbn. f_equal. unfold schema, zero_fields. clear Hw Hm. induction fs as [|f fs IH]; cbn; [done|]. by rewrite <- IH. }
  cbn [decode gov_fields fmap list_fmap app] in *. by rewrite Hm.
Qed.

Lemma object_roundtrip fs tl :
  well_tagged fs -> skip_ws tl = [] ->
  unmarshal (TStruct (schema fs)) (print_object (struct_members fs) ++ tl) = Some (GStruct (gov_fields fs)).
Proof.
  intros Hw Htl. unfold unmarshal. rewrite print_object_parses by (done || apply struct_members_ok, Hw).
  by rewrite object_decoded.
Qed.

(** ** One line per object *)

Lemma print_scalar_printable v : Forall printable (print_scalar v).
Proof.
  destruct v as [s|z|[|]|f]; [apply print_string_printable|apply print_int_printable|
    by repeat (constructor; [vm_compute; discriminate|])..|].
  cbn [print_scalar]. unfold float_text. destruct (print_float f) as [t|] eqn:Ht; [|constructor].
  by apply print_float_printable in Ht.
Qed.

Lemma print_members_printable kvs : Forall printable (print_members kvs).
Proof.
  assert (forall kv, Forall printable (print_member kv)) as Hm.
  { intros kv. apply Forall_app. split; [apply print_string_printable|].
    constructor; [vm_compute; discriminate|apply print_scalar_printable]. }
  induction kvs as [|kv [|kv' kvs] IH]; [constructor|apply Hm|].
  change (print_members (kv :: kv' :: kvs)) with (print_member kv ++ ","%byte :: print_members (kv' :: kvs)).
  apply Forall_app. split; [apply Hm|]. by constructor; [vm_compute; discriminate|].
Qed.

(** An object holds no newline: a line of the encoder is one object. *)
Lemma print_object_one_line kvs : "010"%byte ∉ print_object kvs.
Proof.
  assert (Forall printable (print_object kvs)) as Hp.
  { constructor; [vm_compute; discriminate|]. apply Forall_app.
    split; [apply print_members_printable|by repeat (constructor; [vm_compute; discriminate|])]. }
  intros Hin. apply (proj1 (Forall_forall _ _) Hp) in Hin. by vm_compute in Hin.
Qed.
