(* ===== verification/GoJsonTree.v ===== *)
(** * encoding/json on nested values: slices, structs and floats

    The encoder's text of a tree of values, against the parser of GoJson: the text of a
    tree, wherever it stands in a document, is read back as the tree. *)

From S2P Require Import Prelude GoFloat GoJson JsonTyping GoJsonPrint GoFloatPrint GoJsonObject.

(** ** Trees *)

#[warnings="-register-all"]
Inductive jtree :=
  | JtNull
  | JtScalar (v : scalar)
  | JtNumber (text : list byte)
  | JtSlice (l : list jtree)
  | JtStruct (kvs : list (string * jtree)).

Lemma jtree_nested_ind (Q : jtree -> Prop) :
  Q JtNull -> (forall v, Q (JtScalar v)) -> (forall t, Q (JtNumber t)) ->
  (forall l, Forall Q l -> Q (JtSlice l)) ->
  (forall kvs, Forall (fun kv => Q (snd kv)) kvs -> Q (JtStruct kvs)) -> forall t, Q t.
Proof.
  intros Hn Hs Hm Hl Ho. fix IH 1. intros [|v|t|l|kvs]; [done|done|done| |].
  - apply Hl. induction l as [|j l IHl]; constructor; [apply IH|exact IHl].
  - apply Ho. induction kvs as [|[k j] kvs IHk]; constructor; [apply IH|exact IHk].
Qed.

(** The parts with commas between them. *)
Fixpoint commas (l : list (list byte)) : list byte :=
  match l with
  | [] => []
  | [x] => x
  | x :: l' => x ++ ","%byte :: commas l'
  end.

Definition print_key (k : string) : list byte := print_string (bytes_of_string k) ++ [":"%byte].

Fixpoint print_tree (t : jtree) : list byte :=
  match t with
  | JtNull => bytes_of_string "null"
  | JtScalar v => print_scalar v
  | JtNumber n => n
  | JtSlice l => "["%byte :: commas (map print_tree l) ++ ["]"%byte]
  | JtStruct kvs => "{"%byte :: commas (map (fun kv => print_key kv.1 ++ print_tree kv.2) kvs) ++ ["}"%byte]
  end.

(** The document it is read back as. *)
Fixpoint tree_json (t : jtree) : json :=
  match t with
  | JtNull => JNull
  | JtScalar v => json_of v
  | JtNumber n => JNum n
  | JtSlice l => JArr (map tree_json l)
  | JtStruct kvs => JObj (map (fun kv => (to_valid (bytes_of_string kv.1), tree_json kv.2)) kvs)
  end.

(** Integers fit, and a number's text is one. *)
Definition number_ok (t : list byte) : Prop :=
  (exists c r, t = c :: r /\ (is_digit c || byte_eqb c "-") = true)
  /\ forall rest, delimited rest -> parse_number (t ++ rest) = Some (t, rest).
Fixpoint tree_ok (t : jtree) : Prop :=
  match t with
  | JtNull => True
  | JtScalar v => scalar_ok v
  | JtNumber n => number_ok n
  | JtSlice l => foldr (fun t P => tree_ok t /\ P) True l
  | JtStruct kvs => foldr (fun kv P => tree_ok kv.2 /\ P) True kvs
  end.

Fixpoint height (t : jtree) : Z :=
  match t with
  | JtSlice l => 1 + foldr (fun t n => Z.max (height t) n) 0 l
  | JtStruct kvs => 1 + foldr (fun kv n => Z.max (height kv.2) n) 0 kvs
  | _ => 0
  end.

Lemma float_number_ok f t : print_float f = Some t -> number_ok t.
Proof.
  intros Hp. split; [|intros rest Hr; by apply (print_float_back f t rest Hp Hr)].
  by destruct (print_float_back f t [","%byte] Hp) as (_ & _ & Hc); [exists ","%byte, []; split; [done|by left]|].
Qed.

(** ** Parsing a tree back *)

(** A value that ends where it ends, whatever follows. *)
Definition closed (t : jtree) : Prop := match t with JtSlice _ | JtStruct _ => True | _ => False end.

Definition reads_back (t : jtree) : Prop :=
  tree_ok t -> forall fuel depth rest,
  (length (print_tree t) <= fuel)%nat -> 0 <= depth -> depth + height t <= maxNestingDepth ->
  delimited rest \/ closed t ->
  parse_value fuel depth (print_tree t ++ rest) = Some (tree_json t, rest).

Lemma print_tree_nonempty t : tree_ok t -> (0 < length (print_tree t))%nat.
Proof.
  destruct t as [|v|n|l|kvs]; cbn [print_tree tree_ok]; try (cbn; lia).
  - destruct v as [s|z|[|]|f]; try (cbn; lia); cbn [print_scalar scalar_ok].
    + intros Hz. destruct (print_int_numeral z Hz) as (sg & c & ds & -> & _). rewrite length_app. cbn. lia.
    + intros [[t Ht] _]. unfold float_text. rewrite Ht. cbn [from_option id].
      destruct (float_number_ok f t Ht) as [(c & r & -> & _) _]. cbn. lia.
  - intros [(c & r & -> & _) _]. cbn. lia.
Qed.

Lemma commas_cons x y l : commas (x :: y :: l) = x ++ ","%byte :: commas (y :: l).
Proof. done. Qed.

(** A closing bracket or brace delimits. *)
Lemma delimited_by (c : byte) r : (c = "," \/ c = "}" \/ c = "]")%byte -> delimited (c :: r).
Proof. intros Hc. by exists c, r. Qed.

Lemma parse_elems_step fuel depth j (c : byte) l rest :
  (c = "," \/ c = "]")%byte -> parse_value fuel depth l = Some (j, c :: rest) ->
  parse_elems (S fuel) depth l
  = if byte_eqb c "]" then Some ([j], rest)
    else match parse_elems fuel depth rest with Some (js, r) => Some (j :: js, r) | None => None end.
Proof. intros Hc Hv. cbn [parse_elems]. rewrite Hv. by destruct Hc as [-> | ->]. Qed.

Lemma elems_back t l fuel depth rest :
  Forall reads_back (t :: l) -> foldr (fun t P => tree_ok t /\ P) True (t :: l) ->
  (length (commas (map print_tree (t :: l))) < fuel)%nat -> 0 <= depth ->
  depth + foldr (fun t n => Z.max (height t) n) 0 (t :: l) <= maxNestingDepth ->
  parse_elems fuel depth (commas (map print_tree (t :: l)) ++ "]"%byte :: rest)
  = Some (map tree_json (t :: l), rest).
Proof.
  revert t fuel. induction l as [|t' l IH]; intros t fuel Hall Hok Hf Hd Hh;
    apply Forall_cons in Hall as [Ht Hall]; cbn [foldr map] in Hok, Hf, Hh |- *; destruct Hok as [Hokt Hok];
    (destruct fuel as [|fuel]; [lia|]).
  - cbn [commas] in *. rewrite (parse_elems_step _ _ (tree_json t) "]" _ rest); [done|by right|].
    apply Ht; [done|lia|done|lia|]. left. apply delimited_by. naive_solver.
  - rewrite commas_cons in Hf |- *. rewrite length_app in Hf. cbn [length] in Hf.
    rewrite <- app_assoc. cbn [app]. change (print_tree t' :: map print_tree l) with (map print_tree (t' :: l)) in *.
    rewrite (parse_elems_step _ _ (tree_json t) "," _ (commas (map print_tree (t' :: l)) ++ "]"%byte :: rest));
      [|by left|].
    + change (byte_eqb "," "]") with false. cbv iota. rewrite (IH t'); [done|done|done|lia|done|cbn [foldr]; lia].
    + apply Ht; [done|lia|done|lia|]. left. apply delimited_by. naive_solver.
Qed.

Lemma parse_members_step fuel depth k j (c : byte) l rest :
  (c = "," \/ c = "}")%byte -> parse_value fuel depth l = Some (j, c :: rest) ->
  parse_members (S fuel) depth (print_key k ++ l)
  = if byte_eqb c "}" then Some ([(to_valid (bytes_of_string k), j)], rest)
    else match parse_members fuel depth rest with
         | Some (kvs, r) => Some ((to_valid (bytes_of_string k), j) :: kvs, r)
         | None => None
         end.
Proof.
  intros Hc Hv. unfold print_key, print_string. cbn [app]. rewrite <- !app_assoc. cbn [app].
  set (t := ("034"%byte :: print_body _ _ ++ _)).
  transitivity (match parse_string (length t) (tail t) with
    | None => None
    | Some (k, r1) =>
        match skip_ws r1 with
        | x :: r2 =>
            if byte_eqb x ":" then
              match parse_value fuel depth r2 with
              | None => None
              | Some (j, r3) =>
                  match skip_ws r3 with
                  | y :: r4 =>
                      if byte_eqb y "}" then Some ([(k, j)], r4)
                      else if byte_eqb y "," then
                        match parse_members fuel depth r4 with
                        | Some (kvs, r5) => Some ((k, j) :: kvs, r5)
                        | None => None
                        end
                      else None
                  | [] => None
                  end
              end
            else None
        | [] => None
        end
    end); [reflexivity|].
  subst t. cbn [tail].
  rewrite print_body_parses; [|done|cbn [length]; rewrite length_app; cbn; lia].
  cbn [skip_ws]. change (is_ws ":") with false. cbv beta iota. change (byte_eqb ":" ":") with true.
  cbv iota. rewrite Hv. by destruct Hc as [-> | ->].
Qed.

Definition member_text (kv : string * jtree) : list byte := print_key kv.1 ++ print_tree kv.2.
Definition member_json (kv : string * jtree) : list byte * json :=
  (to_valid (bytes_of_string kv.1), tree_json kv.2).

Lemma members_back kv kvs fuel depth rest :
  Forall (fun kv => reads_back (snd kv)) (kv :: kvs) ->
  foldr (fun kv P => tree_ok kv.2 /\ P) True (kv :: kvs) ->
  (length (commas (map member_text (kv :: kvs))) < fuel)%nat -> 0 <= depth ->
  depth + foldr (fun kv n => Z.max (height kv.2) n) 0 (kv :: kvs) <= maxNestingDepth ->
  parse_members fuel depth (commas (map member_text (kv :: kvs)) ++ "}"%byte :: rest)
  = Some (map member_json (kv :: kvs), rest).
Proof.
  revert kv fuel. induction kvs as [|kv' kvs IH]; intros kv fuel Hall Hok Hf Hd Hh;
    apply Forall_cons in Hall as [Ht Hall]; cbn [foldr map] in Hok, Hf, Hh |- *; destruct Hok as [Hokt Hok];
    (destruct fuel as [|fuel]; [lia|]); change (member_text kv) with (print_key kv.1 ++ print_tree kv.2) in *.
  - cbn [commas] in *. rewrite length_app in Hf. rewrite <- app_assoc.
    rewrite (parse_members_step _ _ _ (tree_json kv.2) "}" _ rest); [done|by right|].
    apply Ht; [done|lia|done|lia|]. left. apply delimited_by. naive_solver.
  - rewrite commas_cons in Hf |- *. rewrite !length_app in Hf. cbn [length] in Hf.
    rewrite <- !app_assoc. cbn [app]. change (member_text kv' :: map member_text kvs) with (map member_text (kv' :: kvs)) in *.
    rewrite (parse_members_step _ _ _ (tree_json kv.2) "," _ (commas (map member_text (kv' :: kvs)) ++ "}"%byte :: rest));
      [|by left|].
    + change (byte_eqb "," "}") with false. cbv iota. rewrite (IH kv'); [done|done|done|lia|done|cbn [foldr]; lia].
    + apply Ht; [done|lia|done|lia|]. left. apply delimited_by. naive_solver.
Qed.

(** The first byte of a value is no white space and closes nothing. *)
Definition opens (c : byte) : bool := negb (is_ws c) && negb (byte_eqb c "]") && negb (byte_eqb c "}").
Lemma print_tree_opens t : tree_ok t -> exists c r, print_tree t = c :: r /\ opens c = true.
Proof.
  assert (forall c, (is_digit c || byte_eqb c "-") = true -> opens c = true) as Hdig.
  { intros c Hc. by destruct c. }
  destruct t as [|v|n|l|kvs]; cbn [print_tree tree_ok]; try (by eexists _, _).
  - destruct v as [s|z|[|]|f]; try (by eexists _, _); cbn [print_scalar scalar_ok].
    + intros Hz. destruct (print_int_numeral z Hz) as (sg & c & ds & -> & Hs & Hn & _).
      pose proof (numeral_sign _ _ _ Hn) as (_ & _ & Hd & _).
      destruct Hs as [-> | ->]; cbn [app]; [|by eexists _, _]. exists c, ds. split; [done|].
      apply Hdig. by rewrite Hd.
    + intros [[t Ht] _]. unfold float_text. rewrite Ht. cbn [from_option id].
      destruct (float_number_ok f t Ht) as [(c & r & -> & Hc) _]. exists c, r. split; [done|by apply Hdig].
  - intros [(c & r & -> & Hc) _]. exists c, r. split; [done|]. by apply Hdig.
Qed.

Lemma commas_head x l : exists r, commas (x :: l) = x ++ r.
Proof. destruct l as [|y l]; [exists []; by rewrite app_nil_r|]. rewrite commas_cons. by eexists. Qed.

Lemma open_slice fuel depth c r :
  opens c = true -> depth < maxNestingDepth ->
  parse_value (S fuel) depth ("["%byte :: c :: r)
  = match parse_elems fuel (depth + 1) (c :: r) with Some (js, r') => Some (JArr js, r') | None => None end.
Proof.
  intros Hc Hd. unfold opens in Hc. apply andb_true_iff in Hc as [[Hw%negb_true_iff Hb%negb_true_iff]%andb_true_iff _].
  transitivity (if maxNestingDepth <=? depth then None else
    match skip_ws (c :: r) with
    | x :: r' => if byte_eqb x "]" then Some (JArr [], r')
                 else match parse_elems fuel (depth + 1) (c :: r) with
                      | Some (js, r'') => Some (JArr js, r'') | None => None end
    | [] => None end); [reflexivity|].
  replace (maxNestingDepth <=? depth) with false by lia. cbn [skip_ws]. by rewrite Hw, Hb.
Qed.

Lemma open_struct fuel depth r :
  depth < maxNestingDepth ->
  parse_value (S fuel) depth ("{"%byte :: "034"%byte :: r)
  = match parse_members fuel (depth + 1) ("034"%byte :: r) with
    | Some (kvs, r') => Some (JObj kvs, r') | None => None end.
Proof.
  intros Hd.
  transitivity (if maxNestingDepth <=? depth then None else
    match parse_members fuel (depth + 1) ("034"%byte :: r) with
    | Some (kvs, r'') => Some (JObj kvs, r'') | None => None end); [reflexivity|].
  by replace (maxNestingDepth <=? depth) with false by lia.
Qed.

Lemma heights_nonneg : (forall l, 0 <= foldr (fun t n => Z.max (height t) n) 0 l)
  /\ (forall kvs : list (string * jtree), 0 <= foldr (fun kv n => Z.max (height kv.2) n) 0 kvs).
Proof. split; intros l; induction l as [|x l IH]; cbn [foldr]; lia. Qed.

Lemma tree_back t : reads_back t.
Proof.
  destruct heights_nonneg as [Hhl Hhk].
  induction t as [|v|n|l IH|kvs IH] using jtree_nested_ind; intros Hok fuel depth rest Hf Hd Hh Hr;
    pose proof (print_tree_nonempty _ Hok) as Hpos; (destruct fuel as [|fuel]; [lia|]).
  - done.
  - destruct Hr as [Hr|[]]. by apply print_scalar_parses.
  - destruct Hr as [Hr|[]]. destruct Hok as [(c & r & -> & Hc) Hn]. cbn [print_tree].
    cbn [app]. rewrite parse_value_number by done. change (c :: r ++ rest) with ((c :: r) ++ rest).
    by rewrite Hn.
  - cbn [print_tree tree_ok tree_json height] in *. rewrite <- ?app_assoc. cbn [app].
    destruct l as [|t l]; [cbn in *; destruct fuel; cbn in *; by replace (maxNestingDepth <=? depth) with false by lia|].
    specialize (Hhl (t :: l)). destruct Hok as [Ht Hok].
    destruct (print_tree_opens t Ht) as (c & r & Hc & Hop).
    destruct (commas_head (print_tree t) (map print_tree l)) as [r2 Hr2].
    assert (commas (map print_tree (t :: l)) ++ "]"%byte :: rest = c :: (r ++ r2) ++ "]"%byte :: rest) as Heq
      by (cbn [map]; rewrite Hr2, Hc; done).
    rewrite <- app_assoc. cbn [app]. rewrite Heq, open_slice by (done || lia). rewrite <- Heq.
    rewrite elems_back; [done|done|done| |lia|lia]. cbn [length] in Hf. rewrite length_app in Hf. cbn in Hf |- *. lia.
  - cbn [print_tree tree_ok tree_json height] in *. rewrite <- ?app_assoc. cbn [app].
    destruct kvs as [|kv kvs]; [cbn in *; destruct fuel; cbn in *; by replace (maxNestingDepth <=? depth) with false by lia|].
    specialize (Hhk (kv :: kvs)). change (fun kv => print_key kv.1 ++ print_tree kv.2) with member_text in *.
    assert (exists r, commas (map member_text (kv :: kvs)) = "034"%byte :: r) as [r Hq].
    { destruct (commas_head (member_text kv) (map member_text kvs)) as [r2 Hr2]. cbn [map]. rewrite Hr2. by eexists. }
    rewrite <- app_assoc. cbn [app]. rewrite Hq. cbn [app]. rewrite open_struct by lia.
    change ("034"%byte :: r ++ "}"%byte :: rest) with (("034"%byte :: r) ++ "}"%byte :: rest). rewrite <- Hq.
    rewrite members_back; [done|done|done| |lia|lia]. cbn [length] in Hf. rewrite length_app in Hf. cbn in Hf |- *. lia.
Qed.

(** A whole document, with white space after it. *)
Lemma tree_parses t tl :
  tree_ok t -> height t <= maxNestingDepth -> (delimited tl \/ closed t) -> skip_ws tl = [] ->
  parse (print_tree t ++ tl) = Some (tree_json t).
Proof.
  intros Hok Hh Hr Htl. unfold parse. rewrite (tree_back t Hok); [by rewrite Htl|rewrite length_app; lia|lia|lia|done].
Qed.

(** An array is decoded element by element. *)
Lemma slice_decoded t js vs :
  Forall2 (fun j v => decode j t (zero_of t) = (v, true)) js vs ->
  exists stale, decode (JArr js) (TSlice t) (GSlice [] []) = (GSlice vs stale, true).
Proof.
  intros Hall. destruct Hall as [|j v js vs Hj Hall]; [by exists []|].
  assert (forall js vs out, Forall2 (fun j v => decode j t (zero_of t) = (v, true)) js vs ->
    foldl (element_step t) (out, [], true) js = (out ++ vs, [], true)) as Hstep.
  { clear. intros js vs out Hall. revert out. induction Hall as [|j v js vs Hj Hall IH]; intros out; [by rewrite app_nil_r|].
    cbn [foldl element_step]. rewrite Hj. cbn [tail andb]. rewrite IH. by rewrite <- app_assoc. }
  exists []. specialize (Hstep (j :: js) (v :: vs) [] ltac:(by constructor)). unfold element_step in Hstep.
  cbn. cbn in Hstep. by rewrite Hstep.
Qed.

(** A member of a known name sets its field, one of an unknown name nothing. *)
Lemma member_known fs vs ok k i n ft fv jv w :
  find_field fs k = Some i -> fs !! i = Some (n, ft) -> vs !! i = Some fv -> decode jv ft fv = (w, true) ->
  member_step fs (vs, ok) (k, jv) = (<[i := w]> vs, ok).
Proof. intros Hf Hi Hv Hd. unfold member_step. by rewrite Hf, Hi, Hv, Hd, andb_true_r. Qed.

Lemma member_unknown fs vs ok k jv : find_field fs k = None -> member_step fs (vs, ok) (k, jv) = (vs, ok).
Proof. intros Hf. unfold member_step. by rewrite Hf. Qed.

Lemma decode_int z v : in_int64 z -> decode (JNum (print_int z)) TInt v = (GInt z, true).
Proof. intros Hz. cbn. by rewrite print_int_reads. Qed.

Lemma decode_float t f v : parse_float t = Some f -> decode (JNum t) TFloat v = (GFloat f, true).
Proof. intros Hf. cbn. by rewrite Hf. Qed.
