(* ===== verification/StructuralHasher.v ===== *)
(** * pkg/circuitbreaker/structural_hasher.go: fuzzy loop detection

    The normalizer that collapses the dynamic values of a JSON body, the
    64-slot MinHash sketch, and the per-agent sliding window of sketches. *)

From S2P Require Import Prelude GoFloat Detector.

(** ** Constants and state *)

Definition minHashK : nat := 64.
Definition shingleSize : nat := 3.
Definition maxShingles : nat := 256.
Definition fnv1aOffset : Z := 14695981039346656037.
Definition fnv1aPrime : Z := 1099511628211.
Definition goldenRatio : Z := 0x9E3779B97F4A7C15.

(** A signature is its [minHashK] uint64 slots. *)
Abbreviation signature := (list Z).

Record StructuralConfig := {
  Threshold : float64;
  Window : Z;
  Limit : Z;
  TTL : Z;
  MaxEntries : Z
}.

Record structuralState := {
  sigs : list signature;
  expires : Z;
  blockedAt : Z
}.

Record StructuralHasher := {
  cfg : StructuralConfig;
  seen : gmap AgentID structuralState
}.

(** 0.85: the binary64 number nearest to it. *)
Definition defaultStructuralThreshold : float64 :=
  SpecFloat.S754_finite false 7656119366529843 (-53).
Definition defaultStructuralWindow : Z := 8.
Definition defaultStructuralLimit : Z := 3.
Definition defaultStructuralTTL : Z := 10 * Minute.
Definition defaultStructuralMax : Z := 10000.

Definition f64_one : float64 := f64_of_Z 1.

Definition NewStructuralHasher (c : StructuralConfig) : StructuralHasher :=
  {| cfg :=
       {| Threshold :=
            if f64_leb (Threshold c) f64_zero || f64_ltb f64_one (Threshold c)
            then defaultStructuralThreshold else Threshold c;
          Window := if Window c <=? 0 then defaultStructuralWindow else Window c;
          Limit := if Limit c <=? 0 then defaultStructuralLimit else Limit c;
          TTL := if TTL c <=? 0 then defaultStructuralTTL else TTL c;
          MaxEntries := if MaxEntries c <=? 0 then defaultStructuralMax else MaxEntries c |};
     seen := ∅ |}.

(** ** Classification of string contents *)

Definition in_range (lo hi : byte) (c : byte) : bool :=
  (byte_to_Z lo <=? byte_to_Z c) && (byte_to_Z c <=? byte_to_Z hi).

Definition isDigit (c : byte) : bool := in_range "0" "9" c.
Definition isHex (c : byte) : bool := isDigit c || in_range "a" "f" c || in_range "A" "F" c.

Definition isNumberByte (c : byte) : bool :=
  isDigit c || byte_eqb c "-" || byte_eqb c "+" || byte_eqb c "." || byte_eqb c "e"
  || byte_eqb c "E".

(** s[i]: the tests below only index inside the length they checked. *)
Definition at_ (s : list byte) (i : nat) : byte := nth i s "000"%byte.

Definition isUUID (s : list byte) : bool :=
  (length s =? 36)%nat
  && forallb (fun i =>
       if bool_decide (i ∈ [8; 13; 18; 23]%nat) then byte_eqb (at_ s i) "-" else isHex (at_ s i))
       (seq 0 36).

Definition isRFC3339 (s : list byte) : bool :=
  (16 <=? length s)%nat
  && forallb (fun i => isDigit (at_ s i)) [0; 1; 2; 3]%nat
  && (byte_eqb (at_ s 4) "-" && isDigit (at_ s 5) && isDigit (at_ s 6) && byte_eqb (at_ s 7) "-"
      && isDigit (at_ s 8) && isDigit (at_ s 9))
  && (byte_eqb (at_ s 10) "T" || byte_eqb (at_ s 10) "t")
  && (isDigit (at_ s 11) && isDigit (at_ s 12) && byte_eqb (at_ s 13) ":"
      && isDigit (at_ s 14) && isDigit (at_ s 15)).

Definition isAllDigits (s : list byte) : bool := forallb isDigit s.

Definition isHexWithDigit (s : list byte) : bool := forallb isHex s && existsb isDigit s.

(** classifyString: the placeholder of a dynamic string content, if any. *)
Definition classifyString (s : list byte) : option byte :=
  if (length s =? 0)%nat then None
  else if isUUID s then Some "U"%byte
  else if isRFC3339 s then Some "T"%byte
  else if ((length s =? 10)%nat || (length s =? 13)%nat) && isAllDigits s then Some "T"%byte
  else if (8 <=? length s)%nat && isHexWithDigit s then Some "H"%byte
  else None.

(** ** Normalization *)

Definition quote : byte := "034".
Definition backslash : byte := "\".
Definition isSpace (c : byte) : bool :=
  byte_eqb c " " || byte_eqb c "009" || byte_eqb c "010" || byte_eqb c "013".

(** The scan for the closing quote: the content before it and what follows it;
    None when the string is not terminated.  A backslash skips the next byte. *)
Fixpoint scan_string (l : list byte) : option (list byte * list byte) :=
  match l with
  | [] => None
  | c :: l' =>
      if byte_eqb c backslash then
        match l' with
        | [] => None
        | c' :: l'' =>
            match scan_string l'' with
            | Some (s, r) => Some (c :: c' :: s, r)
            | None => None
            end
        end
      else if byte_eqb c quote then Some ([], l')
      else match scan_string l' with Some (s, r) => Some (c :: s, r) | None => None end
  end.

Definition hasWord (body : list byte) (w : string) : bool := has_prefix (bytes_of_string w) body.

(** One turn of the loop of normalizePayload on a non-empty rest [c :: l]:
    the bytes appended to the output and the rest after it. *)
Definition normalize_step (c : byte) (l : list byte) : list byte * list byte :=
  let body := c :: l in
  if byte_eqb c quote then
    match scan_string l with
    | None => (body, [])
    | Some (content, r) =>
        match classifyString content with
        | Some tag => ([tag], r)
        | None => (quote :: content ++ [quote], r)
        end
    end
  else if isSpace c then ([], l)
  else if byte_eqb c "-" || isDigit c then (["#"%byte], (span isNumberByte body).2)
  else if byte_eqb c "t" && hasWord body "true" then (["B"%byte], drop 4 body)
  else if byte_eqb c "f" && hasWord body "false" then (["B"%byte], drop 5 body)
  else if byte_eqb c "n" && hasWord body "null" then (["N"%byte], drop 4 body)
  else ([c], l).

Fixpoint normalize_loop (fuel : nat) (body : list byte) : list byte :=
  match fuel, body with
  | _, [] => []
  | O, _ => []
  | S fuel', c :: l =>
      let '(out, r) := normalize_step c l in out ++ normalize_loop fuel' r
  end.

(** Every turn consumes at least one byte, so the length of the body is enough
    fuel ([normalize_loop_fuel]). *)
Definition normalizePayload (body : list byte) : list byte := normalize_loop (length body) body.

(** ** The MinHash sketch *)

Definition fnv1a (b : list byte) : Z :=
  foldl (fun h c => wrapu64 (Z.lxor h (byte_to_Z c) * fnv1aPrime)) fnv1aOffset b.

(** The projection of one shingle hash into slot [k]. *)
Definition slot_hash (h : Z) (k : nat) : Z :=
  Z.lxor h (wrapu64 (Z.of_nat (k + 1) * goldenRatio)).

Definition update_slots (h : Z) (sig : signature) : signature :=
  imap (fun k v => if slot_hash h k <? v then slot_hash h k else v) sig.

Definition max_uint64 : Z := 2 ^ 64 - 1.

(** At most [n] shingles, from the current position on. *)
Fixpoint shingle_loop (n : nat) (form : list byte) (sig : signature) : signature :=
  match n, form with
  | S n', c1 :: ((c2 :: c3 :: _) as rest) =>
      shingle_loop n' rest (update_slots (fnv1a [c1; c2; c3]) sig)
  | _, _ => sig
  end.

Definition minHash (form : list byte) : signature :=
  shingle_loop maxShingles form (replicate minHashK max_uint64).

Definition matching_slots (a b : signature) : Z :=
  Z.of_nat (length (filter (fun p => p.1 = p.2) (zip a b))).

Definition jaccard (a b : signature) : float64 :=
  f64_div (f64_of_Z (matching_slots a b)) (f64_of_Z (Z.of_nat minHashK)).

(** ** The detector *)

Definition appendWindow (l : list signature) (e : signature) (cap : Z) : list signature :=
  let l' := l ++ [e] in
  if cap <? Z.of_nat (length l') then drop (length l' - Z.to_nat cap) l' else l'.

Section Operations.
Context {R : RangeOrder AgentID structuralState}.

Definition evictIfNeeded (s : StructuralHasher) : StructuralHasher :=
  {| cfg := cfg s; seen := evict_to R expires (MaxEntries (cfg s)) (seen s) |}.

(** state: the agent's state, created (after an eviction) when absent. *)
Definition state (s : StructuralHasher) (agent : AgentID) (now : Z) :
    StructuralHasher * structuralState :=
  match seen s !! agent with
  | Some st => (s, st)
  | None =>
      let s' := evictIfNeeded s in
      let st := {| sigs := []; expires := time_add now (TTL (cfg s)); blockedAt := zero_time |} in
      ({| cfg := cfg s'; seen := <[agent := st]> (seen s') |}, st)
  end.

Definition similar (s : StructuralHasher) (sig : signature) (e : signature) : bool :=
  f64_leb (Threshold (cfg s)) (jaccard sig e).

Definition count_matches (s : StructuralHasher) (sig : signature) (l : list signature) : Z :=
  Z.of_nat (length (filter (fun e => similar s sig e = true) l)).

Definition CheckPayload (s : StructuralHasher) (now : Z) (agent : AgentID) (body : list byte) :
    StructuralHasher * CheckResult :=
  let form := normalizePayload body in
  if (length form <? shingleSize)%nat then (s, proceed)
  else
    let sig := minHash form in
    let '(s1, st0) := state s agent now in
    let st :=
      if negb (time_before now (expires st0)) then
        {| sigs := []; expires := time_add now (TTL (cfg s)); blockedAt := zero_time |}
      else st0 in
    let matches := count_matches s sig (sigs st) in
    let sigs' := appendWindow (sigs st) sig (Window (cfg s)) in
    if Limit (cfg s) <=? matches then
      let first := time_is_zero (blockedAt st) in
      let st' := {| sigs := sigs'; expires := expires st;
                    blockedAt := if first then now else blockedAt st |} in
      ({| cfg := cfg s1; seen := <[agent := st']> (seen s1) |},
       {| Block := true; FirstBlock := first; Reason := ReasonStructural;
          RetryAfter := ceilSeconds (time_sub (expires st) now) |})
    else
      let st' := {| sigs := sigs'; expires := expires st; blockedAt := blockedAt st |} in
      ({| cfg := cfg s1; seen := <[agent := st']> (seen s1) |}, proceed).
End Operations.

Definition Reset (s : StructuralHasher) (agent : AgentID) : StructuralHasher * Z :=
  match seen s !! agent with
  | Some _ => ({| cfg := cfg s; seen := delete agent (seen s) |}, 1)
  | None => (s, 0)
  end.

Example classify_examples :
  classifyString (bytes_of_string "123e4567-e89b-12d3-a456-426614174000") = Some "U"%byte
  /\ classifyString (bytes_of_string "2024-01-02T03:04:05Z") = Some "T"%byte
  /\ classifyString (bytes_of_string "1700000000") = Some "T"%byte
  /\ classifyString (bytes_of_string "0badcafe") = Some "H"%byte
  /\ classifyString (bytes_of_string "deadbeef") = None
  /\ string_of_bytes (normalizePayload (bytes_of_string "[true, -1.5e3 ,null,false,{k}]"))
     = "[B,#,N,B,{k}]".
Proof. vm_compute. done. Qed.

(** ** Specification-level views *)

(** The lexical elements of a body. *)
Inductive token :=
  | TString (content : list byte)
  | TSpace (c : byte)
  | TNumber (digits : list byte)
  | TTrue
  | TFalse
  | TNull
  | TOther (c : byte).

Definition render_token (t : token) : list byte :=
  match t with
  | TString s => quote :: s ++ [quote]
  | TSpace c => [c]
  | TNumber d => d
  | TTrue => bytes_of_string "true"
  | TFalse => bytes_of_string "false"
  | TNull => bytes_of_string "null"
  | TOther c => [c]
  end.

Definition render (ts : list token) : list byte := mjoin (render_token <$> ts).

(** The structural form of each element. *)
Definition placeholder (t : token) : list byte :=
  match t with
  | TString s =>
      match classifyString s with Some tag => [tag] | None => quote :: s ++ [quote] end
  | TSpace _ => []
  | TNumber _ => ["#"%byte]
  | TTrue | TFalse => ["B"%byte]
  | TNull => ["N"%byte]
  | TOther c => [c]
  end.

Definition structural_form (ts : list token) : list byte := mjoin (placeholder <$> ts).

(** Well-formed elements: the content of a string closes at its end (every quote
    in it is escaped), a number starts as a JSON number does, and any other byte
    is none of those that start another element. *)
Definition wf_token (t : token) : Prop :=
  match t with
  | TString s => scan_string (s ++ [quote]) = Some (s, [])
  | TSpace c => isSpace c = true
  | TNumber d =>
      match d with
      | [] => False
      | c :: _ => (byte_eqb c "-" || isDigit c) = true
      end /\ Forall (fun c => isNumberByte c = true) d
  | TOther c =>
      byte_eqb c quote = false /\ isSpace c = false /\ (byte_eqb c "-" || isDigit c) = false
      /\ byte_eqb c "t" = false /\ byte_eqb c "f" = false /\ byte_eqb c "n" = false
  | TTrue | TFalse | TNull => True
  end.

(** A number ends where its token ends. *)
Definition number_ends (t : token) (rest : list byte) : Prop :=
  match t, rest with
  | TNumber _, c :: _ => isNumberByte c = false
  | _, _ => True
  end.

Fixpoint wf_tokens (ts : list token) : Prop :=
  match ts with
  | [] => True
  | t :: ts' => wf_token t /\ number_ends t (render ts') /\ wf_tokens ts'
  end.

(** The three-byte windows of the structural form that are hashed. *)
Fixpoint shingles (n : nat) (form : list byte) : list (list byte) :=
  match n, form with
  | S n', c1 :: ((c2 :: c3 :: _) as rest) => [c1; c2; c3] :: shingles n' rest
  | _, _ => []
  end.

Definition wf (s : StructuralHasher) : Prop :=
  0 < MaxEntries (cfg s) /\ Z.of_nat (size (seen s)) <= MaxEntries (cfg s)
  /\ 0 < Window (cfg s)
  /\ map_Forall (fun _ st => Z.of_nat (length (sigs st)) <= Window (cfg s)) (seen s).

(** Consecutive checks of one agent. *)
Fixpoint check_seq {R : RangeOrder AgentID structuralState} (s : StructuralHasher) (a : AgentID)
    (calls : list (Z * list byte)) : list CheckResult :=
  match calls with
  | [] => []
  | (t, body) :: calls' => let '(s', r) := CheckPayload s t a body in r :: check_seq s' a calls'
  end.

(** ** Normalization *)

Lemma scan_string_length l s r : scan_string l = Some (s, r) -> (length r < length l)%nat.
Proof.
  remember (length l) as n eqn:Hn. revert l Hn s r.
  induction n as [n IH] using lt_wf_ind. intros [|c l] -> s r H; simpl in *; [done|].
  destruct (byte_eqb c backslash).
  - destruct l as [|c' l]; [done|]. destruct (scan_string l) as [[s' r']|] eqn:E; [|done].
    simplify_eq. specialize (IH (length l) ltac:(simpl; lia) l eq_refl _ _ E). simpl. lia.
  - destruct (byte_eqb c quote); [simplify_eq; lia|].
    destruct (scan_string l) as [[s' r']|] eqn:E; [|done].
    simplify_eq. specialize (IH (length l) ltac:(simpl; lia) l eq_refl _ _ E). lia.
Qed.

Lemma scan_string_app l r s r' :
  scan_string l = Some (s, r') -> scan_string (l ++ r) = Some (s, r' ++ r).
Proof.
  remember (length l) as n eqn:Hn. revert l Hn s r'.
  induction n as [n IH] using lt_wf_ind. intros [|c l] -> s r' H; simpl in *; [done|].
  destruct (byte_eqb c backslash).
  - destruct l as [|c' l]; [done|]. simpl.
    destruct (scan_string l) as [[s0 r0]|] eqn:E; [|done]. simplify_eq.
    by rewrite (IH (length l) ltac:(simpl; lia) l eq_refl _ _ E).
  - destruct (byte_eqb c quote); [by simplify_eq|].
    destruct (scan_string l) as [[s0 r0]|] eqn:E; [|done]. simplify_eq.
    by rewrite (IH (length l) ltac:(simpl; lia) l eq_refl _ _ E).
Qed.

Lemma span_length f l : (length (span f l).2 <= length l)%nat.
Proof.
  pose proof (span_app f l) as H. destruct (span f l) as [a b].
  destruct H as (-> & _). rewrite length_app. simpl. lia.
Qed.

Lemma number_start c : (byte_eqb c "-" || isDigit c) = true -> isNumberByte c = true.
Proof. unfold isNumberByte. destruct (byte_eqb c "-"), (isDigit c); done. Qed.

(** The loop of normalizePayload advances: it terminates on every body. *)
Lemma normalize_step_advances c l : (length (normalize_step c l).2 <= length l)%nat.
Proof.
  unfold normalize_step.
  destruct (byte_eqb c quote).
  { destruct (scan_string l) as [[s r]|] eqn:E; simpl; [|lia].
    pose proof (scan_string_length _ _ _ E). destruct (classifyString s); simpl; lia. }
  destruct (isSpace c); [done|].
  destruct (byte_eqb c "-" || isDigit c) eqn:Hd.
  { simpl. rewrite (number_start _ Hd). pose proof (span_length isNumberByte l).
    destruct (span isNumberByte l). simpl in *. lia. }
  repeat (case_match; [simpl; rewrite ?length_drop; lia|]). done.
Qed.

Lemma normalize_loop_fuel n k body :
  (length body <= n)%nat -> (length body <= k)%nat ->
  normalize_loop n body = normalize_loop k body.
Proof.
  revert k body. induction n as [|n IH]; intros k [|c l] Hn Hk; simpl in *; try lia;
    destruct k as [|k]; simpl in *; try lia; try done.
  pose proof (normalize_step_advances c l).
  destruct (normalize_step c l) as [out r]. simpl in *. f_equal. apply IH; lia.
Qed.

Lemma normalizePayload_cons c l :
  normalizePayload (c :: l)
  = (normalize_step c l).1 ++ normalizePayload (normalize_step c l).2.
Proof.
  unfold normalizePayload. simpl. pose proof (normalize_step_advances c l).
  destruct (normalize_step c l) as [out r]. simpl in *. f_equal.
  by apply normalize_loop_fuel.
Qed.

Lemma isSpace_cases c :
  isSpace c = true -> c = " "%byte \/ c = "009"%byte \/ c = "010"%byte \/ c = "013"%byte.
Proof.
  unfold isSpace. rewrite !orb_true_iff, !byte_eqb_eq. tauto.
Qed.

Lemma number_start_not_special c :
  (byte_eqb c "-" || isDigit c) = true -> byte_eqb c quote = false /\ isSpace c = false.
Proof. by destruct c. Qed.

Lemma normalize_token t rest :
  wf_token t -> number_ends t rest ->
  normalizePayload (render_token t ++ rest) = placeholder t ++ normalizePayload rest.
Proof.
  intros Hwf Hend. destruct t as [s|c|d| | | |c]; simpl in Hwf |- *.
  - rewrite normalizePayload_cons. unfold normalize_step. rewrite byte_eqb_refl.
    rewrite (scan_string_app _ rest _ _ Hwf). simpl. by destruct (classifyString s).
  - rewrite normalizePayload_cons. by destruct (isSpace_cases _ Hwf) as [->|[->|[->| ->]]].
  - destruct Hwf as [Hc Hall]. destruct d as [|c d]; [done|]. simpl.
    rewrite normalizePayload_cons. unfold normalize_step.
    destruct (number_start_not_special _ Hc) as [-> ->]. rewrite Hc. cbn [fst snd].
    rewrite app_comm_cons, span_exact; [done|done|]. by destruct rest.
  - by rewrite normalizePayload_cons.
  - by rewrite normalizePayload_cons.
  - by rewrite normalizePayload_cons.
  - destruct Hwf as (Hq & Hs & Hn & Ht & Hf & Hnn).
    rewrite normalizePayload_cons. unfold normalize_step.
    by rewrite Hq, Hs, Hn, Ht, Hf, Hnn.
Qed.

(** Normalization: the structural form of a body is obtained element by element -
    numbers, booleans, nulls, and strings that look like UUIDs, timestamps or hex
    ids become placeholders, whitespace disappears and everything else is kept -
    so two bodies that differ only in such values normalize identically. *)
Theorem normalize_tokens ts :
  wf_tokens ts -> normalizePayload (render ts) = structural_form ts.
Proof.
  unfold render, structural_form. induction ts as [|t ts IH]; [done|].
  intros (Ht & He & Hts). csimpl. rewrite normalize_token by done. by rewrite IH.
Qed.

Lemma normalize_tokens_witness :
  let body n := [TOther "{"; TString (bytes_of_string "attempt"); TOther ":"; TSpace " ";
                 TNumber (bytes_of_string n); TOther "}"] in
  normalizePayload (render (body "1")) = normalizePayload (render (body "27"))
  /\ string_of_bytes (render (body "27")) = string_of_bytes (bytes_of_string "{" ++ [quote]
       ++ bytes_of_string "attempt" ++ [quote] ++ bytes_of_string ": 27}").
Proof.
  intros body. split; [|reflexivity].
  rewrite (normalize_tokens (body "1")), (normalize_tokens (body "27"));
    [reflexivity|repeat split; repeat constructor; reflexivity..].
Defined.

(** ** The sketch *)

Lemma length_update_slots h sig : length (update_slots h sig) = length sig.
Proof. apply length_imap. Qed.

Lemma update_slots_lookup h sig k :
  update_slots h sig !! k = (fun v => Z.min v (slot_hash h k)) <$> sig !! k.
Proof.
  unfold update_slots. rewrite list_lookup_imap. destruct (sig !! k) as [v|]; [|done].
  simpl. f_equal. zcase (slot_hash h k <? v).
Qed.

Lemma shingle_loop_lookup n form sig k :
  shingle_loop n form sig !! k
  = (fun v => foldl (fun v g => Z.min v (slot_hash (fnv1a g) k)) v (shingles n form)) <$> sig !! k.
Proof.
  revert form sig. induction n as [|n IH]; intros form sig; simpl.
  { by rewrite option_fmap_id. }
  destruct form as [|c1 [|c2 [|c3 form]]]; simpl; try by rewrite option_fmap_id.
  rewrite IH, update_slots_lookup. by destruct (sig !! k).
Qed.

Lemma foldl_min_le (f : list byte -> Z) l v g :
  g ∈ l -> foldl (fun v g => Z.min v (f g)) v l <= f g.
Proof.
  revert v. induction l as [|x l IH]; intros v Hg; [by apply not_elem_of_nil in Hg|]. simpl.
  apply elem_of_cons in Hg as [->|Hg]; [|by apply IH].
  clear. revert v. induction l as [|y l IH]; intros v; simpl; [lia|].
  etrans; [|apply (IH v)]. clear IH. revert v.
  assert (forall l v w, v <= w -> foldl (fun v g => Z.min v (f g)) v l
                                  <= foldl (fun v g => Z.min v (f g)) w l) as Hmono.
  { clear. intros l. induction l as [|y l IH]; intros v w H; simpl; [done|]. apply IH. lia. }
  intros v. apply Hmono. lia.
Qed.

Lemma foldl_min_attained (f : list byte -> Z) l v :
  foldl (fun v g => Z.min v (f g)) v l = v
  \/ exists g, g ∈ l /\ foldl (fun v g => Z.min v (f g)) v l = f g.
Proof.
  revert v. induction l as [|x l IH]; intros v; [by left|]. simpl.
  destruct (IH (Z.min v (f x))) as [->|(g & Hg & ->)].
  - destruct (Z.min_spec v (f x)) as [[_ ->]|[_ ->]]; [by left|right; exists x; set_solver].
  - right. exists g. set_solver.
Qed.

Lemma foldl_min_bound (f : list byte -> Z) l v :
  foldl (fun v g => Z.min v (f g)) v l <= v.
Proof. revert v. induction l as [|x l IH]; intros v; simpl; [done|]. etrans; [apply IH|lia]. Qed.

Lemma foldl_min_set (f : list byte -> Z) l1 l2 v :
  (forall g, g ∈ l1 <-> g ∈ l2) ->
  foldl (fun v g => Z.min v (f g)) v l1 = foldl (fun v g => Z.min v (f g)) v l2.
Proof.
  intros Heq. apply Z.le_antisymm.
  - destruct (foldl_min_attained f l2 v) as [->|(g & Hg & ->)]; [apply foldl_min_bound|].
    apply foldl_min_le. by apply Heq.
  - destruct (foldl_min_attained f l1 v) as [->|(g & Hg & ->)]; [apply foldl_min_bound|].
    apply foldl_min_le. by apply Heq.
Qed.

Lemma length_minHash form : length (minHash form) = minHashK.
Proof.
  unfold minHash. generalize maxShingles as n. intros n.
  assert (forall n form sig, length (shingle_loop n form sig) = length sig) as ->; [|done].
  clear. intros n. induction n as [|n IH]; intros form sig; [done|]. simpl.
  destruct form as [|c1 [|c2 [|c3 form]]]; try done. by rewrite IH, length_update_slots.
Qed.

(** MinHash: every slot of the sketch is the minimum of the slot's projection over
    the first 256 three-byte windows of the form, so the sketch is a function of
    the set of those windows - neither their order nor their multiplicity matters. *)
Theorem minhash_is_set_minimum form :
  (forall k, (k < minHashK)%nat ->
     minHash form !! k
     = Some (foldl (fun v g => Z.min v (slot_hash (fnv1a g) k)) max_uint64
               (shingles maxShingles form)))
  /\ (forall form', (forall g, g ∈ shingles maxShingles form <-> g ∈ shingles maxShingles form') ->
        minHash form = minHash form').
Proof.
  assert (forall form k, (k < minHashK)%nat -> minHash form !! k
     = Some (foldl (fun v g => Z.min v (slot_hash (fnv1a g) k)) max_uint64
               (shingles maxShingles form))) as Hslot.
  { intros f k Hk. unfold minHash. rewrite shingle_loop_lookup.
    by rewrite lookup_replicate_2. }
  split; [by apply Hslot|]. intros form' Heq. apply list_eq. intros k.
  destruct (decide (k < minHashK)%nat) as [Hk|Hk].
  - rewrite !Hslot by done. f_equal. by apply foldl_min_set.
  - rewrite !lookup_ge_None_2; [done|rewrite length_minHash; lia..].
Qed.

(** Only the first 258 bytes of the form reach the sketch. *)
Lemma minhash_prefix form : minHash form = minHash (take 258 form).
Proof.
  assert (forall n m f, (n + 2 <= m)%nat -> shingles n (take m f) = shingles n f) as Hpre.
  { clear. intros n. induction n as [|n IH]; intros m f Hm; [done|].
    destruct m as [|[|[|m]]]; try lia. destruct f as [|c1 [|c2 [|c3 f]]]; try done. simpl.
    f_equal. apply (IH (S (S m)) (c2 :: c3 :: f)). lia. }
  apply minhash_is_set_minimum. by rewrite (Hpre maxShingles 258%nat form) by done.
Qed.

(** ** Similarity *)

Lemma matching_slots_range a b :
  0 <= matching_slots a b <= Z.of_nat (Nat.min (length a) (length b)).
Proof.
  unfold matching_slots. pose proof (length_filter (fun p : Z * Z => p.1 = p.2) (zip a b)).
  rewrite length_zip_with in *. lia.
Qed.

Lemma matching_slots_refl a : matching_slots a a = Z.of_nat (length a).
Proof.
  unfold matching_slots. f_equal. induction a as [|x a IH]; [done|].
  change (zip (x :: a) (x :: a)) with ((x, x) :: zip a a). rewrite filter_cons.
  rewrite decide_True by done. simpl. by rewrite IH.
Qed.

Lemma matching_slots_comm a b : matching_slots a b = matching_slots b a.
Proof.
  unfold matching_slots. f_equal. revert b. induction a as [|x a IH]; intros [|y b]; try done.
  change (zip (x :: a) (y :: b)) with ((x, y) :: zip a b).
  change (zip (y :: b) (x :: a)) with ((y, x) :: zip b a).
  rewrite !filter_cons. simpl. rewrite (decide_ext (x = y) (y = x)) by done.
  case_decide; simpl; by rewrite IH.
Qed.

Lemma jaccard_refl form : jaccard (minHash form) (minHash form) = f64_one.
Proof. unfold jaccard. rewrite matching_slots_refl, length_minHash. vm_compute. reflexivity. Qed.

(** The comparison of the estimate with the default threshold, for every possible
    number of matching slots. *)
Lemma default_threshold_table :
  forallb (fun m => Bool.eqb
      (f64_leb defaultStructuralThreshold
         (f64_div (f64_of_Z (Z.of_nat m)) (f64_of_Z (Z.of_nat minHashK))))
      (55 <=? Z.of_nat m)) (seq 0 65) = true.
Proof. vm_compute. reflexivity. Qed.

(** Similarity: jaccard is symmetric, and with the default threshold two sketches
    count as the same structure exactly when at least 55 of their 64 slots agree
    (the float64 comparison of match/64 with 0.85). *)
Theorem default_similarity_is_55_of_64 f1 f2 :
  let a := minHash f1 in let b := minHash f2 in
  jaccard a b = jaccard b a
  /\ f64_leb defaultStructuralThreshold (jaccard a b) = (55 <=? matching_slots a b)
  /\ jaccard a a = f64_one.
Proof.
  intros a b. unfold jaccard. split_and!.
  - by rewrite matching_slots_comm.
  - pose proof (matching_slots_range a b) as Hr. unfold a, b in Hr. rewrite !length_minHash in Hr.
    fold a b in Hr. pose proof default_threshold_table as Ht. rewrite forallb_forall in Ht.
    specialize (Ht (Z.to_nat (matching_slots a b))). rewrite in_seq in Ht.
    specialize (Ht ltac:(unfold minHashK in Hr; lia)). apply eqb_prop in Ht.
    by rewrite Z2Nat.id in Ht by lia.
  - apply jaccard_refl.
Qed.

(** ** The sliding window *)

Section Detection.
Context {R : RangeOrder AgentID structuralState}.

Lemma length_appendWindow l e cap :
  0 < cap -> Z.of_nat (length l) <= cap ->
  Z.of_nat (length (appendWindow l e cap)) = Z.min cap (Z.of_nat (length l) + 1).
Proof.
  intros Hc Hl. unfold appendWindow. rewrite length_app. simpl.
  zcase (cap <? Z.of_nat (length l + 1)).
  - rewrite length_drop, length_app. simpl. lia.
  - rewrite length_app. simpl. lia.
Qed.

Lemma appendWindow_replicate n e cap :
  0 < cap -> Z.of_nat n <= cap ->
  appendWindow (replicate n e) e cap = replicate (Nat.min (Z.to_nat cap) (S n)) e.
Proof.
  intros Hc Hn. unfold appendWindow.
  assert (replicate n e ++ [e] = replicate (S n) e) as -> by (by rewrite replicate_S_end).
  rewrite length_replicate. zcase (cap <? Z.of_nat (S n)).
  - rewrite drop_replicate. f_equal. lia.
  - f_equal. lia.
Qed.

Lemma state_lookup s a now :
  seen (state s a now).1 !! a = Some (state s a now).2 /\ cfg (state s a now).1 = cfg s
  /\ (seen s !! a = None ->
      (state s a now).2
      = {| sigs := []; expires := time_add now (TTL (cfg s)); blockedAt := zero_time |})
  /\ (forall st, seen s !! a = Some st -> state s a now = (s, st)).
Proof.
  unfold state. destruct (seen s !! a) as [st|] eqn:E; simpl.
  - split_and!; [done|done|done|]. intros st' ?. by simplify_eq.
  - rewrite lookup_insert_eq. by split_and!.
Qed.

(** A window in which [n] sketches of one structure were recorded, [n] possibly above
    the window width. *)
Definition same_window (s : StructuralHasher) (a : AgentID) (sig : signature) (ex n : Z) : Prop :=
  exists st, seen s !! a = Some st /\ expires st = ex
    /\ sigs st = replicate (Z.to_nat (Z.min n (Window (cfg s)))) sig
    /\ (blockedAt st = zero_time <-> n <= Limit (cfg s)).

Lemma count_matches_replicate s sig n :
  similar s sig sig = true -> count_matches s sig (replicate n sig) = Z.of_nat n.
Proof.
  intros Hs. unfold count_matches. f_equal. induction n as [|n IH]; [done|]. simpl.
  rewrite filter_cons, decide_True by done. simpl. by rewrite IH.
Qed.

Lemma CheckPayload_repeat s now a body form sig ex n :
  normalizePayload body = form -> (shingleSize <= length form)%nat -> sig = minHash form ->
  similar s sig sig = true -> 0 < Limit (cfg s) <= Window (cfg s) ->
  same_window s a sig ex n -> 0 <= n -> 0 < now < ex ->
  (Block (CheckPayload s now a body).2, FirstBlock (CheckPayload s now a body).2)
    = (Limit (cfg s) <=? n, n =? Limit (cfg s))
  /\ same_window (CheckPayload s now a body).1 a sig ex (n + 1)
  /\ cfg (CheckPayload s now a body).1 = cfg s.
Proof.
  intros Hform Hlen -> Hsim Hlw (st & Hst & Hex & Hsig & Hbl) Hn Hnow.
  unfold CheckPayload. rewrite Hform, (proj2 (Nat.ltb_ge _ _)) by done.
  destruct (state_lookup s a now) as (_ & _ & _ & Hstate). rewrite (Hstate st Hst).
  unfold time_before. rewrite Hex. rewrite (proj2 (Z.ltb_lt _ _)) by lia. simpl.
  rewrite Hsig, count_matches_replicate, appendWindow_replicate by (done || lia).
  rewrite Z2Nat.id by lia. unfold same_window, time_is_zero, zero_time in *.
  replace (Nat.min (Z.to_nat (Window (cfg s))) (S (Z.to_nat (Z.min n (Window (cfg s))))))
    with (Z.to_nat (Z.min (n + 1) (Window (cfg s)))) by lia.
  zcase (Limit (cfg s) <=? Z.min n (Window (cfg s))); simpl; rewrite lookup_insert_eq.
  - split_and!; [|eexists; split_and!; [done|done|done|]|done]; simpl.
    + f_equal; [zcase (Limit (cfg s) <=? n)|].
      zcase (blockedAt st =? 0); zcase (n =? Limit (cfg s)).
    + zcase (blockedAt st =? 0).
  - split_and!; [|eexists; split_and!; [done|done|done|]|done]; simpl.
    + f_equal; [zcase (Limit (cfg s) <=? n)|zcase (n =? Limit (cfg s))].
    + lia.
Qed.

Lemma check_seq_repeat s a form sig ex n calls :
  (shingleSize <= length form)%nat -> sig = minHash form ->
  similar s sig sig = true -> 0 < Limit (cfg s) <= Window (cfg s) ->
  same_window s a sig ex n -> 0 <= n ->
  Forall (fun c => normalizePayload c.2 = form /\ 0 < c.1 < ex) calls ->
  (fun r => (Block r, FirstBlock r)) <$> check_seq s a calls
  = imap (fun i _ => (Limit (cfg s) <=? n + Z.of_nat i, n + Z.of_nat i =? Limit (cfg s))) calls.
Proof.
  intros Hlen Hsig Hsim Hlw Hw Hn Hall. revert s n Hsim Hlw Hw Hn.
  induction Hall as [|[t body] calls [Hform Ht] Hall IH]; intros s n Hsim Hlw Hw Hn; [done|].
  csimpl. destruct (CheckPayload_repeat s t a body form sig ex n) as (Hr & Hw' & Hc); try done.
  destruct (CheckPayload s t a body) as [s' r]. csimpl in *. rewrite Hr. f_equal.
  - f_equal; f_equal; lia.
  - rewrite (IH s' (n + 1)); [|unfold similar in *; by rewrite Hc|by rewrite Hc|done|lia].
    rewrite Hc. apply imap_ext. intros i x _. simpl. f_equal; f_equal; lia.
Qed.

(** The first body of a window is recorded and proceeds. *)
Lemma CheckPayload_first s now a body :
  match seen s !! a with None => True | Some st => time_before now (expires st) = false end ->
  (shingleSize <= length (normalizePayload body))%nat -> 0 < Limit (cfg s) ->
  0 < Window (cfg s) ->
  (CheckPayload s now a body).2 = proceed
  /\ same_window (CheckPayload s now a body).1 a (minHash (normalizePayload body))
       (time_add now (TTL (cfg s))) 1
  /\ cfg (CheckPayload s now a body).1 = cfg s.
Proof.
  intros Hfresh Hlen Hl Hw. unfold CheckPayload. rewrite (proj2 (Nat.ltb_ge _ _)) by done.
  destruct (state_lookup s a now) as (_ & Hc & Hnone & Hsome).
  destruct (state s a now) as [s1 st0]. cbn [fst snd] in *.
  set (st := if negb _ then _ else _).
  assert (sigs st = [] /\ expires st = time_add now (TTL (cfg s)) /\ blockedAt st = zero_time)
    as (Hs & He & Hb).
  { unfold st. destruct (seen s !! a) as [st'|] eqn:E.
    - specialize (Hsome _ eq_refl). simplify_eq. by rewrite Hfresh.
    - specialize (Hnone eq_refl). subst st0. by destruct (negb _). }
  clearbody st. rewrite Hs. unfold count_matches. rewrite filter_nil.
  change (Z.of_nat (length [])) with 0. rewrite (proj2 (Z.leb_gt _ _)) by done.
  split_and!; [done| |done].
  eexists. split_and!; [simpl; apply lookup_insert_eq|done| |simpl; rewrite Hb, Hc; unfold zero_time; lia].
  simpl. rewrite Hc. change ([] : list signature) with (replicate 0 (minHash (normalizePayload body))).
  rewrite appendWindow_replicate by lia. f_equal. lia.
Qed.

(** With a window narrower than the limit nothing is ever blocked. *)
Lemma count_matches_le s sig l : count_matches s sig l <= Z.of_nat (length l).
Proof.
  unfold count_matches. apply inj_le, length_filter.
Qed.

Lemma state_wf s a now :
  wf s -> wf (state s a now).1
  /\ Z.of_nat (length (sigs (state s a now).2)) <= Window (cfg s).
Proof.
  intros (Hm & Hsz & Hw & Hall). unfold state.
  destruct (seen s !! a) as [st|] eqn:E; simpl.
  - split; [by split_and!|]. by apply (Hall a).
  - split; [|lia]. pose proof (evict_to_size R expires (MaxEntries (cfg s)) (seen s) Hm).
    split_and!; simpl; [done| |done|].
    + etrans; [apply inj_le, size_insert_le|lia].
    + apply map_Forall_insert_2; [simpl; lia|].
      intros k st Hk. apply (Hall k). eapply lookup_weaken; [done|apply evict_to_subseteq].
Qed.

Lemma CheckPayload_wf s now a body : wf s -> wf (CheckPayload s now a body).1.
Proof.
  intros Hwf. unfold CheckPayload. destruct (_ <? _)%nat; [done|].
  destruct (state_wf s a now Hwf) as [Hwf1 Hlen].
  destruct (state_lookup s a now) as (Hin & Hc & _).
  destruct (state s a now) as [s1 st0]. cbn [fst snd] in *.
  set (st := if negb _ then _ else _).
  assert (Z.of_nat (length (sigs st)) <= Window (cfg s)) as Hst.
  { unfold st. destruct (negb _); [simpl; unfold wf in Hwf; lia|done]. }
  clearbody st. destruct Hwf1 as (Hm & Hsz & Hw & Hall). rewrite <- Hc in Hst.
  pose proof (length_appendWindow (sigs st) (minHash (normalizePayload body)) _ Hw Hst) as Hl.
  rewrite <- Hc.
  destruct (_ <=? _); simpl; (split_and!; simpl;
    [done|rewrite map_size_insert_Some by eauto; done|done
    |apply map_Forall_insert_2; [simpl; lia|done]]).
Qed.
End Detection.

(** The bounds of the detector, on every operation: at most MaxEntries agents, and at
    most Window sketches for each of them. *)
Theorem structural_bounds (R : RangeOrder AgentID structuralState) :
  (forall c, wf (NewStructuralHasher c))
  /\ (forall s now a body, wf s -> wf (CheckPayload s now a body).1)
  /\ (forall s a, wf s -> wf (Reset s a).1).
Proof.
  split_and!.
  - intros c. unfold NewStructuralHasher, wf. simpl. split_and!.
    + unfold defaultStructuralMax. zcase (MaxEntries c <=? 0).
    + rewrite map_size_empty. unfold defaultStructuralMax. zcase (MaxEntries c <=? 0).
    + unfold defaultStructuralWindow. zcase (Window c <=? 0).
    + apply map_Forall_empty.
  - intros. by apply CheckPayload_wf.
  - intros s a (Hm & Hsz & Hw & Hall). unfold Reset.
    destruct (seen s !! a) as [st|] eqn:E; [|by split_and!].
    split_and!; simpl; [done| |done|by apply map_Forall_delete].
    rewrite map_size_delete_Some by eauto. lia.
Qed.

(** A misconfiguration the constructor accepts: with a window narrower than the
    limit, no body is ever blocked. *)
Theorem window_below_limit_never_blocks (R : RangeOrder AgentID structuralState) s now a body :
  wf s -> Window (cfg s) < Limit (cfg s) -> (CheckPayload s now a body).2 = proceed.
Proof.
  intros Hwf Hlt. unfold CheckPayload. destruct (_ <? _)%nat; [done|].
  destruct (state_wf s a now Hwf) as [Hwf1 Hlen].
  destruct (state s a now) as [s1 st0]. cbn [fst snd] in *.
  set (st := if negb _ then _ else _).
  assert (Z.of_nat (length (sigs st)) <= Window (cfg s)) as Hst.
  { unfold st. destruct (negb _); [simpl; unfold wf in Hwf; lia|done]. }
  clearbody st. pose proof (count_matches_le s (minHash (normalizePayload body)) (sigs st)).
  destruct (Limit (cfg s) <=? _) eqn:E; zbool; [lia|done].
Qed.

Lemma window_below_limit_never_blocks_witness :
  let c := {| Threshold := f64_zero; Window := 2; Limit := 3; TTL := 0; MaxEntries := 0 |} in
  (@CheckPayload (canonical_range _ _) (NewStructuralHasher c) 5 "a"%string
     (bytes_of_string "[1]")).2 = proceed.
Proof.
  intros c. apply window_below_limit_never_blocks; [|reflexivity].
  split_and!; [reflexivity|discriminate|reflexivity|apply map_Forall_empty].
Defined.

(** C23. Structural repeats: when an agent with no live window sends bodies of one
    structure, the requests after the first Limit ones are blocked until the window
    ends, and only the first of them reports FirstBlock. *)
Theorem structural_repeats_block (R : RangeOrder AgentID structuralState) s a form t0 body0 calls :
  match seen s !! a with None => True | Some st => time_before t0 (expires st) = false end ->
  (shingleSize <= length form)%nat ->
  f64_leb (Threshold (cfg s)) f64_one = true -> 0 < Limit (cfg s) <= Window (cfg s) ->
  normalizePayload body0 = form ->
  Forall (fun c => normalizePayload c.2 = form /\ 0 < c.1 < time_add t0 (TTL (cfg s))) calls ->
  (fun r => (Block r, FirstBlock r)) <$> check_seq s a ((t0, body0) :: calls)
  = imap (fun i _ => (Limit (cfg s) <=? Z.of_nat i, Z.of_nat i =? Limit (cfg s)))
      ((t0, body0) :: calls).
Proof.
  intros Hfresh Hlen Hthr Hlw <- Hall.
  destruct (CheckPayload_first s t0 a body0) as (Hr & Hw & Hc); try done; try lia.
  csimpl. destruct (CheckPayload s t0 a body0) as [s' r]. csimpl in *. subst r.
  rewrite (check_seq_repeat s' a (normalizePayload body0)
             (minHash (normalizePayload body0)) (time_add t0 (TTL (cfg s))) 1);
    rewrite ?Hc; try done; try lia.
  - f_equal.
    + rewrite (proj2 (Z.leb_gt _ (Z.of_nat 0))) by lia. simpl. f_equal.
      destruct (Limit (cfg s)) eqn:El; done || lia.
    + apply imap_ext. intros i x _. unfold compose. by rewrite Nat2Z.inj_succ, Z.add_1_l.
  - unfold similar. by rewrite Hc, jaccard_refl.
Qed.

Lemma structural_repeats_block_witness :
  let s := NewStructuralHasher
             {| Threshold := f64_zero; Window := 0; Limit := 0; TTL := 0; MaxEntries := 0 |} in
  let body n := bytes_of_string "[7,true," ++ n ++ bytes_of_string "]" in
  (fun r => Block r) <$>
    @check_seq (canonical_range _ _) s "a"%string
      [(5, body ["1"%byte]); (6, body ["2"%byte; "2"%byte]); (7, body ["3"%byte]);
       (8, body ["4"%byte]); (9, body ["5"%byte])]
  = [false; false; false; true; true].
Proof.
  intros s body.
  assert (forall (A B C : Type) (f : A -> B * C) (l : list A) (m : list (B * C)),
    f <$> l = m -> (fun x => (f x).1) <$> l = m.*1) as Hfst
    by (intros ? ? ? ? ? ? <-; by rewrite <- list_fmap_compose).
  refine (Hfst _ _ _ (fun r => (Block r, FirstBlock r)) _ _
    (structural_repeats_block (canonical_range _ _) s "a"%string (bytes_of_string "[#,B,#]")
       5 (body ["1"%byte]) _ _ _ _ _ _ _)).
  - exact I.
  - simpl. unfold shingleSize. lia.
  - vm_compute. reflexivity.
  - vm_compute. split; [reflexivity|discriminate].
  - vm_compute. reflexivity.
  - repeat constructor; reflexivity.
Defined.
