(* ===== verification/ToolMatcher.v ===== *)
(** * pkg/circuitbreaker/tool_matcher.go: cyclic tool-call detection

    The extraction of tool names from a body, the search for a repeated tail in
    the bounded sequence of names, and the per-agent confirmation machine. *)

From S2P Require Import Prelude GoJson Detector.

(** A tool name is the bytes of a Go string. *)
Abbreviation name := (list byte).

Record ToolConfig := {
  MaxSeq : Z;
  MaxPeriod : Z;
  Limit : Z;
  TTL : Z;
  MaxEntries : Z
}.

Record toolState := {
  seq : list name;
  period : Z;
  confirms : Z;
  expires : Z;
  blockedAt : Z
}.

Record ToolMatcher := {
  cfg : ToolConfig;
  states : gmap AgentID toolState
}.

Definition defaultToolMaxSeq : Z := 64.
Definition defaultToolMaxPeriod : Z := 8.
Definition defaultToolLimit : Z := 2.
Definition defaultToolTTL : Z := 10 * Minute.
Definition defaultToolMaxEntries : Z := 10000.

Definition NewToolMatcher (c : ToolConfig) : ToolMatcher :=
  {| cfg :=
       {| MaxSeq := if MaxSeq c <=? 0 then defaultToolMaxSeq else MaxSeq c;
          MaxPeriod := if MaxPeriod c <? 2 then defaultToolMaxPeriod else MaxPeriod c;
          Limit := if Limit c <=? 0 then defaultToolLimit else Limit c;
          TTL := if TTL c <=? 0 then defaultToolTTL else TTL c;
          MaxEntries := if MaxEntries c <=? 0 then defaultToolMaxEntries else MaxEntries c |};
     states := ∅ |}.

(** ** The names a body references *)

(** toolCallEnvelope: messages[].tool_calls[].function.name, functions[].name,
    tools[].{name, function.name}. *)
Definition toolCallEnvelope : ty :=
  TStruct
    [("messages"%string,
      TSlice (TStruct [("tool_calls"%string,
        TSlice (TStruct [("function"%string, TStruct [("name"%string, TString)])]))]));
     ("functions"%string, TSlice (TStruct [("name"%string, TString)]));
     ("tools"%string,
      TSlice (TStruct [("name"%string, TString);
                       ("function"%string, TStruct [("name"%string, TString)])]))].

Definition nonempty (n : name) : list name := match n with [] => [] | _ => [n] end.

Definition extractToolNames (body : list byte) : list name :=
  match unmarshal toolCallEnvelope body with
  | None => []
  | Some env =>
      let messages := g_elems (g_field 0 env) in
      let functions := g_elems (g_field 1 env) in
      let tools := g_elems (g_field 2 env) in
      mjoin ((fun m =>
        mjoin ((fun c => nonempty (g_str (g_field 0 (g_field 0 c)))) <$> g_elems (g_field 0 m)))
        <$> messages)
      ++ mjoin ((fun f => nonempty (g_str (g_field 0 f))) <$> functions)
      ++ mjoin ((fun t =>
           let n := g_str (g_field 0 (g_field 1 t)) in
           nonempty (match n with [] => g_str (g_field 0 t) | _ => n end)) <$> tools)
  end.

(** ** The search for a repeated tail *)

Fixpoint equalStrings (a b : list name) : bool :=
  match a, b with
  | [], [] => true
  | x :: a', y :: b' => bytes_eqb x y && equalStrings a' b'
  | _, _ => false
  end.

(** s[i:j]; the caller keeps 0 <= i <= j <= len(s). *)
Definition slice (s : list name) (i j : Z) : list name :=
  take (Z.to_nat (j - i)) (drop (Z.to_nat i) s).

Fixpoint cycle_loop (fuel : nat) (p maxPeriod : Z) (s : list name) : Z * bool :=
  match fuel with
  | O => (0, false)
  | S fuel' =>
      let n := Z.of_nat (length s) in
      if (p <=? maxPeriod) && (2 * p <=? n) then
        if equalStrings (slice s (n - 2 * p) (n - p)) (slice s (n - p) n) then (p, true)
        else cycle_loop fuel' (p + 1) maxPeriod s
      else (0, false)
  end.

(** At most len(seq)/2 periods are tried, so the length is enough fuel
    ([detectCycle_least]). *)
Definition detectCycle (s : list name) (maxPeriod : Z) : Z * bool :=
  cycle_loop (length s) 2 maxPeriod s.

(** ** The detector *)

Definition reset (st : toolState) (ex : Z) : toolState :=
  {| seq := []; period := 0; confirms := 0; expires := ex; blockedAt := zero_time |}.

Definition push (st : toolState) (names : list name) (cap : Z) : toolState :=
  let s := seq st ++ names in
  {| seq := if cap <? Z.of_nat (length s) then drop (length s - Z.to_nat cap) s else s;
     period := period st; confirms := confirms st; expires := expires st;
     blockedAt := blockedAt st |}.

(** The confirmation step on the outcome of detectCycle. *)
Definition confirm (st : toolState) (c : Z * bool) : toolState :=
  let '(p, ok) := c in
  {| seq := seq st;
     period := if ok then p else 0;
     confirms := if ok then (if p =? period st then confirms st + 1 else 1) else 0;
     expires := expires st; blockedAt := blockedAt st |}.

Definition with_states (m : ToolMatcher) (s : gmap AgentID toolState) : ToolMatcher :=
  {| cfg := cfg m; states := s |}.

Section Operations.
Context {R : RangeOrder AgentID toolState}.

Definition evictIfNeeded (m : ToolMatcher) : ToolMatcher :=
  with_states m (evict_to R expires (MaxEntries (cfg m)) (states m)).

Definition state (m : ToolMatcher) (agent : AgentID) (now : Z) : ToolMatcher * toolState :=
  match states m !! agent with
  | Some st => (m, st)
  | None =>
      let m' := evictIfNeeded m in
      let st := {| seq := []; period := 0; confirms := 0;
                   expires := time_add now (TTL (cfg m)); blockedAt := zero_time |} in
      (with_states m' (<[agent := st]> (states m')), st)
  end.

(** The update of one agent's state for a non-empty list of names. *)
Definition step (c : ToolConfig) (now : Z) (names : list name) (st0 : toolState) :
    toolState * CheckResult :=
  let st1 := if negb (time_before now (expires st0))
             then reset st0 (time_add now (TTL c)) else st0 in
  let st2 := push st1 names (MaxSeq c) in
  let st3 := confirm st2 (detectCycle (seq st2) (MaxPeriod c)) in
  if Limit c <=? confirms st3 then
    let first := time_is_zero (blockedAt st3) in
    ({| seq := seq st3; period := period st3; confirms := confirms st3; expires := expires st3;
        blockedAt := if first then now else blockedAt st3 |},
     {| Block := true; FirstBlock := first; Reason := ReasonToolCycle;
        RetryAfter := ceilSeconds (time_sub (expires st3) now) |})
  else (st3, proceed).

Definition CheckPayload (m : ToolMatcher) (now : Z) (agent : AgentID) (body : list byte) :
    ToolMatcher * CheckResult :=
  match extractToolNames body with
  | [] => (m, proceed)
  | names =>
      let '(m1, st0) := state m agent now in
      let '(st, res) := step (cfg m) now names st0 in
      (with_states m1 (<[agent := st]> (states m1)), res)
  end.
End Operations.

Definition Reset (m : ToolMatcher) (agent : AgentID) : ToolMatcher * Z :=
  match states m !! agent with
  | Some _ => (with_states m (delete agent (states m)), 1)
  | None => (m, 0)
  end.

Example extract_examples :
  extractToolNames (text "{'messages':[{'role':'user'},{'tool_calls':[{'function':{'name':'a'}},{'function':{}}]}],'tools':[{'name':'t','function':{'name':''}},{'function':{'name':'u'}}],'functions':[{'name':'f'}]}")
    = [bytes_of_string "a"; bytes_of_string "f"; bytes_of_string "t"; bytes_of_string "u"]
  /\ extractToolNames (text "{'messages':[{'tool_calls':[{'function':{'name':3}}]}]}") = [].
Proof. vm_compute. done. Qed.

(** ** Specification-level views *)

(** The sequence ends with a block of [p] names written twice. *)
Definition ends_with_square (s : list name) (p : Z) : Prop :=
  exists a w, s = a ++ w ++ w /\ Z.of_nat (length w) = p.

(** The last [n] names. *)
Definition last_n (n : Z) (s : list name) : list name := drop (length s - Z.to_nat n) s.

(** What the tail of a conversation looks like to the detector, and the number of
    latest observations that saw the same cycle. *)
Definition observation (c : ToolConfig) (calls : list (list name)) : Z * bool :=
  detectCycle (last_n (MaxSeq c) (mjoin calls)) (MaxPeriod c).

(** [streak c calls]: how many consecutive observations, the last one included,
    found a cycle of the period the last one found. *)
Fixpoint streak_rev (c : ToolConfig) (rcalls : list (list name)) : Z :=
  match rcalls with
  | [] => 0
  | _ :: r =>
      let '(p, ok) := observation c (reverse rcalls) in
      if ok then
        if bool_decide (observation c (reverse r) = (p, true)) then streak_rev c r + 1 else 1
      else 0
  end.
Definition streak (c : ToolConfig) (calls : list (list name)) : Z := streak_rev c (reverse calls).

Definition wf (m : ToolMatcher) : Prop :=
  0 < MaxEntries (cfg m) /\ Z.of_nat (size (states m)) <= MaxEntries (cfg m)
  /\ 0 < MaxSeq (cfg m)
  /\ map_Forall (fun _ st => Z.of_nat (length (seq st)) <= MaxSeq (cfg m)) (states m).

(** Consecutive checks of one agent. *)
Fixpoint check_seq {R : RangeOrder AgentID toolState} (m : ToolMatcher) (a : AgentID)
    (calls : list (Z * list byte)) : list CheckResult :=
  match calls with
  | [] => []
  | (t, body) :: calls' => let '(m', r) := CheckPayload m t a body in r :: check_seq m' a calls'
  end.

(** ** The search *)

Lemma bytes_eqb_eq a b : bytes_eqb a b = true <-> a = b.
Proof. apply bool_decide_eq_true. Qed.

Lemma equalStrings_eq a b : equalStrings a b = true <-> a = b.
Proof.
  revert b. induction a as [|x a IH]; intros [|y b]; simpl; try done.
  rewrite andb_true_iff, bytes_eqb_eq, IH. naive_solver.
Qed.

Lemma square_slices s p :
  0 <= p -> 2 * p <= Z.of_nat (length s) ->
  equalStrings (slice s (Z.of_nat (length s) - 2 * p) (Z.of_nat (length s) - p))
    (slice s (Z.of_nat (length s) - p) (Z.of_nat (length s))) = true
  <-> ends_with_square s p.
Proof.
  intros Hp Hn. rewrite equalStrings_eq. unfold slice, ends_with_square.
  set (k := Z.to_nat p). set (n := length s) in *.
  replace (Z.to_nat (Z.of_nat n - 2 * p)) with (n - 2 * k)%nat by lia.
  replace (Z.to_nat (Z.of_nat n - p - (Z.of_nat n - 2 * p))) with k by lia.
  replace (Z.to_nat (Z.of_nat n - p)) with (n - 2 * k + k)%nat by lia.
  replace (Z.to_nat (Z.of_nat n - (Z.of_nat n - p))) with k by lia.
  rewrite <- drop_drop.
  assert (length (drop (n - 2 * k) s) = (2 * k)%nat) as Hd by (rewrite length_drop; fold n; lia).
  pose proof (take_drop (n - 2 * k) s) as Hs. set (a := take (n - 2 * k) s) in *.
  set (u := drop (n - 2 * k) s) in *.
  rewrite (take_ge (drop k u)) by (rewrite length_drop; lia).
  pose proof (take_drop k u) as Hu. split.
  - intros E. exists a, (take k u). split; [by rewrite E at 2; rewrite Hu, Hs|].
    rewrite length_take. lia.
  - intros (a' & w & Hsw & Hw).
    assert (a' = a /\ w ++ w = u) as [_ <-].
    { apply app_inj_2; [rewrite length_app; lia|]. by rewrite Hs. }
    assert (length w = k) as Hk by lia.
    by rewrite <- Hk, take_app_length, drop_app_length.
Qed.

Lemma cycle_loop_spec fuel p maxP s :
  2 <= p -> Z.of_nat (length s) < 2 * (p + Z.of_nat fuel) ->
  let '(q, ok) := cycle_loop fuel p maxP s in
  if ok then p <= q <= maxP /\ ends_with_square s q
             /\ forall r, p <= r < q -> ~ ends_with_square s r
  else q = 0 /\ forall r, p <= r <= maxP -> ~ ends_with_square s r.
Proof.
  revert p. induction fuel as [|fuel IH]; intros p Hp Hf; cbn [cycle_loop].
  { split; [done|]. intros r Hr (a & w & -> & Hw). rewrite !length_app in Hf. lia. }
  destruct ((p <=? maxP) && (2 * p <=? Z.of_nat (length s))) eqn:Hc; zbool.
  - destruct (equalStrings _ _) eqn:He.
    + apply square_slices in He; [|lia..]. split_and!; [lia|lia|done|lia].
    + assert (~ ends_with_square s p) as Hno.
      { intros Hsq. apply square_slices in Hsq; [congruence|lia..]. }
      specialize (IH (p + 1) ltac:(lia) ltac:(lia)).
      destruct (cycle_loop fuel (p + 1) maxP s) as [q ok]. destruct ok.
      * destruct IH as (Hq & Hsq & Hmin). split_and!; [lia|lia|done|].
        intros r Hr. destruct (decide (r = p)) as [->|]; [done|]. apply Hmin. lia.
      * destruct IH as [-> Hnone]. split; [done|]. intros r Hr.
        destruct (decide (r = p)) as [->|]; [done|]. apply Hnone. lia.
  - split; [done|]. intros r Hr (a & w & -> & Hw).
    apply andb_false_iff in Hc as [Hc|Hc]; zbool; [lia|]. rewrite !length_app in Hc. lia.
Qed.

Lemma detectCycle_spec s maxP :
  let '(q, ok) := detectCycle s maxP in
  if ok then 2 <= q <= maxP /\ ends_with_square s q
             /\ forall r, 2 <= r < q -> ~ ends_with_square s r
  else q = 0 /\ forall r, 2 <= r <= maxP -> ~ ends_with_square s r.
Proof. apply cycle_loop_spec; lia. Qed.

(** The cycle search is sound, complete and minimal: it answers [p] exactly when the
    sequence ends with a block of p names written twice, 2 <= p <= MaxPeriod, and
    no shorter block of at least two names does; it answers "none" exactly when
    no such block exists. *)
Theorem detectCycle_least s maxP :
  (forall p, detectCycle s maxP = (p, true) <->
     2 <= p <= maxP /\ ends_with_square s p /\ forall q, 2 <= q < p -> ~ ends_with_square s q)
  /\ (detectCycle s maxP = (0, false) <-> forall p, 2 <= p <= maxP -> ~ ends_with_square s p).
Proof.
  pose proof (detectCycle_spec s maxP) as H. destruct (detectCycle s maxP) as [q ok].
  destruct ok; split.
  - intros p. split; [by intros [= ->]|]. intros (Hp & Hsq & Hmin). f_equal.
    destruct H as (Hq & Hsq' & Hmin'). destruct (Z.lt_trichotomy p q) as [Hlt|[->|Hgt]]; [|done|].
    + exfalso. apply (Hmin' p); [lia|done].
    + exfalso. apply (Hmin q); [lia|done].
  - split; [done|]. intros Hnone. exfalso. destruct H as (Hq & Hsq & _). by apply (Hnone q).
  - intros p. split; [done|]. intros (Hp & Hsq & _). exfalso. destruct H as [_ Hnone].
    apply (Hnone p); [lia|done].
  - destruct H as [-> Hnone]. by split.
Qed.

(** ** The window of one agent *)

Lemma last_n_app n a b : 0 <= n ->
  last_n n (a ++ b) = last_n n (last_n n a ++ b).
Proof.
  intros Hn. unfold last_n. rewrite !length_app, length_drop.
  destruct (decide (length a + length b <= Z.to_nat n)%nat).
  - replace (length a - Z.to_nat n)%nat with 0%nat by lia. rewrite drop_0.
    replace (length a - 0 + length b)%nat with (length a + length b)%nat by lia. done.
  - destruct (decide (length a <= Z.to_nat n)%nat).
    + replace (length a - Z.to_nat n)%nat with 0%nat by lia. rewrite drop_0. do 2 f_equal. lia.
    + set (k := (length a - Z.to_nat n)%nat).
      assert (a ++ b = take k a ++ (drop k a ++ b)) as -> by (by rewrite app_assoc, take_drop).
      rewrite drop_app, length_take, drop_ge by (rewrite length_take; lia).
      simpl. f_equal. lia.
Qed.

Lemma push_seq st names cap :
  seq (push st names cap) = last_n cap (seq st ++ names).
Proof.
  unfold push, last_n. simpl. zcase (cap <? Z.of_nat (length (seq st ++ names))); [done|].
  by replace (length (seq st ++ names) - Z.to_nat cap)%nat with 0%nat by lia.
Qed.

Lemma streak_snoc c calls w :
  streak c (calls ++ [w])
  = (let '(p, ok) := observation c (calls ++ [w]) in
     if ok then if bool_decide (observation c calls = (p, true)) then streak c calls + 1 else 1
     else 0).
Proof.
  unfold streak. rewrite reverse_snoc. cbn [streak_rev].
  by rewrite reverse_cons, !reverse_involutive.
Qed.

(** The state of an agent whose current window recorded [calls]. *)
Definition window_state (c : ToolConfig) (ex : Z) (calls : list (list name)) (blocked : bool)
    (st : toolState) : Prop :=
  seq st = last_n (MaxSeq c) (mjoin calls) /\ expires st = ex
  /\ (period st, confirms st)
     = (let '(p, ok) := observation c calls in if ok then (p, streak c calls) else (0, 0))
  /\ time_is_zero (blockedAt st) = negb blocked.

(** The answers the streak of each prefix calls for. *)
Fixpoint expected (c : ToolConfig) (pre calls : list (list name)) (blocked : bool) :
    list (bool * bool) :=
  match calls with
  | [] => []
  | w :: calls' =>
      let b := Limit c <=? streak c (pre ++ [w]) in
      (b, b && negb blocked) :: expected c (pre ++ [w]) calls' (blocked || b)
  end.

Lemma step_window c ex calls blocked st now w :
  0 <= MaxSeq c -> 0 < Limit c -> window_state c ex calls blocked st -> 0 < now < ex ->
  let b := Limit c <=? streak c (calls ++ [w]) in
  (Block (step c now w st).2, FirstBlock (step c now w st).2) = (b, b && negb blocked)
  /\ window_state c ex (calls ++ [w]) (blocked || b) (step c now w st).1.
Proof.
  intros Hseq Hlim (Hs & He & Hpc & Hb) Hnow.
  assert (seq (push st w (MaxSeq c)) = last_n (MaxSeq c) (mjoin (calls ++ [w]))) as Hp.
  { rewrite push_seq, Hs, join_app. csimpl. by rewrite app_nil_r, <- last_n_app. }
  unfold step. unfold time_before. rewrite He, (proj2 (Z.ltb_lt _ _)) by lia. cbn [negb].
  rewrite Hp. fold (observation c (calls ++ [w])).
  assert ((period (confirm (push st w (MaxSeq c)) (observation c (calls ++ [w]))),
           confirms (confirm (push st w (MaxSeq c)) (observation c (calls ++ [w]))))
     = (let '(p, ok) := observation c (calls ++ [w]) in
        if ok then (p, streak c (calls ++ [w])) else (0, 0))) as Hpc'.
  { rewrite streak_snoc. pose proof (detectCycle_spec (last_n (MaxSeq c) (mjoin (calls ++ [w])))
      (MaxPeriod c)) as Hd. fold (observation c (calls ++ [w])) in Hd.
    destruct (observation c (calls ++ [w])) as [p ok]. destruct ok; [|done]. cbn.
    destruct Hd as [Hd _]. f_equal. destruct (observation c calls) as [p' ok'] eqn:Eo.
    destruct ok'; injection Hpc as Hper Hcon; rewrite Hper, Hcon.
    - zcase (p =? p'); [subst; by rewrite bool_decide_true|].
      by rewrite bool_decide_false by congruence.
    - zcase (p =? 0); by rewrite bool_decide_false by congruence. }
  set (st3 := confirm _ _) in *.
  assert (seq st3 = last_n (MaxSeq c) (mjoin (calls ++ [w])) /\ expires st3 = ex
          /\ blockedAt st3 = blockedAt st) as (Hs3 & He3 & Hb3).
  { unfold st3, confirm. destruct (observation c (calls ++ [w])). by rewrite <- Hp. }
  clearbody st3. assert ((Limit c <=? confirms st3) = (Limit c <=? streak c (calls ++ [w]))) as Hconf.
  { pose proof (streak_snoc c calls w) as Hsn.
    destruct (observation c (calls ++ [w])) as [p ok]. destruct ok; injection Hpc' as _ ->; [done|].
    by rewrite Hsn. }
  rewrite Hconf, Hb3, Hb. unfold window_state.
  destruct (Limit c <=? streak c (calls ++ [w])); cbn [Block FirstBlock fst snd andb proceed].
  - split; [done|]. cbn [seq expires period confirms blockedAt]. split_and!; [done|done|done|].
    rewrite orb_true_r. destruct blocked; simpl in *; [done|]. unfold time_is_zero, zero_time. lia.
  - rewrite orb_false_r. split; [done|]. by rewrite Hb3.
Qed.

Section Runs.
Context {R : RangeOrder AgentID toolState}.

Lemma CheckPayload_some m now a body st names :
  states m !! a = Some st -> extractToolNames body = names -> names <> [] ->
  CheckPayload m now a body
  = (with_states m (<[a := (step (cfg m) now names st).1]> (states m)),
     (step (cfg m) now names st).2).
Proof.
  intros Hst Hn Hne. unfold CheckPayload, state. rewrite Hn, Hst.
  destruct names; [done|]. by destruct (step _ _ _ _).
Qed.

Lemma expected_run m a ex pre calls blocked st :
  0 <= MaxSeq (cfg m) -> 0 < Limit (cfg m) ->
  states m !! a = Some st -> window_state (cfg m) ex pre blocked st ->
  Forall (fun c => extractToolNames c.2 <> [] /\ 0 < c.1 < ex) calls ->
  (fun r => (Block r, FirstBlock r)) <$> check_seq m a calls
  = expected (cfg m) pre ((fun c => extractToolNames c.2) <$> calls) blocked.
Proof.
  intros Hseq Hlim Hst Hw Hall. revert m pre blocked st Hseq Hlim Hst Hw.
  induction Hall as [|[t body] calls [Hne Ht] Hall IH]; intros m pre blocked st Hseq Hlim Hst Hw;
    [done|].
  csimpl in *. rewrite (CheckPayload_some m t a body st (extractToolNames body)) by done.
  destruct (step_window (cfg m) ex pre blocked st t (extractToolNames body)) as [Hr Hw']; try done.
  csimpl. rewrite Hr. f_equal.
  apply (IH (with_states m (<[a := (step (cfg m) t (extractToolNames body) st).1]> (states m))) _ _
            (step (cfg m) t (extractToolNames body) st).1); try done.
  simpl. apply lookup_insert_eq.
Qed.

(** The first call of a window. *)
Lemma window_state_fresh c ex :
  window_state c ex [] false
    {| seq := []; period := 0; confirms := 0; expires := ex; blockedAt := zero_time |}.
Proof. by split_and!. Qed.

Lemma check_seq_fresh m a t0 body0 calls :
  match states m !! a with None => True | Some st => time_before t0 (expires st) = false end ->
  0 < MaxSeq (cfg m) -> 0 < Limit (cfg m) -> 0 < t0 < time_add t0 (TTL (cfg m)) ->
  Forall (fun c => extractToolNames c.2 <> [] /\ 0 < c.1 < time_add t0 (TTL (cfg m)))
    ((t0, body0) :: calls) ->
  (fun r => (Block r, FirstBlock r)) <$> check_seq m a ((t0, body0) :: calls)
  = expected (cfg m) [] ((fun c => extractToolNames c.2) <$> ((t0, body0) :: calls)) false.
Proof.
  intros Hfresh Hseq Hlim Ht0 Hall.
  set (ex := time_add t0 (TTL (cfg m))) in *.
  set (st := {| seq := []; period := 0; confirms := 0; expires := ex; blockedAt := zero_time |}).
  apply Forall_cons in Hall as [[Hne Ht] Hall]. cbn [fst snd] in Hne.
  (* the first call acts as on a state holding an empty window *)
  assert (exists m0, cfg m0 = cfg m
    /\ CheckPayload m t0 a body0
       = (with_states m0 (<[a := (step (cfg m) t0 (extractToolNames body0) st).1]> (states m0)),
          (step (cfg m) t0 (extractToolNames body0) st).2)) as (m0 & Hm0 & Hcp).
  { destruct (states m !! a) as [st0|] eqn:E.
    - exists m. split; [done|]. rewrite (CheckPayload_some m t0 a body0 st0 _ E eq_refl Hne).
      assert (step (cfg m) t0 (extractToolNames body0) st0
              = step (cfg m) t0 (extractToolNames body0) st) as ->; [|done].
      unfold step. rewrite Hfresh. cbn [negb expires st].
      unfold time_before. rewrite (proj2 (Z.ltb_lt t0 ex)) by lia. done.
    - exists (with_states m (<[a := st]> (states (evictIfNeeded m)))). split; [done|].
      unfold CheckPayload, state. rewrite E.
      destruct (extractToolNames body0) eqn:En; [done|]. fold ex st.
      destruct (step _ _ _ _) as [st' r]. done. }
  destruct (step_window (cfg m) ex [] false st t0 (extractToolNames body0))
    as [Hr Hw]; [lia|done|apply window_state_fresh|lia|].
  cbn [check_seq]. rewrite Hcp. csimpl. rewrite Hr. f_equal.
  set (st1 := (step _ _ _ st).1) in *. clearbody st1. rewrite <- Hm0 in Hw, Hseq, Hlim |- *.
  by rewrite (expected_run (with_states m0 (<[a := st1]> (states m0))) a ex _ calls _ st1
    ltac:(simpl; lia) Hlim ltac:(simpl; apply lookup_insert_eq) Hw Hall).
Qed.
End Runs.

(** C22. The detector refines its specification: along the calls of one window (each
    naming at least one tool), a request is blocked exactly when the cycle search
    on the last MaxSeq names has found the same period in the last Limit
    observations or more, and FirstBlock is reported once. *)
Theorem tool_window_refines (R : RangeOrder AgentID toolState) m a t0 body0 calls :
  match states m !! a with None => True | Some st => time_before t0 (expires st) = false end ->
  0 < MaxSeq (cfg m) -> 0 < Limit (cfg m) -> 0 < t0 < time_add t0 (TTL (cfg m)) ->
  Forall (fun c => extractToolNames c.2 <> [] /\ 0 < c.1 < time_add t0 (TTL (cfg m)))
    ((t0, body0) :: calls) ->
  (fun r => (Block r, FirstBlock r)) <$> check_seq m a ((t0, body0) :: calls)
  = expected (cfg m) [] ((fun c => extractToolNames c.2) <$> ((t0, body0) :: calls)) false.
Proof. apply check_seq_fresh. Qed.

(** A request whose one assistant message calls the tool [n]. *)
Definition call_of (n : string) : list byte :=
  bytes_of_string "{" ++ text "'messages':[{'tool_calls':[{'function':{'name':'"
  ++ bytes_of_string n ++ text "'}}]}]}".

Definition default_matcher : ToolMatcher :=
  NewToolMatcher {| MaxSeq := 0; MaxPeriod := 0; Limit := 0; TTL := 0; MaxEntries := 0 |}.

Lemma tool_window_refines_witness :
  let calls := [(6, call_of "b"); (7, call_of "a"); (8, call_of "b"); (9, call_of "a");
                (10, call_of "b"); (11, call_of "c"); (12, call_of "a")] in
  (fun r => (Block r, FirstBlock r)) <$>
    @check_seq (canonical_range _ _) default_matcher "x"%string ((5, call_of "a") :: calls)
  = [(false, false); (false, false); (false, false); (false, false); (true, true); (true, false);
     (false, false); (false, false)].
Proof.
  intros calls. rewrite (tool_window_refines (canonical_range _ _)).
  - vm_compute. reflexivity.
  - vm_compute. exact I.
  - vm_compute. reflexivity.
  - vm_compute. reflexivity.
  - vm_compute. split; reflexivity.
  - repeat constructor; vm_compute; discriminate.
Defined.

(** ** Repeating one batch of names *)

(** The tail of k+2 copies of a batch shows the squares the tail of two copies shows. *)
Lemma square_in_tail a w p :
  0 <= p <= Z.of_nat (length w) ->
  ends_with_square (a ++ w ++ w) p <-> ends_with_square (w ++ w) p.
Proof.
  intros Hp. split.
  - intros (b & v & E & Hv).
    exists (drop (length a) b), v. split; [|done].
    assert (length (b ++ v ++ v) = length (a ++ w ++ w)) as Hl by (by rewrite E).
    rewrite !length_app in Hl.
    assert (drop (length a) (a ++ w ++ w) = drop (length a) (b ++ v ++ v)) as Hd by (by rewrite E).
    rewrite drop_app_length in Hd. rewrite Hd. rewrite drop_app_le by lia. done.
  - intros (b & v & E & Hv). exists (a ++ b), v. by rewrite E, <- app_assoc.
Qed.

Lemma last_n_short n s : Z.of_nat (length s) <= n -> last_n n s = s.
Proof.
  intros. unfold last_n. by replace (length s - Z.to_nat n)%nat with 0%nat by lia.
Qed.

Lemma last_n_tail n a u :
  Z.of_nat (length u) <= n -> exists b, last_n n (a ++ u) = b ++ u.
Proof.
  intros Hu. unfold last_n. rewrite drop_app_le by (rewrite length_app; lia). eauto.
Qed.

Lemma detectCycle_batch b w maxP :
  2 <= Z.of_nat (length w) <= maxP ->
  detectCycle (b ++ w ++ w) maxP = detectCycle (w ++ w) maxP
  /\ (detectCycle (w ++ w) maxP).2 = true.
Proof.
  intros Hw. pose proof (detectCycle_spec (b ++ w ++ w) maxP) as H1.
  pose proof (detectCycle_spec (w ++ w) maxP) as H2.
  assert (forall s, ends_with_square (s ++ w ++ w) (Z.of_nat (length w))) as Hsq.
  { intros s. by exists s, w. }
  destruct (detectCycle (b ++ w ++ w) maxP) as [p1 ok1].
  destruct (detectCycle (w ++ w) maxP) as [p2 ok2]. simpl.
  destruct ok1; [|exfalso; destruct H1 as [_ H1]; by apply (H1 (Z.of_nat (length w)) Hw)].
  destruct ok2; [|exfalso; destruct H2 as [_ H2]; apply (H2 (Z.of_nat (length w)) Hw), (Hsq [])].
  split; [|done]. f_equal. destruct H1 as (Hp1 & Hs1 & Hmin1), H2 as (Hp2 & Hs2 & Hmin2).
  assert (p1 <= Z.of_nat (length w)).
  { destruct (Z.le_gt_cases p1 (Z.of_nat (length w))) as [|Hgt]; [done|].
    exfalso. by apply (Hmin1 (Z.of_nat (length w)) ltac:(lia)). }
  assert (p2 <= Z.of_nat (length w)).
  { destruct (Z.le_gt_cases p2 (Z.of_nat (length w))) as [|Hgt]; [done|].
    exfalso. apply (Hmin2 (Z.of_nat (length w)) ltac:(lia)), (Hsq []). }
  destruct (Z.lt_trichotomy p1 p2) as [Hlt|[->|Hgt]]; [|done|]; exfalso.
  - apply (Hmin2 p1); [lia|]. eapply square_in_tail; [|done]. lia.
  - apply (Hmin1 p2); [lia|]. apply square_in_tail; [lia|done].
Qed.

Lemma observation_batch c w k :
  2 <= Z.of_nat (length w) <= MaxPeriod c -> 2 * Z.of_nat (length w) <= MaxSeq c ->
  observation c (replicate (S (S k)) w) = ((detectCycle (w ++ w) (MaxPeriod c)).1, true).
Proof.
  intros Hw Hs. unfold observation.
  assert (exists a, mjoin (replicate (S (S k)) w) = a ++ w ++ w) as [a ->].
  { exists (mjoin (replicate k w)). replace (S (S k)) with (k + 2)%nat by lia.
    rewrite replicate_add, join_app. csimpl. by rewrite app_nil_r. }
  destruct (last_n_tail (MaxSeq c) a (w ++ w)) as [b ->]; [rewrite length_app; lia|].
  destruct (detectCycle_batch b w (MaxPeriod c) Hw) as [-> Hok].
  by destruct (detectCycle (w ++ w) (MaxPeriod c)); simpl in *; subst.
Qed.

Lemma streak_batch c w k :
  2 <= Z.of_nat (length w) <= MaxPeriod c -> 2 * Z.of_nat (length w) <= MaxSeq c ->
  Z.of_nat k <= streak c (replicate (S k) w).
Proof.
  intros Hw Hs. induction k as [|k IH].
  - change (replicate 1 w) with ([] ++ [w]). rewrite streak_snoc.
    destruct (observation c ([] ++ [w])) as [p ok]. destruct ok; [|done].
    destruct (bool_decide _) eqn:E; [|lia]. apply bool_decide_eq_true in E.
    unfold observation in E. simpl in E. done.
  - rewrite (replicate_S_end (S k) w), streak_snoc, <- replicate_S_end.
    rewrite observation_batch by done. destruct k as [|k].
    + destruct (bool_decide _) eqn:E; [|lia]. simpl in *. lia.
    + rewrite bool_decide_true by (by apply observation_batch). simpl in *. lia.
Qed.

Lemma fmap_const {A B} (f : A -> B) l w :
  Forall (fun x => f x = w) l -> f <$> l = replicate (length l) w.
Proof. induction 1 as [|x l Hx _ IH]; csimpl; [done|]. by rewrite Hx, IH. Qed.

(** Repeating the same batch of at least two tool names (a request re-sending the
    same tool definitions is enough) is blocked from the request after the first
    Limit ones on: with the default limit, at the third request. *)
Theorem same_tools_blocked (R : RangeOrder AgentID toolState) m a w t0 body0 calls i r :
  match states m !! a with None => True | Some st => time_before t0 (expires st) = false end ->
  0 < Limit (cfg m) -> 0 < t0 < time_add t0 (TTL (cfg m)) ->
  2 <= Z.of_nat (length w) <= MaxPeriod (cfg m) -> 2 * Z.of_nat (length w) <= MaxSeq (cfg m) ->
  Forall (fun c => extractToolNames c.2 = w /\ 0 < c.1 < time_add t0 (TTL (cfg m)))
    ((t0, body0) :: calls) ->
  check_seq m a ((t0, body0) :: calls) !! i = Some r -> Limit (cfg m) <= Z.of_nat i ->
  Block r = true.
Proof.
  intros Hfresh Hlim Ht0 Hw Hs Hall Hi Hge.
  assert (forall c pre n bl j b, expected c pre (replicate n w) bl !! j = Some b ->
    b.1 = (Limit c <=? streak c (pre ++ replicate (S j) w))) as Hexp.
  { intros c pre n. revert pre. induction n as [|n IH]; intros pre bl j b; [done|]. simpl.
    destruct j as [|j]; simpl; [by intros [= <-]|]. intros ->%IH.
    by rewrite <- app_assoc. }
  pose proof (check_seq_fresh m a t0 body0 calls Hfresh ltac:(lia) Hlim Ht0) as Hrun.
  assert ((fun c => extractToolNames c.2) <$> ((t0, body0) :: calls)
          = replicate (length ((t0, body0) :: calls)) w) as Hnames.
  { apply fmap_const. eapply Forall_impl; [done|]. by intros x [? _]. }
  assert (w <> []) by (intros ->; simpl in Hw; lia).
  rewrite Hnames in Hrun. specialize (Hrun ltac:(eapply Forall_impl; [done|];
    intros [t b] [Hb ?]; simpl in *; by rewrite Hb)).
  assert (((fun r => (Block r, FirstBlock r)) <$> check_seq m a ((t0, body0) :: calls)) !! i
          = Some (Block r, FirstBlock r)) as Hli by (by rewrite list_lookup_fmap, Hi).
  rewrite Hrun in Hli. apply Hexp in Hli. cbn [fst app] in Hli. rewrite Hli.
  pose proof (streak_batch (cfg m) w i Hw Hs). lia.
Qed.

Lemma same_tools_blocked_witness :
  let body n := text "{'tools':[{'function':{'name':'search'}},{'function':{'name':'fetch'}}],'n':"
                ++ bytes_of_string n ++ text "}" in
  exists r, @check_seq (canonical_range _ _) default_matcher "x"%string
              [(5, body "1"); (60, body "2"); (70, body "3")] !! 2%nat = Some r /\ Block r = true.
Proof.
  intros body. eexists. split; [vm_compute; reflexivity|].
  apply (same_tools_blocked (canonical_range _ _) default_matcher "x"%string
           [bytes_of_string "search"; bytes_of_string "fetch"] 5 (body "1"%string)
           [(60, body "2"%string); (70, body "3"%string)] 2).
  - vm_compute. exact I.
  - vm_compute. reflexivity.
  - vm_compute. split; reflexivity.
  - vm_compute. split; discriminate.
  - vm_compute. discriminate.
  - repeat constructor; vm_compute; reflexivity.
  - vm_compute. reflexivity.
  - discriminate.
Defined.

(** ** Bounds *)

Section Bounds.
Context {R : RangeOrder AgentID toolState}.

Lemma last_n_length n s : 0 <= n -> Z.of_nat (length (last_n n s)) <= n.
Proof. intros. unfold last_n. rewrite length_drop. lia. Qed.

Lemma step_seq c now names st :
  0 < MaxSeq c -> Z.of_nat (length (seq (step c now names st).1)) <= MaxSeq c.
Proof.
  intros Hc. unfold step. set (st1 := if negb _ then _ else _).
  set (st3 := confirm _ _).
  assert (seq st3 = last_n (MaxSeq c) (seq st1 ++ names)) as Hs.
  { unfold st3, confirm. destruct (detectCycle _ _). simpl. apply push_seq. }
  destruct (_ <=? _); simpl; rewrite Hs; apply last_n_length; lia.
Qed.

Lemma wf_insert m a st :
  wf m -> is_Some (states m !! a) -> Z.of_nat (length (seq st)) <= MaxSeq (cfg m) ->
  wf (with_states m (<[a := st]> (states m))).
Proof.
  intros (Hm & Hsz & Hs & Hall) Hin Hst. split_and!; simpl; [done| |done|].
  - by rewrite map_size_insert_Some.
  - by apply map_Forall_insert_2.
Qed.

Lemma tool_state_wf m a now :
  wf m -> wf (state m a now).1 /\ is_Some (states (state m a now).1 !! a)
          /\ cfg (state m a now).1 = cfg m.
Proof.
  intros Hwf. pose proof Hwf as (Hm & Hsz & Hs & Hall). unfold state.
  destruct (states m !! a) as [st|] eqn:E; simpl; [by eauto|].
  split_and!; simpl; [|by rewrite lookup_insert_eq; eauto|done].
  pose proof (evict_to_size R expires (MaxEntries (cfg m)) (states m) Hm).
  split_and!; simpl; [done| |done|].
  - etrans; [apply inj_le, size_insert_le|lia].
  - apply map_Forall_insert_2; [simpl; lia|].
    intros k st Hk. apply (Hall k). eapply lookup_weaken; [done|apply evict_to_subseteq].
Qed.

Lemma tool_check_wf m now a body : wf m -> wf (CheckPayload m now a body).1.
Proof.
  intros Hwf. unfold CheckPayload. destruct (extractToolNames body); [done|].
  destruct (tool_state_wf m a now Hwf) as (Hwf1 & Hin & Hc). destruct (state m a now) as [m1 st0].
  pose proof (step_seq (cfg m) now (l :: l0) st0 ltac:(destruct Hwf as (_ & _ & ? & _); done)).
  destruct (step (cfg m) now (l :: l0) st0) as [st r]. simpl in *.
  apply wf_insert; [done|done|by rewrite Hc].
Qed.

Lemma Reset_wf m a : wf m -> wf (Reset m a).1.
Proof.
  intros (Hm & Hsz & Hs & Hall). unfold Reset. destruct (states m !! a) eqn:E; [|by split_and!].
  split_and!; simpl; [done| |done|by apply map_Forall_delete].
  rewrite map_size_delete_Some by eauto. lia.
Qed.
End Bounds.

(** The memory bounds hold on every operation: at most MaxEntries agents, and at most
    MaxSeq names for each; and a body that names no tool changes nothing. *)
Theorem tool_matcher_bounds (R : RangeOrder AgentID toolState) :
  (forall c, wf (NewToolMatcher c))
  /\ (forall m now a body, wf m -> wf (CheckPayload m now a body).1)
  /\ (forall m a, wf m -> wf (Reset m a).1)
  /\ (forall m now a body, extractToolNames body = [] -> CheckPayload m now a body = (m, proceed)).
Proof.
  split_and!.
  - intros c. unfold NewToolMatcher, wf. simpl. rewrite map_size_empty.
    unfold defaultToolMaxEntries, defaultToolMaxSeq.
    split_and!; [zcase (MaxEntries c <=? 0)|zcase (MaxEntries c <=? 0)|zcase (MaxSeq c <=? 0)|].
    apply map_Forall_empty.
  - intros. by apply tool_check_wf.
  - intros. by apply Reset_wf.
  - intros m now a body H. unfold CheckPayload. by rewrite H.
Qed.
