(* ===== verification/VelocityBreaker.v ===== *)
(** * pkg/circuitbreaker/velocity_breaker.go: token-velocity detection

    Two rings of token events per agent with running sums, the hard burst cap and
    the acceleration test in binary64 arithmetic. *)

From S2P Require Import Prelude GoFloat Detector.

Record VelocityConfig := {
  Window : Z;
  ShortWindow : Z;
  BurstTokens : Z;
  SpikeFactor : float64;
  MaxEntries : Z
}.

(** tokenEvent: the instant and the token count. *)
Abbreviation tokenEvent := (Z * Z)%type.

Record velocityState := {
  events : list tokenEvent;
  sumLong : Z;
  short : list tokenEvent;
  sumShort : Z;
  firstAt : Z;
  lastAt : Z;
  blockedAt : Z
}.

Record VelocityBreaker := {
  cfg : VelocityConfig;
  states : gmap AgentID velocityState
}.

Definition defaultVelocityWindow : Z := 30 * Second.
Definition defaultVelocityShortWindow : Z := 5 * Second.
Definition defaultVelocityBurst : Z := 200000.
Definition defaultVelocitySpike : float64 := f64_of_Z 5.
Definition defaultVelocityMaxEntries : Z := 10000.
Definition maxVelocityEvents : Z := 1024.

Definition NewVelocityBreaker (c : VelocityConfig) : VelocityBreaker :=
  let window := if Window c <=? 0 then defaultVelocityWindow else Window c in
  {| cfg :=
       {| Window := window;
          ShortWindow :=
            if (ShortWindow c <=? 0) || (window <? ShortWindow c)
            then defaultVelocityShortWindow else ShortWindow c;
          BurstTokens := if BurstTokens c <=? 0 then defaultVelocityBurst else BurstTokens c;
          SpikeFactor :=
            if f64_leb (SpikeFactor c) f64_zero then defaultVelocitySpike else SpikeFactor c;
          MaxEntries := if MaxEntries c <=? 0 then defaultVelocityMaxEntries else MaxEntries c |};
     states := ∅ |}.

(** &velocityState{}. *)
Definition zero_state : velocityState :=
  {| events := []; sumLong := 0; short := []; sumShort := 0; firstAt := zero_time;
     lastAt := zero_time; blockedAt := zero_time |}.

(** ** The rings *)

(** Drop the events at or before the cutoff, taking them off the sum. *)
Fixpoint expire (cutoff : Z) (evs : list tokenEvent) (sum : Z) : list tokenEvent * Z :=
  match evs with
  | [] => ([], sum)
  | (t, n) :: evs' =>
      if negb (time_after t cutoff) then expire cutoff evs' (wrap64 (sum - n)) else (evs, sum)
  end.

(** Drop the oldest events beyond the hard cap. *)
Fixpoint trim (evs : list tokenEvent) (sum : Z) : list tokenEvent * Z :=
  match evs with
  | [] => ([], sum)
  | (t, n) :: evs' =>
      if maxVelocityEvents <? Z.of_nat (length evs) then trim evs' (wrap64 (sum - n))
      else (evs, sum)
  end.

(** One ring: record, expire, cap. *)
Definition ring (now tokens win : Z) (evs : list tokenEvent) (sum : Z) : list tokenEvent * Z :=
  let '(e1, s1) :=
    expire (time_add now (- win)) (evs ++ [(now, tokens)]) (wrap64 (sum + tokens)) in
  trim e1 s1.

Definition append (st : velocityState) (now tokens longWin shortWin : Z) : velocityState :=
  let '(ev, sl) := ring now tokens longWin (events st) (sumLong st) in
  let '(sh, ss) := ring now tokens shortWin (short st) (sumShort st) in
  {| events := ev; sumLong := sl; short := sh; sumShort := ss;
     firstAt := if time_is_zero (firstAt st) then now else firstAt st;
     lastAt := now; blockedAt := blockedAt st |}.

(** The acceleration test on the two sums. *)
Definition spike (c : VelocityConfig) (long short : Z) : bool :=
  let longRate := f64_div (f64_of_Z long) (duration_seconds (Window c)) in
  let shortRate := f64_div (f64_of_Z short) (duration_seconds (ShortWindow c)) in
  f64_ltb f64_zero longRate && f64_ltb (SpikeFactor c) (f64_div shortRate longRate).

Definition with_states (v : VelocityBreaker) (s : gmap AgentID velocityState) : VelocityBreaker :=
  {| cfg := cfg v; states := s |}.

Definition set_blockedAt (st : velocityState) (t : Z) : velocityState :=
  {| events := events st; sumLong := sumLong st; short := short st; sumShort := sumShort st;
     firstAt := firstAt st; lastAt := lastAt st; blockedAt := t |}.

(** The update of one agent's state by an observation. *)
Definition step (c : VelocityConfig) (now tokens : Z) (st0 : velocityState) :
    velocityState * CheckResult :=
  let st := append st0 now tokens (Window c) (ShortWindow c) in
  let block :=
    (BurstTokens c <? sumLong st)
    || ((Window c <=? time_sub now (firstAt st)) && spike c (sumLong st) (sumShort st)) in
  if block then
    let first := time_is_zero (blockedAt st) in
    (if first then set_blockedAt st now else st,
     {| Block := true; FirstBlock := first; Reason := ReasonVelocity;
        RetryAfter := wrap64 (f64_to_int64 (duration_seconds (ShortWindow c)) + 1) |})
  else
    (if negb (time_is_zero (blockedAt st)) && (ShortWindow c <=? time_sub now (blockedAt st))
     then set_blockedAt st zero_time else st, proceed).

Section Operations.
Context {R : RangeOrder AgentID velocityState}.

Definition evictIfNeeded (v : VelocityBreaker) : VelocityBreaker :=
  with_states v (evict_to R lastAt (MaxEntries (cfg v)) (states v)).

Definition state (v : VelocityBreaker) (agent : AgentID) : VelocityBreaker * velocityState :=
  match states v !! agent with
  | Some st => (v, st)
  | None =>
      let v' := evictIfNeeded v in
      (with_states v' (<[agent := zero_state]> (states v')), zero_state)
  end.

Definition CheckVelocity (v : VelocityBreaker) (now : Z) (agent : AgentID) (tokens : Z) :
    VelocityBreaker * CheckResult :=
  let '(v1, st0) := state v agent in
  let '(st, res) := step (cfg v) now tokens st0 in
  (with_states v1 (<[agent := st]> (states v1)), res).
End Operations.

Definition Reset (v : VelocityBreaker) (agent : AgentID) : VelocityBreaker * Z :=
  match states v !! agent with
  | Some _ => (with_states v (delete agent (states v)), 1)
  | None => (v, 0)
  end.

(** ** Specification-level views *)

(** The observations of [h] after [cutoff]. *)
Definition live (cutoff : Z) (h : list tokenEvent) : list tokenEvent :=
  filter (fun e => cutoff < e.1) h.

Definition last_n {A} (n : nat) (l : list A) : list A := drop (length l - n) l.

(** What a ring of width [win] holds after the observations [h], the last one at
    [now]. *)
Definition window_of (now win : Z) (h : list tokenEvent) : list tokenEvent :=
  last_n (Z.to_nat maxVelocityEvents) (live (now - win) h).

Definition tokens_of (evs : list tokenEvent) : Z := sumZ evs.*2.

(** A history with a clock that does not run backwards. *)
Definition nondecreasing (h : list tokenEvent) : Prop := StronglySorted Z.le h.*1.

(** The state and the result after a history of one agent's observations. *)
Fixpoint run (c : VelocityConfig) (st : velocityState) (h : list tokenEvent) :
    velocityState * list CheckResult :=
  match h with
  | [] => (st, [])
  | (t, n) :: h' =>
      let '(st1, r) := step c t n st in
      let '(st2, rs) := run c st1 h' in (st2, r :: rs)
  end.

Fixpoint check_seq {R : RangeOrder AgentID velocityState} (v : VelocityBreaker) (a : AgentID)
    (h : list tokenEvent) : list CheckResult :=
  match h with
  | [] => []
  | (t, n) :: h' => let '(v', r) := CheckVelocity v t a n in r :: check_seq v' a h'
  end.

Definition wf (v : VelocityBreaker) : Prop :=
  0 < MaxEntries (cfg v) /\ Z.of_nat (size (states v)) <= MaxEntries (cfg v)
  /\ map_Forall (fun _ st => Z.of_nat (length (events st)) <= maxVelocityEvents
                             /\ Z.of_nat (length (short st)) <= maxVelocityEvents) (states v).

(** ** The rings hold the window *)

Lemma expire_sum cutoff evs sum :
  sum = wrap64 (tokens_of evs) ->
  (expire cutoff evs sum).2 = wrap64 (tokens_of (expire cutoff evs sum).1).
Proof.
  revert sum. induction evs as [|[t n] evs IH]; intros sum ->; csimpl; [done|].
  destruct (negb _); [|done]. apply IH. autorewrite with goint_rw.
  unfold tokens_of. csimpl. f_equal. lia.
Qed.

Lemma trim_sum evs sum :
  sum = wrap64 (tokens_of evs) -> (trim evs sum).2 = wrap64 (tokens_of (trim evs sum).1).
Proof.
  revert sum. induction evs as [|[t n] evs IH]; intros sum ->; [done|]. cbn [trim].
  destruct (_ <? _); [|done]. apply IH. autorewrite with goint_rw.
  unfold tokens_of. csimpl. f_equal. lia.
Qed.

Lemma live_all cutoff h : Forall (fun e : tokenEvent => cutoff < e.1) h -> live cutoff h = h.
Proof.
  induction 1 as [|e h He _ IH]; [done|]. unfold live in *. rewrite filter_cons.
  rewrite decide_True by done. by rewrite IH.
Qed.

Lemma nondecreasing_cons t n h :
  nondecreasing ((t, n) :: h) -> nondecreasing h /\ Forall (fun e : tokenEvent => t <= e.1) h.
Proof.
  unfold nondecreasing. csimpl. intros [Hs Hall]%StronglySorted_inv. split; [done|].
  by rewrite Forall_fmap in Hall.
Qed.

Lemma expire_live cutoff evs sum :
  nondecreasing evs -> (expire cutoff evs sum).1 = live cutoff evs.
Proof.
  revert sum. induction evs as [|[t n] evs IH]; intros sum Hnd; [done|].
  apply nondecreasing_cons in Hnd as [Hnd Hle]. unfold live. rewrite filter_cons. cbn [expire fst].
  unfold time_after. zcase (cutoff <? t); simpl.
  - rewrite decide_True by done. simpl. f_equal. symmetry. apply live_all.
    eapply Forall_impl; [done|]. intros e ?. simpl in *. lia.
  - rewrite decide_False by lia. by apply IH.
Qed.

Lemma trim_last evs sum : (trim evs sum).1 = last_n (Z.to_nat maxVelocityEvents) evs.
Proof.
  unfold last_n. revert sum. induction evs as [|[t n] evs IH]; intros sum; [done|]. cbn [trim].
  destruct (maxVelocityEvents <? Z.of_nat (length ((t, n) :: evs))) eqn:E; zbool.
  - rewrite IH. unfold maxVelocityEvents in *. simpl length in *.
    replace (S (length evs) - Z.to_nat 1024)%nat with (S (length evs - Z.to_nat 1024)) by lia.
    done.
  - unfold maxVelocityEvents in *. cbn [fst].
    by replace (length ((t, n) :: evs) - Z.to_nat 1024)%nat with 0%nat by lia.
Qed.

Lemma last_n_cons {A} m (x : A) l : (m <= length l)%nat -> last_n m (x :: l) = last_n m l.
Proof.
  intros. unfold last_n. simpl length.
  by replace (S (length l) - m)%nat with (S (length l - m)) by lia.
Qed.

Lemma last_n_all {A} m (l : list A) : (length l <= m)%nat -> last_n m l = l.
Proof. intros. unfold last_n. by replace (length l - m)%nat with 0%nat by lia. Qed.

Lemma last_n_snoc {A} m (l : list A) x : last_n m (last_n m l ++ [x]) = last_n m (l ++ [x]).
Proof.
  destruct (decide (length l <= m)%nat) as [Hle|Hgt]; [by rewrite (last_n_all m l)|].
  assert (length l = length (take (length l - m) l) + length (last_n m l))%nat as Hl.
  { unfold last_n. rewrite length_take, length_drop. lia. }
  assert (l = take (length l - m) l ++ last_n m l) as Hsplit by (unfold last_n; by rewrite take_drop).
  rewrite Hsplit at 2. set (a := take _ l) in *. set (b := last_n m l) in *.
  assert (length b = m) as Hb by (unfold b, last_n; rewrite length_drop; lia).
  clearbody a b. clear Hsplit Hl Hgt. induction a as [|y a IH]; [done|].
  simpl. rewrite last_n_cons; [done|]. rewrite !length_app. simpl. lia.
Qed.

Lemma live_last_n cutoff m h :
  nondecreasing h -> live cutoff (last_n m h) = last_n m (live cutoff h).
Proof.
  induction h as [|[t n] h IH]; intros Hnd; [done|].
  apply nondecreasing_cons in Hnd as [Hnd Hle]. specialize (IH Hnd).
  destruct (decide (m <= length h)%nat).
  - rewrite last_n_cons, IH by done. unfold live. rewrite filter_cons. cbn [fst].
    case_decide; [|done]. fold (live cutoff h). rewrite live_all.
    + by rewrite last_n_cons.
    + eapply Forall_impl; [done|]. intros e ?. simpl in *. lia.
  - rewrite !last_n_all; [done| |simpl; lia].
    etrans; [apply length_filter|]. simpl. lia.
Qed.

Lemma live_live c1 c2 h : c1 <= c2 -> live c2 (live c1 h) = live c2 h.
Proof.
  intros. unfold live. rewrite list_filter_filter. apply list_filter_iff. intros e. lia.
Qed.

Lemma live_app c h1 h2 : live c (h1 ++ h2) = live c h1 ++ live c h2.
Proof. apply filter_app. Qed.

Lemma nondecreasing_sublist h1 h2 : sublist h1 h2 -> nondecreasing h2 -> nondecreasing h1.
Proof.
  unfold nondecreasing. induction 1 as [|[t n] l1 l2 Hs IH|[t n] l1 l2 Hs IH]; [done| |].
  - csimpl. intros [Hss Hall]%StronglySorted_inv. constructor; [by apply IH|].
    rewrite Forall_fmap in *. rewrite Forall_forall in *. intros e He. apply Hall.
    by eapply elem_of_sublist.
  - csimpl. intros [Hss Hall]%StronglySorted_inv. by apply IH.
Qed.

(** One observation moves the ring from the window of the history so far to the
    window of the history with it. *)
Lemma ring_window win prev now tokens h evs sum :
  0 < win -> nondecreasing (h ++ [(now, tokens)]) -> prev <= now ->
  evs = window_of prev win h -> sum = wrap64 (tokens_of evs) ->
  let h' := h ++ [(now, tokens)] in
  ring now tokens win evs sum = (window_of now win h', wrap64 (tokens_of (window_of now win h'))).
Proof.
  intros Hw Hnd Hle -> ->. cbn zeta. unfold ring, time_add.
  set (w := window_of prev win h).
  assert (nondecreasing (w ++ [(now, tokens)])) as Hndw.
  { eapply nondecreasing_sublist; [|done]. apply sublist_app; [|reflexivity].
    etrans; [apply sublist_drop|apply sublist_filter]. }
  assert (nondecreasing h) as Hndh.
  { eapply nondecreasing_sublist; [|exact Hnd]. apply sublist_inserts_r. reflexivity. }
  pose proof (expire_live (now + - win) _ (wrap64 (wrap64 (tokens_of w) + tokens)) Hndw) as Hl.
  pose proof (expire_sum (now + - win) (w ++ [(now, tokens)])
    (wrap64 (wrap64 (tokens_of w) + tokens))) as Hs.
  destruct (expire _ _ _) as [e1 s1]. cbn [fst snd] in *.
  assert (s1 = wrap64 (tokens_of e1)) as Hs1.
  { apply Hs. autorewrite with goint_rw. unfold tokens_of. rewrite fmap_app.
    autorewrite with goint_rw. f_equal. csimpl. lia. }
  pose proof (trim_last e1 s1) as Ht. pose proof (trim_sum e1 s1 Hs1) as Hts.
  destruct (trim e1 s1) as [e2 s2]. cbn [fst snd] in *. subst e2 s2.
  enough (last_n (Z.to_nat maxVelocityEvents) e1 = window_of now win (h ++ [(now, tokens)]))
    as -> by done.
  subst e1. unfold w, window_of. rewrite !live_app.
  rewrite live_last_n by (eapply nondecreasing_sublist; [apply sublist_filter|done]).
  rewrite live_live by lia. replace (now + - win) with (now - win) by lia.
  assert (live (now - win) [(now, tokens)] = [(now, tokens)]) as ->
    by (apply live_all; repeat constructor; simpl; lia).
  apply last_n_snoc.
Qed.

(** ** Exactness along a history *)

(** The state of an agent after a history, its last observation being at the
    instant of the history's last element. *)
Definition state_of (c : VelocityConfig) (h : list tokenEvent) (st : velocityState) : Prop :=
  let now := default zero_time (fst <$> last h) in
  events st = window_of now (Window c) h /\ sumLong st = wrap64 (tokens_of (events st))
  /\ short st = window_of now (ShortWindow c) h /\ sumShort st = wrap64 (tokens_of (short st))
  /\ firstAt st = default zero_time (fst <$> head h) /\ lastAt st = now.

Lemma state_of_zero c : state_of c [] zero_state.
Proof. by split_and!. Qed.

Lemma state_of_append c h st now tokens :
  0 < Window c -> 0 < ShortWindow c -> nondecreasing (h ++ [(now, tokens)]) ->
  Forall (fun e => 0 < e.1) (h ++ [(now, tokens)]) -> state_of c h st ->
  state_of c (h ++ [(now, tokens)]) (append st now tokens (Window c) (ShortWindow c)).
Proof.
  intros Hw Hs Hnd Hpos (He & Hsl & Hsh & Hss & Hf & Hl).
  assert (default zero_time (fst <$> last h) <= now) as Hle.
  { apply Forall_app in Hpos as [_ Hpos]. apply Forall_cons in Hpos as [Hpos _]. simpl in Hpos.
    destruct (last h) as [[t n]|] eqn:El; simpl; [|unfold zero_time; lia].
    unfold nondecreasing in Hnd. rewrite fmap_app in Hnd.
    eapply (StronglySorted_app_1_elem_of _ _ _ t now Hnd); [|csimpl; set_solver].
    apply list_elem_of_fmap. exists (t, n). split; [done|]. by apply last_Some_elem_of. }
  unfold append.
  rewrite (ring_window (Window c) _ now tokens h _ _ Hw Hnd Hle He Hsl).
  rewrite (ring_window (ShortWindow c) _ now tokens h _ _ Hs Hnd Hle Hsh Hss).
  unfold state_of. rewrite last_snoc. simpl. split_and!; try done.
  rewrite Hf. destruct h as [|[t n] h]; simpl; [done|].
  apply Forall_app in Hpos as [Hpos _]. apply Forall_cons in Hpos as [Hpos _]. simpl in Hpos.
  unfold time_is_zero, zero_time. zcase (t =? 0).
Qed.

Lemma step_append c now tokens st :
  exists b, (step c now tokens st).1
            = set_blockedAt (append st now tokens (Window c) (ShortWindow c)) b.
Proof.
  unfold step. set (st' := append _ _ _ _ _).
  assert (set_blockedAt st' (blockedAt st') = st') as Hid by (by destruct st').
  destruct (_ || _); [destruct (time_is_zero _)|destruct (_ && _)]; simpl; eauto.
Qed.

Lemma state_of_step c h st now tokens :
  0 < Window c -> 0 < ShortWindow c -> nondecreasing (h ++ [(now, tokens)]) ->
  Forall (fun e => 0 < e.1) (h ++ [(now, tokens)]) -> state_of c h st ->
  state_of c (h ++ [(now, tokens)]) (step c now tokens st).1.
Proof.
  intros Hw Hs Hnd Hpos Hst. destruct (step_append c now tokens st) as [b ->].
  exact (state_of_append c h st now tokens Hw Hs Hnd Hpos Hst).
Qed.

(** The verdict on the last observation of a history. *)
Definition verdict (c : VelocityConfig) (h : list tokenEvent) : bool :=
  let now := default zero_time (fst <$> last h) in
  let first := default zero_time (fst <$> head h) in
  let long := tokens_of (window_of now (Window c) h) in
  let short := tokens_of (window_of now (ShortWindow c) h) in
  (BurstTokens c <? long) || ((Window c <=? time_sub now first) && spike c long short).

Lemma tokens_of_nonneg h : Forall (fun e : tokenEvent => 0 <= e.2) h -> 0 <= tokens_of h.
Proof. induction 1 as [|e l He _ IH]; [done|]. unfold tokens_of in *. csimpl. lia. Qed.

Lemma tokens_of_app h1 h2 : tokens_of (h1 ++ h2) = tokens_of h1 + tokens_of h2.
Proof. unfold tokens_of. by rewrite fmap_app, sumZ_app. Qed.

Lemma window_sum_le now win h :
  Forall (fun e : tokenEvent => 0 <= e.2) h -> 0 <= tokens_of (window_of now win h) <= tokens_of h.
Proof.
  intros H. unfold window_of, last_n. set (l := live (now - win) h).
  assert (Forall (fun e : tokenEvent => 0 <= e.2) l /\ tokens_of l <= tokens_of h) as [Hl Hle].
  { unfold l, live. induction H as [|e h He _ [IH1 IH2]]; [done|]. rewrite filter_cons.
    unfold tokens_of in *. case_decide; csimpl; split; try constructor; try done; lia. }
  set (k := (length l - _)%nat). pose proof (tokens_of_nonneg (drop k l) ltac:(by apply Forall_drop)).
  pose proof (tokens_of_nonneg (take k l) ltac:(by apply Forall_take)).
  pose proof (tokens_of_app (take k l) (drop k l)) as Happ. rewrite take_drop in Happ. lia.
Qed.

Lemma window_sum_int64 now win h :
  Forall (fun e : tokenEvent => 0 <= e.2) h -> tokens_of h <= int64_max ->
  wrap64 (tokens_of (window_of now win h)) = tokens_of (window_of now win h).
Proof.
  intros H Hmax. pose proof (window_sum_le now win h H). apply wrap64_id.
  unfold in_int64, int64_min, int64_max in *. lia.
Qed.

(** A history the theorems speak about: the clock does not run backwards, instants
    are later than the zero time, counts are not negative and their sum fits an
    int64. *)
Definition good (h : list tokenEvent) : Prop :=
  nondecreasing h /\ Forall (fun e => 0 < e.1) h /\ Forall (fun e => 0 <= e.2) h
  /\ tokens_of h <= int64_max.

Lemma good_app_l h1 h2 : good (h1 ++ h2) -> good h1.
Proof.
  intros (Hnd & Hp & Hn & Hs). apply Forall_app in Hp as [? _]. apply Forall_app in Hn as [? Hn].
  rewrite tokens_of_app in Hs. pose proof (tokens_of_nonneg h2 Hn). split_and!; try done; [|lia].
  eapply nondecreasing_sublist; [|done]. apply sublist_inserts_r. reflexivity.
Qed.

Lemma step_verdict c h st now tokens :
  0 < Window c -> 0 < ShortWindow c -> good (h ++ [(now, tokens)]) -> state_of c h st ->
  Block (step c now tokens st).2 = verdict c (h ++ [(now, tokens)]).
Proof.
  intros Hw Hs (Hnd & Hp & Hn & Hmax) Hst.
  pose proof (state_of_append c h st now tokens Hw Hs Hnd Hp Hst) as (He & Hsl & Hsh & Hss & Hf & _).
  rewrite He, window_sum_int64 in Hsl by done. rewrite Hsh, window_sum_int64 in Hss by done.
  unfold step, verdict. rewrite Hsl, Hss, Hf, last_snoc.
  cbn [fmap option_fmap option_map default from_option fst].
  by destruct (_ || _).
Qed.

Section Runs.
Context {R : RangeOrder AgentID velocityState}.

Lemma CheckVelocity_own v a now n :
  let st := default zero_state (states v !! a) in
  (CheckVelocity v now a n).2 = (step (cfg v) now n st).2
  /\ states (CheckVelocity v now a n).1 !! a = Some (step (cfg v) now n st).1
  /\ cfg (CheckVelocity v now a n).1 = cfg v.
Proof.
  unfold CheckVelocity, state.
  destruct (states v !! a) as [st|] eqn:E; simpl;
    destruct (step _ _ _ _); simpl; by rewrite lookup_insert_eq.
Qed.

Lemma check_seq_run v a h :
  check_seq v a h = (run (cfg v) (default zero_state (states v !! a)) h).2.
Proof.
  revert v. induction h as [|[t n] h IH]; intros v; [done|]. cbn [check_seq run].
  destruct (CheckVelocity_own v a t n) as (Hr & Hst & Hc).
  destruct (CheckVelocity v t a n) as [v' r]. cbn [fst snd] in *. rewrite IH, Hst, Hc, Hr.
  cbn [default from_option]. destruct (step _ _ _ _) as [st1 r1]. cbn [fst snd].
  by destruct (run _ _ _).
Qed.
End Runs.

Lemma run_verdicts c pre h st i r :
  0 < Window c -> 0 < ShortWindow c -> good (pre ++ h) ->
  state_of c pre st -> (run c st h).2 !! i = Some r ->
  Block r = verdict c (pre ++ take (S i) h).
Proof.
  revert pre st i. induction h as [|[t n] h IH]; intros pre st i Hw Hs Hg Hst Hi; [done|].
  rewrite cons_middle, app_assoc in Hg.
  cbn [run] in Hi. destruct (step c t n st) as [st1 r1] eqn:Es.
  destruct (run c st1 h) as [st2 rs] eqn:Er. destruct i as [|i].
  - injection Hi as <-. simpl. rewrite take_0. apply good_app_l in Hg.
    rewrite <- (step_verdict c pre st t n Hw Hs Hg Hst). by rewrite Es.
  - simpl in Hi |- *. rewrite cons_middle, app_assoc.
    apply (IH (pre ++ [(t, n)]) st1 i); try done; [|by rewrite Er].
    rewrite <- (f_equal fst Es : _ = st1). apply good_app_l in Hg as (? & ? & ? & ?).
    by apply state_of_step.
Qed.

(** C21. Velocity detection is exact on a whole history: an agent's i-th observation is
    blocked exactly when the tokens of its latest 1024 requests inside the last
    Window exceed BurstTokens, or when a full Window has passed since its first
    observation and the ratio of the short rate to the long rate (in binary64)
    exceeds SpikeFactor. *)
Theorem velocity_exact (R : RangeOrder AgentID velocityState) v a h i r :
  states v !! a = None -> 0 < Window (cfg v) -> 0 < ShortWindow (cfg v) -> good h ->
  check_seq v a h !! i = Some r -> Block r = verdict (cfg v) (take (S i) h).
Proof.
  intros Hnone Hw Hs Hg. rewrite check_seq_run, Hnone. intros Hi.
  by apply (run_verdicts (cfg v) [] h zero_state i).
Qed.

Definition default_breaker : VelocityBreaker :=
  NewVelocityBreaker {| Window := 0; ShortWindow := 0; BurstTokens := 0; SpikeFactor := f64_zero;
                        MaxEntries := 0 |}.

Lemma velocity_exact_witness :
  let h := [(1, 150000); (2 * Second, 50000); (3 * Second, 1); (40 * Second, 7)] in
  check_seq (R := canonical_range _ _) default_breaker "a"%string h !! 2%nat
    = Some {| Block := true; Reason := ReasonVelocity; RetryAfter := 6; FirstBlock := true |}
  /\ verdict (cfg default_breaker) (take 3 h) = true.
Proof.
  intros h. split; [vm_compute; reflexivity|].
  refine (eq_sym (velocity_exact (canonical_range _ _) default_breaker "a"%string h 2
    {| Block := true; Reason := ReasonVelocity; RetryAfter := 6; FirstBlock := true |} _ _ _ _ _)).
  - vm_compute. reflexivity.
  - vm_compute. reflexivity.
  - vm_compute. reflexivity.
  - split_and!; [|repeat constructor|repeat constructor; discriminate|discriminate].
    unfold nondecreasing, h. repeat constructor; vm_compute; discriminate.
  - vm_compute. reflexivity.
Defined.

(** ** Incidents *)

Lemma step_blocked c now n st :
  0 < now ->
  (Block (step c now n st).2 = true -> blockedAt (step c now n st).1 <> zero_time)
  /\ (FirstBlock (step c now n st).2 = true ->
        Block (step c now n st).2 = true /\ blockedAt st = zero_time)
  /\ (Block (step c now n st).2 = false -> blockedAt st <> zero_time ->
        blockedAt (step c now n st).1 = zero_time ->
        ShortWindow c <= time_sub now (blockedAt st)).
Proof.
  intros Hnow. unfold step. set (st' := append _ _ _ _ _).
  assert (blockedAt st' = blockedAt st) as <-.
  { unfold st', append. by destruct (ring _ _ _ _ _), (ring _ _ _ _ _). }
  unfold time_is_zero, zero_time. destruct (_ || _); cbn [fst snd Block FirstBlock proceed].
  - split_and!; [|intros; split; [done|lia]|done]. intros _.
    destruct (blockedAt st' =? 0) eqn:E; zbool; simpl; lia.
  - split_and!; [done|done|]. intros _ Hne.
    destruct (negb _ && _) eqn:E; [|done]. zbool. intros _. zbool. done.
Qed.

(** Incidents: FirstBlock comes only with a block, never directly after another
    block, and once an incident is open it is closed only by a request that passes
    at least ShortWindow after the incident began. *)
Theorem velocity_incidents (R : RangeOrder AgentID velocityState) v a t1 n1 t2 n2 :
  0 < t1 -> 0 < t2 ->
  let v1 := (CheckVelocity v t1 a n1).1 in
  let r1 := (CheckVelocity v t1 a n1).2 in
  let v2 := (CheckVelocity v1 t2 a n2).1 in
  let r2 := (CheckVelocity v1 t2 a n2).2 in
  (FirstBlock r1 = true -> Block r1 = true)
  /\ (Block r1 = true -> FirstBlock r2 = false)
  /\ (Block r1 = true -> Block r2 = false ->
      forall st1 st2, states v1 !! a = Some st1 -> states v2 !! a = Some st2 ->
        blockedAt st2 = zero_time -> ShortWindow (cfg v) <= time_sub t2 (blockedAt st1)).
Proof.
  intros Ht1 Ht2 v1 r1 v2 r2.
  destruct (CheckVelocity_own v a t1 n1) as (Hr1 & Hs1 & Hc1). fold v1 r1 in Hr1, Hs1, Hc1.
  destruct (CheckVelocity_own v1 a t2 n2) as (Hr2 & Hs2 & Hc2). fold v2 r2 in Hr2, Hs2, Hc2.
  rewrite Hs1, Hc1 in Hr2, Hs2. cbn [default from_option] in Hr2, Hs2.
  set (st1 := (step (cfg v) t1 n1 _).1) in *.
  destruct (step_blocked (cfg v) t1 n1 (default zero_state (states v !! a)) Ht1) as (Hb1 & Hf1 & _).
  destruct (step_blocked (cfg v) t2 n2 st1 Ht2) as (_ & Hf2 & Hc). fold st1 in Hb1.
  rewrite Hr1, Hr2. split_and!.
  - apply Hf1.
  - intros Hb. apply not_true_is_false. intros [_ Hz]%Hf2. by apply Hb1.
  - intros Hb Hnb st st' Hst Hst' Hz. rewrite Hst in Hs1. rewrite Hst' in Hs2. simplify_eq.
    apply Hc; [done|by apply Hb1|done].
Qed.

Lemma velocity_incidents_witness :
  let v1 := (CheckVelocity (R := canonical_range _ _) default_breaker 1 "a"%string 200001).1 in
  Block (CheckVelocity (R := canonical_range _ _) default_breaker 1 "a"%string 200001).2 = true
  /\ FirstBlock (CheckVelocity (R := canonical_range _ _) v1 2 "a"%string 1).2 = false.
Proof.
  intros v1. split; [vm_compute; reflexivity|].
  apply (velocity_incidents (canonical_range _ _) default_breaker "a"%string 1 200001 2 1);
    vm_compute; reflexivity.
Defined.

(** An idle agent: more than a Window after its first request, one request alone in
    both windows has a short rate six times its long rate and is blocked, whatever
    came before. *)
Lemma idle_agent_blocked :
  (fun r => Block r) <$>
    check_seq (R := canonical_range _ _) default_breaker "a"%string [(1, 100); (60 * Second, 100)]
  = [false; true].
Proof. vm_compute. reflexivity. Qed.

(** ** Bounds *)

Section Bounds.
Context {R : RangeOrder AgentID velocityState}.

Lemma ring_length now n win evs sum :
  Z.of_nat (length (ring now n win evs sum).1) <= maxVelocityEvents.
Proof.
  unfold ring. destruct (expire _ _ _) as [e1 s1]. rewrite trim_last. unfold last_n.
  rewrite length_drop. unfold maxVelocityEvents. lia.
Qed.

Lemma step_lengths c now n st :
  Z.of_nat (length (events (step c now n st).1)) <= maxVelocityEvents
  /\ Z.of_nat (length (short (step c now n st).1)) <= maxVelocityEvents.
Proof.
  destruct (step_append c now n st) as [b ->]. unfold append.
  pose proof (ring_length now n (Window c) (events st) (sumLong st)).
  pose proof (ring_length now n (ShortWindow c) (short st) (sumShort st)).
  by destruct (ring _ _ _ _ _), (ring _ _ _ _ _).
Qed.

Lemma CheckVelocity_wf v now a n : wf v -> wf (CheckVelocity v now a n).1.
Proof.
  intros (Hm & Hsz & Hall). unfold CheckVelocity, state.
  pose proof (evict_to_size R lastAt (MaxEntries (cfg v)) (states v) Hm).
  destruct (states v !! a) as [st|] eqn:E.
  - pose proof (step_lengths (cfg v) now n st). destruct (step _ _ _ _) as [st' r]. simpl in *.
    split_and!; simpl; [done| |by apply map_Forall_insert_2].
    by rewrite map_size_insert_Some by eauto.
  - pose proof (step_lengths (cfg v) now n zero_state). destruct (step _ _ _ _) as [st' r].
    simpl in *. rewrite insert_insert_eq. split_and!; simpl; [done| |].
    + etrans; [apply inj_le, size_insert_le|lia].
    + apply map_Forall_insert_2; [done|]. intros k st Hk. apply (Hall k).
      eapply lookup_weaken; [done|apply evict_to_subseteq].
Qed.
End Bounds.

(** The memory bounds hold on every operation: at most MaxEntries agents, and at most
    1024 events in each of an agent's two rings. *)
Theorem velocity_bounds (R : RangeOrder AgentID velocityState) :
  (forall c, wf (NewVelocityBreaker c))
  /\ (forall v now a n, wf v -> wf (CheckVelocity v now a n).1)
  /\ (forall v a, wf v -> wf (Reset v a).1).
Proof.
  split_and!.
  - intros c. unfold wf, NewVelocityBreaker. simpl. rewrite map_size_empty.
    unfold defaultVelocityMaxEntries.
    split_and!; [zcase (MaxEntries c <=? 0)..|apply map_Forall_empty].
  - intros. by apply CheckVelocity_wf.
  - intros v a (Hm & Hsz & Hall). unfold Reset. destruct (states v !! a) eqn:E; [|by split_and!].
    split_and!; simpl; [done| |by apply map_Forall_delete].
    rewrite map_size_delete_Some by eauto. lia.
Qed.
