(* ===== verification/Pipeline.v ===== *)
(** * pkg/circuitbreaker/pipeline.go: the composition of the detectors

    The exact stage is any [Detector] (the interface), the other stages are the
    concrete detectors, each optional. *)

From S2P Require Import Prelude GoFloat Detector.
From S2P Require HashDetector StructuralHasher ToolMatcher VelocityBreaker.

Section Pipeline.
Context {D : Type} `{Detector D}.
Context {RS : RangeOrder AgentID StructuralHasher.structuralState}.
Context {RT : RangeOrder AgentID ToolMatcher.toolState}.
Context {RV : RangeOrder AgentID VelocityBreaker.velocityState}.

Record Pipeline := {
  exact : D;
  structural : option StructuralHasher.StructuralHasher;
  tools : option ToolMatcher.ToolMatcher;
  velocity : option VelocityBreaker.VelocityBreaker;
  estimate : option (list byte -> Z)
}.

(** PipelineOption. *)
Definition WithStructural (s : StructuralHasher.StructuralHasher) (p : Pipeline) : Pipeline :=
  {| exact := exact p; structural := Some s; tools := tools p; velocity := velocity p;
     estimate := estimate p |}.
Definition WithTools (t : ToolMatcher.ToolMatcher) (p : Pipeline) : Pipeline :=
  {| exact := exact p; structural := structural p; tools := Some t; velocity := velocity p;
     estimate := estimate p |}.
Definition WithVelocity (v : VelocityBreaker.VelocityBreaker) (p : Pipeline) : Pipeline :=
  {| exact := exact p; structural := structural p; tools := tools p; velocity := Some v;
     estimate := estimate p |}.
Definition WithTokenEstimator (f : list byte -> Z) (p : Pipeline) : Pipeline :=
  {| exact := exact p; structural := structural p; tools := tools p; velocity := velocity p;
     estimate := Some f |}.

Definition NewPipeline (e : D) (opts : list (Pipeline -> Pipeline)) : Pipeline :=
  foldl (fun p opt => opt p)
    {| exact := e; structural := None; tools := None; velocity := None; estimate := None |} opts.

(** Every stage reads its own clock. *)
Record clocks := { c_exact : Z; c_structural : Z; c_tools : Z; c_velocity : Z }.

Definition with_exact (p : Pipeline) (e : D) : Pipeline :=
  {| exact := e; structural := structural p; tools := tools p; velocity := velocity p;
     estimate := estimate p |}.

Definition Check (p : Pipeline) (now : Z) (agent : AgentID) (fp : Fingerprint) :
    Pipeline * CheckResult :=
  let '(e, r) := det_check (exact p) now agent fp in (with_exact p e, r).

Definition estimateTokens (p : Pipeline) (body : list byte) : Z :=
  match estimate p with
  | Some f => f body
  | None => Z.quot (wrap64 (Z.of_nat (length body) + 3)) 4
  end.

(** One optional stage: the stage's new state and its answer. *)
Definition opt_stage {A : Type} (f : A -> A * CheckResult) (o : option A) : option A * CheckResult :=
  match o with
  | None => (None, proceed)
  | Some a => let '(a', r) := f a in (Some a', r)
  end.

Definition CheckPayload (p : Pipeline) (c : clocks) (agent : AgentID) (fp : Fingerprint)
    (body : list byte) : Pipeline * CheckResult :=
  let '(e, r0) := det_check (exact p) (c_exact c) agent fp in
  let p0 := with_exact p e in
  if Block r0 then (p0, r0)
  else
    let '(s, r1) := opt_stage (fun s =>
      StructuralHasher.CheckPayload s (c_structural c) agent body) (structural p) in
    let p1 := {| exact := e; structural := s; tools := tools p; velocity := velocity p;
                 estimate := estimate p |} in
    if Block r1 then (p1, r1)
    else
      let '(t, r2) := opt_stage (fun t =>
        ToolMatcher.CheckPayload t (c_tools c) agent body) (tools p) in
      let p2 := {| exact := e; structural := s; tools := t; velocity := velocity p;
                   estimate := estimate p |} in
      if Block r2 then (p2, r2)
      else
        let '(v, r3) := opt_stage (fun v =>
          VelocityBreaker.CheckVelocity v (c_velocity c) agent (estimateTokens p body))
          (velocity p) in
        let p3 := {| exact := e; structural := s; tools := t; velocity := v;
                     estimate := estimate p |} in
        if Block r3 then (p3, r3) else (p3, proceed).

Definition opt_reset {A : Type} (f : A -> A * Z) (o : option A) : option A * Z :=
  match o with
  | None => (None, 0)
  | Some a => let '(a', n) := f a in (Some a', n)
  end.

Definition Reset (p : Pipeline) (agent : AgentID) : Pipeline * Z :=
  let '(e, n0) := det_reset (exact p) agent in
  let '(s, n1) := opt_reset (fun s => StructuralHasher.Reset s agent) (structural p) in
  let '(t, n2) := opt_reset (fun t => ToolMatcher.Reset t agent) (tools p) in
  let '(v, n3) := opt_reset (fun v => VelocityBreaker.Reset v agent) (velocity p) in
  ({| exact := e; structural := s; tools := t; velocity := v; estimate := estimate p |},
   n0 + n1 + n2 + n3).
End Pipeline.

Arguments Pipeline : clear implicits.

#[export] Instance pipeline_Detector {D} `{Detector D} : Detector (Pipeline D) :=
  {| det_check := Check; det_reset := Reset |}.

(** ** Stages as a list: the specification of the short circuit *)

(** The answers the stages would give, each on its own state, in pipeline order. *)
Definition stage_results {D} `{Detector D}
    {RS : RangeOrder AgentID StructuralHasher.structuralState}
    {RT : RangeOrder AgentID ToolMatcher.toolState}
    {RV : RangeOrder AgentID VelocityBreaker.velocityState}
    (p : Pipeline D) (c : clocks) (agent : AgentID) (fp : Fingerprint) (body : list byte) :
    list CheckResult :=
  [ (det_check (exact p) (c_exact c) agent fp).2;
    (opt_stage (fun s => StructuralHasher.CheckPayload s (c_structural c) agent body)
       (structural p)).2;
    (opt_stage (fun t => ToolMatcher.CheckPayload t (c_tools c) agent body) (tools p)).2;
    (opt_stage (fun v => VelocityBreaker.CheckVelocity v (c_velocity c) agent
       (estimateTokens p body)) (velocity p)).2 ].

Fixpoint first_block (rs : list CheckResult) : CheckResult :=
  match rs with
  | [] => proceed
  | r :: rs' => if Block r then r else first_block rs'
  end.

(** How many stages ran: up to and including the first that blocks. *)
Fixpoint stages_run (rs : list CheckResult) : nat :=
  match rs with
  | [] => 0
  | r :: rs' => if Block r then 1 else S (stages_run rs')
  end.

Section Proofs.
Context {D : Type} `{Detector D}.
Context {RS : RangeOrder AgentID StructuralHasher.structuralState}.
Context {RT : RangeOrder AgentID ToolMatcher.toolState}.
Context {RV : RangeOrder AgentID VelocityBreaker.velocityState}.
Implicit Types p : Pipeline D.

Lemma CheckPayload_result p c a fp body :
  (CheckPayload p c a fp body).2 = first_block (stage_results p c a fp body).
Proof.
  unfold CheckPayload, stage_results, first_block.
  destruct (det_check (exact p) (c_exact c) a fp) as [e r0]. cbn [fst snd].
  destruct (Block r0); [done|]. destruct (opt_stage _ (structural p)) as [s r1]. cbn [fst snd].
  destruct (Block r1); [done|]. destruct (opt_stage _ (tools p)) as [t r2]. cbn [fst snd].
  destruct (Block r2); [done|]. destruct (opt_stage _ (velocity p)) as [v r3]. cbn [fst snd].
  by destruct (Block r3).
Qed.

(** C19. The pipeline answers with the first block in the order exact, structural,
    tools, velocity, and proceeds when no stage blocks; a stage after the first
    block is not run: its state - its record of the request included - is left
    unchanged. *)
Theorem pipeline_short_circuit p c a fp body :
  let rs := stage_results p c a fp body in
  let p' := (CheckPayload p c a fp body).1 in
  (CheckPayload p c a fp body).2 = first_block rs
  /\ (stages_run rs <= 1 -> structural p' = structural p)%nat
  /\ (stages_run rs <= 2 -> tools p' = tools p)%nat
  /\ (stages_run rs <= 3 -> velocity p' = velocity p)%nat.
Proof.
  cbn zeta. rewrite CheckPayload_result. split; [done|]. unfold CheckPayload, stage_results.
  destruct (det_check (exact p) (c_exact c) a fp) as [e r0]. cbn [fst snd stages_run].
  destruct (Block r0); [done|].
  destruct (opt_stage _ (structural p)) as [s r1]. cbn [fst snd].
  destruct (Block r1); [simpl; split_and!; done || (intros; lia)|].
  destruct (opt_stage _ (tools p)) as [t r2]. cbn [fst snd].
  destruct (Block r2); [simpl; split_and!; done || (intros; lia)|].
  destruct (opt_stage _ (velocity p)) as [v r3]. cbn [fst snd].
  destruct (Block r3); simpl; split_and!; done || (intros; lia).
Qed.

Lemma opt_reset_none {A} (f : A -> A * Z) o (gone : A -> Prop) :
  (forall x, gone (f x).1 /\ 0 <= (f x).2) ->
  match (opt_reset f o).1 with Some x => gone x | None => True end /\ 0 <= (opt_reset f o).2.
Proof. intros Hf. destruct o as [x|]; [|done]. simpl. specialize (Hf x). by destruct (f x). Qed.

Lemma structural_reset_gone a s :
  StructuralHasher.seen (StructuralHasher.Reset s a).1 !! a = None
  /\ 0 <= (StructuralHasher.Reset s a).2.
Proof.
  unfold StructuralHasher.Reset. destruct (StructuralHasher.seen s !! a) eqn:E; [|done].
  simpl. by rewrite lookup_delete_eq.
Qed.

Lemma tools_reset_gone a t :
  ToolMatcher.states (ToolMatcher.Reset t a).1 !! a = None /\ 0 <= (ToolMatcher.Reset t a).2.
Proof.
  unfold ToolMatcher.Reset. destruct (ToolMatcher.states t !! a) eqn:E; [|done]. simpl. by rewrite lookup_delete_eq.
Qed.

Lemma velocity_reset_gone a v :
  VelocityBreaker.states (VelocityBreaker.Reset v a).1 !! a = None
  /\ 0 <= (VelocityBreaker.Reset v a).2.
Proof.
  unfold VelocityBreaker.Reset. destruct (VelocityBreaker.states v !! a) eqn:E; [|done].
  simpl. by rewrite lookup_delete_eq.
Qed.

(** The agent has no history in any stage after the exact one. *)
Definition forgotten p (a : AgentID) : Prop :=
  match structural p with Some s => StructuralHasher.seen s !! a = None | None => True end
  /\ match tools p with Some t => ToolMatcher.states t !! a = None | None => True end
  /\ match velocity p with Some v => VelocityBreaker.states v !! a = None | None => True end.

Lemma Reset_forgets p a :
  forgotten (Reset p a).1 a /\ exact (Reset p a).1 = (det_reset (exact p) a).1
  /\ (det_reset (exact p) a).2 <= (Reset p a).2.
Proof.
  unfold Reset, forgotten. destruct (det_reset (exact p) a) as [e n0].
  pose proof (opt_reset_none (fun s => StructuralHasher.Reset s a) (structural p)
    (fun s => StructuralHasher.seen s !! a = None) (structural_reset_gone a)) as [Hs Hn1].
  pose proof (opt_reset_none (fun t => ToolMatcher.Reset t a) (tools p)
    (fun t => ToolMatcher.states t !! a = None) (tools_reset_gone a)) as [Ht Hn2].
  pose proof (opt_reset_none (fun v => VelocityBreaker.Reset v a) (velocity p)
    (fun v => VelocityBreaker.states v !! a = None) (velocity_reset_gone a)) as [Hv Hn3].
  destruct (opt_reset _ (structural p)) as [s n1], (opt_reset _ (tools p)) as [t n2],
    (opt_reset _ (velocity p)) as [v n3]. cbn [fst snd] in *. simpl. split_and!; try done. lia.
Qed.

Lemma opt_reset_again {A} (f : A -> A * Z) o :
  (forall x, (f (f x).1).2 = 0) -> (opt_reset f (opt_reset f o).1).2 = 0.
Proof.
  intros Hf. destruct o as [x|]; [|done]. specialize (Hf x). simpl.
  destruct (f x) as [x' n]. cbn [fst] in *. simpl. by destruct (f x').
Qed.

(** The pipeline satisfies the interface's laws whenever its exact stage does. *)
#[export] Instance pipeline_laws (ok : D -> Prop) `{!DetectorLaws D ok} :
  DetectorLaws (Pipeline D) (fun p => ok (exact p)).
Proof.
  split.
  - intros p now a fp Hok. simpl. unfold Check.
    pose proof (law_check_ok (exact p) now a fp Hok). by destruct (det_check _ _ _ _).
  - intros p a Hok. simpl. destruct (Reset_forgets p a) as (_ & -> & _). by apply law_reset_ok.
  - intros p now a fp Hok. simpl. unfold Check. destruct (Reset_forgets p a) as (_ & -> & _).
    pose proof (law_reset_proceeds (exact p) now a fp Hok). by destruct (det_check _ _ _ _).
  - intros p a Hok. simpl. unfold Reset.
    pose proof (law_reset_again (exact p) a Hok).
    destruct (det_reset (exact p) a) as [e n0]. cbn [fst snd] in *.
    assert (forall s, (StructuralHasher.Reset (StructuralHasher.Reset s a).1 a).2 = 0) as Hs.
    { intros s. destruct (structural_reset_gone a s) as [Hg _].
      unfold StructuralHasher.Reset at 1. by rewrite Hg. }
    assert (forall t, (ToolMatcher.Reset (ToolMatcher.Reset t a).1 a).2 = 0) as Ht.
    { intros t. destruct (tools_reset_gone a t) as [Hg _].
      unfold ToolMatcher.Reset at 1. by rewrite Hg. }
    assert (forall v, (VelocityBreaker.Reset (VelocityBreaker.Reset v a).1 a).2 = 0) as Hv.
    { intros v. destruct (velocity_reset_gone a v) as [Hg _].
      unfold VelocityBreaker.Reset at 1. by rewrite Hg. }
    pose proof (opt_reset_again (fun s => StructuralHasher.Reset s a) (structural p) Hs).
    pose proof (opt_reset_again (fun t => ToolMatcher.Reset t a) (tools p) Ht).
    pose proof (opt_reset_again (fun v => VelocityBreaker.Reset v a) (velocity p) Hv).
    destruct (opt_reset _ (structural p)) as [s n1], (opt_reset _ (tools p)) as [t n2],
      (opt_reset _ (velocity p)) as [v n3]. cbn [fst snd exact structural tools velocity] in *.
    destruct (det_reset e a), (opt_reset _ s), (opt_reset _ t), (opt_reset _ v).
    cbn [fst snd] in *. lia.
  - intros p a Hok. simpl. destruct (Reset_forgets p a) as (_ & _ & Hle).
    pose proof (law_reset_nonneg (exact p) a Hok). lia.
Qed.

(** ** Clearing an agent *)

Lemma structural_absent_proceeds s now a body :
  StructuralHasher.seen s !! a = None ->
  0 < StructuralHasher.Limit (StructuralHasher.cfg s) ->
  0 < StructuralHasher.Window (StructuralHasher.cfg s) ->
  (StructuralHasher.CheckPayload s now a body).2 = proceed.
Proof.
  intros Hnone Hl Hw.
  destruct (decide (StructuralHasher.shingleSize
    <= length (StructuralHasher.normalizePayload body))%nat) as [Hlen|Hlen].
  - apply StructuralHasher.CheckPayload_first; [by rewrite Hnone|done..].
  - unfold StructuralHasher.CheckPayload. by rewrite (proj2 (Nat.ltb_lt _ _)) by lia.
Qed.

Lemma tools_absent_proceeds t now a body :
  ToolMatcher.states t !! a = None -> 2 <= ToolMatcher.Limit (ToolMatcher.cfg t) ->
  Block (ToolMatcher.CheckPayload t now a body).2 = false.
Proof.
  intros Hnone Hl. unfold ToolMatcher.CheckPayload.
  destruct (ToolMatcher.extractToolNames body) as [|n ns]; [done|].
  unfold ToolMatcher.state. rewrite Hnone. unfold ToolMatcher.step.
  set (st1 := if negb _ then _ else _).
  assert (ToolMatcher.period st1 = 0) as Hp by (unfold st1; by destruct (negb _)).
  set (st2 := ToolMatcher.push _ _ _).
  assert (ToolMatcher.period st2 = 0) as Hp2 by done.
  pose proof (ToolMatcher.detectCycle_spec (ToolMatcher.seq st2)
    (ToolMatcher.MaxPeriod (ToolMatcher.cfg t))) as Hd.
  destruct (ToolMatcher.detectCycle _ _) as [q ok]. cbn [ToolMatcher.confirm ToolMatcher.confirms].
  rewrite Hp2.
  assert ((if ok then if q =? 0 then ToolMatcher.confirms st2 + 1 else 1 else 0) <= 1) as Hk.
  { destruct ok; [|lia]. zcase (q =? 0). }
  by rewrite (proj2 (Z.leb_gt _ _)) by lia.
Qed.

(** A fresh velocity state blocks only a body whose own estimate exceeds the cap. *)
Lemma velocity_absent_proceeds v now a n :
  VelocityBreaker.states v !! a = None ->
  0 < VelocityBreaker.Window (VelocityBreaker.cfg v) ->
  0 < VelocityBreaker.ShortWindow (VelocityBreaker.cfg v) ->
  0 < now -> 0 <= n <= VelocityBreaker.BurstTokens (VelocityBreaker.cfg v) ->
  VelocityBreaker.BurstTokens (VelocityBreaker.cfg v) <= int64_max ->
  Block (VelocityBreaker.CheckVelocity v now a n).2 = false.
Proof.
  intros Hnone Hw Hs Hnow Hn Hmax.
  destruct (VelocityBreaker.CheckVelocity_own v a now n) as (-> & _ & _).
  rewrite Hnone. cbn [default from_option].
  assert (VelocityBreaker.good [(now, n)]) as Hg.
  { split_and!; repeat constructor; simpl; unfold VelocityBreaker.tokens_of; simpl; lia. }
  rewrite (VelocityBreaker.step_verdict _ [] _ now n Hw Hs Hg (VelocityBreaker.state_of_zero _)).
  unfold VelocityBreaker.verdict. cbn [app last head fmap option_fmap option_map default from_option fst].
  destruct Hg as (_ & _ & Hg & _).
  pose proof (VelocityBreaker.window_sum_le now
    (VelocityBreaker.Window (VelocityBreaker.cfg v)) _ Hg) as Hle.
  assert (VelocityBreaker.tokens_of [(now, n)] = n) as Hone by (unfold VelocityBreaker.tokens_of; simpl; lia).
  rewrite Hone in Hle. unfold id.
  rewrite (proj2 (Z.ltb_ge _ _)) by lia.
  rewrite (proj2 (Z.leb_gt _ _)); [done|]. unfold time_sub, int64_min, int64_max. lia.
Qed.

(** The detectors are configured as their constructors leave them, and a limit of one
    confirmation is not used. *)
Definition configured p : Prop :=
  match structural p with
  | Some s => 0 < StructuralHasher.Limit (StructuralHasher.cfg s)
              /\ 0 < StructuralHasher.Window (StructuralHasher.cfg s)
  | None => True
  end
  /\ match tools p with Some t => 2 <= ToolMatcher.Limit (ToolMatcher.cfg t) | None => True end
  /\ match velocity p with
     | Some v => let c := VelocityBreaker.cfg v in
         0 < VelocityBreaker.Window c /\ 0 < VelocityBreaker.ShortWindow c
         /\ VelocityBreaker.BurstTokens c <= int64_max
     | None => True
     end.

Definition within_burst p (body : list byte) : Prop :=
  match velocity p with
  | Some v => 0 <= estimateTokens p body <= VelocityBreaker.BurstTokens (VelocityBreaker.cfg v)
  | None => True
  end.

Lemma opt_stage_block {A} (f : A -> A * CheckResult) o :
  (forall x, o = Some x -> Block (f x).2 = false) -> Block (opt_stage f o).2 = false.
Proof.
  intros Hf. destruct o as [x|]; [|done]. specialize (Hf x eq_refl). simpl. by destruct (f x).
Qed.

Lemma forgotten_proceeds p c a fp body :
  forgotten p a -> configured p -> within_burst p body -> 0 < c_velocity c ->
  Block (det_check (exact p) (c_exact c) a fp).2 = false ->
  (CheckPayload p c a fp body).2 = proceed.
Proof.
  intros (Hs & Ht & Hv) (Cs & Ct & Cv) Hb Hc He. rewrite CheckPayload_result.
  unfold stage_results, first_block. rewrite He.
  rewrite opt_stage_block; [rewrite opt_stage_block; [rewrite opt_stage_block; [done|]|]|].
  - intros v Ev. unfold within_burst in Hb. rewrite Ev in *. destruct Cv as (? & ? & ?).
    by apply velocity_absent_proceeds.
  - intros t Et. rewrite Et in *. by apply tools_absent_proceeds.
  - intros s Es. rewrite Es in *. destruct Cs as [? ?]. by rewrite structural_absent_proceeds.
Qed.

Lemma Reset_configured p a : configured p -> configured (Reset p a).1.
Proof.
  unfold configured, Reset. destruct (det_reset (exact p) a) as [e n0].
  destruct (structural p) as [s|], (tools p) as [t|], (velocity p) as [v|];
    unfold opt_reset, StructuralHasher.Reset, ToolMatcher.Reset, VelocityBreaker.Reset;
    repeat match goal with |- context [?m !! a] => destruct (m !! a) eqn:? end; done.
Qed.

Lemma Reset_within p a body : within_burst p body -> within_burst (Reset p a).1 body.
Proof.
  unfold within_burst, Reset, estimateTokens. destruct (det_reset (exact p) a) as [e n0].
  destruct (opt_reset _ (structural p)) as [s n1], (opt_reset _ (tools p)) as [t n2].
  destruct (velocity p) as [v|]; [|done]. unfold opt_reset, VelocityBreaker.Reset.
  by destruct (VelocityBreaker.states v !! a).
Qed.
End Proofs.

(** C20. Clearing an agent: after Reset no stage remembers it, so its next request
    proceeds, whatever exact detector the pipeline is built on - as long as the request
    alone is not above the burst cap, and the detectors are [configured] as their
    constructors leave them, with a tool-cycle limit of two or more (a limit of one would
    stop the request on sight). *)
Theorem pipeline_reset_clears {D} `{Detector D} (ok : D -> Prop) `{!DetectorLaws D ok}
    {RS : RangeOrder AgentID StructuralHasher.structuralState}
    {RT : RangeOrder AgentID ToolMatcher.toolState}
    {RV : RangeOrder AgentID VelocityBreaker.velocityState}
    (p : Pipeline D) c a fp body :
  ok (exact p) -> configured p -> within_burst p body -> 0 < c_velocity c ->
  (CheckPayload (Reset p a).1 c a fp body).2 = proceed
  /\ (Reset (Reset p a).1 a).2 = 0.
Proof.
  intros Hok Hconf Hb Hc. split.
  - destruct (Reset_forgets p a) as (Hf & He & _).
    apply forgotten_proceeds; try done; [by apply Reset_configured|by apply Reset_within|].
    rewrite He. by rewrite (law_reset_proceeds (exact p)).
  - exact (law_reset_again (D := Pipeline D) (ok := fun p => ok (exact p)) p a Hok).
Qed.

Section Witness.
#[local] Existing Instances HashDetector.key_eq_dec HashDetector.key_countable
  HashDetector.hash_detector_Detector HashDetector.hash_detector_laws.
Local Instance order_key : RangeOrder HashDetector.key HashDetector.entry := canonical_range _ _.
Local Instance order_structural : RangeOrder AgentID StructuralHasher.structuralState :=
  canonical_range _ _.
Local Instance order_tools : RangeOrder AgentID ToolMatcher.toolState := canonical_range _ _.
Local Instance order_velocity : RangeOrder AgentID VelocityBreaker.velocityState :=
  canonical_range _ _.

(** The pipeline of cmd/proxy with every stage on, after three requests of one agent. *)
Definition sample_pipeline : Pipeline HashDetector.HashDetector :=
  let p0 := NewPipeline (HashDetector.NewHashDetector (5 * Minute) 2)
    [WithStructural (StructuralHasher.NewStructuralHasher
       {| StructuralHasher.Threshold := f64_zero; StructuralHasher.Window := 0;
          StructuralHasher.Limit := 0; StructuralHasher.TTL := 0; StructuralHasher.MaxEntries := 0 |});
     WithTools ToolMatcher.default_matcher; WithVelocity VelocityBreaker.default_breaker] in
  let at_time n := {| c_exact := n; c_structural := n; c_tools := n; c_velocity := n |} in
  let body := bytes_of_string "[1,2]" in
  foldl (fun p n => (CheckPayload p (at_time n) "a"%string "f"%string body).1) p0 [5; 6; 7].

Lemma pipeline_reset_clears_witness :
  let c := {| c_exact := 8; c_structural := 8; c_tools := 8; c_velocity := 8 |} in
  let body := bytes_of_string "[1,2]" in
  Block (CheckPayload sample_pipeline c "a"%string "f"%string body).2 = true
  /\ (CheckPayload (Reset sample_pipeline "a"%string).1 c "a"%string "f"%string body).2 = proceed.
Proof.
  intros c body. split; [vm_compute; reflexivity|].
  apply (pipeline_reset_clears HashDetector.wf sample_pipeline c "a"%string "f"%string body).
  - vm_compute. split; [reflexivity|discriminate].
  - vm_compute. repeat split; discriminate.
  - vm_compute. split; discriminate.
  - reflexivity.
Defined.
End Witness.
