(* ===== verification/GoStrings.v ===== *)
(** * The functions of the strings and bytes packages the program uses

    Strings are lists of bytes here; see Prelude for the conversion. *)

From S2P Require Import Prelude.

(** ** White space

    The encodings of the white-space runes (unicode.IsSpace), as byte sequences. *)

Definition ascii_space (c : byte) : bool :=
  ((9 <=? byte_to_Z c) && (byte_to_Z c <=? 13)) || (byte_to_Z c =? 32).

Definition wide_spaces : list (list byte) :=
  [["194"; "133"]; ["194"; "160"]; ["225"; "154"; "128"];
   ["226"; "128"; "128"]; ["226"; "128"; "129"]; ["226"; "128"; "130"]; ["226"; "128"; "131"];
   ["226"; "128"; "132"]; ["226"; "128"; "133"]; ["226"; "128"; "134"]; ["226"; "128"; "135"];
   ["226"; "128"; "136"]; ["226"; "128"; "137"]; ["226"; "128"; "138"]; ["226"; "128"; "168"];
   ["226"; "128"; "169"]; ["226"; "128"; "175"]; ["226"; "129"; "159"];
   ["227"; "128"; "128"]]%byte.

(** How many bytes the space rune at the head of [l] takes, among the encodings [ws]. *)
Definition space_len (ws : list (list byte)) (l : list byte) : nat :=
  match l with
  | [] => 0%nat
  | c :: _ =>
      if ascii_space c then 1%nat
      else match filter (fun w => has_prefix w l = true) ws with w :: _ => length w | [] => 0%nat end
  end.

Fixpoint trim_head (ws : list (list byte)) (fuel : nat) (l : list byte) : list byte :=
  match fuel with
  | O => l
  | S fuel' =>
      match space_len ws l with O => l | n => trim_head ws fuel' (drop n l) end
  end.

(** strings.TrimSpace / bytes.TrimSpace. *)
Definition trim_left (l : list byte) : list byte := trim_head wide_spaces (length l) l.
Definition trim_right (l : list byte) : list byte :=
  reverse (trim_head (@reverse byte <$> wide_spaces) (length l) (reverse l)).
Definition trim_space (l : list byte) : list byte := trim_right (trim_left l).

(** ** Prefixes, search, case *)

(** strings.TrimPrefix. *)
Definition trim_prefix (p l : list byte) : list byte :=
  if has_prefix p l then drop (length p) l else l.

Definition has_suffix (p l : list byte) : bool := has_prefix (reverse p) (reverse l).
Definition trim_suffix (p l : list byte) : list byte :=
  if has_suffix p l then take (length l - length p) l else l.

(** strings.ReplaceAll(s, c, "") for a one-byte c. *)
Definition remove_byte (c : byte) (l : list byte) : list byte :=
  filter (fun b => byte_eqb b c = false) l.

(** strings.ToLower on the ASCII letters. *)
Definition lower_byte (c : byte) : byte :=
  if (65 <=? byte_to_Z c) && (byte_to_Z c <=? 90)
  then default c (Byte.of_N (Z.to_N (byte_to_Z c + 32))) else c.
Definition to_lower (l : list byte) : list byte := lower_byte <$> l.

(** strings.Contains. *)
Fixpoint contains (p l : list byte) : bool :=
  has_prefix p l || match l with [] => false | _ :: l' => contains p l' end.

(** bytes.IndexByte as a split: what precedes the first [c] and what follows it. *)
Fixpoint cut_byte (c : byte) (l : list byte) : option (list byte * list byte) :=
  match l with
  | [] => None
  | b :: l' =>
      if byte_eqb b c then Some ([], l')
      else match cut_byte c l' with Some (x, y) => Some (b :: x, y) | None => None end
  end.

(** strings.Split(s, c) for a one-byte separator. *)
Fixpoint split_byte (c : byte) (l : list byte) : list (list byte) :=
  match l with
  | [] => [[]]
  | b :: l' =>
      match split_byte c l' with
      | [] => [[]]
      | p :: ps => if byte_eqb b c then [] :: p :: ps else (b :: p) :: ps
      end
  end.

(** ** path/filepath on a system with / as separator *)

(** One element of a path, on the elements kept so far (the last one first). *)
Definition clean_step (rooted : bool) (out : list (list byte)) (elem : list byte) : list (list byte) :=
  if bool_decide (elem = []) || bool_decide (elem = bytes_of_string ".") then out
  else if bool_decide (elem = bytes_of_string "..") then
    match out with
    | last :: rest => if bool_decide (last = bytes_of_string "..") then elem :: out else rest
    | [] => if rooted then [] else [elem]
    end
  else elem :: out.

Fixpoint join_slash (l : list (list byte)) : list byte :=
  match l with
  | [] => []
  | [x] => x
  | x :: l' => x ++ "/"%byte :: join_slash l'
  end.

(** filepath.Clean. *)
Definition filepath_Clean (path : list byte) : list byte :=
  let rooted := has_prefix ["/"%byte] path in
  let out := (if rooted then ["/"%byte] else [])
             ++ join_slash (reverse (foldl (clean_step rooted) [] (split_byte "/" path))) in
  match out with [] => bytes_of_string "." | _ => out end.

(** The path up to and with its last slash. *)
Fixpoint dir_part (path : list byte) : list byte :=
  match path with
  | [] => []
  | c :: l => match dir_part l with
              | [] => if byte_eqb c "/" then [c] else []
              | d => c :: d
              end
  end.

(** filepath.Dir. *)
Definition filepath_Dir (path : list byte) : list byte := filepath_Clean (dir_part path).

Example filepath_examples :
  let b := bytes_of_string in
  filepath_Dir (b "finops.db") = b "." /\ filepath_Dir (b "./finops.db") = b "."
  /\ filepath_Dir (b "data/x/../finops.db") = b "data" /\ filepath_Dir (b "/finops.db") = b "/"
  /\ filepath_Dir (b "../a//b.db") = b "../a".
Proof. vm_compute. done. Qed.

Example trim_examples :
  trim_space (bytes_of_string "  a b  ") = bytes_of_string "a b"
  /\ trim_space (["194"; "160"]%byte ++ bytes_of_string "x" ++ ["226"; "128"; "168"]%byte)
     = bytes_of_string "x"
  /\ split_byte "," (bytes_of_string "1,,2") = [bytes_of_string "1"; []; bytes_of_string "2"]
  /\ contains (bytes_of_string "ent-str") (bytes_of_string "text/event-stream") = true.
Proof. vm_compute. done. Qed.

(** ** Lemmas *)

Lemma cut_byte_spec c l :
  match cut_byte c l with
  | Some (x, y) => l = x ++ c :: y /\ c ∉ x
  | None => c ∉ l
  end.
Proof.
  induction l as [|b l IH]; simpl; [apply not_elem_of_nil|].
  destruct (byte_eqb b c) eqn:E.
  - apply byte_eqb_eq in E as ->. split; [done|apply not_elem_of_nil].
  - assert (b <> c) as Hne by (intros ->; by rewrite byte_eqb_refl in E).
    destruct (cut_byte c l) as [[x y]|].
    + destruct IH as [-> Hx]. split; [done|]. set_solver.
    + set_solver.
Qed.

Lemma cut_byte_app c x y : c ∉ x -> cut_byte c (x ++ c :: y) = Some (x, y).
Proof.
  induction x as [|b x IH]; intros Hx; simpl; [by rewrite byte_eqb_refl|].
  destruct (byte_eqb b c) eqn:E; [apply byte_eqb_eq in E; set_solver|].
  rewrite IH; [done|set_solver].
Qed.
