(* ===== verification/GoFlag.v ===== *)
(** * The part of flag, strconv and time the command lines are read with

    A flag set is a table of names and setters on a configuration; [parse_flags] is
    FlagSet.Parse: it stops at the first argument that is no flag, or after a bare pair of
    dashes, and gives what is left. *)

From S2P Require Import Prelude GoFloat GoJson GoStrings.

(** ** strconv.ParseInt(s, 0, 64) *)

Definition char_is (s : string) (c : byte) : bool := bool_decide (bytes_of_string s = [c]).

(** underscoreOK after the sign: every underscore between digits, a base prefix counting as
    a digit. [saw]: 0 nothing yet, 1 a digit, 2 an underscore, 3 anything else. *)
Fixpoint underscores_ok (hex : bool) (saw : Z) (l : list byte) : bool :=
  match l with
  | [] => negb (saw =? 2)
  | c :: l' =>
      if is_digit c || (hex && between 97 102 (lower_byte c)) then underscores_ok hex 1 l'
      else if char_is "_" c then (saw =? 1) && underscores_ok hex 2 l'
      else if saw =? 2 then false
      else underscores_ok hex 3 l'
  end.

Definition base_prefix (l : list byte) : option Z :=
  match l with
  | z :: x :: _ =>
      if char_is "0" z then
        if char_is "b" (lower_byte x) then Some 2
        else if char_is "o" (lower_byte x) then Some 8
        else if char_is "x" (lower_byte x) then Some 16
        else None
      else None
  | _ => None
  end.

Definition underscoreOK (l : list byte) : bool :=
  match base_prefix l with
  | Some b => underscores_ok (b =? 16) 1 (drop 2 l)
  | None => underscores_ok false 0 l
  end.

Definition digit_of (c : byte) : option Z :=
  if is_digit c then Some (digit_val c)
  else if between 97 122 (lower_byte c) then Some (byte_to_Z (lower_byte c) - 87)
  else None.

(** The digits in a base, underscores skipped. *)
Fixpoint digits_in (base acc : Z) (l : list byte) : option Z :=
  match l with
  | [] => Some acc
  | c :: l' =>
      if char_is "_" c then digits_in base acc l'
      else match digit_of c with
           | Some d => if base <=? d then None else digits_in base (acc * base + d) l'
           | None => None
           end
  end.

(** ParseUint(s, 0, 64) without the range check. *)
Definition parse_magnitude (l : list byte) : option Z :=
  match l with
  | [] => None
  | c :: r =>
      let '(base, body) :=
        match base_prefix l with
        | Some b => if (length l <? 3)%nat then (8, r) else (b, drop 2 l)
        | None => if char_is "0" c then (8, r) else (10, l)
        end in
      match digits_in base 0 body with
      | Some n => if existsb (char_is "_") l && negb (underscoreOK l) then None else Some n
      | None => None
      end
  end.

Definition parse_int_base0 (l : list byte) : option Z :=
  let '(neg, d) := match l with
    | c :: r => if char_is "-" c then (true, r) else if char_is "+" c then (false, r) else (false, l)
    | [] => (false, l) end in
  match parse_magnitude d with
  | Some n => let v := if neg then - n else n in
              if (int64_min <=? v) && (v <=? int64_max) then Some v else None
  | None => None
  end.

(** ** time.ParseDuration *)

Definition two63 : Z := 2 ^ 63.

(** The units, the micro sign and the Greek mu included. *)
Definition unit_of (u : list byte) : option Z :=
  let named s := bool_decide (u = bytes_of_string s) in
  if named "ns" then Some 1
  else if named "us" || bool_decide (u = ["194"; "181"; "s"]%byte) || bool_decide (u = ["206"; "188"; "s"]%byte)
  then Some Microsecond
  else if named "ms" then Some Millisecond
  else if named "s" then Some Second
  else if named "m" then Some Minute
  else if named "h" then Some Hour
  else None.

(** leadingInt: None on overflow. *)
Fixpoint leadingInt (x : Z) (l : list byte) : option (Z * list byte) :=
  match l with
  | c :: l' =>
      if is_digit c then
        if two63 / 10 <? x then None
        else let x := x * 10 + digit_val c in if two63 <? x then None else leadingInt x l'
      else Some (x, l)
  | [] => Some (x, l)
  end.

(** leadingFraction: digits past the precision are dropped. *)
Fixpoint leadingFraction (x : Z) (scale : float64) (overflow : bool) (l : list byte) :
    Z * float64 * list byte :=
  match l with
  | c :: l' =>
      if is_digit c then
        if overflow then leadingFraction x scale true l'
        else if (two63 - 1) / 10 <? x then leadingFraction x scale true l'
        else let y := x * 10 + digit_val c in
             if two63 <? y then leadingFraction x scale true l'
             else leadingFraction y (f64_mul scale (f64_of_Z 10)) false l'
      else (x, scale, l)
  | [] => (x, scale, l)
  end.

Definition unit_byte (c : byte) : bool := negb (char_is "." c || is_digit c).

(** One number with its unit: the nanoseconds, and what follows. *)
Definition duration_term (l : list byte) : option (Z * list byte) :=
  match l with
  | [] => None
  | c :: _ =>
      if negb (char_is "." c || is_digit c) then None
      else
        match leadingInt 0 l with
        | None => None
        | Some (v, l1) =>
            let pre := negb (length l1 =? length l)%nat in
            let '(f, scale, l2, post) :=
              match l1 with
              | d :: r => if char_is "." d then
                            let '(f, scale, l2) := leadingFraction 0 (f64_of_Z 1) false r in
                            (f, scale, l2, negb (length l2 =? length r)%nat)
                          else (0, f64_of_Z 1, l1, false)
              | [] => (0, f64_of_Z 1, l1, false)
              end in
            if negb (pre || post) then None
            else
              let '(u, l3) := span unit_byte l2 in
              match unit_of u with
              | None => None
              | Some unit =>
                  if two63 / unit <? v then None
                  else
                    let v := v * unit in
                    let v := if 0 <? f
                             then v + f64_to_int64 (f64_mul (f64_of_Z f) (f64_div (f64_of_Z unit) scale))
                             else v in
                    if two63 <? v then None else Some (v, l3)
              end
        end
  end.

Fixpoint duration_terms (fuel : nat) (d : Z) (l : list byte) : option Z :=
  match l with
  | [] => Some d
  | _ =>
      match fuel with
      | O => None
      | S fuel' =>
          match duration_term l with
          | None => None
          | Some (v, l') => if two63 <? d + v then None else duration_terms fuel' (d + v) l'
          end
      end
  end.

Definition parse_duration (l : list byte) : option Z :=
  let '(neg, s) := match l with
    | c :: r => if char_is "-" c then (true, r) else if char_is "+" c then (false, r) else (false, l)
    | [] => (false, l) end in
  if bool_decide (s = bytes_of_string "0") then Some 0
  else match s with
       | [] => None
       | _ => match duration_terms (length s) 0 s with
              | None => None
              | Some d => if neg then Some (- d) else if two63 - 1 <? d then None else Some d
              end
       end.

(** strconv.ParseBool. *)
Definition parse_bool (l : list byte) : option bool :=
  let one_of ss := existsb (fun s => bool_decide (l = bytes_of_string s)) ss in
  if one_of ["1"; "t"; "T"; "true"; "TRUE"; "True"]%string then Some true
  else if one_of ["0"; "f"; "F"; "false"; "FALSE"; "False"]%string then Some false
  else None.

(** ** FlagSet.Parse *)

Inductive setter (C : Type) :=
  | SetString (f : string -> C -> C)
  | SetBool (f : bool -> C -> C)
  | SetInt (f : Z -> C -> C)
  | SetDuration (f : Z -> C -> C).
Arguments SetString {C} _.
Arguments SetBool {C} _.
Arguments SetInt {C} _.
Arguments SetDuration {C} _.

Inductive flag_error :=
  | BadSyntax (arg : string)
  | NotDefined (name : string)
  | HelpRequested
  | NeedsArgument (name : string)
  | InvalidValue (name value : string).

Section Parse.
Context {C : Type} (table : list (string * setter C)).

Definition lookup_flag (name : string) : option (setter C) :=
  snd <$> find (fun kv => String.eqb (fst kv) name) table.

(** Value.Set. *)
Definition set_value (s : setter C) (value : string) (c : C) : option C :=
  match s with
  | SetString f => Some (f value c)
  | SetBool f => (fun b => f b c) <$> parse_bool (bytes_of_string value)
  | SetInt f => (fun z => f z c) <$> parse_int_base0 (bytes_of_string value)
  | SetDuration f => (fun d => f d c) <$> parse_duration (bytes_of_string value)
  end.

(** What an argument is: no flag, the bare pair of dashes, a bad syntax, or a flag with the
    value after its first = if it has one. *)
Inductive shape := NotFlag | Terminator | Malformed | Flag (name : string) (value : option string).

(** The text without its dashes: the name ends at the first = that is not its first byte. *)
Definition flag_text (l : list byte) : shape :=
  match l with
  | [] => Malformed
  | c :: l' =>
      if char_is "-" c || char_is "=" c then Malformed
      else match cut_byte "=" l' with
           | Some (n, v) => Flag (string_of_bytes (c :: n)) (Some (string_of_bytes v))
           | None => Flag (string_of_bytes l) None
           end
  end.

Definition arg_shape (a : string) : shape :=
  match bytes_of_string a with
  | d :: e :: l =>
      if negb (char_is "-" d) then NotFlag
      else if char_is "-" e then match l with [] => Terminator | _ => flag_text l end
      else flag_text (e :: l)
  | _ => NotFlag
  end.

(** One flag, with the arguments after it. *)
Definition set_flag (name : string) (value : option string) (rest : list string) (c : C) :
    result flag_error (C * list string) :=
  let set s v rest := match set_value s v c with
    | Some c => Ok (c, rest) | None => Err (InvalidValue name v) end in
  match lookup_flag name with
  | None => Err (if String.eqb name "help" || String.eqb name "h" then HelpRequested else NotDefined name)
  | Some (SetBool f as s) => set s (default "true"%string value) rest
  | Some s =>
      match value, rest with
      | Some v, _ => set s v rest
      | None, v :: rest' => set s v rest'
      | None, [] => Err (NeedsArgument name)
      end
  end.

Fixpoint parse_flags (fuel : nat) (args : list string) (c : C) : result flag_error (C * list string) :=
  match args, fuel with
  | a :: rest, S fuel' =>
      match arg_shape a with
      | NotFlag => Ok (c, args)
      | Terminator => Ok (c, rest)
      | Malformed => Err (BadSyntax a)
      | Flag name value =>
          match set_flag name value rest c with
          | Ok (c, rest) => parse_flags fuel' rest c
          | Err e => Err e
          end
      end
  | _, _ => Ok (c, args)
  end.

(** Parse: every flag takes an argument at least, so as many steps as arguments are enough. *)
Definition Parse (args : list string) (c : C) : result flag_error (C * list string) :=
  parse_flags (length args) args c.
End Parse.

Example parse_int_examples :
  parse_int_base0 (bytes_of_string "0x_1F") = Some 31 /\ parse_int_base0 (bytes_of_string "-0b101") = Some (-5)
  /\ parse_int_base0 (bytes_of_string "017") = Some 15 /\ parse_int_base0 (bytes_of_string "1__0") = None
  /\ parse_int_base0 (bytes_of_string "0") = Some 0 /\ parse_int_base0 (bytes_of_string "0x") = None
  /\ parse_int_base0 (bytes_of_string "9223372036854775808") = None
  /\ parse_int_base0 (bytes_of_string "08") = None /\ parse_int_base0 (bytes_of_string "1_000") = Some 1000.
Proof. vm_compute. repeat split. Qed.

Example parse_duration_examples :
  parse_duration (bytes_of_string "5m0s") = Some (5 * Minute)
  /\ parse_duration (bytes_of_string "-1.5h") = Some (- (90 * Minute))
  /\ parse_duration (bytes_of_string "100ms") = Some (100 * Millisecond)
  /\ parse_duration (bytes_of_string "30") = None /\ parse_duration (bytes_of_string ".s") = None
  /\ parse_duration (bytes_of_string "0") = Some 0 /\ parse_duration (bytes_of_string "2562048h") = None.
Proof. vm_compute. repeat split. Qed.
