(* ===== verification/Pricing.v ===== *)
(** * pkg/pricing: the price table (calculator.go, load.go, table.go, price_source.go)

    Prices are integers, micro-USD per million tokens; the only floats are the
    USD amounts of the configuration file and the chars-per-token knob. *)

From Stdlib Require Import SpecFloat.
From S2P Require Import Prelude GoFloat GoJson.

#[local] Open Scope result_scope.

(** ** The table *)

Definition MicroUSDPerUSD : Z := 1000000.
Definition defaultCharsPerToken : float64 := f64_of_Z 4.
Definition maxUSDPer1M : float64 := f64_of_Z 1000.
Definition f64_million : float64 := f64_of_Z 1000000.

Record ModelPrice := { InputUSD : Z; OutputUSD : Z }.

Definition zero_price : ModelPrice := {| InputUSD := 0; OutputUSD := 0 |}.

#[export] Instance ModelPrice_eq_dec : EqDecision ModelPrice.
Proof. solve_decision. Defined.

Record Pricing := {
  assumedCompletionTokens : Z;
  PromptEstimationCharsPerToken : float64;
  models : gmap string ModelPrice;
  def : ModelPrice
}.

(** strings.HasPrefix(s, p) on strings. *)
Definition str_prefix (p s : string) : bool := has_prefix (bytes_of_string p) (bytes_of_string s).
(** len(s). *)
Definition str_len (s : string) : Z := Z.of_nat (String.length s).

Section PriceFor.
Context {R : RangeOrder string ModelPrice}.

(** The scan for the longest key that is a prefix of the model. *)
Definition best_step (model : string) (best : string) (kv : string * ModelPrice) : string :=
  if (str_len best <? str_len kv.1) && str_prefix kv.1 model then kv.1 else best.

Definition PriceFor (p : Pricing) (model : string) : ModelPrice * bool :=
  match models p !! model with
  | Some mp => (mp, true)
  | None =>
      let best := foldl (best_step model) ""%string (range (models p)) in
      if negb (bool_decide (best = ""%string))
      then (default zero_price (models p !! best), true)
      else (def p, false)
  end.
End PriceFor.

(** Cost: integer products, one sum, one truncated division. *)
Definition Cost (mp : ModelPrice) (promptTok completionTok : Z) : Z :=
  Z.quot (wrap64 (wrap64 (promptTok * InputUSD mp) + wrap64 (completionTok * OutputUSD mp)))
    MicroUSDPerUSD.

(** ExtractModel: the "model" field of a body. *)
Definition model_doc : ty := TStruct [("model"%string, TString)].
Definition ExtractModel (body : list byte) : string :=
  match unmarshal model_doc body with
  | Some v => string_of_bytes (g_str (g_field 0 v))
  | None => ""
  end.

Definition estimateTokens (chars : Z) (charsPerToken : float64) : Z :=
  let c := if f64_leb charsPerToken f64_zero then defaultCharsPerToken else charsPerToken in
  if chars <=? 0 then 0 else f64_to_int64 (f64_ceil (f64_div (f64_of_Z chars) c)).

(** The package-level function and the method. *)
Definition EstimatePromptTokens_default (body : list byte) : Z :=
  estimateTokens (Z.of_nat (length body)) defaultCharsPerToken.
Definition EstimatePromptTokens (p : Pricing) (body : list byte) : Z :=
  estimateTokens (Z.of_nat (length body)) (PromptEstimationCharsPerToken p).

Definition SavedCost {R : RangeOrder string ModelPrice} (p : Pricing) (body : list byte) : Z :=
  let '(mp, _) := PriceFor p (ExtractModel body) in
  Cost mp (EstimatePromptTokens p body) (assumedCompletionTokens p).

Definition AssumedCompletionTokens (p : Pricing) : Z := assumedCompletionTokens p.

(** Models: a copy of the map; a nil table gives a nil (empty) map. *)
Definition Models (p : option Pricing) : gmap string ModelPrice :=
  match p with None => ∅ | Some p => models p end.

(** table.go. *)
Definition Build (ms : gmap string ModelPrice) (d : ModelPrice) (assumed : Z)
    (charsPerToken : float64) : Pricing :=
  {| assumedCompletionTokens := assumed;
     PromptEstimationCharsPerToken :=
       if f64_leb charsPerToken f64_zero then defaultCharsPerToken else charsPerToken;
     models := ms; def := d |}.

Definition Default (p : option Pricing) : ModelPrice :=
  match p with None => zero_price | Some p => def p end.

(** ** The interface the cost layer consumes *)

Class PriceSource (P : Type) := {
  ps_PriceFor : P -> string -> ModelPrice * bool;
  ps_EstimatePromptTokens : P -> list byte -> Z;
  ps_SavedCost : P -> list byte -> Z;
  ps_AssumedCompletionTokens : P -> Z
}.

(** The contract: the estimate of a blocked request is the cost of its model's price
    on the prompt estimate and the assumed completion. *)
Class PriceSourceLaws (P : Type) `{PriceSource P} := {
  law_saved_cost p body :
    ps_SavedCost p body
    = Cost (ps_PriceFor p (ExtractModel body)).1 (ps_EstimatePromptTokens p body)
        (ps_AssumedCompletionTokens p)
}.

#[export] Instance Pricing_source {R : RangeOrder string ModelPrice} : PriceSource Pricing :=
  {| ps_PriceFor := PriceFor; ps_EstimatePromptTokens := EstimatePromptTokens;
     ps_SavedCost := SavedCost; ps_AssumedCompletionTokens := AssumedCompletionTokens |}.

(** ** Loading config/pricing.json *)

(** toMicroUSDPer1M of fetcher.go: the one float-to-integer step. *)
Definition toMicroUSDPer1M (v : float64) : option Z :=
  if f64_is_nan v || f64_is_inf v then None
  else if f64_ltb v f64_zero then None
  else if f64_ltb maxUSDPer1M v then None
  else Some (f64_to_int64 (f64_round (f64_mul v f64_million))).

Inductive price_error := PriceRequired | PriceNaNInf | PriceNegative | PriceExceedsCap.

Inductive load_error :=
  | EReadFile
  | EUnmarshal
  | EVersion (v : Z)
  | ECurrency (c : string)
  | EPerMillionTokens
  | EDefaultRequired
  | EAssumedCompletionTokens (n : Z)
  | ECharsPerToken
  | EPrice (what : string) (e : price_error)
  | EEmptyModelKey.

Definition priceJSON : ty :=
  TStruct [("input_usd_per_1m"%string, TPtr TFloat); ("output_usd_per_1m"%string, TPtr TFloat)].
Definition estimationJSON : ty :=
  TStruct [("assumed_completion_tokens"%string, TPtr TInt);
           ("prompt_estimation_chars_per_token"%string, TPtr TFloat)].
Definition pricingJSON : ty :=
  TStruct [("version"%string, TPtr TInt); ("currency"%string, TString);
           ("per_million_tokens"%string, TPtr TBool); ("estimation"%string, estimationJSON);
           ("default"%string, TPtr priceJSON); ("models"%string, TMap priceJSON)].

Definition normalizeDollar (v : option float64) (what : string) : result load_error Z :=
  match v with
  | None => Err (EPrice what PriceRequired)
  | Some f =>
      match toMicroUSDPer1M f with
      | Some usd => Ok usd
      | None =>
          Err (EPrice what
            (if f64_is_nan f || f64_is_inf f then PriceNaNInf
             else if f64_ltb f f64_zero then PriceNegative else PriceExceedsCap))
      end
  end.

(** normalizePrice of a decoded priceJSON. *)
Definition normalizePrice (m : gov) (what : string) : result load_error ModelPrice :=
  let* i := normalizeDollar (g_float <$> g_ptr (g_field 0 m)) (what +:+ " input_usd_per_1m") in
  let* o := normalizeDollar (g_float <$> g_ptr (g_field 1 m)) (what +:+ " output_usd_per_1m") in
  Ok {| InputUSD := i; OutputUSD := o |}.

Definition load_model_step (acc : result load_error (gmap string ModelPrice))
    (kv : string * gov) : result load_error (gmap string ModelPrice) :=
  let* ms := acc in
  if bool_decide (kv.1 = ""%string) then Err EEmptyModelKey
  else let* mp := normalizePrice kv.2 ("model " +:+ kv.1) in Ok (<[kv.1 := mp]> ms).

(** raw.Models as a Go map. *)
Definition raw_models (raw : gov) : gmap string gov :=
  list_to_map ((fun kv => (string_of_bytes kv.1, kv.2)) <$> g_entries (g_field 5 raw)).

(** Load; [data] is what os.ReadFile returned, None for an error. *)
Definition Load {R : RangeOrder string gov} (data : option (list byte)) :
    result load_error Pricing :=
  match data with
  | None => Err EReadFile
  | Some bytes =>
      match unmarshal pricingJSON bytes with
      | None => Err EUnmarshal
      | Some raw =>
          let version := g_int <$> g_ptr (g_field 0 raw) in
          let currency := string_of_bytes (g_str (g_field 1 raw)) in
          let perMillion := g_bool <$> g_ptr (g_field 2 raw) in
          let assumed := g_int <$> g_ptr (g_field 0 (g_field 3 raw)) in
          let chars := g_float <$> g_ptr (g_field 1 (g_field 3 raw)) in
          let* _ := match version with
            | Some v => if negb (v =? 1) then Err (EVersion v) else Ok tt | None => Ok tt end in
          let* _ := if negb (bool_decide (currency = "USD"%string))
                    then Err (ECurrency currency) else Ok tt in
          let* _ := match perMillion with Some true => Ok tt | _ => Err EPerMillionTokens end in
          let* d := match g_ptr (g_field 4 raw) with
            | None => Err EDefaultRequired | Some d => Ok d end in
          let* a := match assumed with
            | None => Ok 0
            | Some n => if n <? 0 then Err (EAssumedCompletionTokens n) else Ok n end in
          let* c := match chars with
            | None => Ok defaultCharsPerToken
            | Some f => if f64_is_nan f || f64_is_inf f || f64_leb f f64_zero
                        then Err ECharsPerToken else Ok f end in
          let* dp := normalizePrice d "default" in
          let* ms := foldl load_model_step (Ok ∅) (range (raw_models raw)) in
          Ok {| assumedCompletionTokens := a; PromptEstimationCharsPerToken := c;
                models := ms; def := dp |}
      end
  end.

(** ** Specification-level views *)

(** A non-empty configured key that is a prefix of the model. *)
Definition prefix_key (p : Pricing) (model k : string) : Prop :=
  is_Some (models p !! k) /\ k <> ""%string /\ str_prefix k model = true.

(** How a model resolves: exact key, else longest prefix, else the default. *)
Inductive resolves (p : Pricing) (model : string) : ModelPrice * bool -> Prop :=
  | resolves_exact mp : models p !! model = Some mp -> resolves p model (mp, true)
  | resolves_prefix k mp :
      models p !! model = None -> prefix_key p model k -> models p !! k = Some mp ->
      (forall k', prefix_key p model k' -> str_len k' <= str_len k) ->
      resolves p model (mp, true)
  | resolves_default :
      models p !! model = None -> (forall k, ~ prefix_key p model k) ->
      resolves p model (def p, false).

(** Prices in the range the normalization step admits: 0 to 1000 USD per million. *)
Definition price_ok (mp : ModelPrice) : Prop :=
  0 <= InputUSD mp <= 1000000000 /\ 0 <= OutputUSD mp <= 1000000000.

Definition table_ok (p : Pricing) : Prop :=
  price_ok (def p) /\ map_Forall (fun k mp => k <> ""%string /\ price_ok mp) (models p)
  /\ 0 <= assumedCompletionTokens p
  /\ f64_is_nan (PromptEstimationCharsPerToken p) = false
  /\ f64_is_inf (PromptEstimationCharsPerToken p) = false
  /\ f64_leb (PromptEstimationCharsPerToken p) f64_zero = false.

(** ** Bounds of the price normalization *)

Lemma not_above_1000 m e :
  f64_ltb maxUSDPer1M (S754_finite false m e) = false ->
  exists K, - K <= e /\ 100 <= K /\ Zpos m * 2 ^ (e + K) <= 1000 * 2 ^ K.
Proof.
  unfold f64_ltb, f64_compare.
  replace maxUSDPer1M with (S754_finite false 8796093022208000 (-43)) by (vm_compute; done).
  cbn [f64_signed]. set (k := Z.min (-43) e).
  destruct (Z.compare_spec (Zpos 8796093022208000 * 2 ^ (-43 - k)) (Zpos m * 2 ^ (e - k))) as [H|H|H];
    [|done|]; intros _; exists (100 - k); (split; [lia|split; [lia|]]);
    replace (e + (100 - k)) with (e - k + 100) by lia;
    replace (2 ^ (100 - k)) with (2 ^ (57 + (43 + (- 43 - k + 43)))) by (f_equal; lia);
    replace (2 ^ (57 + (43 + (- 43 - k + 43)))) with (2 ^ (100 + 43 + (-43 - k))) by (f_equal; lia);
    rewrite (Z.pow_add_r 2 (e - k)), !(Z.pow_add_r 2 (100 + 43)), (Z.pow_add_r 2 100) by lia;
    change (Zpos 8796093022208000) with (1000 * 2 ^ 43) in H; nia.
Qed.

Lemma negative_below_zero m e : f64_ltb (S754_finite true m e) f64_zero = true.
Proof.
  unfold f64_ltb, f64_compare. cbn [f64_zero f64_signed].
  assert (0 < 2 ^ (e - Z.min e 0)) by (apply Z.pow_pos_nonneg; lia).
  by destruct (Z.compare_spec (Zneg m * 2 ^ (e - Z.min e 0)) (0 * 2 ^ (0 - Z.min e 0))); [nia| |nia].
Qed.

Lemma toMicro_bounds v n : toMicroUSDPer1M v = Some n -> 0 <= n <= 1000000000.
Proof.
  unfold toMicroUSDPer1M. destruct v as [s|s| |s m e]; cbn [f64_is_nan f64_is_inf orb].
  - intros H. destruct s; vm_compute in H; injection H as <-; lia.
  - done.
  - done.
  - intros H. destruct s; [by rewrite negative_below_zero in H|].
    destruct (f64_ltb (S754_finite false m e) f64_zero); [done|].
    destruct (f64_ltb maxUSDPer1M _) eqn:E; [done|]. injection H as <-.
    apply not_above_1000 in E as (K & HK & HK1 & Hle).
    replace f64_million with (S754_finite false 8589934592000000 (-33)) by (vm_compute; done).
    unfold f64_mul, SFmul. cbn [xorb]. set (p := (m * 8589934592000000)%positive).
    assert (Zpos p = Zpos m * (1000000 * 2 ^ 33)) as Hp by (unfold p; lia).
    assert (0 < 2 ^ (e + K)) by (apply Z.pow_pos_nonneg; lia).
    assert (Zpos p * 2 ^ (e + - (33) + (K + 33)) <= 1000000000 * 2 ^ (K + 33)) as Hx.
    { replace (e + - (33) + (K + 33)) with (e + K) by lia. rewrite (Z.pow_add_r 2 K), Hp by lia. nia. }
    assert (e < 10) as He.
    { assert (e + K < 10 + K); [|lia]. apply (Z.pow_lt_mono_r_iff 2); [lia..|].
      rewrite (Z.pow_add_r 2 10 K) by lia.
      assert (0 < 2 ^ K) by (apply Z.pow_pos_nonneg; lia). nia. }
    assert (Zdigits2 (Zpos p) + (e + - (33)) <= 31) as Hd.
    { pose proof (digits_bounds (Zpos p) ltac:(lia)) as [Hlo _].
      assert (0 < Zdigits2 (Zpos p)) by done.
      assert (Zdigits2 (Zpos p) - 1 + (e + - (33) + (K + 33)) < 30 + (K + 33)); [|lia].
      apply (Z.pow_lt_mono_r_iff 2); [lia..|].
      rewrite (Z.pow_add_r 2 (_ - 1)), (Z.pow_add_r 2 30) by lia.
      assert (0 < 2 ^ (K + 33)) by (apply Z.pow_pos_nonneg; lia).
      assert (0 < 2 ^ (e + - (33) + (K + 33))) by (apply Z.pow_pos_nonneg; lia). nia. }
    pose proof (round_upper (K + 33) p (e + - (33)) Hd ltac:(lia) ltac:(lia) ltac:(lia)) as Hr.
    change (e + -33) with (e + - (33)).
    destruct (binary_round_aux _ _ false (Zpos p) _ _) as [s|s| |s q e']; [subst s|done|done|].
    + vm_compute. split; discriminate.
    + destruct Hr as (-> & He' & Hq). apply (f64_round_bound q e' (K + 33)); try lia.
Qed.

(** ** Resolution of a model *)

Lemma str_prefix_spec p s :
  str_prefix p s = true <-> exists r, bytes_of_string s = bytes_of_string p ++ r.
Proof. apply has_prefix_spec. Qed.

Lemma bytes_of_string_inj s1 s2 : bytes_of_string s1 = bytes_of_string s2 -> s1 = s2.
Proof. intros E. by rewrite <- (string_of_bytes_of_string s1), E, string_of_bytes_of_string. Qed.

Lemma length_bytes_of_string s : length (bytes_of_string s) = String.length s.
Proof.
  unfold bytes_of_string, String.list_byte_of_string. rewrite length_map.
  induction s as [|c s IH]; [done|]. simpl. by rewrite IH.
Qed.

(** Two prefixes of one string of equal length are equal. *)
Lemma str_prefix_unique p q s :
  str_prefix p s = true -> str_prefix q s = true -> str_len p = str_len q -> p = q.
Proof.
  rewrite !str_prefix_spec. unfold str_len. intros [r1 H1] [r2 H2] Hl. apply bytes_of_string_inj.
  rewrite H1 in H2. apply app_inj_1 in H2 as [? _]; [done|].
  rewrite !length_bytes_of_string. lia.
Qed.

Lemma best_fold_spec model l best :
  (best = ""%string \/ str_prefix best model = true) ->
  let r := foldl (best_step model) best l in
  (r = ""%string \/ str_prefix r model = true)
  /\ (r = best \/ r ∈ l.*1) /\ str_len best <= str_len r
  /\ Forall (fun kv : string * ModelPrice =>
       str_prefix kv.1 model = true -> str_len kv.1 <= str_len r) l.
Proof.
  revert best. induction l as [|[k v] l IH]; intros best Hb; csimpl.
  { split_and!; [done|by left|done|constructor]. }
  assert (best_step model best (k, v)
    = if (str_len best <? str_len k) && str_prefix k model then k else best) as -> by done.
  destruct ((str_len best <? str_len k) && str_prefix k model) eqn:E; zbool.
  - destruct (IH k ltac:(by right)) as (Hr & Hin & Hle & Hall). split_and!; [done| |lia|].
    + right. apply elem_of_cons. destruct Hin as [Hin|Hin]; [left|right]; done.
    + constructor; [by intros _|done].
  - destruct (IH best Hb) as (Hr & Hin & Hle & Hall). split_and!; [done| |done|].
    + destruct Hin as [Hin|Hin]; [by left|right; apply elem_of_cons; by right].
    + constructor; [|done]. cbn [fst]. intros Hp. rewrite Hp, andb_true_r in E. zbool. lia.
Qed.

Section Resolution.
Context {R : RangeOrder string ModelPrice}.

Lemma PriceFor_resolves p model : resolves p model (PriceFor p model).
Proof.
  unfold PriceFor. destruct (models p !! model) as [mp|] eqn:E; [by apply resolves_exact|].
  destruct (best_fold_spec model (range (models p)) ""%string ltac:(by left))
    as (Hr & Hin & _ & Hall).
  set (best := foldl _ _ _) in *. clearbody best. rewrite Forall_forall in Hall.
  assert (forall k, prefix_key p model k -> str_len k <= str_len best) as Hmax.
  { intros k ([mp Hk] & _ & Hp). by apply (Hall (k, mp)); [apply elem_of_range|]. }
  destruct (decide (best = ""%string)) as [->|Hne].
  - rewrite bool_decide_true by done. simpl. apply resolves_default; [done|].
    intros k Hk. specialize (Hmax k Hk). destruct Hk as (_ & Hne & _).
    destruct k; [done|]. unfold str_len in Hmax. simpl in Hmax. lia.
  - rewrite bool_decide_false by done. simpl.
    destruct Hin as [?|([k mp] & -> & Hk%elem_of_range)%list_elem_of_fmap]; [done|].
    cbn [fst] in *. rewrite Hk. simpl. destruct Hr as [?|Hr]; [done|].
    eapply resolves_prefix; [done| |done|done]. split_and!; [by eexists|done|done].
Qed.
End Resolution.

Lemma resolves_functional p model r1 r2 : resolves p model r1 -> resolves p model r2 -> r1 = r2.
Proof.
  intros [mp1 H1|k1 mp1 Hn1 Hk1 Hm1 Hmax1|Hn1 Hd1] [mp2 H2|k2 mp2 Hn2 Hk2 Hm2 Hmax2|Hn2 Hd2];
    try congruence; try (exfalso; by eapply Hd1); try (exfalso; by eapply Hd2).
  assert (k1 = k2) as <-; [|congruence].
  destruct Hk1 as (? & ? & Hp1), Hk2 as (? & ? & Hp2).
  apply (str_prefix_unique k1 k2 model Hp1 Hp2).
  apply Z.le_antisymm; [apply Hmax2|apply Hmax1]; by split_and!.
Qed.

(** C26. PriceFor resolves every model by exact key, else by the longest configured key
    that is a prefix of it, else by the default with ok = false; the answer does not
    depend on the order in which the map is traversed. *)
Theorem price_for_resolves p model r :
  resolves p model r <-> forall R : RangeOrder string ModelPrice, PriceFor p model = r.
Proof.
  split.
  - intros Hr R. eapply resolves_functional; [apply PriceFor_resolves|done].
  - intros H. rewrite <- (H (canonical_range _ _)). apply PriceFor_resolves.
Qed.

(** ** Cost *)

Lemma cost_exact mp p c :
  0 <= p -> 0 <= c -> 0 <= InputUSD mp -> 0 <= OutputUSD mp ->
  p * InputUSD mp + c * OutputUSD mp <= int64_max ->
  Cost mp p c = (p * InputUSD mp + c * OutputUSD mp) / MicroUSDPerUSD.
Proof.
  intros. unfold Cost, MicroUSDPerUSD. assert (0 <= p * InputUSD mp) by nia.
  assert (0 <= c * OutputUSD mp) by nia.
  unfold int64_max in *. rewrite (wrap64_id (p * _)), (wrap64_id (c * _)), wrap64_id
    by (unfold in_int64, int64_min, int64_max; lia).
  by apply Z.quot_div_nonneg; lia.
Qed.

Lemma cost_sum_bounds mp p c :
  price_ok mp -> 0 <= p -> 0 <= c ->
  0 <= p * InputUSD mp + c * OutputUSD mp <= (p + c) * 1000000000.
Proof.
  intros [[Hi1 Hi2] [Ho1 Ho2]] Hp Hc.
  pose proof (Z.mul_le_mono_nonneg_l _ _ p Hp Hi2). pose proof (Z.mul_le_mono_nonneg_l _ _ c Hc Ho2).
  pose proof (Z.mul_nonneg_nonneg _ _ Hp Hi1). pose proof (Z.mul_nonneg_nonneg _ _ Hc Ho1). lia.
Qed.

Lemma cost_in_range mp p c :
  price_ok mp -> 0 <= p -> 0 <= c -> p + c <= 9200000000 ->
  Cost mp p c = (p * InputUSD mp + c * OutputUSD mp) / 1000000.
Proof.
  intros Hmp Hp Hc Hs. pose proof (cost_sum_bounds mp p c Hmp Hp Hc).
  destruct Hmp as [[? _] [? _]]. apply cost_exact; try done. unfold int64_max. lia.
Qed.

(** C27. Cost does not overflow for any admitted price as long as a call has at most
    9.2 billion tokens: it is then the exact micro-USD amount rounded down, it is
    non-negative, and it does not decrease when a token count grows. *)
Theorem cost_no_overflow mp p c :
  price_ok mp -> 0 <= p -> 0 <= c -> p + c <= 9200000000 ->
  Cost mp p c = (p * InputUSD mp + c * OutputUSD mp) / 1000000
  /\ 0 <= Cost mp p c <= 9200000000000
  /\ forall p' c', 0 <= p' <= p -> 0 <= c' <= c -> Cost mp p' c' <= Cost mp p c.
Proof.
  intros Hmp Hp Hc Hs. pose proof (cost_sum_bounds mp p c Hmp Hp Hc).
  rewrite (cost_in_range mp p c) by done. split_and!; [done| | |].
  - apply Z.div_pos; lia.
  - apply Z.lt_succ_r, Z.div_lt_upper_bound; lia.
  - intros p' c' Hp' Hc'. rewrite (cost_in_range mp p' c') by (done || lia).
    destruct Hmp as [[? _] [? _]]. apply Z.div_le_mono; [lia|].
    apply Z.add_le_mono; apply Z.mul_le_mono_nonneg_r; lia.
Qed.

Lemma cost_no_overflow_witness :
  let mp := {| InputUSD := 2500000; OutputUSD := 1000000000 |} in
  Cost mp 1000 20 = 22500 /\ 0 <= Cost mp 1000 20 <= 9200000000000.
Proof.
  intros mp. split; [reflexivity|]. apply (cost_no_overflow mp 1000 20).
  - split; vm_compute; split; discriminate.
  - discriminate.
  - discriminate.
  - discriminate.
Defined.

(** ** Estimation *)

(** With the default knob the prompt estimate is exactly the ceiling of the body
    length over four. *)
Theorem estimate_default_exact body :
  Z.of_nat (length body) < 2 ^ 53 ->
  EstimatePromptTokens_default body = (Z.of_nat (length body) + 3) / 4.
Proof.
  intros Hl. unfold EstimatePromptTokens_default, estimateTokens.
  replace (f64_leb defaultCharsPerToken f64_zero) with false by (vm_compute; done).
  destruct (Z.of_nat (length body) <=? 0) eqn:E; zbool.
  - replace (Z.of_nat (length body)) with 0 by lia. done.
  - apply ceil_div_four. lia.
Qed.

Lemma estimate_default_exact_witness :
  EstimatePromptTokens_default (bytes_of_string "hello") = 2.
Proof. rewrite estimate_default_exact; reflexivity. Defined.

(** A positive knob close to zero, which Load admits, makes the quotient exceed the
    int range: the conversion then gives the least int64, a negative estimate. *)
Lemma tiny_chars_per_token_negative :
  let c := S754_finite false 4503599627370496 (-900) in
  (f64_is_nan c || f64_is_inf c || f64_leb c f64_zero) = false
  /\ estimateTokens 1 c = int64_min.
Proof. vm_compute. done. Qed.

(** ** Loading *)

Lemma normalizeDollar_ok v what n : normalizeDollar v what = Ok n -> 0 <= n <= 1000000000.
Proof.
  unfold normalizeDollar. destruct v as [f|]; [|done].
  destruct (toMicroUSDPer1M f) eqn:E; [|done]. intros [= <-]. by apply toMicro_bounds in E.
Qed.

Lemma normalizePrice_ok m what mp : normalizePrice m what = Ok mp -> price_ok mp.
Proof.
  unfold normalizePrice. intros (i & Hi & (o & Ho & [= <-])%rbind_Ok)%rbind_Ok.
  split; by eapply normalizeDollar_ok.
Qed.

Lemma load_models_ok l acc ms :
  map_Forall (fun k mp => k <> ""%string /\ price_ok mp) acc ->
  foldl load_model_step (Ok acc) l = Ok ms ->
  map_Forall (fun k mp => k <> ""%string /\ price_ok mp) ms.
Proof.
  revert acc. induction l as [|[k m] l IH]; intros acc Hacc; cbn [foldl];
    [by intros [= <-]|].
  assert (forall e, foldl load_model_step (Err e) l = Err e) as Herr.
  { intros e. clear. induction l as [|x l IH]; [done|]. simpl. apply IH. }
  assert (load_model_step (Ok acc) (k, m)
    = if bool_decide (k = ""%string) then Err EEmptyModelKey
      else rbind (normalizePrice m ("model " +:+ k)) (fun mp => Ok (<[k := mp]> acc))) as -> by done.
  case_bool_decide as Hk; [by rewrite Herr|].
  destruct (normalizePrice m ("model " +:+ k)) as [mp|e] eqn:E; cbn [rbind]; [|by rewrite Herr].
  apply IH. apply map_Forall_insert_2; [|done]. split; [done|]. by eapply normalizePrice_ok.
Qed.

Lemma load_ok (R : RangeOrder string gov) data p : Load data = Ok p -> table_ok p.
Proof.
  unfold Load. destruct data as [bytes|]; [|done].
  destruct (unmarshal pricingJSON bytes) as [raw|]; [|done].
  intros (? & _ & H)%rbind_Ok. apply rbind_Ok in H as (? & _ & H). apply rbind_Ok in H as (? & _ & H).
  apply rbind_Ok in H as (d & _ & H). apply rbind_Ok in H as (a & Ha & H).
  apply rbind_Ok in H as (c & Hc & H). apply rbind_Ok in H as (dp & Hdp & H).
  apply rbind_Ok in H as (ms & Hms & [= <-]). unfold table_ok. simpl.
  split; [by eapply normalizePrice_ok|]. split; [|split].
  - eapply load_models_ok; [|done]. apply map_Forall_empty.
  - destruct (g_int <$> _) as [n|]; [|by injection Ha as <-].
    destruct (n <? 0) eqn:E; [done|]. injection Ha as <-. by zbool.
  - destruct (g_float <$> _) as [f|]; [|by injection Hc as <-; vm_compute].
    destruct (_ || _) eqn:E in Hc; [done|]. injection Hc as <-.
    apply orb_false_iff in E as [[? ?]%orb_false_iff ?]. done.
Qed.

(** C28. A table Load returns is valid: every price and the default lie between 0 and
    1000 USD per million tokens, no key is empty, the assumed completion is not
    negative and the chars-per-token knob is a positive number; so the cost of any
    call of at most 9.2 billion tokens at any of its prices is exact. *)
Theorem load_valid (R : RangeOrder string gov) (RM : RangeOrder string ModelPrice) data p :
  Load data = Ok p ->
  table_ok p
  /\ forall model pt ct, 0 <= pt -> 0 <= ct -> pt + ct <= 9200000000 ->
       let mp := (PriceFor p model).1 in
       Cost mp pt ct = (pt * InputUSD mp + ct * OutputUSD mp) / 1000000.
Proof.
  intros Hp%load_ok. split; [done|]. intros model pt ct Hpt Hct Hs.
  apply cost_in_range; try done. destruct Hp as (Hd & Hm & _).
  destruct (PriceFor_resolves p model) as [mp Hmp|k mp _ _ Hmp _|_ _];
    [by apply Hm in Hmp as [_ ?]..|done].
Qed.

Lemma load_valid_witness :
  let doc := text "{'version':1,'currency':'USD','per_million_tokens':true,'default':{'input_usd_per_1m':2.5,'output_usd_per_1m':10},'models':{'gpt-4':{'input_usd_per_1m':30,'output_usd_per_1m':60}}}" in
  match @Load (canonical_range _ _) (Some doc) with
  | Ok p => table_ok p /\ Cost (@PriceFor (canonical_range _ _) p "gpt-4-turbo"%string).1 1000 10 = 30600
  | Err _ => False
  end.
Proof.
  intros doc. destruct (@Load (canonical_range _ _) (Some doc)) as [p|e] eqn:E.
  - destruct (load_valid (canonical_range _ _) (canonical_range _ _) (Some doc) p E) as [Ht _].
    split; [exact Ht|]. vm_compute in E. injection E as <-. vm_compute. reflexivity.
  - vm_compute in E. discriminate E.
Defined.
