(* ===== verification/Fetcher.v ===== *)
(** * pkg/pricing/fetcher.go: the catalog client

    The HTTP exchange is an argument (what the server or the transport answers);
    the request, the classification of the answer, and the parsing of the catalog
    and of its price strings are the code's. *)

From stdpp Require pretty.
From S2P Require Import Prelude GoFloat GoJson GoStrings Pricing.

#[local] Open Scope result_scope.

(** ** Configuration *)

Definition defaultEndpoint : string := "https://openrouter.ai/api/v1/models".
Definition defaultUserAgent : string := "finops-proxy/1.0 (openrouter-fetcher)".

Record Config := {
  PricingPath : string;
  Endpoint : string;
  APIKey : string;
  UserAgent : string;
  RefreshInterval : Z;
  StartupTimeout : Z;
  HTTPTimeout : Z;
  BackoffBase : Z;
  BackoffMax : Z;
  StaleAfter : Z;
  HardFailOnEmpty : bool;
  MaxBodyBytes : Z
}.

Definition eight_mib : Z := Z.shiftl 8 20.

Definition DefaultConfig : Config :=
  {| PricingPath := "config/pricing.json"; Endpoint := defaultEndpoint; APIKey := "";
     UserAgent := defaultUserAgent; RefreshInterval := 6 * Hour; StartupTimeout := 3 * Second;
     HTTPTimeout := 30 * Second; BackoffBase := 10 * Second; BackoffMax := 5 * Minute;
     StaleAfter := 24 * Hour; HardFailOnEmpty := true; MaxBodyBytes := eight_mib |}.

Definition str_empty (s : string) : bool := bool_decide (s = ""%string).
Definition or_default (z d : Z) : Z := if z <=? 0 then d else z.

Definition normalizeConfig (c : Config) : Config :=
  {| PricingPath := if str_empty (PricingPath c) then "config/pricing.json" else PricingPath c;
     Endpoint := Endpoint c; APIKey := APIKey c;
     UserAgent := if str_empty (UserAgent c) then defaultUserAgent else UserAgent c;
     RefreshInterval := RefreshInterval c;
     StartupTimeout := or_default (StartupTimeout c) (3 * Second);
     HTTPTimeout := or_default (HTTPTimeout c) (30 * Second);
     BackoffBase := or_default (BackoffBase c) (10 * Second);
     BackoffMax := or_default (BackoffMax c) (5 * Minute);
     StaleAfter := or_default (StaleAfter c) (24 * Hour);
     HardFailOnEmpty := HardFailOnEmpty c;
     MaxBodyBytes := or_default (MaxBodyBytes c) eight_mib |}.

Record Fetcher := { fcfg : Config }.

Definition NewFetcher (c : Config) : option Fetcher :=
  if str_empty (Endpoint c) then None else Some {| fcfg := normalizeConfig c |}.

(** ** Price strings *)

(** A prefix of digits moved from the second component to the first. *)
Definition take_sign (s : list byte) : list byte * list byte :=
  match s with
  | c :: r => if byte_eqb c "+" || byte_eqb c "-" then ([c], r) else ([], s)
  | [] => ([], s)
  end.

(** The exponent part, empty when there are no exponent digits. *)
Definition take_exponent (s : list byte) : list byte * list byte :=
  match s with
  | c :: r =>
      if byte_eqb c "e" || byte_eqb c "E" then
        let '(sg, r1) := take_sign r in
        match span is_digit r1 with
        | ([], _) => ([], s)
        | (d, r2) => (c :: sg ++ d, r2)
        end
      else ([], s)
  | [] => ([], s)
  end.

Definition splitFloatPrefix (s : list byte) : option (float64 * list byte) :=
  let '(sg, s1) := take_sign s in
  let '(d1, s2) := span is_digit s1 in
  let '(frac, s3) :=
    match s2 with
    | c :: r =>
        if byte_eqb c "." then
          let '(d2, r2) := span is_digit r in
          match d1, d2 with [], [] => ([], s2) | _, _ => (c :: d2, r2) end
        else ([], s2)
    | [] => ([], s2)
    end in
  match d1 ++ frac with
  | [] => None
  | _ =>
      let '(ex, rest) := take_exponent s3 in
      match parse_float (sg ++ d1 ++ frac ++ ex) with
      | Some v => Some (v, rest)
      | None => None
      end
  end.

Definition hasPerMillionScale (rest : list byte) : bool :=
  let rest := to_lower (trim_space (trim_prefix (bytes_of_string "/") (trim_space rest))) in
  existsb (fun p => has_prefix (bytes_of_string p) rest)
    ["1m"; "million"; "mtokens"; "mtok"; "m"]%string.

Definition parsePriceString (s : list byte) : option float64 :=
  let s := trim_space s in
  if bytes_eqb s [] then None
  else if existsb (fun p => bytes_eqb s (bytes_of_string p))
            ["-1"; "per_request"; "per_request_limits"]%string then None
  else
    let s := trim_space (remove_byte "," (trim_prefix (bytes_of_string "$") s)) in
    match splitFloatPrefix s with
    | None => None
    | Some (v, rest) => if hasPerMillionScale rest then Some v else Some (f64_mul v f64_million)
    end.

Definition modelPrice (promptStr completionStr : list byte) : option ModelPrice :=
  match parsePriceString promptStr with
  | None => None
  | Some pUSD =>
      match parsePriceString completionStr with
      | None => None
      | Some cUSD =>
          match toMicroUSDPer1M pUSD with
          | None => None
          | Some pUS =>
              match toMicroUSDPer1M cUSD with
              | None => None
              | Some cUS => Some {| InputUSD := pUS; OutputUSD := cUS |}
              end
          end
      end
  end.

(** ** The exchange *)

(** The request the fetcher sends. *)
Record Request := {
  rq_url : string;
  rq_accept : string;
  rq_user_agent : option string;
  rq_authorization : option string
}.

(** What http.NewRequestWithContext and Client.Do give: no request (malformed
    endpoint), no response, or a response whose body yields [bytes] and then ends,
    with an error when [broken]. *)
Inductive exchange :=
  | BadRequest
  | NoResponse
  | Response (status : Z) (bytes : list byte) (broken : bool).

Inductive cause := CauseRequest | CauseTransport | CauseBody | CauseTooLarge | CauseJSON.

Inductive fetch_error :=
  | ENoEndpoint
  | ERefresh (endpoint : string) (status : Z) (snippet : list byte) (err : option cause)
  | EEmptyTable
  | ENoFetcher
  | EHook (msg : string).

(** RefreshError.Error, [cause_text] being what %v makes of the underlying error; None is a
    nil receiver. *)
Definition RefreshError_Error (cause_text : option cause -> string)
    (e : option (string * Z * list byte * option cause)) : string :=
  match e with
  | None => "pricing: nil refresh error"
  | Some (endpoint, status, snippet, err) =>
      let head := "pricing: refresh " +:+ endpoint +:+ ": " in
      if negb (status =? 0) && negb (bytes_eqb snippet []) then
        head +:+ "http " +:+ pretty.pretty status +:+ ": " +:+ string_of_bytes snippet
      else if negb (status =? 0) then head +:+ "http " +:+ pretty.pretty status
      else head +:+ cause_text err
  end.
Definition RefreshError_Unwrap (e : string * Z * list byte * option cause) : option cause := e.2.

(** io.LimitReader / io.ReadAll: at most [n] bytes; the reader's error is seen only
    when the limit is not reached first. *)
Definition read_limited (n : Z) (bytes : list byte) (broken : bool) : list byte * bool :=
  if n <=? Z.of_nat (length bytes) then (take (Z.to_nat n) bytes, false) else (bytes, broken).

Definition readSnippet (bytes : list byte) (broken : bool) (n : Z) : list byte :=
  trim_space (read_limited n bytes broken).1.

Definition snippetFromBody (b : list byte) : list byte := trim_space (take 512 b).

Definition readCappedBody (bytes : list byte) (broken : bool) (max : Z) : result cause (list byte) :=
  let max := if max <=? 0 then eight_mib else max in
  let '(body, failed) := read_limited (wrap64 (max + 1)) bytes broken in
  if failed then Err CauseBody
  else if max <? Z.of_nat (length body) then Err CauseTooLarge
  else Ok body.

Definition modelsResponse : ty :=
  TStruct [("data"%string,
    TSlice (TStruct [("id"%string, TString);
      ("pricing"%string, TStruct [("prompt"%string, TString); ("completion"%string, TString)])]))].

Inductive SkippedModel :=
  | SkippedEmptyID
  | SkippedUnpriceable (id prompt completion : list byte).

Definition catalog_step (acc : gmap string ModelPrice * list SkippedModel) (m : gov) :
    gmap string ModelPrice * list SkippedModel :=
  let '(models, skipped) := acc in
  let id := g_str (g_field 0 m) in
  let prompt := g_str (g_field 0 (g_field 1 m)) in
  let completion := g_str (g_field 1 (g_field 1 m)) in
  if bytes_eqb id [] then (models, skipped ++ [SkippedEmptyID])
  else
    match modelPrice prompt completion with
    | None => (models, skipped ++ [SkippedUnpriceable id prompt completion])
    | Some mp => (<[string_of_bytes id := mp]> models, skipped)
    end.

Definition catalog (parsed : gov) : gmap string ModelPrice * list SkippedModel :=
  foldl catalog_step (∅, []) (g_elems (g_field 0 parsed)).

Definition request (f : Fetcher) (endpoint : string) : Request :=
  {| rq_url := endpoint; rq_accept := "application/json";
     rq_user_agent := if str_empty (UserAgent (fcfg f)) then None else Some (UserAgent (fcfg f));
     rq_authorization :=
       if str_empty (APIKey (fcfg f)) then None else Some ("Bearer " +:+ APIKey (fcfg f)) |}.

Definition fetchModels (f : Fetcher) (endpoint : string) (server : Request -> exchange) :
    result fetch_error (gmap string ModelPrice * list SkippedModel) :=
  let endpoint := if str_empty endpoint then Endpoint (fcfg f) else endpoint in
  if str_empty endpoint then Err ENoEndpoint
  else
    match server (request f endpoint) with
    | BadRequest => Err (ERefresh endpoint 0 [] (Some CauseRequest))
    | NoResponse => Err (ERefresh endpoint 0 [] (Some CauseTransport))
    | Response status bytes broken =>
        if (status <? 200) || (299 <? status) then
          Err (ERefresh endpoint status (readSnippet bytes broken 512) None)
        else
          match readCappedBody bytes broken (MaxBodyBytes (fcfg f)) with
          | Err e => Err (ERefresh endpoint status [] (Some e))
          | Ok body =>
              match unmarshal modelsResponse body with
              | None => Err (ERefresh endpoint status (snippetFromBody body) (Some CauseJSON))
              | Some parsed => Ok (catalog parsed)
              end
          end
    end.

Definition FetchModels (f : Fetcher) (endpoint : string) (server : Request -> exchange) :
    result fetch_error (gmap string ModelPrice) :=
  let* r := fetchModels f endpoint server in Ok r.1.

Record FetchResult := {
  fr_Models : gmap string ModelPrice;
  fr_Default : ModelPrice;
  fr_Skipped : list SkippedModel;
  fr_Updated : Z
}.

Definition Fetch (f : Fetcher) (server : Request -> exchange) (now : Z) :
    result fetch_error FetchResult :=
  let* r := fetchModels f (Endpoint (fcfg f)) server in
  Ok {| fr_Models := r.1; fr_Default := zero_price; fr_Skipped := r.2; fr_Updated := now |}.

Example parse_price_examples :
  modelPrice (bytes_of_string "0.0000025") (bytes_of_string "$10/M tokens")
    = Some {| InputUSD := 2500000; OutputUSD := 10000000 |}
  /\ modelPrice (bytes_of_string " $1,000 / 1M ") (bytes_of_string "0")
    = Some {| InputUSD := 1000000000; OutputUSD := 0 |}
  /\ parsePriceString (bytes_of_string "-1") = None
  /\ parsePriceString (bytes_of_string "free") = None
  /\ modelPrice (bytes_of_string "-0.5") (bytes_of_string "1e-6") = None.
Proof. vm_compute. done. Qed.

(** ** Price strings *)

(** The pieces of a numeric prefix and what follows them. *)
Lemma take_sign_app s : (take_sign s).1 ++ (take_sign s).2 = s.
Proof. destruct s as [|c r]; [done|]. simpl. by destruct (_ || _). Qed.

Lemma take_exponent_app s : (take_exponent s).1 ++ (take_exponent s).2 = s.
Proof.
  destruct s as [|c r]; [done|]. simpl. destruct (_ || _); [|done].
  pose proof (take_sign_app r) as Hs. destruct (take_sign r) as [sg r1]. simpl in Hs.
  pose proof (span_app is_digit r1) as Hd. destruct (span is_digit r1) as [[|d ds] r2]; [done|].
  destruct Hd as (-> & _). simpl. rewrite <- Hs. by rewrite <- app_assoc.
Qed.

Lemma splitFloatPrefix_app s v rest :
  splitFloatPrefix s = Some (v, rest) -> exists p, s = p ++ rest /\ parse_float p = Some v.
Proof.
  unfold splitFloatPrefix. pose proof (take_sign_app s) as Hs.
  destruct (take_sign s) as [sg s1]. simpl in Hs.
  pose proof (span_app is_digit s1) as Hd. destruct (span is_digit s1) as [d1 s2].
  destruct Hd as (-> & _).
  set (f := match s2 with [] => _ | _ => _ end).
  assert (f.1 ++ f.2 = s2) as Hf.
  { unfold f. destruct s2 as [|c r]; [done|]. destruct (byte_eqb c "."); [|done].
    pose proof (span_app is_digit r) as Hd. destruct (span is_digit r) as [d2 r2].
    destruct Hd as (-> & _). by destruct d1, d2. }
  destruct f as [frac s3]. simpl in Hf.
  destruct (d1 ++ frac); [done|].
  pose proof (take_exponent_app s3) as He. destruct (take_exponent s3) as [ex r]. simpl in He.
  destruct (parse_float _) as [v'|] eqn:Ep; [|done]. intros [= -> ->].
  exists (sg ++ d1 ++ frac ++ ex). split; [|done].
  rewrite <- Hs, <- Hf, <- He. by rewrite <- !app_assoc.
Qed.

Lemma modelPrice_ok a b mp : modelPrice a b = Some mp -> price_ok mp.
Proof.
  unfold modelPrice. destruct (parsePriceString a) as [p|]; [|done].
  destruct (parsePriceString b) as [c|]; [|done].
  destruct (toMicroUSDPer1M p) as [pu|] eqn:Ep; [|done].
  destruct (toMicroUSDPer1M c) as [cu|] eqn:Ec; [|done]. intros [= <-].
  apply toMicro_bounds in Ep, Ec. by split.
Qed.

(** ** The catalog *)

(** What one entry says about the price of a model id. *)
Definition entry_price (id : string) (m : gov) : option ModelPrice :=
  if bytes_eqb (g_str (g_field 0 m)) (bytes_of_string id)
  then modelPrice (g_str (g_field 0 (g_field 1 m))) (g_str (g_field 1 (g_field 1 m)))
  else None.

Lemma catalog_fold_lookup l models skipped id :
  id <> ""%string ->
  (foldl catalog_step (models, skipped) l).1 !! id
  = match last (omap (entry_price id) l) with Some mp => Some mp | None => models !! id end.
Proof.
  intros Hid. revert models skipped. induction l as [|m l IH]; intros models skipped; [done|].
  cbn [foldl]. unfold catalog_step at 2. unfold entry_price.
  set (mid := g_str (g_field 0 m)). simpl omap. fold mid.
  destruct (bytes_eqb mid []) eqn:E0.
  - apply bool_decide_eq_true in E0. rewrite IH, E0.
    destruct (bytes_eqb [] (bytes_of_string id)) eqn:E1; [|done].
    apply bool_decide_eq_true in E1. exfalso. apply Hid.
    by rewrite <- (string_of_bytes_of_string id), <- E1.
  - destruct (modelPrice _ _) as [mp|] eqn:Em.
    + rewrite IH. fold (entry_price id). destruct (bytes_eqb mid (bytes_of_string id)) eqn:E1.
      * apply bool_decide_eq_true in E1. rewrite E1, string_of_bytes_of_string, lookup_insert_eq.
        rewrite last_cons. by destruct (last _).
      * rewrite lookup_insert_ne; [done|]. intros <-. revert E1.
        rewrite bytes_of_string_of_bytes. unfold bytes_eqb. by rewrite bool_decide_true.
    + rewrite IH. fold (entry_price id). by destruct (bytes_eqb mid (bytes_of_string id)).
Qed.

Lemma catalog_fold_ok l acc :
  map_Forall (fun k mp => k <> ""%string /\ price_ok mp) acc.1 ->
  map_Forall (fun k mp => k <> ""%string /\ price_ok mp) (foldl catalog_step acc l).1.
Proof.
  revert acc. induction l as [|m l IH]; intros [models skipped] Hacc; [done|].
  cbn [foldl]. apply IH. unfold catalog_step.
  destruct (bytes_eqb _ []) eqn:E; [done|]. destruct (modelPrice _ _) as [mp|] eqn:Em; [|done].
  apply map_Forall_insert_2; [|done]. split; [|by eapply modelPrice_ok].
  intros Hk. apply bool_decide_eq_false in E. apply E.
  by rewrite <- (bytes_of_string_of_bytes (g_str _)), Hk.
Qed.

Lemma catalog_ok parsed : map_Forall (fun k mp => k <> ""%string /\ price_ok mp) (catalog parsed).1.
Proof. apply catalog_fold_ok, map_Forall_empty. Qed.

(** The parsed catalog maps each model id to the price of its last priceable entry
    and holds nothing else; every price in it lies between 0 and 1000 USD per
    million tokens - negative, non-numeric, infinite or absurd prices never enter. *)
Theorem catalog_exact parsed :
  (forall id, id <> ""%string ->
     (catalog parsed).1 !! id = last (omap (entry_price id) (g_elems (g_field 0 parsed))))
  /\ map_Forall (fun k mp => k <> ""%string /\ price_ok mp) (catalog parsed).1.
Proof.
  split; [|apply catalog_ok]. intros id Hid. unfold catalog.
  rewrite catalog_fold_lookup, lookup_empty by done. by destruct (last _).
Qed.

(** A fetch never yields a table from a failed exchange: it succeeds exactly on a
    2xx answer whose whole body fits the cap and decodes, and every failure names
    the status it saw (0 when there was no response). *)
Theorem fetch_outcomes f endpoint server :
  let ep := if str_empty endpoint then Endpoint (fcfg f) else endpoint in
  match FetchModels f endpoint server with
  | Ok models =>
      exists status bytes broken body parsed,
        server (request f ep) = Response status bytes broken /\ 200 <= status <= 299
        /\ readCappedBody bytes broken (MaxBodyBytes (fcfg f)) = Ok body
        /\ unmarshal modelsResponse body = Some parsed /\ models = (catalog parsed).1
  | Err (ERefresh e status _ _) =>
      e = ep /\ status = match server (request f ep) with Response s _ _ => s | _ => 0 end
  | Err e => e = ENoEndpoint /\ ep = ""%string
  end.
Proof.
  cbn zeta. unfold FetchModels, fetchModels. set (ep := if str_empty endpoint then _ else _).
  destruct (str_empty ep) eqn:E; [by apply bool_decide_eq_true in E|].
  destruct (server (request f ep)) as [| |status bytes broken] eqn:Es; cbn [rbind]; [done|done|].
  destruct ((status <? 200) || (299 <? status)) eqn:Est; cbn [rbind]; [done|]. zbool.
  destruct (readCappedBody _ _ _) as [body|e] eqn:Eb; cbn [rbind]; [|done].
  destruct (unmarshal modelsResponse body) as [parsed|] eqn:Eu; cbn [rbind]; [|done].
  exists status, bytes, broken, body, parsed. split_and!; done || lia.
Qed.

(** A body within the cap is read whole; a larger one is refused. *)
Lemma readCappedBody_cap bytes max :
  0 < max < int64_max ->
  readCappedBody bytes false max
  = if max <? Z.of_nat (length bytes) then Err CauseTooLarge else Ok bytes.
Proof.
  intros Hmax. unfold readCappedBody, read_limited. rewrite (proj2 (Z.leb_gt max 0)) by lia.
  rewrite wrap64_id by (unfold in_int64, int64_min, int64_max in *; lia).
  zcase (max + 1 <=? Z.of_nat (length bytes)).
  - rewrite length_take. rewrite !(proj2 (Z.ltb_lt _ _)) by lia. done.
  - rewrite (proj2 (Z.ltb_ge _ _)) by lia. done.
Qed.

(** The text of an error with a status never names its cause: a refused 200 answer whose
    body is too large reads as "http 200". *)
Lemma error_hides_cause text1 text2 endpoint status snippet e1 e2 :
  status <> 0 ->
  RefreshError_Error text1 (Some (endpoint, status, snippet, e1))
  = RefreshError_Error text2 (Some (endpoint, status, snippet, e2)).
Proof. intros Hs. unfold RefreshError_Error. apply Z.eqb_neq in Hs. rewrite Hs. by destruct (bytes_eqb _ _). Qed.

Example too_large_text :
  RefreshError_Error (fun _ => "response body exceeds cap"%string) (Some ("http://c"%string, 200, [], Some CauseTooLarge))
  = "pricing: refresh http://c: http 200"%string.
Proof. vm_compute. reflexivity. Qed.
