(* ===== verification/Registry.v ===== *)
(** * pkg/pricing/registry.go: the refreshing price registry

    A refresh has two phases: it prepares an outcome (a complete table or an error)
    without the lock, then commits it under the lock; other writers may run in
    between.  The phases are separate definitions, [refresh] is their composition,
    and [reg_step] interleaves them with the other writers. *)

From S2P Require Import Prelude GoFloat GoJson Pricing Fetcher.

Inductive SourceKind := SourceStatic | SourceLive | SourceStale.
#[export] Instance SourceKind_eq_dec : EqDecision SourceKind.
Proof. solve_decision. Defined.

(** The persistence hook: it turns the fetched models into a table, or fails. *)
Definition hook : Type := gmap string ModelPrice -> result fetch_error Pricing.

Record Registry := {
  cur : Pricing;
  base : Pricing;
  fetcher : option Fetcher;
  cfg : Config;
  onSync : option hook;
  kind : SourceKind;
  lastSync : Z;
  lastErr : option fetch_error;
  fails : Z
}.

Definition NewRegistry (b : Pricing) (f : option Fetcher) (c : Config) : Registry :=
  {| cur := b; base := b; fetcher := f; cfg := normalizeConfig c; onSync := None;
     kind := SourceStatic; lastSync := zero_time; lastErr := None; fails := 0 |}.

(** ** Readers *)

Definition LastRefresh (r : Registry) : Z * option fetch_error := (lastSync r, lastErr r).
Definition source_kind (r : Registry) : SourceKind := kind r.
Definition Snapshot (r : Registry) : Pricing := cur r.
Definition bootstrapped (r : Registry) : bool := negb (time_is_zero (lastSync r)).

(** The four read paths delegate to the current table. *)
Definition Registry_PriceFor {R : RangeOrder string ModelPrice} (r : Registry) := PriceFor (cur r).
Definition Registry_EstimatePromptTokens (r : Registry) := EstimatePromptTokens (cur r).
Definition Registry_SavedCost {R : RangeOrder string ModelPrice} (r : Registry) := SavedCost (cur r).
Definition Registry_AssumedCompletionTokens (r : Registry) := AssumedCompletionTokens (cur r).

#[export] Instance Registry_source {R : RangeOrder string ModelPrice} : PriceSource Registry :=
  {| ps_PriceFor := Registry_PriceFor;
     ps_EstimatePromptTokens := Registry_EstimatePromptTokens;
     ps_SavedCost := Registry_SavedCost;
     ps_AssumedCompletionTokens := Registry_AssumedCompletionTokens |}.

(** ** Writers *)

Definition SetOnSync (r : Registry) (fn : option hook) : Registry :=
  {| cur := cur r; base := base r; fetcher := fetcher r; cfg := cfg r; onSync := fn;
     kind := kind r; lastSync := lastSync r; lastErr := lastErr r; fails := fails r |}.

Definition Replace (r : Registry) (tbl : option Pricing) : Registry :=
  {| cur := default (cur r) tbl; base := base r; fetcher := fetcher r; cfg := cfg r;
     onSync := onSync r; kind := kind r; lastSync := lastSync r; lastErr := lastErr r;
     fails := fails r |}.

Definition ReplaceLive (r : Registry) (tbl : option Pricing) (sync : Z) : Registry :=
  {| cur := default (cur r) tbl; base := base r; fetcher := fetcher r; cfg := cfg r;
     onSync := onSync r; kind := SourceLive; lastSync := sync; lastErr := None; fails := 0 |}.

(** refreshFailed, and the failure of a registry without a fetcher, which leaves
    the kind alone. *)
Definition refreshFailed (r : Registry) (e : fetch_error) : Registry :=
  {| cur := cur r; base := base r; fetcher := fetcher r; cfg := cfg r; onSync := onSync r;
     kind := match kind r with SourceStatic => SourceStatic | _ => SourceStale end;
     lastSync := lastSync r; lastErr := Some e; fails := fails r + 1 |}.

Definition refresh_no_fetcher (r : Registry) : Registry :=
  {| cur := cur r; base := base r; fetcher := fetcher r; cfg := cfg r; onSync := onSync r;
     kind := kind r; lastSync := lastSync r; lastErr := Some ENoFetcher; fails := fails r + 1 |}.

(** A configuration: the registry and the outcome of the refresh in flight. *)
Abbreviation config := (Registry * option (result fetch_error Pricing))%type.

Section Refresh.
Context {R : RangeOrder string ModelPrice}.

Definition copy_into (dst src : gmap string ModelPrice) : gmap string ModelPrice :=
  foldl (fun m kv => <[kv.1 := kv.2]> m) dst (range src).

Definition merge (r : Registry) (ms : gmap string ModelPrice) : Pricing :=
  {| assumedCompletionTokens := assumedCompletionTokens (base r);
     PromptEstimationCharsPerToken := PromptEstimationCharsPerToken (base r);
     models := copy_into (copy_into ∅ (models (base r))) ms;
     def := def (base r) |}.

(** The part of refresh before the lock: fetch, refuse an empty table, merge. *)
Definition prepare (r : Registry) (f : Fetcher) (server : Request -> exchange) :
    result fetch_error Pricing :=
  match FetchModels f (Endpoint (cfg r)) server with
  | Err e => Err e
  | Ok ms =>
      if Z.of_nat (size ms) =? 0 then Err EEmptyTable
      else
        match onSync r with
        | Some fn => fn ms
        | None => Ok (merge r ms)
        end
  end.

(** The part under the lock. *)
Definition commit (r : Registry) (o : result fetch_error Pricing) (now : Z) :
    Registry * option fetch_error :=
  match o with
  | Err e => (refreshFailed r e, Some e)
  | Ok tbl =>
      ({| cur := tbl; base := base r; fetcher := fetcher r; cfg := cfg r; onSync := onSync r;
          kind := SourceLive; lastSync := now; lastErr := None; fails := 0 |}, None)
  end.

Definition refresh (r : Registry) (server : Request -> exchange) (now : Z) :
    Registry * option fetch_error :=
  match fetcher r with
  | None => (refresh_no_fetcher r, Some ENoFetcher)
  | Some f => commit r (prepare r f server) now
  end.

Definition RefreshNow := refresh.

(** Bootstrap: one refresh whose error is only logged. *)
Definition Bootstrap (r : Registry) (server : Request -> exchange) (now : Z) : Registry :=
  match fetcher r with
  | None => r
  | Some _ => (refresh r server now).1
  end.

(** The line a failed background refresh logs. *)
Inductive log_line :=
  | LogStale (fails lastSync : Z)
  | LogKeeping (fails lastSync : Z)
  | LogServingStatic (fails : Z).

Definition logRefreshFailure (r : Registry) (now : Z) : log_line :=
  if negb (time_is_zero (lastSync r)) && (StaleAfter (cfg r) <? time_sub now (lastSync r))
  then LogStale (fails r) (lastSync r)
  else if negb (time_is_zero (lastSync r)) then LogKeeping (fails r) (lastSync r)
  else LogServingStatic (fails r).

(** for i := 1; i < fails && backoff < BackoffMax; i++ { backoff *= 2 }. *)
Fixpoint backoff_loop (turns : nat) (max backoff : Z) : Z :=
  match turns with
  | O => backoff
  | S turns' =>
      if backoff <? max then backoff_loop turns' max (wrap64 (backoff * 2)) else backoff
  end.

Definition nextDelay (r : Registry) : Z :=
  if fails r <=? 0 then RefreshInterval (cfg r)
  else
    let b := backoff_loop (Z.to_nat (fails r - 1)) (BackoffMax (cfg r)) (BackoffBase (cfg r)) in
    let b := if BackoffMax (cfg r) <? b then BackoffMax (cfg r) else b in
    if b <? RefreshInterval (cfg r) then b else RefreshInterval (cfg r).

(** The background loop on the exchanges of its successive refreshes, each with the
    clock reading after it: the delays it waits for. *)
Definition Start_enabled (r : Registry) : bool :=
  match fetcher r with None => false | Some _ => 0 <? RefreshInterval (cfg r) end.

Fixpoint loop_turns (r : Registry) (ticks : list ((Request -> exchange) * Z)) :
    Registry * list Z :=
  match ticks with
  | [] => (r, [nextDelay r])
  | (server, now) :: ticks' =>
      let d := nextDelay r in
      let '(r', ds) := loop_turns (refresh r server now).1 ticks' in (r', d :: ds)
  end.

Definition loop (r : Registry) (first : (Request -> exchange) * Z)
    (ticks : list ((Request -> exchange) * Z)) : Registry * list Z :=
  if bootstrapped r then loop_turns r ticks
  else loop_turns (refresh r first.1 first.2).1 ticks.

(** ** The interleavings of the writers

    A configuration is the registry and the outcome of the refresh in flight, if
    any (refreshMu lets at most one be).  [ext] says which tables come from outside:
    those a hook returns and those handed to Replace and ReplaceLive. *)

Definition from_ext (ext : Pricing -> Prop) (tbl : option Pricing) : Prop :=
  match tbl with Some t => ext t | None => True end.
Definition hook_ext (ext : Pricing -> Prop) (fn : option hook) : Prop :=
  match fn with Some f => forall ms t, f ms = Ok t -> ext t | None => True end.

Inductive reg_step (ext : Pricing -> Prop) : config -> config -> Prop :=
  | step_prepare r f server :
      fetcher r = Some f -> reg_step ext (r, None) (r, Some (prepare r f server))
  | step_commit r o now : reg_step ext (r, Some o) ((commit r o now).1, None)
  | step_no_fetcher r : fetcher r = None -> reg_step ext (r, None) (refresh_no_fetcher r, None)
  | step_replace r tbl o : from_ext ext tbl -> reg_step ext (r, o) (Replace r tbl, o)
  | step_replace_live r tbl sync o :
      from_ext ext tbl -> reg_step ext (r, o) (ReplaceLive r tbl sync, o)
  | step_set_hook r fn o : hook_ext ext fn -> reg_step ext (r, o) (SetOnSync r fn, o).
End Refresh.

(** ** The merge *)

Section Proofs.
Context {R : RangeOrder string ModelPrice}.

Lemma copy_into_lookup dst src k :
  copy_into dst src !! k = match src !! k with Some v => Some v | None => dst !! k end.
Proof.
  unfold copy_into.
  assert (forall (l : list (string * ModelPrice)) (dst : gmap string ModelPrice), NoDup l.*1 ->
    foldl (fun m (kv : string * ModelPrice) => <[kv.1 := kv.2]> m) dst l !! k
    = match list_to_map (M := gmap string ModelPrice) l !! k with
      | Some v => Some v | None => dst !! k end) as Hfold.
  { clear. induction l as [|[k' v'] l IH]; intros dst Hnd; [done|]. csimpl in *.
    apply NoDup_cons in Hnd as [Hk Hnd]. rewrite IH by done.
    destruct (decide (k = k')) as [->|Hne].
    - rewrite not_elem_of_list_to_map_1 by done. by rewrite !lookup_insert_eq.
    - by rewrite !lookup_insert_ne by done. }
  rewrite Hfold by apply NoDup_fst_range.
  assert (list_to_map (M := gmap string ModelPrice) (range src) = src) as ->; [|done].
  rewrite (list_to_map_proper (range src) (map_to_list src)).
  - apply list_to_map_to_list.
  - apply NoDup_fst_range.
  - apply range_perm.
Qed.

Lemma merge_lookup r ms k :
  models (merge r ms) !! k
  = match ms !! k with Some v => Some v | None => models (base r) !! k end.
Proof.
  unfold merge. cbn [models]. rewrite !copy_into_lookup, lookup_empty.
  destruct (ms !! k); [done|]. by destruct (models (base r) !! k).
Qed.

Lemma merge_ok r ms :
  table_ok (base r) -> map_Forall (fun k mp => k <> ""%string /\ price_ok mp) ms ->
  table_ok (merge r ms).
Proof.
  intros (Hd & Hm & Ha & Hc) Hms. split; [done|]. split; [|done].
  intros k mp. rewrite merge_lookup. destruct (ms !! k) as [v|] eqn:E.
  - intros [= <-]. by apply Hms in E.
  - intros Hk. by apply Hm in Hk.
Qed.

(** The merge overlays the fetched prices on the static table: a fetched id resolves
    to its fetched price, a model the fetch does not name resolves exactly as before
    when the static table has it, the default and the estimation knobs stay those of
    the static table, and the static table itself is unchanged. *)
Theorem merge_overlays r ms model :
  (forall mp, ms !! model = Some mp -> PriceFor (merge r ms) model = (mp, true))
  /\ (forall mp, ms !! model = None -> models (base r) !! model = Some mp ->
        PriceFor (merge r ms) model = PriceFor (base r) model)
  /\ def (merge r ms) = def (base r)
  /\ (forall body, EstimatePromptTokens (merge r ms) body = EstimatePromptTokens (base r) body)
  /\ AssumedCompletionTokens (merge r ms) = AssumedCompletionTokens (base r).
Proof.
  split_and!; [..|done|done|done].
  - intros mp Hmp. unfold PriceFor. by rewrite merge_lookup, Hmp.
  - intros mp Hnone Hmp. unfold PriceFor. by rewrite merge_lookup, Hnone, Hmp.
Qed.

(** ** One refresh *)

(** C25. A refresh either installs a complete table and marks it live, or leaves the
    serving table, the static seed and the time of the last success exactly as they
    were: it records the error, counts one more failure, and a registry that has
    served a network table becomes stale, never static again. *)
Theorem refresh_all_or_nothing r server now :
  let '(r', e) := refresh r server now in
  match e with
  | None => kind r' = SourceLive /\ lastSync r' = now /\ lastErr r' = None /\ fails r' = 0
      /\ base r' = base r
      /\ exists f ms, fetcher r = Some f /\ FetchModels f (Endpoint (cfg r)) server = Ok ms
           /\ ms <> ∅
           /\ match onSync r with
              | None => cur r' = merge r ms
              | Some fn => fn ms = Ok (cur r')
              end
  | Some err => cur r' = cur r /\ base r' = base r /\ lastSync r' = lastSync r
      /\ lastErr r' = Some err /\ fails r' = fails r + 1
      /\ (kind r' = SourceStatic <-> kind r = SourceStatic)
  end.
Proof.
  unfold refresh. destruct (fetcher r) as [f|] eqn:Ef; [|done].
  unfold prepare. destruct (FetchModels f (Endpoint (cfg r)) server) as [ms|err] eqn:Ems; simpl.
  - destruct (Z.of_nat (size ms) =? 0) eqn:Es; zbool; simpl.
    + split_and!; try done. by destruct (kind r).
    + assert (ms <> ∅) by (intros ->; by rewrite map_size_empty in Es).
      destruct (onSync r) as [fn|] eqn:Eh.
      * destruct (fn ms) as [t|err] eqn:Et; simpl.
        -- split_and!; try done. by exists f, ms.
        -- split_and!; try done. by destruct (kind r).
      * simpl. split_and!; try done. by exists f, ms.
  - split_and!; try done. by destruct (kind r).
Qed.

(** ** Reachable states *)

(** The invariant: the serving table is valid, so is whatever a refresh in flight is
    about to install, and the kind agrees with the failure bookkeeping. *)
Definition inv (ext : Pricing -> Prop) (s : config) : Prop :=
  table_ok (base s.1) /\ table_ok (cur s.1) /\ hook_ext ext (onSync s.1)
  /\ (forall t, s.2 = Some (Ok t) -> table_ok t)
  /\ 0 <= fails s.1 /\ (lastErr s.1 = None <-> fails s.1 = 0)
  /\ (kind s.1 = SourceStale -> 0 < fails s.1)
  /\ (is_Some (fetcher s.1) -> kind s.1 = SourceLive -> fails s.1 = 0).

Lemma prepare_ok ext r f server t :
  (forall t, ext t -> table_ok t) -> table_ok (base r) -> hook_ext ext (onSync r) ->
  prepare r f server = Ok t -> table_ok t.
Proof.
  intros Hext Hb Hh. unfold prepare.
  destruct (FetchModels f (Endpoint (cfg r)) server) as [ms|e] eqn:Ef; [|done].
  destruct (_ =? 0); [done|]. destruct (onSync r) as [fn|].
  - intros Ht. by apply Hext, (Hh ms).
  - intros [= <-]. apply merge_ok; [done|]. revert Ef. unfold FetchModels, fetchModels.
    destruct (str_empty _); [done|]. destruct (server _) as [| |st bs br]; [done|done|].
    destruct (_ || _); [done|]. destruct (readCappedBody _ _ _) as [b|]; [|done].
    destruct (unmarshal modelsResponse b) as [p|]; [|done]. intros [= <-]. apply catalog_ok.
Qed.

Lemma inv_step ext s s' :
  (forall t, ext t -> table_ok t) -> reg_step ext s s' -> inv ext s -> inv ext s'.
Proof.
  intros Hext Hstep (Hb & Hc & Hh & Hf & Hn & Herr & Hst & Hlive).
  destruct Hstep as [r f server Hfe|r o now|r Hfe|r tbl o Ht|r tbl sync o Ht|r fn o Hfn];
    cbn [fst snd] in *; unfold inv; cbn [fst snd].
  - split_and!; try done. intros t [= Ht]. by eapply prepare_ok.
  - destruct o as [t|e]; simpl.
    + split_and!; try done. by apply Hf.
    + split_and!; try done; try lia.
      * split; [done|lia].
      * intros _ Hk. by destruct (kind r).
  - simpl. split_and!; try done; try lia.
    + split; [done|lia].
    + intros [f Hf']. congruence.
  - simpl. split_and!; try done. destruct tbl as [t|]; simpl; [by apply Hext|done].
  - simpl. split_and!; try done. destruct tbl as [t|]; simpl; [by apply Hext|done].
  - simpl. by split_and!.
Qed.

(** C24. Whatever the interleaving of refreshes, replacements and hook installations, the
    table readers see is always a complete valid one (every price within bounds, the
    default present); the failure counter is zero exactly when there is no recorded
    error; and once a network table was adopted the registry never reports static
    again. *)
Theorem registry_always_valid ext b f c s :
  (forall t, ext t -> table_ok t) -> table_ok b ->
  rtc (reg_step ext) (NewRegistry b f c, None) s ->
  inv ext s
  /\ forall s', rtc (reg_step ext) s s' -> kind s.1 <> SourceStatic -> kind s'.1 <> SourceStatic.
Proof.
  intros Hext Hb Hs. split.
  - remember (NewRegistry b f c, None) as s0 eqn:E.
    assert (inv ext s0) as H0 by (subst; split_and!; simpl; done).
    clear E. induction Hs as [|s0 s1 s2 Hstep _ IH]; [done|]. apply IH. by eapply inv_step.
  - intros s' Hrtc. induction Hrtc as [|s0 s1 s2 Hstep _ IH]; [done|].
    intros Hk. apply IH; [by eapply rtc_r|].
    destruct Hstep as [|r o now|r|r tbl o|r tbl sync o|r fn o]; simpl in *; try done.
    destruct o; simpl; [done|]. by destruct (kind r).
Qed.

(** ** The retry delay *)

Lemma backoff_loop_spec n max b :
  0 < b -> 0 < max <= 2 ^ 62 ->
  let r := backoff_loop n max b in
  0 < r /\ (if max <? r then max else r) = Z.min max (b * 2 ^ Z.of_nat n).
Proof.
  intros Hb Hmax. revert b Hb. induction n as [|n IH]; intros b Hb; cbn [backoff_loop].
  - cbn zeta. change (2 ^ Z.of_nat 0) with 1. split; [done|]. zcase (max <? b).
  - zcase (b <? max).
    + rewrite wrap64_id by (unfold in_int64, int64_min, int64_max; lia).
      destruct (IH (b * 2) ltac:(lia)) as [Hp ->]. split; [done|].
      rewrite Nat2Z.inj_succ, Z.pow_succ_r by lia. f_equal. lia.
    + assert (0 < 2 ^ Z.of_nat (S n)) by (apply Z.pow_pos_nonneg; lia).
      split; [done|]. zcase (max <? b); nia.
Qed.

(** The delay before the next attempt is the refresh interval after a success, and
    after n consecutive failures the least of BackoffBase doubled n-1 times,
    BackoffMax and the interval; it is always positive - a dead endpoint is never
    polled in a busy loop, however many failures there were. *)
Theorem nextDelay_exact r :
  0 < BackoffBase (cfg r) -> 0 < BackoffMax (cfg r) <= 2 ^ 62 -> 0 < RefreshInterval (cfg r) ->
  nextDelay r
    = (if fails r <=? 0 then RefreshInterval (cfg r)
       else Z.min (RefreshInterval (cfg r))
              (Z.min (BackoffMax (cfg r)) (BackoffBase (cfg r) * 2 ^ (fails r - 1))))
  /\ 0 < nextDelay r <= RefreshInterval (cfg r).
Proof.
  intros Hb Hm Hi. unfold nextDelay. destruct (fails r <=? 0) eqn:E; zbool; [lia|].
  pose proof (backoff_loop_spec (Z.to_nat (fails r - 1)) (BackoffMax (cfg r))
    (BackoffBase (cfg r)) Hb Hm) as [Hp Hmin].
  cbn zeta in Hmin. cbn zeta. rewrite Hmin. rewrite Z2Nat.id in * by lia.
  assert (0 < 2 ^ (fails r - 1)) by (apply Z.pow_pos_nonneg; lia).
  assert (0 < BackoffBase (cfg r) * 2 ^ (fails r - 1)) by nia.
  set (d := Z.min (BackoffMax (cfg r)) _) in *. assert (0 < d) by lia.
  zcase (d <? RefreshInterval (cfg r)).
Qed.

#[export] Instance Registry_laws : PriceSourceLaws Registry.
Proof.
  split. intros r body. simpl. unfold Registry_SavedCost, Registry_PriceFor, SavedCost.
  by destruct (PriceFor (cur r) (ExtractModel body)).
Qed.

#[export] Instance Pricing_laws : PriceSourceLaws Pricing.
Proof.
  split. intros p body. simpl. unfold SavedCost. by destruct (PriceFor p (ExtractModel body)).
Qed.
End Proofs.

(** ** Witnesses *)

Definition sample_base : Pricing :=
  Build {["gpt-4"%string := {| InputUSD := 30000000; OutputUSD := 60000000 |}]}
    {| InputUSD := 1000000; OutputUSD := 1000000 |} 0 defaultCharsPerToken.

Definition sample_server (rq : Request) : exchange :=
  Response 200 (text "{'data':[{'id':'a/b','pricing':{'prompt':'0.000001','completion':'0.000002'}}]}") false.

Lemma sample_base_ok : table_ok sample_base.
Proof.
  assert (forall a b, 0 <= a <= 1000000000 -> 0 <= b <= 1000000000 ->
    price_ok {| InputUSD := a; OutputUSD := b |}) as Hp by (by split).
  split; [apply Hp; lia|]. split; [|vm_compute; split_and!; done].
  intros k mp Hk. cbn [models sample_base Build] in Hk. apply (lookup_singleton_Some (M := gmap string)) in Hk as [<- <-]. split; [done|]. apply Hp; lia.
Qed.

Lemma nextDelay_exact_witness :
  let r := NewRegistry sample_base (NewFetcher DefaultConfig) DefaultConfig in
  let failing := fun _ => NoResponse in
  let order := canonical_range string ModelPrice in
  let down := (@refresh order (@refresh order (@refresh order r failing 1).1 failing 2).1 failing 3).1 in
  nextDelay down = 40 * Second.
Proof.
  intros r failing order down.
  rewrite (proj1 (nextDelay_exact down ltac:(vm_compute; reflexivity)
    ltac:(vm_compute; split; [reflexivity|discriminate]) ltac:(vm_compute; reflexivity))).
  vm_compute. reflexivity.
Defined.

Lemma registry_always_valid_witness :
  let order := canonical_range string ModelPrice in
  let r := NewRegistry sample_base (NewFetcher DefaultConfig) DefaultConfig in
  let r' := (@refresh order r sample_server 7).1 in
  kind r' = SourceLive /\ table_ok (cur r').
Proof.
  intros order r r'. split; [vm_compute; reflexivity|].
  destruct (registry_always_valid (R := order) (fun _ => False) sample_base (NewFetcher DefaultConfig)
    DefaultConfig (r', None)) as [(_ & Hc & _) _].
  - done.
  - apply sample_base_ok.
  - eapply rtc_l; [eapply (step_prepare (R := order)); reflexivity|].
    apply rtc_once. apply (step_commit (R := order) (fun _ => False) r _ 7).
  - exact Hc.
Defined.
