(* ===== verification/Fairness.v ===== *)
(** * Weakly fair runs and progress

    An infinite run of a deterministic-per-action transition system is two functions on the
    positions: the state, and the action taken there (None: the system idles). Weak
    fairness of an action: at no position does it stay enabled for ever without being
    taken. The progress rule: if every state short of the goal has a helpful action whose
    step makes the measure smaller, and every other step either makes it smaller too or
    leaves measure and helpful action alone, then the goal is reached. *)

From S2P Require Import Prelude.
#[local] Open Scope nat_scope.

Section Fairness.
Context {S A : Type} (step : A -> S -> option S).

Definition is_run (st : nat -> S) (act : nat -> option A) : Prop :=
  forall n, match act n with
            | Some a => step a (st n) = Some (st (Datatypes.S n))
            | None => st (Datatypes.S n) = st n
            end.

Definition weakly_fair (st : nat -> S) (act : nat -> option A) (a : A) : Prop :=
  forall n, exists m, (n <= m)%nat /\ (act m = Some a \/ step a (st m) = None).

Context (inv goal : S -> Prop) (measure : S -> nat) (helpful : S -> A).
Context `{forall s, Decision (goal s)}.

Hypothesis inv_step : forall a s s', inv s -> step a s = Some s' -> inv s'.
Hypothesis helpful_step : forall s, inv s -> ~ goal s ->
  exists s', step (helpful s) s = Some s' /\ (measure s' < measure s)%nat.
Hypothesis other_step : forall a s s', inv s -> ~ goal s -> step a s = Some s' ->
  goal s' \/ (measure s' < measure s)%nat \/ (measure s' = measure s /\ helpful s' = helpful s).

Lemma inv_next st act n : is_run st act -> inv (st n) -> inv (st (Datatypes.S n)).
Proof.
  intros Hr Hi. specialize (Hr n). destruct (act n) as [a|]; [|by rewrite Hr].
  by eapply inv_step.
Qed.

(** Up to a later position: the goal, a smaller measure, or nothing lost. *)
Lemma no_loss st act n k :
  is_run st act -> inv (st n) -> ~ goal (st n) ->
  (exists m, (n <= m)%nat /\ inv (st m) /\ (goal (st m) \/ (measure (st m) < measure (st n))%nat))
  \/ (inv (st (n + k)) /\ ~ goal (st (n + k)) /\ measure (st (n + k)%nat) = measure (st n)
      /\ helpful (st (n + k)%nat) = helpful (st n)).
Proof.
  intros Hr Hi Hg. induction k as [|k IH]; [right; by rewrite Nat.add_0_r|].
  destruct IH as [IH|(Hik & Hgk & Hm & Hh)]; [by left|]. rewrite Nat.add_succ_r.
  pose proof (inv_next st act _ Hr Hik) as Hi'. pose proof (Hr (n + k)%nat) as Hs.
  destruct (act (n + k)%nat) as [a|]; [|rewrite Hs in *; by right].
  destruct (decide (goal (st (Datatypes.S (n + k))))) as [Hg'|Hg'].
  { left. exists (Datatypes.S (n + k)). split; [lia|]. auto. }
  destruct (other_step a _ _ Hik Hgk Hs) as [?|[Hlt|[He Hh']]]; [done| |].
  - left. exists (Datatypes.S (n + k)). split; [lia|]. split; [done|]. right. lia.
  - right. split_and!; [done|done|lia|congruence].
Qed.

Lemma fair_progress st act n :
  is_run st act -> (forall s, inv s -> weakly_fair st act (helpful s)) -> inv (st n) ->
  exists m, (n <= m)%nat /\ goal (st m).
Proof.
  intros Hr Hfair. remember (measure (st n)) as k eqn:Hk. revert n Hk.
  induction (lt_wf k) as [k _ IH]. intros n -> Hi.
  destruct (decide (goal (st n))) as [Hg|Hg]; [by exists n|].
  assert (forall m, (n <= m)%nat -> inv (st m) -> goal (st m) \/ (measure (st m) < measure (st n))%nat ->
    exists m', (n <= m')%nat /\ goal (st m')) as Hdone.
  { intros m Hm Him [?|Hlt]; [by exists m|].
    destruct (IH _ Hlt m eq_refl Him) as (m' & ? & ?). exists m'. split; [lia|done]. }
  destruct (Hfair (st n) Hi n) as (m & Hm & Hact).
  destruct (no_loss st act n (m - n) Hr Hi Hg) as [(j & Hj & Hij & Hd)|(Him & Hgm & Hme & Hh)];
    [by apply (Hdone j)|].
  replace (n + (m - n))%nat with m in * by lia.
  destruct (helpful_step (st m) Him Hgm) as (s' & Hs' & Hlt). rewrite Hh in Hs'.
  destruct Hact as [Hact|Hdis]; [|congruence].
  pose proof (Hr m) as Hs. rewrite Hact, Hs' in Hs. injection Hs as ->.
  apply (Hdone (Datatypes.S m)); [lia|by apply (inv_next st act)|]. right. lia.
Qed.
End Fairness.

(** ** Finite schedules as runs: the system idles after the last action *)

Section Schedules.
Context {S A : Type} (step : A -> S -> option S).

(** The state after the first [n] actions of a schedule. *)
Fixpoint play (c : S) (l : list A) (n : nat) : S :=
  match n, l with
  | Datatypes.S n', a :: l' => play (default c (step a c)) l' n'
  | _, _ => c
  end.

Fixpoint playable (c : S) (l : list A) : bool :=
  match l with
  | [] => true
  | a :: l' => match step a c with Some c' => playable c' l' | None => false end
  end.

Lemma play_end c l n : (length l <= n)%nat -> play c l n = play c l (length l).
Proof. revert c n. induction l as [|a l IH]; intros c [|n] Hn; cbn in *; try done; [lia|]. apply IH. lia. Qed.

Lemma play_run c l : playable c l = true -> is_run step (play c l) (fun n => l !! n).
Proof.
  revert c. induction l as [|a l IH]; intros c Hp n; [by destruct n|]. cbn [playable] in Hp.
  destruct (step a c) as [c'|] eqn:Hs; [|done].
  destruct n as [|n]; cbn [play lookup list_lookup]; rewrite Hs; cbn [default]; [by destruct l|].
  by apply IH.
Qed.

Lemma play_fair c l a : step a (play c l (length l)) = None -> weakly_fair step (play c l) (fun n => l !! n) a.
Proof.
  intros Hs n. exists (Nat.max n (length l)). split; [lia|]. right. by rewrite play_end by lia.
Qed.
End Schedules.
