(* ===== verification/Refresher.v ===== *)
(** * pkg/pricing/registry.go: the background loop's start and stop

    Start, the loop goroutine, and Stop as one transition system around the refreshes of
    Registry. A select that finds a channel closed as it starts takes that case, since a
    timer just made has not fired (nextDelay is positive); a goroutine parked in a select is
    woken by whichever comes first. Start is called before Stop, as run does. *)

From S2P Require Import Prelude Pricing Fetcher Registry Fairness.
#[local] Open Scope nat_scope.

Section Refresher.
Context {R : RangeOrder string ModelPrice}.
(** The exchange and the clock of every refresh the loop makes. *)
Context (answers : nat -> (Fetcher.Request -> Fetcher.exchange) * Z).

Inductive loop_phase :=
  | LoopNone          (* not started *)
  | LoopEntry         (* the goroutine runs, before the bootstrapped test *)
  | LoopRefreshing    (* in r.refresh *)
  | LoopSelect        (* about to select *)
  | LoopParked        (* in the select *)
  | LoopEnded.        (* returned: wg.Done *)

Inductive stop_phase := StopIdle | StopWaiting | StopReturned.

Record lifecycle := {
  reg : Registry;
  loop_at : loop_phase;
  ctx_ended : bool;
  stop_closed : bool;       (* stopCh *)
  stop_at : stop_phase;     (* the first caller of Stop *)
  refreshes : nat           (* of the loop *)
}.

Inductive loop_action :=
  | CallStart | CtxEnds | CallStop
  | LoopEnter | RefreshEnds | SelectRuns | TimerFires | LoopWakes
  | StopReturns.

Definition with_loop (c : lifecycle) (p : loop_phase) : lifecycle :=
  {| reg := reg c; loop_at := p; ctx_ended := ctx_ended c; stop_closed := stop_closed c;
     stop_at := stop_at c; refreshes := refreshes c |}.

Definition ended_or_none (p : loop_phase) : bool :=
  match p with LoopNone | LoopEnded => true | _ => false end.

(** A channel of the select is ready. *)
Definition told (c : lifecycle) : bool := stop_closed c || ctx_ended c.

Definition loop_step (a : loop_action) (c : lifecycle) : option lifecycle :=
  match a with
  | CallStart =>
      match loop_at c with
      | LoopNone => if stop_closed c then None
                    else Some (if Start_enabled (reg c) then with_loop c LoopEntry else c)
      | _ => None
      end
  | CtxEnds =>
      Some {| reg := reg c; loop_at := loop_at c; ctx_ended := true; stop_closed := stop_closed c;
              stop_at := stop_at c; refreshes := refreshes c |}
  | CallStop =>
      match stop_at c with
      | StopIdle => Some {| reg := reg c; loop_at := loop_at c; ctx_ended := ctx_ended c;
                            stop_closed := true; stop_at := StopWaiting; refreshes := refreshes c |}
      | _ => None
      end
  | LoopEnter =>
      match loop_at c with
      | LoopEntry => Some (with_loop c (if bootstrapped (reg c) then LoopSelect else LoopRefreshing))
      | _ => None
      end
  | RefreshEnds =>
      match loop_at c with
      | LoopRefreshing =>
          let '(server, now) := answers (refreshes c) in
          Some {| reg := (refresh (reg c) server now).1; loop_at := LoopSelect;
                  ctx_ended := ctx_ended c; stop_closed := stop_closed c; stop_at := stop_at c;
                  refreshes := S (refreshes c) |}
      | _ => None
      end
  | SelectRuns =>
      match loop_at c with
      | LoopSelect => Some (with_loop c (if told c then LoopEnded else LoopParked))
      | _ => None
      end
  | TimerFires =>
      match loop_at c with
      | LoopParked => if told c then None else Some (with_loop c LoopRefreshing)
      | _ => None
      end
  | LoopWakes =>
      match loop_at c with
      | LoopParked => if told c then Some (with_loop c LoopEnded) else None
      | _ => None
      end
  | StopReturns =>
      match stop_at c with
      | StopWaiting =>
          if ended_or_none (loop_at c)
          then Some {| reg := reg c; loop_at := loop_at c; ctx_ended := ctx_ended c;
                       stop_closed := stop_closed c; stop_at := StopReturned; refreshes := refreshes c |}
          else None
      | _ => None
      end
  end.

Definition new_lifecycle (r : Registry) : lifecycle :=
  {| reg := r; loop_at := LoopNone; ctx_ended := false; stop_closed := false; stop_at := StopIdle;
     refreshes := 0 |}.

(** ** Stopping *)

(** Stop was called: the channel is closed for good, and once Stop returned the loop is over. *)
Definition stop_inv (c : lifecycle) : Prop :=
  (stop_closed c = false <-> stop_at c = StopIdle)
  /\ (stop_at c = StopReturned -> ended_or_none (loop_at c) = true).
Definition stopping (c : lifecycle) : Prop := stop_inv c /\ stop_closed c = true.

Definition returned (c : lifecycle) : Prop := stop_at c = StopReturned.
#[local] Instance returned_dec c : Decision (returned c).
Proof. unfold returned. destruct (stop_at c); [by right|by right|by left]. Defined.

Definition steps_left (c : lifecycle) : nat :=
  match stop_at c with
  | StopReturned => 0
  | _ => match loop_at c with
         | LoopEntry => 4 | LoopRefreshing => 3 | LoopSelect => 2 | LoopParked => 2
         | LoopNone | LoopEnded => 1
         end
  end.
Definition next_step (c : lifecycle) : loop_action :=
  match loop_at c with
  | LoopEntry => LoopEnter | LoopRefreshing => RefreshEnds | LoopSelect => SelectRuns
  | LoopParked => LoopWakes | LoopNone | LoopEnded => StopReturns
  end.

(** Refreshes the loop may still make once told to stop. *)
Definition in_flight (c : lifecycle) : nat :=
  match loop_at c with LoopEntry | LoopRefreshing => 1 | _ => 0 end.

Ltac loop_cases Hs :=
  match type of Hs with loop_step ?a ?c = _ => destruct a; destruct c as [? [] ? ? [] ?] end;
  cbn in Hs; try discriminate Hs; unfold told in *; cbn in *; repeat case_match; simplify_eq; cbn in *.

Lemma stop_inv_step a c c' : stop_inv c -> loop_step a c = Some c' -> stop_inv c'.
Proof. unfold stop_inv. intros Hi Hs. loop_cases Hs; naive_solver. Qed.

Lemma stopping_step a c c' : stopping c -> loop_step a c = Some c' -> stopping c'.
Proof.
  intros [Hi Hc] Hs. split; [by eapply stop_inv_step|]. clear Hi. loop_cases Hs; done.
Qed.

Lemma stop_helpful c :
  stopping c -> ~ returned c ->
  exists c', loop_step (next_step c) c = Some c' /\ steps_left c' < steps_left c.
Proof.
  intros [[Hi _] Hc] Hr. assert (stop_at c = StopWaiting) as Hw.
  { unfold returned in Hr. destruct (stop_at c); [|done|done]. by rewrite (proj2 Hi eq_refl) in Hc. }
  destruct c as [r p x s t n]. cbn in Hc, Hw. subst s t. unfold next_step, loop_step, told, steps_left.
  destruct p; cbn; repeat case_match; eexists; (split; [done|]); cbn; lia.
Qed.

Lemma stop_other a c c' :
  stopping c -> ~ returned c -> loop_step a c = Some c' ->
  returned c' \/ steps_left c' < steps_left c
  \/ (steps_left c' = steps_left c /\ next_step c' = next_step c).
Proof.
  intros [_ Hc] Hr Hs. right. unfold returned, steps_left, next_step in *.
  loop_cases Hs; first [done | by right | left; lia].
Qed.

Definition loop_actions : list loop_action := [LoopEnter; RefreshEnds; SelectRuns; LoopWakes; StopReturns].
Lemma next_loop_action c : next_step c ∈ loop_actions.
Proof. unfold next_step, loop_actions. destruct (loop_at c); set_solver. Qed.

(** One step after the channel is closed: no new refresh begins, and none at all once Stop
    has returned. *)
Definition bounded_by (c c' : lifecycle) : Prop :=
  refreshes c' + in_flight c' <= refreshes c + in_flight c
  /\ (returned c -> reg c' = reg c /\ returned c').

Lemma stopped_bound a c c' : stopping c -> loop_step a c = Some c' -> bounded_by c c'.
Proof.
  intros [[_ Hi] Hc] Hs. unfold bounded_by, in_flight, returned in *. loop_cases Hs; split; try lia; naive_solver.
Qed.

Section runs.
Context (st : nat -> lifecycle) (act : nat -> option loop_action) (r : Registry).
Hypothesis start : st 0 = new_lifecycle r.
Hypothesis run : is_run loop_step st act.

Lemma always_stop_inv n : stop_inv (st n).
Proof.
  induction n as [|n IH]; [by rewrite start|]. specialize (run n).
  destruct (act n) as [a|]; [by eapply stop_inv_step|by rewrite run].
Qed.

Lemma stopping_later n m : stopping (st n) -> n <= m -> stopping (st m) /\ bounded_by (st n) (st m).
Proof.
  intros Hs. induction 1 as [|m Hm [IHs [IHr IHg]]]; [by split|]. specialize (run m).
  destruct (act m) as [a|]; [|by rewrite run]. split; [by eapply stopping_step|].
  destruct (stopped_bound _ _ _ IHs run) as [Hb Hg]. split; [lia|]. intros Hr.
  destruct (IHg Hr) as [He Hrm]. destruct (Hg Hrm) as [He' ?]. split; [by rewrite He', He|done].
Qed.
End runs.

(** C36. Stop stops. On every weakly fair schedule in which a refresh ends (HTTPTimeout
    bounds it), a call of Stop returns, whether the loop was never started, is between
    refreshes or in the middle of one, and whether or not the context ended; from the call
    on at most one refresh of the loop completes, the one in flight; and once Stop has
    returned the loop is gone and never touches the serving table again. *)
Theorem stop_terminates r st act n :
  st 0 = new_lifecycle r -> is_run loop_step st act ->
  Forall (weakly_fair loop_step st act) loop_actions -> stop_at (st n) = StopWaiting ->
  (exists m, n <= m /\ stop_at (st m) = StopReturned /\ ended_or_none (loop_at (st m)) = true)
  /\ (forall m, n <= m -> refreshes (st m) <= S (refreshes (st n)))
  /\ (forall m k, stop_at (st m) = StopReturned -> m <= k -> reg (st k) = reg (st m)).
Proof.
  intros H0 Hrun Hfair Hstop. pose proof (always_stop_inv st act r H0 Hrun) as Hinv.
  assert (forall k, stop_at (st k) <> StopIdle -> stopping (st k)) as Hstopping.
  { intros k Hk. split; [done|]. destruct (stop_closed (st k)) eqn:E; [done|].
    by apply (proj1 (proj1 (Hinv k))) in E. }
  assert (stopping (st n)) as Hn by (apply Hstopping; by rewrite Hstop). split_and!.
  - destruct (fair_progress loop_step stopping returned steps_left next_step stopping_step stop_helpful
      stop_other st act n Hrun) as (m & Hm & Hret); [|done|].
    + intros c _. apply (proj1 (Forall_forall _ _) Hfair), next_loop_action.
    + exists m. split; [done|]. split; [done|]. by apply Hinv.
  - intros m Hm. destruct (stopping_later st act Hrun n m Hn Hm) as [_ [Hb _]].
    assert (in_flight (st n) <= 1) by (unfold in_flight; destruct (loop_at (st n)); lia). lia.
  - intros m k Hm Hk. apply (stopping_later st act Hrun m k); [apply Hstopping; by rewrite Hm|done|done].
Qed.
End Refresher.

(** ** A stop in the middle of the first refresh *)

Section Witness.
#[local] Instance order_models : RangeOrder string ModelPrice := canonical_range _ _.

Definition no_answer (n : nat) : (Fetcher.Request -> Fetcher.exchange) * Z := (fun _ => Fetcher.NoResponse, 0%Z).

Definition sample_registry : Registry :=
  NewRegistry sample_base (NewFetcher DefaultConfig) DefaultConfig.

Definition sample_stop : list loop_action :=
  [CallStart; LoopEnter; CallStop; RefreshEnds; SelectRuns; StopReturns].

Lemma stop_terminates_witness :
  let st := play (loop_step no_answer) (new_lifecycle sample_registry) sample_stop in
  exists m, 3 <= m /\ stop_at (st m) = StopReturned /\ refreshes (st 3) = 0 /\ refreshes (st 6) = 1.
Proof.
  intros st. destruct (stop_terminates no_answer sample_registry st (fun n => sample_stop !! n) 3)
    as [(m & Hm & Hs & _) _].
  - reflexivity.
  - apply play_run. vm_compute. reflexivity.
  - repeat (apply Forall_cons_2; [apply play_fair; vm_compute; reflexivity|]). apply Forall_nil_2.
  - vm_compute. reflexivity.
  - exists m. split; [exact Hm|]. split; [exact Hs|]. split; vm_compute; reflexivity.
Defined.
End Witness.
