(* ===== verification/GoTime.v ===== *)
(** * The UTC calendar of the time package

    Years, months and days of an instant, and time.Date at midnight UTC.  Days are
    counted from January 1 of year 1, as instants are (see Prelude). *)

From S2P Require Import Prelude.

Definition Day : Z := 24 * Hour.
Definition day_seconds : Z := 86400.

(** The day an instant falls on. *)
Definition day_of (t : Z) : Z := t / Day.

(** Days from the 1st of January of year 1 to that of year [n + 1]. *)
Definition year_days (n : Z) : Z := 365 * n + n / 4 - n / 100 + n / 400.

Definition leap (y : Z) : bool :=
  (y mod 4 =? 0) && (negb (y mod 100 =? 0) || (y mod 400 =? 0)).

(** Days of the year before the month [m] (1 to 13). *)
Definition month_days (lp : bool) (m : Z) : Z :=
  let b := if lp then 1 else 0 in
  match m with
  | 1 => 0 | 2 => 31 | 3 => 59 + b | 4 => 90 + b | 5 => 120 + b | 6 => 151 + b
  | 7 => 181 + b | 8 => 212 + b | 9 => 243 + b | 10 => 273 + b | 11 => 304 + b | 12 => 334 + b
  | _ => 365 + b
  end.

(** The years before the one that contains a day: the average year gives it up to
    one. *)
Definition years_before (day : Z) : Z :=
  let n := 400 * day / 146097 in
  if day <? year_days n then n - 1 else if year_days (n + 1) <=? day then n + 1 else n.

(** The month of a day of the year. *)
Fixpoint find_month (fuel : nat) (lp : bool) (doy m : Z) : Z :=
  match fuel with
  | O => m
  | S fuel' => if doy <? month_days lp (m + 1) then m else find_month fuel' lp doy (m + 1)
  end.

(** t.UTC().Date() of an instant on [day]. *)
Definition civil (day : Z) : Z * Z * Z :=
  let n := years_before day in
  let y := n + 1 in
  let doy := day - year_days n in
  let m := find_month 11 (leap y) doy 1 in
  (y, m, doy - month_days (leap y) m + 1).

(** The day of time.Date(y, m, d, 0, 0, 0, 0, time.UTC): the month is brought into
    range by moving years, any day of the month is then just added. *)
Definition date_day (y m d : Z) : Z :=
  let y := y + (m - 1) / 12 in
  let m := (m - 1) mod 12 + 1 in
  year_days (y - 1) + month_days (leap y) m + (d - 1).

(** The Unix time of midnight UTC of a day. *)
Definition day_unix (day : Z) : Z := day * day_seconds - unix_epoch_seconds.

(** time.Date(y, m, d, 0, 0, 0, 0, time.UTC).Unix(). *)
Definition date_unix (y m d : Z) : Z := day_unix (date_day y m d).

Example calendar_examples :
  date_unix 1970 1 1 = 0 /\ date_unix 2024 2 29 = 1709164800
  /\ civil (date_day 2024 3 0) = (2024, 2, 29) /\ civil (date_day 2023 13 1) = (2024, 1, 1)
  /\ civil (day_of (unix_time 1700000000)) = (2023, 11, 14)
  /\ date_unix 2000 2 29 = 951782400 /\ date_unix 1900 3 1 = -2203891200.
Proof. vm_compute. done. Qed.

(** ** Lemmas *)

Lemma year_days_succ n : year_days (n + 1) = year_days n + 365 + (if leap (n + 1) then 1 else 0).
Proof.
  unfold year_days, leap.
  destruct ((n + 1) mod 4 =? 0) eqn:E4, ((n + 1) mod 100 =? 0) eqn:E100,
    ((n + 1) mod 400 =? 0) eqn:E400; zbool; cbn [andb orb negb];
    Z.to_euclidean_division_equations; lia.
Qed.

Lemma years_before_spec day :
  year_days (years_before day) <= day < year_days (years_before day + 1).
Proof.
  unfold years_before. set (n := 400 * day / 146097).
  assert (146097 * n <= 400 * day < 146097 * (n + 1)) as Hn.
  { unfold n. Z.to_euclidean_division_equations. lia. }
  clearbody n.
  destruct (day <? year_days n) eqn:E1; [|destruct (year_days (n + 1) <=? day) eqn:E2]; zbool.
  - replace (n - 1 + 1) with n by lia. split; [|done].
    unfold year_days in *. Z.to_euclidean_division_equations. lia.
  - split; [done|]. unfold year_days in *. Z.to_euclidean_division_equations. lia.
  - lia.
Qed.

(** Evaluate the month table. *)
Ltac eval_months :=
  repeat match goal with
  | H : context [month_days ?l ?m] |- _ =>
      let v := eval vm_compute in (month_days l m) in change (month_days l m) with v in H
  | |- context [month_days ?l ?m] =>
      let v := eval vm_compute in (month_days l m) in change (month_days l m) with v
  end.

Lemma month_days_range (lp : bool) doy :
  0 <= doy < 365 + (if lp then 1 else 0) ->
  let m := find_month 11 lp doy 1 in
  1 <= m <= 12 /\ month_days lp m <= doy < month_days lp (m + 1).
Proof.
  intros H. destruct lp; cbv iota in H; cbn [find_month];
    repeat match goal with
    | |- context [doy <? ?x] => destruct (doy <? x) eqn:?; zbool; [eval_months; lia|]
    end; eval_months; lia.
Qed.

Lemma month_index m : 1 <= m <= 12 -> (m - 1) / 12 = 0 /\ (m - 1) mod 12 + 1 = m.
Proof. intros. Z.to_euclidean_division_equations. lia. Qed.

(** The calendar of one day: the date is in range and denotes the day, and the day
    lies between the first of its month and the first of the next month. *)
Lemma civil_spec day :
  let '(y, m, d) := civil day in
  date_day y m d = day /\ 1 <= m <= 12 /\ 1 <= d
  /\ date_day y m 1 = day - (d - 1) /\ day < date_day y (m + 1) 1.
Proof.
  unfold civil. pose proof (years_before_spec day) as Hy. set (n := years_before day) in *.
  rewrite year_days_succ in Hy. set (doy := day - year_days n).
  assert (0 <= doy < 365 + (if leap (n + 1) then 1 else 0)) as Hdoy by (unfold doy; lia).
  destruct (month_days_range (leap (n + 1)) doy Hdoy) as [Hm Hd].
  set (m := find_month 11 (leap (n + 1)) doy 1) in *. cbn zeta.
  unfold date_day. destruct (month_index m Hm) as [-> ->]. rewrite Z.add_0_r.
  replace (n + 1 - 1) with n by lia.
  split_and!; try lia. destruct (decide (m = 12)) as [E|Hne].
  - rewrite E in *. change ((12 + 1 - 1) / 12) with 1. change ((12 + 1 - 1) mod 12 + 1) with 1.
    replace (n + 1 + 1 - 1) with (n + 1) by lia. rewrite year_days_succ.
    cbn [month_days] in *. destruct (leap (n + 1 + 1)); simpl in *; lia.
  - destruct (month_index (m + 1) ltac:(lia)) as [-> ->].
    replace (n + 1 + 0 - 1) with n by lia. replace (n + 1 + 0) with (n + 1) by lia. lia.
Qed.

(** Midnight of the day of an instant, and the instant's own second. *)
Lemma day_unix_bounds t : day_unix (day_of t) <= time_unix t < day_unix (day_of t + 1).
Proof.
  unfold day_unix, day_of, time_unix, day_seconds, Day. unfold_time.
  assert (t / (24 * (60 * (60 * 1000000000))) = t / 1000000000 / 86400) as ->
    by (rewrite Z.div_div by lia; f_equal).
  pose proof (Z.div_mod (t / 1000000000) 86400 ltac:(lia)).
  pose proof (Z.mod_pos_bound (t / 1000000000) 86400 ltac:(lia)). lia.
Qed.

Lemma day_unix_mono a b : a <= b -> day_unix a <= day_unix b.
Proof. unfold day_unix, day_seconds. lia. Qed.
