(* ===== verification/Store.v ===== *)
(** * The persistence seams (pkg/proxy/store.go, caller.go) and the memory store
    (internal/store/memory)

    The handler's view of a store is the classes below; [MemoryStore] implements
    them and its laws are what the handler's theorems rely on. *)

From S2P Require Import Prelude.

(** ** Data *)

(** caller.go, Caller. *)
Record Caller := {
  c_ID : string;
  c_Name : string;
  MonthlyBudgetMicro : Z;
  DailyBudgetMicro : Z
}.

(** store.go, RequestRecord. *)
Record RequestRecord := {
  r_AgentID : string;
  r_KeyID : string;
  r_ProjectName : string;
  r_Model : string;
  r_PromptTokens : Z;
  r_CompletionTokens : Z;
  r_CostUSD : Z;
  r_IsLoopBlocked : bool;
  r_Timestamp : Z
}.

(** store.go, SettingsRow. *)
Record SettingsRow := {
  LoopThresholdCount : Z;
  CostAlertThresholdMicro : Z
}.

(** store.go, IncidentInput. *)
Record IncidentInput := {
  i_AgentID : string;
  i_KeyID : string;
  i_ProjectName : string;
  i_Model : string;
  i_Fingerprint : string;
  i_CostMicro : Z
}.

#[export] Instance Caller_eq_dec : EqDecision Caller.
Proof. solve_decision. Defined.
#[export] Instance RequestRecord_eq_dec : EqDecision RequestRecord.
Proof. solve_decision. Defined.

(** ** Interfaces

    A sum is None when the read fails; a write reports whether it succeeded. *)

Class RequestLogStore (S : Type) := { LogRequest : S -> RequestRecord -> S * bool }.

Class BudgetLedger (S : Type) := {
  SumActualCostSince : S -> Z -> option Z;
  SumActualCostForKeySince : S -> string -> Z -> option Z
}.

(** Reading may write (a store may seed its row); the row is None on an error, and the
    arguments carry the clock a store stamps rows with. *)
Class SettingsStore (S : Type) := {
  GetSettings : S -> Z -> S * option SettingsRow;
  UpdateSettings : S -> Z -> SettingsRow -> S * bool
}.

(** The rows a sum covers. *)
Definition counted (since : Z) (r : RequestRecord) : bool :=
  negb (r_IsLoopBlocked r) && (since <=? r_Timestamp r).
Definition counted_for (key : string) (since : Z) (r : RequestRecord) : bool :=
  counted since r && bool_decide (r_KeyID r = key).

(** What a ledger promises: the sums are the actual, not loop-blocked, spend of the
    rows logged so far (in int64 arithmetic), one row at a time. *)
Class LedgerLaws (S : Type) `{RequestLogStore S, BudgetLedger S} := {
  law_log_sum s r since total :
    (LogRequest s r).2 = true -> SumActualCostSince s since = Some total ->
    SumActualCostSince (LogRequest s r).1 since
    = Some (if counted since r then wrap64 (total + r_CostUSD r) else total);
  law_log_key_sum s r key since total :
    (LogRequest s r).2 = true -> SumActualCostForKeySince s key since = Some total ->
    SumActualCostForKeySince (LogRequest s r).1 key since
    = Some (if counted_for key since r then wrap64 (total + r_CostUSD r) else total)
}.

(** ** The memory store *)

Definition DefaultLoopThreshold : Z := 2.

(** KeyStore: key hash to caller. *)
Record KeyStore := { ks_callers : gmap string Caller }.
Definition NewKeyStore : KeyStore := {| ks_callers := ∅ |}.
Definition KeyStore_Set (k : KeyStore) (hash : string) (c : Caller) : KeyStore :=
  {| ks_callers := <[hash := c]> (ks_callers k) |}.
(** CallerByKeyHash: None is ErrInvalidKey. *)
Definition KeyStore_CallerByKeyHash (k : KeyStore) (hash : string) : option Caller :=
  ks_callers k !! hash.

Record MemoryStore := {
  logs : list RequestRecord;
  settings : SettingsRow;
  haveSet : bool;
  callers : KeyStore
}.

Definition New : MemoryStore :=
  {| logs := []; settings := {| LoopThresholdCount := 0; CostAlertThresholdMicro := 0 |};
     haveSet := false; callers := NewKeyStore |}.

Definition Set_ (s : MemoryStore) (hash : string) (c : Caller) : MemoryStore :=
  {| logs := logs s; settings := settings s; haveSet := haveSet s;
     callers := KeyStore_Set (callers s) hash c |}.
Definition SetCaller := Set_.
Definition CallerByKeyHash (s : MemoryStore) (hash : string) : option Caller :=
  KeyStore_CallerByKeyHash (callers s) hash.

Definition memory_log (s : MemoryStore) (r : RequestRecord) : MemoryStore * bool :=
  ({| logs := logs s ++ [r]; settings := settings s; haveSet := haveSet s;
      callers := callers s |}, true).

(** The two sums, as loops. *)
Definition memory_sum (s : MemoryStore) (since : Z) : Z :=
  foldl (fun total r =>
    if r_IsLoopBlocked r || (r_Timestamp r <? since) then total
    else wrap64 (total + r_CostUSD r)) 0 (logs s).

Definition memory_key_sum (s : MemoryStore) (key : string) (since : Z) : Z :=
  foldl (fun total r =>
    if r_IsLoopBlocked r || (r_Timestamp r <? since) || negb (bool_decide (r_KeyID r = key))
    then total else wrap64 (total + r_CostUSD r)) 0 (logs s).

Definition memory_GetSettings (s : MemoryStore) : SettingsRow :=
  if haveSet s then settings s
  else {| LoopThresholdCount := DefaultLoopThreshold; CostAlertThresholdMicro := 0 |}.

Definition memory_UpdateSettings (s : MemoryStore) (row : SettingsRow) : MemoryStore :=
  {| logs := logs s; settings := row; haveSet := true; callers := callers s |}.

Definition Logs (s : MemoryStore) : list RequestRecord := logs s.

#[export] Instance memory_RequestLogStore : RequestLogStore MemoryStore :=
  {| LogRequest := memory_log |}.
#[export] Instance memory_BudgetLedger : BudgetLedger MemoryStore :=
  {| SumActualCostSince s since := Some (memory_sum s since);
     SumActualCostForKeySince s key since := Some (memory_key_sum s key since) |}.
#[export] Instance memory_SettingsStore : SettingsStore MemoryStore :=
  {| GetSettings s _ := (s, Some (memory_GetSettings s));
     UpdateSettings s _ row := (memory_UpdateSettings s row, true) |}.

(** ** Lemmas *)

Lemma counted_skip since r :
  (r_IsLoopBlocked r || (r_Timestamp r <? since)) = negb (counted since r).
Proof.
  unfold counted. destruct (r_IsLoopBlocked r); [done|]. simpl.
  zcase (since <=? r_Timestamp r); zcase (r_Timestamp r <? since).
Qed.

Lemma memory_sum_filter s since :
  memory_sum s since
  = wrap64 (sumZ (r_CostUSD <$> filter (fun r => counted since r = true) (logs s))).
Proof.
  unfold memory_sum. change 0 with (wrap64 0) at 1.
  rewrite <- (Z.add_0_l (sumZ _)). generalize 0 as acc.
  induction (logs s) as [|r l IH]; intros acc; [by rewrite Z.add_0_r|].
  cbn [foldl]. rewrite counted_skip, filter_cons. destruct (counted since r); cbn [negb].
  - rewrite decide_True by done. rewrite wrap64_wrap64_add, IH. csimpl. f_equal. lia.
  - rewrite decide_False by done. apply IH.
Qed.

Lemma memory_key_sum_filter s key since :
  memory_key_sum s key since
  = wrap64 (sumZ (r_CostUSD <$> filter (fun r => counted_for key since r = true) (logs s))).
Proof.
  unfold memory_key_sum. change 0 with (wrap64 0) at 1.
  rewrite <- (Z.add_0_l (sumZ _)). generalize 0 as acc.
  induction (logs s) as [|r l IH]; intros acc; [by rewrite Z.add_0_r|].
  cbn [foldl]. rewrite counted_skip, filter_cons.
  assert ((negb (counted since r) || negb (bool_decide (r_KeyID r = key)))
    = negb (counted_for key since r)) as -> by (unfold counted_for; by destruct (counted since r)).
  destruct (counted_for key since r); cbn [negb].
  - rewrite decide_True by done. rewrite wrap64_wrap64_add, IH. csimpl. f_equal. lia.
  - rewrite decide_False by done. apply IH.
Qed.

#[export] Instance memory_LedgerLaws : LedgerLaws MemoryStore.
Proof.
  split; simpl; intros s r.
  - intros since total _ [= <-]. unfold memory_sum. simpl. rewrite foldl_snoc, counted_skip.
    by destruct (counted since r).
  - intros key since total _ [= <-]. unfold memory_key_sum. simpl.
    rewrite foldl_snoc, counted_skip. unfold counted_for.
    destruct (counted since r); [|done]. by case_bool_decide.
Qed.

(** The memory ledger: each sum is exactly the actual spend - loop-blocked rows never
    count - of the rows at or after the boundary (for the key), as long as it fits an
    int64; and reading settings gives the last update, the documented defaults before
    the first one. *)
Theorem memory_ledger_exact s key since :
  let all := r_CostUSD <$> filter (fun r => counted since r = true) (logs s) in
  let own := r_CostUSD <$> filter (fun r => counted_for key since r = true) (logs s) in
  (in_int64 (sumZ all) -> SumActualCostSince s since = Some (sumZ all))
  /\ (in_int64 (sumZ own) -> SumActualCostForKeySince s key since = Some (sumZ own))
  /\ (forall row t t', (GetSettings (UpdateSettings s t row).1 t').2 = Some row)
  /\ (forall t, (GetSettings New t).2 = Some {| LoopThresholdCount := 2; CostAlertThresholdMicro := 0 |}).
Proof.
  split_and!; simpl; intros.
  - by rewrite memory_sum_filter, wrap64_id.
  - by rewrite memory_key_sum_filter, wrap64_id.
  - done.
  - done.
Qed.
