(* ===== verification/Sqlite.v ===== *)
(** * internal/store/sqlite/sqlite.go: the SQLite store

    GORM and the driver are not part of the repository: the class [Gorm] is what the store
    calls of them - the statements it issues, with their conditions, columns and clauses as
    data - and [GormLaws] is the documented behaviour of SQL the theorems rely on, over a
    view of the three tables. [Tables] at the end is an implementation of both. *)

From S2P Require Import Prelude GoStrings Store.
#[local] Open Scope result_scope.

(** ** The schema *)

Record requestLog := {
  l_ID : Z;
  l_AgentID : string;
  l_KeyID : string;
  l_ProjectName : string;
  l_Model : string;
  l_PromptTokens : Z;
  l_CompletionTokens : Z;
  l_CostUSD : Z;
  l_IsLoopBlocked : bool;
  l_Timestamp : Z
}.

(** The settings struct. *)
Record settings_row := {
  s_ID : Z;
  s_LoopThresholdCount : Z;
  s_CostAlertThresholdMicro : Z;
  s_UpdatedAt : Z
}.

Record modelPrice := {
  m_Model : string;
  m_Provider : string;
  m_InputMicroUSD : Z;
  m_OutputMicroUSD : Z;
  m_Source : string;
  m_UpdatedAt : Z
}.

Record PriceRow := {
  pr_Model : string;
  pr_Provider : string;
  pr_InputMicroUSD : Z;
  pr_OutputMicroUSD : Z;
  pr_Source : string
}.

Definition PriceSourceSeed : string := "seed".
Definition DefaultLoopThreshold : Z := 2.

#[export] Instance settings_row_eq_dec : EqDecision settings_row.
Proof. solve_decision. Defined.
#[export] Instance modelPrice_eq_dec : EqDecision modelPrice.
Proof. solve_decision. Defined.

(** ** Statements *)

Inductive condition :=
  | IsLoopBlocked (b : bool)       (* is_loop_blocked = 0 or 1 *)
  | TimestampFrom (since : Z)      (* timestamp >= ? *)
  | KeyIs (key : string).          (* key_id = ? *)

Inductive table := RequestLogs | ModelPrices | Settings.

Inductive ddl :=
  | Pragma (text : string)
  | CreateIndex (name : string) (t : table) (columns : list string).

(** What the store calls of gorm and of the driver. A write gives the handle's state after
    it and the error, None for nil. *)
Class Gorm (G E : Type) := {
  os_MkdirAll : list byte -> option E;
  gorm_Open : list byte -> result E G;
  g_DB : G -> option E;                                  (* g.DB(), for the *sql.DB *)
  g_SetMaxOpenConns : G -> Z -> G;
  g_Exec : G -> ddl -> result E G;
  g_AutoMigrate : G -> list table -> result E G;
  g_CreateLog : G -> requestLog -> G * option E;
  g_SumCost : G -> list condition -> result E Z;         (* COALESCE(SUM(cost_usd), 0) *)
  g_FirstSettings : G -> Z -> result E (option settings_row);   (* None: ErrRecordNotFound *)
  g_CreateSettings : G -> settings_row -> G * option E;
  g_UpsertSettings : G -> settings_row -> list string -> G * option E;  (* ON CONFLICT(id) DO UPDATE *)
  g_InsertPrices : G -> list modelPrice -> G * option E; (* ON CONFLICT(model) DO NOTHING *)
  g_FindPrices : G -> result E (list modelPrice);        (* ORDER BY model COLLATE NOCASE *)
  g_Close : G -> option E
}.

(** ** The store *)

Record DB (G : Type) := { gorm : option G }.
Arguments gorm {G} _.
Arguments Build_DB {G} _.

(** The wrapped errors; [NilHandle] is the nil dereference of a method after Close. *)
Inductive sqlite_error (E : Type) :=
  | NilHandle
  | CreateParentDir (e : E)
  | OpenFailed (e : E)
  | PragmaFailed (text : string) (e : E)
  | MigrateFailed (e : E)
  | CreateIndexFailed (e : E)
  | LogFailed (e : E)
  | SumFailed (since : Z) (e : E)
  | KeySumFailed (key : string) (since : Z) (e : E)
  | GetFailed (e : E)
  | SeedFailed (e : E)
  | UpdateFailed (e : E)
  | SeedPricesFailed (e : E)
  | ListFailed (e : E)
  | CloseFailed (e : E).
Arguments NilHandle {E}.
Arguments CreateParentDir {E} _.
Arguments OpenFailed {E} _.
Arguments PragmaFailed {E} _ _.
Arguments MigrateFailed {E} _.
Arguments CreateIndexFailed {E} _.
Arguments LogFailed {E} _.
Arguments SumFailed {E} _ _.
Arguments KeySumFailed {E} _ _ _.
Arguments GetFailed {E} _.
Arguments SeedFailed {E} _.
Arguments UpdateFailed {E} _.
Arguments SeedPricesFailed {E} _.
Arguments ListFailed {E} _.
Arguments CloseFailed {E} _.

(** fmt.Errorf("...: %w", err). *)
Definition wrap_err {E E' A} (f : E -> E') (r : result E A) : result E' A :=
  match r with Ok a => Ok a | Err e => Err (f e) end.
Definition check_err {E E'} (f : E -> E') (e : option E) : result E' unit :=
  match e with None => Ok tt | Some e => Err (f e) end.

Section Operations.
Context {G E : Type} `{Gorm G E}.
Abbreviation err := (sqlite_error E).

Definition pragmas : list string :=
  ["PRAGMA journal_mode = WAL"; "PRAGMA synchronous = NORMAL"; "PRAGMA busy_timeout = 5000"].

Fixpoint exec_pragmas (g : G) (ps : list string) : result err G :=
  match ps with
  | [] => Ok g
  | p :: ps' => let* g := wrap_err (PragmaFailed p) (g_Exec g (Pragma p)) in exec_pragmas g ps'
  end.

Definition Open (path : list byte) : result err (DB G) :=
  let path := match path with [] => bytes_of_string "finops.db" | _ => path end in
  let dir := filepath_Dir path in
  let* _ := if bool_decide (dir = bytes_of_string ".") then Ok tt
            else check_err CreateParentDir (os_MkdirAll dir) in
  let* g := wrap_err OpenFailed (gorm_Open path) in
  let* _ := check_err OpenFailed (g_DB g) in
  let g := g_SetMaxOpenConns g 1 in
  let* g := exec_pragmas g pragmas in
  let* g := wrap_err MigrateFailed (g_AutoMigrate g [RequestLogs; ModelPrices; Settings]) in
  let* g := wrap_err CreateIndexFailed
    (g_Exec g (CreateIndex "idx_request_logs_actual_time" RequestLogs ["is_loop_blocked"; "timestamp"])) in
  let* g := wrap_err CreateIndexFailed
    (g_Exec g (CreateIndex "idx_request_logs_key_actual_time" RequestLogs
                 ["key_id"; "is_loop_blocked"; "timestamp"])) in
  let* g := wrap_err CreateIndexFailed
    (g_Exec g (CreateIndex "idx_model_prices_provider" ModelPrices ["provider"])) in
  Ok {| gorm := Some g |}.

(** The handle of a method call. *)
Definition with_handle {A} (d : DB G) (k : G -> DB G * result err A) : DB G * result err A :=
  match gorm d with None => (d, Err NilHandle) | Some g => k g end.

(** The outcome of a write. *)
Definition written {A} (f : E -> err) (a : A) (r : G * option E) : DB G * result err A :=
  let '(g, e) := r in (Build_DB (Some g), match e with None => Ok a | Some e => Err (f e) end).

Definition log_row (r : RequestRecord) : requestLog :=
  {| l_ID := 0; l_AgentID := r_AgentID r; l_KeyID := r_KeyID r; l_ProjectName := r_ProjectName r;
     l_Model := r_Model r; l_PromptTokens := r_PromptTokens r;
     l_CompletionTokens := r_CompletionTokens r; l_CostUSD := r_CostUSD r;
     l_IsLoopBlocked := r_IsLoopBlocked r; l_Timestamp := r_Timestamp r |}.

Definition sqlite_LogRequest (d : DB G) (r : RequestRecord) : DB G * result err unit :=
  with_handle d (fun g => written LogFailed tt (g_CreateLog g (log_row r))).

Definition sqlite_SumActualCostSince (d : DB G) (since : Z) : result err Z :=
  (with_handle d (fun g =>
     (d, wrap_err (SumFailed since) (g_SumCost g [IsLoopBlocked false; TimestampFrom since])))).2.

Definition sqlite_SumActualCostForKeySince (d : DB G) (keyID : string) (since : Z) : result err Z :=
  (with_handle d (fun g =>
     (d, wrap_err (KeySumFailed keyID since)
           (g_SumCost g [KeyIs keyID; IsLoopBlocked false; TimestampFrom since])))).2.

Definition public_settings (row : settings_row) : SettingsRow :=
  {| LoopThresholdCount := s_LoopThresholdCount row;
     CostAlertThresholdMicro := s_CostAlertThresholdMicro row |}.

Definition sqlite_GetSettings (d : DB G) (now : Z) : DB G * result err SettingsRow :=
  with_handle d (fun g =>
    match g_FirstSettings g 1 with
    | Ok (Some row) => (d, Ok (public_settings row))
    | Err e => (d, Err (GetFailed e))
    | Ok None =>
        let seed := {| s_ID := 1; s_LoopThresholdCount := DefaultLoopThreshold;
                       s_CostAlertThresholdMicro := 0; s_UpdatedAt := time_unix now |} in
        written SeedFailed (public_settings seed) (g_CreateSettings g seed)
    end).

Definition update_columns : list string :=
  ["loop_threshold_count"; "cost_alert_threshold_micro"; "updated_at"].

Definition sqlite_UpdateSettings (d : DB G) (now : Z) (s : SettingsRow) : DB G * result err unit :=
  with_handle d (fun g =>
    written UpdateFailed tt
      (g_UpsertSettings g
         {| s_ID := 1; s_LoopThresholdCount := LoopThresholdCount s;
            s_CostAlertThresholdMicro := CostAlertThresholdMicro s; s_UpdatedAt := time_unix now |}
         update_columns)).

(** [now i] is the clock when the i-th row is stamped. *)
Definition price_row (now : nat -> Z) (i : nat) (r : PriceRow) : modelPrice :=
  {| m_Model := pr_Model r; m_Provider := pr_Provider r; m_InputMicroUSD := pr_InputMicroUSD r;
     m_OutputMicroUSD := pr_OutputMicroUSD r; m_Source := pr_Source r;
     m_UpdatedAt := time_unix (now i) |}.

Definition SeedModelPrices (d : DB G) (now : nat -> Z) (rows : list PriceRow) : DB G * result err unit :=
  if Z.of_nat (length rows) =? 0 then (d, Ok tt)
  else with_handle d (fun g => written SeedPricesFailed tt (g_InsertPrices g (imap (price_row now) rows))).

Definition public_price (r : modelPrice) : PriceRow :=
  {| pr_Model := m_Model r; pr_Provider := m_Provider r; pr_InputMicroUSD := m_InputMicroUSD r;
     pr_OutputMicroUSD := m_OutputMicroUSD r; pr_Source := m_Source r |}.

Definition ListModelPrices (d : DB G) : result err (list PriceRow) :=
  (with_handle d (fun g =>
     (d, wrap_err ListFailed (let* rows := g_FindPrices g in Ok (public_price <$> rows))))).2.

Definition sqlite_Close (d : DB G) : DB G * result err unit :=
  match gorm d with
  | None => (d, Ok tt)
  | Some g =>
      match g_DB g with
      | Some e => (d, Err (CloseFailed e))
      | None => ({| gorm := None |}, check_err CloseFailed (g_Close g))
      end
  end.
End Operations.

(** proxy.Store *)
Definition succeeded {E A} (r : result E A) : bool := match r with Ok _ => true | Err _ => false end.
Definition to_option {E A} (r : result E A) : option A := match r with Ok a => Some a | Err _ => None end.

#[export] Instance sqlite_RequestLogStore {G E} `{Gorm G E} : RequestLogStore (DB G) :=
  {| LogRequest d r := let '(d', res) := sqlite_LogRequest d r in (d', succeeded res) |}.
#[export] Instance sqlite_BudgetLedger {G E} `{Gorm G E} : BudgetLedger (DB G) :=
  {| SumActualCostSince d since := to_option (sqlite_SumActualCostSince d since);
     SumActualCostForKeySince d key since := to_option (sqlite_SumActualCostForKeySince d key since) |}.
#[export] Instance sqlite_SettingsStore {G E} `{Gorm G E} : SettingsStore (DB G) :=
  {| GetSettings d now := let '(d', res) := sqlite_GetSettings d now in (d', to_option res);
     UpdateSettings d now s := let '(d', res) := sqlite_UpdateSettings d now s in (d', succeeded res) |}.

(** ** The documented behaviour of the database *)

Definition satisfies (c : condition) (r : requestLog) : bool :=
  match c with
  | IsLoopBlocked b => Bool.eqb (l_IsLoopBlocked r) b
  | TimestampFrom since => since <=? l_Timestamp r
  | KeyIs key => String.eqb (l_KeyID r) key
  end.

(** The costs of the rows a WHERE clause selects. *)
Definition selected (cs : list condition) (rows : list requestLog) : list Z :=
  l_CostUSD <$> filter (fun r => forallb (fun c => satisfies c r) cs = true) rows.

Definition with_ID (r : requestLog) (id : Z) : requestLog :=
  {| l_ID := id; l_AgentID := l_AgentID r; l_KeyID := l_KeyID r; l_ProjectName := l_ProjectName r;
     l_Model := l_Model r; l_PromptTokens := l_PromptTokens r;
     l_CompletionTokens := l_CompletionTokens r; l_CostUSD := l_CostUSD r;
     l_IsLoopBlocked := l_IsLoopBlocked r; l_Timestamp := l_Timestamp r |}.

(** gorm's Create replaces a zero field by the default its tag declares
    (loop_threshold_count: 2, cost_alert_threshold_micro: 0). *)
Definition with_defaults (row : settings_row) : settings_row :=
  {| s_ID := s_ID row;
     s_LoopThresholdCount := if s_LoopThresholdCount row =? 0 then 2 else s_LoopThresholdCount row;
     s_CostAlertThresholdMicro := s_CostAlertThresholdMicro row; s_UpdatedAt := s_UpdatedAt row |}.

(** DO UPDATE SET of the given columns from the excluded row. *)
Definition assign_columns (cols : list string) (old new : settings_row) : settings_row :=
  let pick (c : string) (f : settings_row -> Z) := if bool_decide (c ∈ cols) then f new else f old in
  {| s_ID := s_ID old; s_LoopThresholdCount := pick "loop_threshold_count" s_LoopThresholdCount;
     s_CostAlertThresholdMicro := pick "cost_alert_threshold_micro" s_CostAlertThresholdMicro;
     s_UpdatedAt := pick "updated_at" s_UpdatedAt |}.

(** INSERT OR IGNORE of one row. *)
Definition insert_or_ignore (m : gmap string modelPrice) (r : modelPrice) : gmap string modelPrice :=
  match m !! m_Model r with Some _ => m | None => <[m_Model r := r]> m end.

(** COLLATE NOCASE: the ASCII letters up to case, otherwise byte by byte. *)
Definition nocase (s : string) : string := string_of_bytes (to_lower (bytes_of_string s)).
Definition nocase_le (x y : modelPrice) : Prop := String.leb (nocase (m_Model x)) (nocase (m_Model y)) = true.
#[export] Instance nocase_le_dec : RelDecision nocase_le.
Proof. unfold nocase_le. intros x y. apply _. Defined.

(** The three tables behind a handle, and whether the engine is up: then statements succeed,
    unless the data forbid it. *)
Class TablesView (G : Type) := {
  v_logs : G -> list requestLog;
  v_settings : G -> gmap Z settings_row;
  v_prices : G -> gmap string modelPrice;
  v_up : G -> Prop
}.

Definition same_tables {G} `{TablesView G} (g g' : G) : Prop :=
  v_logs g' = v_logs g /\ v_settings g' = v_settings g /\ v_prices g' = v_prices g.

Class GormLaws (G E : Type) `{Gorm G E, TablesView G} := {
  (* A failed statement changes nothing. *)
  law_create_log g row :
    let '(g', e) := g_CreateLog g row in
    match e with
    | None => (exists id, v_logs g' = v_logs g ++ [with_ID row id])
              /\ v_settings g' = v_settings g /\ v_prices g' = v_prices g
    | Some _ => same_tables g g'
    end;
  (* SUM of no rows is NULL; a sum that does not fit an int64 is an error. *)
  law_sum g cs total :
    g_SumCost g cs = Ok total -> total = sumZ (selected cs (v_logs g)) /\ in_int64 total;
  law_first g id row : g_FirstSettings g id = Ok row -> row = v_settings g !! id;
  law_create_settings g row :
    let '(g', e) := g_CreateSettings g row in
    match e with
    | None => v_settings g' = <[s_ID row := with_defaults row]> (v_settings g)
              /\ v_logs g' = v_logs g /\ v_prices g' = v_prices g
    | Some _ => same_tables g g'
    end;
  law_upsert_settings g row cols :
    let '(g', e) := g_UpsertSettings g row cols in
    match e with
    | None =>
        v_settings g' = <[s_ID row := match v_settings g !! s_ID row with
                                      | Some old => assign_columns cols old (with_defaults row)
                                      | None => with_defaults row end]> (v_settings g)
        /\ v_logs g' = v_logs g /\ v_prices g' = v_prices g
    | Some _ => same_tables g g'
    end;
  law_insert_prices g rows :
    let '(g', e) := g_InsertPrices g rows in
    match e with
    | None => v_prices g' = foldl insert_or_ignore (v_prices g) rows
              /\ v_logs g' = v_logs g /\ v_settings g' = v_settings g
    | Some _ => same_tables g g'
    end;
  law_find_prices g rows :
    g_FindPrices g = Ok rows -> rows ≡ₚ (map_to_list (v_prices g)).*2 /\ Sorted nocase_le rows;
  (* Availability. *)
  law_up_log g row : v_up g -> (g_CreateLog g row).2 = None /\ v_up (g_CreateLog g row).1;
  law_up_sum g cs :
    v_up g -> in_int64 (sumZ (Z.abs <$> selected cs (v_logs g))) ->
    exists total, g_SumCost g cs = Ok total;
  law_up_first g id : v_up g -> exists row, g_FirstSettings g id = Ok row;
  law_up_create_settings g row :
    v_up g -> v_settings g !! s_ID row = None ->
    (g_CreateSettings g row).2 = None /\ v_up (g_CreateSettings g row).1;
  law_up_upsert g row cols :
    v_up g -> (g_UpsertSettings g row cols).2 = None /\ v_up (g_UpsertSettings g row cols).1;
  law_up_prices g rows :
    v_up g -> (g_InsertPrices g rows).2 = None /\ v_up (g_InsertPrices g rows).1;
  law_up_find g : v_up g -> exists rows, g_FindPrices g = Ok rows
}.

(** ** The store against the memory store *)

Definition record_of (l : requestLog) : RequestRecord :=
  {| r_AgentID := l_AgentID l; r_KeyID := l_KeyID l; r_ProjectName := l_ProjectName l;
     r_Model := l_Model l; r_PromptTokens := l_PromptTokens l;
     r_CompletionTokens := l_CompletionTokens l; r_CostUSD := l_CostUSD l;
     r_IsLoopBlocked := l_IsLoopBlocked l; r_Timestamp := l_Timestamp l |}.

Inductive store_op :=
  | OpLog (r : RequestRecord)
  | OpSum (since : Z)
  | OpKeySum (key : string) (since : Z)
  | OpGet (now : Z)
  | OpUpdate (now : Z) (s : SettingsRow).

Inductive store_answer :=
  | Done
  | Summed (z : Z)
  | Row (s : SettingsRow)
  | Failed.

#[export] Instance SettingsRow_eq_dec : EqDecision SettingsRow.
Proof. solve_decision. Defined.
#[export] Instance store_answer_eq_dec : EqDecision store_answer.
Proof. solve_decision. Defined.

(** One operation through the interfaces of Store.v, whatever the store. *)
Definition store_exec {S} `{RequestLogStore S, BudgetLedger S, SettingsStore S} (s : S) (o : store_op) :
    S * store_answer :=
  match o with
  | OpLog r => let '(s', ok) := LogRequest s r in (s', if ok then Done else Failed)
  | OpSum since => (s, match SumActualCostSince s since with Some z => Summed z | None => Failed end)
  | OpKeySum key since =>
      (s, match SumActualCostForKeySince s key since with Some z => Summed z | None => Failed end)
  | OpGet now => let '(s', row) := GetSettings s now in
      (s', match row with Some r => Row r | None => Failed end)
  | OpUpdate now row => let '(s', ok) := UpdateSettings s now row in (s', if ok then Done else Failed)
  end.

Fixpoint store_run {S} `{RequestLogStore S, BudgetLedger S, SettingsStore S} (s : S) (l : list store_op) :
    S * list store_answer :=
  match l with
  | [] => (s, [])
  | o :: l' =>
      let '(s1, a) := store_exec s o in
      let '(s2, answers) := store_run s1 l' in (s2, a :: answers)
  end.

(** The reference: the memory store runs exactly the operations that did not fail, and has
    to give their answers. *)
Fixpoint replay (m : MemoryStore) (l : list store_op) (answers : list store_answer) : option MemoryStore :=
  match l, answers with
  | [], [] => Some m
  | o :: l', a :: answers' =>
      match a with
      | Failed => replay m l' answers'
      | _ => let '(m', b) := store_exec m o in
             if decide (a = b) then replay m' l' answers' else None
      end
  | _, _ => None
  end.

Section Refinement.
Context {G E : Type} `{GormLaws G E}.
Implicit Types (g : G) (m : MemoryStore).

Definition settings_of (row : option settings_row) : SettingsRow :=
  match row with
  | Some r => public_settings r
  | None => {| LoopThresholdCount := 2; CostAlertThresholdMicro := 0 |}
  end.

(** The tables hold the memory store's rows and its settings. *)
Definition related g m : Prop :=
  record_of <$> v_logs g = Store.logs m /\ settings_of (v_settings g !! 1) = memory_GetSettings m.

Lemma related_same g g' m : same_tables g g' -> related g m -> related g' m.
Proof. intros (Hl & Hs & _) [H1' H2']. split; by rewrite ?Hl, ?Hs. Qed.

Lemma record_of_log_row r id : record_of (with_ID (log_row r) id) = r.
Proof. by destruct r. Qed.

(** A WHERE clause that means [f] on the rows selects what the reference ledger counts. *)
Lemma selected_counted cs (f : RequestRecord -> bool) (rows : list requestLog) :
  (forall r, forallb (fun c => satisfies c r) cs = f (record_of r)) ->
  selected cs rows = r_CostUSD <$> filter (fun r => f r = true) (record_of <$> rows).
Proof.
  intros Hf. unfold selected. induction rows as [|r rows IH]; [done|].
  rewrite fmap_cons, !filter_cons, Hf. destruct (f (record_of r)).
  - rewrite !decide_True by done. by rewrite !fmap_cons, IH.
  - by rewrite !decide_False by done.
Qed.

Lemma where_all since r :
  forallb (fun c => satisfies c r) [IsLoopBlocked false; TimestampFrom since] = counted since (record_of r).
Proof. unfold counted. cbn. rewrite andb_true_r. by destruct (l_IsLoopBlocked r). Qed.

Lemma where_key key since r :
  forallb (fun c => satisfies c r) [KeyIs key; IsLoopBlocked false; TimestampFrom since]
  = counted_for key since (record_of r).
Proof.
  change (String.eqb (l_KeyID r) key
    && forallb (fun c => satisfies c r) [IsLoopBlocked false; TimestampFrom since]
    = counted_for key since (record_of r)).
  rewrite where_all, andb_comm. unfold counted_for. f_equal.
  destruct (String.eqb_spec (l_KeyID r) key) as [Heq|Hne]; symmetry;
    [by apply bool_decide_eq_true_2|by apply bool_decide_eq_false_2].
Qed.

(** ** Refinement *)

(** A threshold of zero does not survive the write (see [zero_threshold_lost]). *)
Definition representable (o : store_op) : Prop :=
  match o with OpUpdate _ row => LoopThresholdCount row <> 0 | _ => True end.

(** The absolute spend of the table; as long as it fits an int64, every sum does. *)
Definition volume g : Z := sumZ ((fun r => Z.abs (l_CostUSD r)) <$> v_logs g).
Definition op_volume (o : store_op) : Z := match o with OpLog r => Z.abs (r_CostUSD r) | _ => 0 end.

Lemma selected_volume cs (rows : list requestLog) :
  0 <= sumZ (Z.abs <$> selected cs rows) <= sumZ ((fun r => Z.abs (l_CostUSD r)) <$> rows).
Proof.
  unfold selected. induction rows as [|r rows IH]; [done|]. rewrite filter_cons.
  case_decide; csimpl; lia.
Qed.

(** An answered operation does what the reference does; a failed one does nothing; and on an
    engine that is up none fails. *)
Definition simulates g m (o : store_op) (g' : G) (a : store_answer) : Prop :=
  match a with
  | Failed => related g' m
  | _ => a = (store_exec m o).2 /\ related g' (store_exec m o).1
  end
  /\ (v_up g -> volume g <= int64_max -> a <> Failed /\ v_up g' /\ volume g' = volume g + op_volume o).

Lemma sim_log g m r :
  related g m ->
  let '(g', e) := g_CreateLog g (log_row r) in
  simulates g m (OpLog r) g' (match e with Some _ => Failed | None => Done end).
Proof.
  intros Hrel. pose proof (law_create_log g (log_row r)) as Hl. pose proof (law_up_log g (log_row r)) as Hu.
  destruct (g_CreateLog g (log_row r)) as [g' [e|]]; cbn [fst snd] in *.
  - split; [by eapply related_same|]. intros Hup. by destruct (Hu Hup).
  - destruct Hl as ([id Hid] & Hs & _). destruct Hrel as [Hlogs Hset]. split.
    + cbn. split; [done|]. split; cbn; [|by rewrite Hs].
      by rewrite Hid, fmap_app, Hlogs, fmap_cons, record_of_log_row.
    + intros Hup _. split; [done|]. split; [by apply Hu|]. unfold volume. rewrite Hid, fmap_app, sumZ_app.
      cbn. lia.
Qed.

Lemma sim_sum g m cs (f : RequestRecord -> bool) o :
  related g m ->
  (forall r, forallb (fun c => satisfies c r) cs = f (record_of r)) ->
  store_exec m o = (m, Summed (wrap64 (sumZ (r_CostUSD <$> filter (fun r => f r = true) (Store.logs m))))) ->
  op_volume o = 0 ->
  simulates g m o g (match g_SumCost g cs with Ok z => Summed z | Err _ => Failed end).
Proof.
  intros Hrel Hf Hm Hv. pose proof (selected_counted cs f (v_logs g) Hf) as Hsel.
  destruct Hrel as [Hlogs Hset]. rewrite Hlogs in Hsel. split.
  - destruct (g_SumCost g cs) as [z|e] eqn:Hz; [|by split]. rewrite Hm. cbn.
    apply law_sum in Hz as [-> Hr]. rewrite <- Hsel. by rewrite wrap64_id.
  - intros Hup Hvol. destruct (selected_volume cs (v_logs g)) as [Hn Hle].
    destruct (law_up_sum g cs Hup) as [z ->].
    { unfold in_int64, int64_min, volume in *. lia. }
    rewrite Hv. split_and!; [done|done|lia].
Qed.

Lemma sim_get g m now :
  related g m ->
  let '(d', res) := sqlite_GetSettings (Build_DB (Some g)) now in
  exists g', d' = Build_DB (Some g')
    /\ simulates g m (OpGet now) g' (match res with Ok r => Row r | Err _ => Failed end).
Proof.
  intros [Hlogs Hset]. unfold sqlite_GetSettings, with_handle. cbn [gorm].
  pose proof (law_first g 1) as Hf. pose proof (law_up_first g 1) as Huf.
  destruct (g_FirstSettings g 1) as [[row|]|e].
  - exists g. split; [done|]. rewrite <- (Hf _ eq_refl) in Hset. split.
    + cbn in *. split; [by rewrite Hset|]. split; [done|]. by rewrite <- (Hf _ eq_refl).
    + intros Hup _. split_and!; [done|done|cbn; lia].
  - specialize (Hf _ eq_refl). set (seed := Build_settings_row _ _ _ _).
    pose proof (law_create_settings g seed) as Hc. pose proof (law_up_create_settings g seed) as Huc.
    rewrite <- Hf in Hset. destruct (g_CreateSettings g seed) as [g' [e|]]; cbn [fst snd] in *;
      (exists g'; split; [done|]).
    + split; [apply (related_same _ _ _ Hc); split; by rewrite <- ?Hf|].
      intros Hup. destruct (Huc Hup); [by symmetry|done].
    + destruct Hc as (Hs & Hl & _). split.
      * cbn in *. split; [by rewrite <- Hset|]. split; [by rewrite Hl|].
        rewrite Hs, lookup_insert_eq. by rewrite <- Hset.
      * intros Hup _. split; [done|]. split; [apply Huc; [done|by symmetry]|].
        unfold volume. rewrite Hl. cbn. lia.
  - exists g. split; [done|]. split; [by split|]. intros Hup. by destruct (Huf Hup).
Qed.

Lemma sim_update g m now row :
  related g m -> LoopThresholdCount row <> 0 ->
  let '(d', res) := sqlite_UpdateSettings (Build_DB (Some g)) now row in
  exists g', d' = Build_DB (Some g')
    /\ simulates g m (OpUpdate now row) g' (match res with Ok _ => Done | Err _ => Failed end).
Proof.
  intros [Hlogs Hset] Hne. unfold sqlite_UpdateSettings, with_handle. cbn [gorm].
  set (new := Build_settings_row _ _ _ _).
  pose proof (law_upsert_settings g new update_columns) as Hu.
  pose proof (law_up_upsert g new update_columns) as Huu.
  destruct (g_UpsertSettings g new update_columns) as [g' [e|]]; cbn [fst snd] in *;
    (exists g'; split; [done|]).
  - split; [by apply (related_same _ _ _ Hu)|]. intros Hup. by destruct (Huu Hup).
  - destruct Hu as (Hs & Hl & _). split.
    + cbn. split; [done|]. split; [by rewrite Hl|]. rewrite Hs. cbn [s_ID new]. rewrite lookup_insert_eq.
      cbn [settings_of memory_GetSettings memory_UpdateSettings haveSet settings].
      assert (public_settings (with_defaults new) = row) as Hd.
      { unfold with_defaults, public_settings. cbn. zcase (LoopThresholdCount row =? 0). by destruct row. }
      destruct (v_settings g !! 1); done.
    + intros Hup _. split; [done|]. split; [by apply Huu|]. unfold volume. rewrite Hl. cbn. lia.
Qed.

Lemma sim_step g m o :
  related g m -> representable o ->
  exists g', (store_exec (Build_DB (Some g)) o).1 = Build_DB (Some g')
             /\ simulates g m o g' (store_exec (Build_DB (Some g)) o).2.
Proof.
  intros Hrel Hrep. destruct o as [r|since|key since|now|now row]; cbn [store_exec].
  - cbn. pose proof (sim_log g m r Hrel) as Hs. destruct (g_CreateLog g (log_row r)) as [g' [e|]];
      by exists g'.
  - exists g. split; [done|]. cbn.
    pose proof (sim_sum g m _ _ (OpSum since) Hrel (where_all since)) as Hs.
    destruct (g_SumCost g _); apply Hs; try done; cbn; by rewrite memory_sum_filter.
  - exists g. split; [done|]. cbn.
    pose proof (sim_sum g m _ _ (OpKeySum key since) Hrel (where_key key since)) as Hs.
    destruct (g_SumCost g _); apply Hs; try done; cbn; by rewrite memory_key_sum_filter.
  - cbn [GetSettings sqlite_SettingsStore]. pose proof (sim_get g m now Hrel) as Hs.
    destruct (sqlite_GetSettings _ now) as [d' [r|e]]; destruct Hs as (g' & -> & Hs); by exists g'.
  - cbn [UpdateSettings sqlite_SettingsStore]. pose proof (sim_update g m now row Hrel Hrep) as Hs.
    destruct (sqlite_UpdateSettings _ now row) as [d' [r|e]]; destruct Hs as (g' & -> & Hs); by exists g'.
Qed.

(** C9. The SQLite store refines the memory store: over any sequence of log, sum and settings
    operations, whichever of them fail, what the database answers is what the memory store
    answers to the operations that did not fail, and afterwards both hold the same rows and
    the same settings; and on an engine that is up, with a spend that fits an int64, no
    operation fails. (A threshold of zero is outside the claim: see zero_threshold_lost.) *)
Theorem sqlite_refines_memory g m l :
  related g m -> Forall representable l ->
  let '(d, answers) := store_run (Build_DB (Some g)) l in
  exists g' m', d = Build_DB (Some g') /\ replay m l answers = Some m' /\ related g' m'
    /\ (v_up g -> volume g + sumZ (op_volume <$> l) <= int64_max -> Forall (fun a => a <> Failed) answers).
Proof.
  intros Hrel Hrep. revert g m Hrel. induction Hrep as [|o l Ho Hrep IH]; intros g m Hrel; cbn [store_run].
  { exists g, m. split_and!; [done..|]. by constructor. }
  destruct (sim_step g m o Hrel Ho) as (g1 & Hd & Hsim & Hup).
  destruct (store_exec (Build_DB (Some g)) o) as [d1 a]. cbn [fst snd] in *. subst d1.
  destruct (store_exec m o) as [m1 b] eqn:Em.
  assert (exists m2, related g1 m2 /\ forall answers, replay m (o :: l) (a :: answers) = replay m2 l answers)
    as (m2 & Hrel2 & Hreplay).
  { destruct a; [exists m1..|by exists m]; cbn [fst snd] in Hsim; destruct Hsim as [<- Hr];
      (split; [done|]); intros answers; cbn [replay]; rewrite Em; by rewrite decide_True. }
  specialize (IH g1 m2 Hrel2). destruct (store_run (Build_DB (Some g1)) l) as [d2 answers].
  destruct IH as (g' & m' & -> & Hr & Hrel' & Hall). exists g', m'. rewrite Hreplay.
  split_and!; [done..|]. rewrite fmap_cons. cbn [sumZ foldr]. intros Hu Hvol.
  assert (0 <= sumZ (op_volume <$> l)) as Hpos.
  { clear. induction l as [|o l IH]; [done|]. csimpl. destruct o; cbn [op_volume]; lia. }
  assert (0 <= op_volume o) by (destruct o; cbn [op_volume]; lia).
  destruct (Hup Hu ltac:(lia)) as (Ha & Hu1 & Hv1). constructor; [done|]. apply Hall; [done|]. lia.
Qed.

(** With loop_threshold_count declared default:2, gorm writes 2 for a threshold of zero, so
    it is not the row the settings interface was given. *)
Lemma zero_threshold_lost g now t row :
  LoopThresholdCount row = 0 ->
  match sqlite_UpdateSettings (Build_DB (Some g)) now row with
  | (d', Ok _) =>
      forall r, (sqlite_GetSettings d' t).2 = Ok r -> LoopThresholdCount r = 2
  | (_, Err _) => True
  end.
Proof.
  intros Hz. unfold sqlite_UpdateSettings, with_handle. cbn [gorm].
  set (new := Build_settings_row _ _ _ _).
  pose proof (law_upsert_settings g new update_columns) as Hu.
  destruct (g_UpsertSettings g new update_columns) as [g' [e|]]; cbn; [done|].
  destruct Hu as (Hs & _). intros r. unfold sqlite_GetSettings, with_handle. cbn [gorm].
  pose proof (law_first g' 1) as Hf. rewrite Hs in Hf. cbn [s_ID new] in Hf. rewrite lookup_insert_eq in Hf.
  destruct (g_FirstSettings g' 1) as [row'|]; [|done].
  rewrite (Hf _ eq_refl). cbn. intros [= <-].
  destruct (v_settings g !! 1); cbn; by rewrite Hz.
Qed.

End Refinement.

(** ** The price book *)

Lemma insert_or_ignore_lookup (m : gmap string modelPrice) rows k :
  foldl insert_or_ignore m rows !! k
  = match m !! k with
    | Some r => Some r
    | None => head (filter (fun r => m_Model r = k) rows)
    end.
Proof.
  revert m. induction rows as [|r rows IH]; intros m; cbn [foldl]; [by destruct (m !! k)|].
  rewrite IH, filter_cons. unfold insert_or_ignore. destruct (decide (m_Model r = k)) as [<-|Hne].
  - destruct (m !! m_Model r) as [x|] eqn:Hm; [by rewrite Hm|]. by rewrite lookup_insert_eq.
  - destruct (m !! m_Model r); [done|]. by rewrite lookup_insert_ne.
Qed.

(** Every row is filed under its model. *)
Definition keyed (m : gmap string modelPrice) : Prop := map_Forall (fun k r => m_Model r = k) m.

Lemma keyed_inserts (m : gmap string modelPrice) rows : keyed m -> keyed (foldl insert_or_ignore m rows).
Proof.
  intros Hm k r Hk. rewrite insert_or_ignore_lookup in Hk. destruct (m !! k) as [x|] eqn:Hx.
  - injection Hk as <-. by apply Hm.
  - apply head_Some_elem_of, list_elem_of_filter in Hk. tauto.
Qed.

Lemma inserts_known (m : gmap string modelPrice) rows :
  Forall (fun r => is_Some (m !! m_Model r)) rows -> foldl insert_or_ignore m rows = m.
Proof.
  intros Hk. induction Hk as [|r rows [x Hx] _ IH]; [done|]. cbn [foldl].
  unfold insert_or_ignore at 2. by rewrite Hx.
Qed.

Lemma public_price_row now i r : public_price (price_row now i r) = r.
Proof. by destruct r. Qed.

(** The stamped rows of a model are the seeded rows of the model. *)
Lemma seeded_head (now : nat -> Z) rows k :
  public_price <$> head (filter (fun r => m_Model r = k) (imap (price_row now) rows))
  = head (filter (fun r => pr_Model r = k) rows).
Proof.
  revert now. induction rows as [|r rows IH]; intros now; [done|].
  rewrite imap_cons, !filter_cons. cbn [m_Model price_row]. destruct (decide (pr_Model r = k)).
  - cbn. by destruct r.
  - rewrite <- (IH (fun i => now (Datatypes.S i))). do 3 f_equal.
Qed.

(** The rows of a well-keyed table, in any order: one per model. *)
Lemma table_rows (m : gmap string modelPrice) rows :
  keyed m -> rows ≡ₚ (map_to_list m).*2 ->
  NoDup (m_Model <$> rows) /\ forall k, filter (fun r => m_Model r = k) rows = option_list (m !! k).
Proof.
  intros Hm Hp.
  assert (NoDup (m_Model <$> rows)) as Hnd.
  { rewrite Hp, <- list_fmap_compose.
    assert ((m_Model ∘ snd) <$> map_to_list m = (map_to_list m).*1) as ->; [|apply NoDup_fst_map_to_list].
    apply list_fmap_ext. intros i [k r] Hk%list_elem_of_lookup_2. apply elem_of_map_to_list in Hk. by apply Hm in Hk. }
  split; [done|]. intros k. destruct (m !! k) as [r|] eqn:Hk; cbn [option_list].
  - assert (r ∈ rows) as Hr.
    { rewrite Hp. apply (list_elem_of_fmap_2 snd _ (k, r)). by apply elem_of_map_to_list. }
    assert (m_Model r = k) as <- by (by apply Hm). by apply filter_unique.
  - apply filter_none. intros r Hr <-. rewrite Hp in Hr.
    apply list_elem_of_fmap in Hr as ([k' r'] & -> & Hin). apply elem_of_map_to_list in Hin.
    cbn in Hk. pose proof (Hm _ _ Hin) as Heq. cbn in Heq. by rewrite Heq, Hin in Hk.
Qed.

Section PriceBook.
Context {G E : Type} `{GormLaws G E}.
Implicit Type g : G.

(** One seeding on an engine that is up. *)
Lemma seed_run g now rows :
  v_up g ->
  exists g1, SeedModelPrices (Build_DB (Some g)) now rows = (Build_DB (Some g1), Ok tt) /\ v_up g1
    /\ v_prices g1 = foldl insert_or_ignore (v_prices g) (imap (price_row now) rows)
    /\ v_logs g1 = v_logs g /\ v_settings g1 = v_settings g.
Proof.
  intros Hup. unfold SeedModelPrices. destruct rows as [|r rows]; [by exists g|].
  replace (Z.of_nat (length (r :: rows)) =? 0) with false by done. unfold with_handle. cbn [gorm].
  destruct (law_up_prices g (imap (price_row now) (r :: rows)) Hup) as [He Hup'].
  pose proof (law_insert_prices g (imap (price_row now) (r :: rows))) as Hi.
  destruct (g_InsertPrices g _) as [g1 e]. cbn [fst snd] in *. subst e. by exists g1.
Qed.

(** C39. Seeding the price book never overwrites: once seeded, the book lists, for every model,
    exactly one row - the one it already had, or else the first of the seeded rows for the
    model - in case-insensitive order of the models, and nothing else; and seeding again
    changes no table. *)
Theorem price_book_seeded g now rows now' :
  v_up g -> keyed (v_prices g) ->
  exists g1 g2 listed,
    SeedModelPrices (Build_DB (Some g)) now rows = (Build_DB (Some g1), Ok tt)
    /\ ListModelPrices (Build_DB (Some g1)) = Ok listed
    /\ NoDup (pr_Model <$> listed)
    /\ Sorted (fun x y => String.leb (nocase (pr_Model x)) (nocase (pr_Model y)) = true) listed
    /\ (forall k, filter (fun r => pr_Model r = k) listed
         = option_list (match v_prices g !! k with
                        | Some r => Some (public_price r)
                        | None => head (filter (fun r => pr_Model r = k) rows) end))
    /\ SeedModelPrices (Build_DB (Some g1)) now' rows = (Build_DB (Some g2), Ok tt) /\ same_tables g1 g2.
Proof.
  intros Hup Hkeyed. destruct (seed_run g now rows Hup) as (g1 & Hs1 & Hup1 & Hp1 & _).
  destruct (seed_run g1 now' rows Hup1) as (g2 & Hs2 & _ & Hp2 & Hl2 & Hset2).
  pose proof (keyed_inserts _ (imap (price_row now) rows) Hkeyed) as Hk1. rewrite <- Hp1 in Hk1.
  destruct (law_up_find g1 Hup1) as [found Hf]. pose proof Hf as Hfl. apply law_find_prices in Hfl as [Hperm Hsort].
  destruct (table_rows _ found Hk1 Hperm) as [Hnd Hrows].
  exists g1, g2, (public_price <$> found). split_and!; [done| | | | |done|].
  - unfold ListModelPrices, with_handle. cbn. by rewrite Hf.
  - by rewrite <- list_fmap_compose.
  - clear -Hsort. induction Hsort as [|x l Hs IH Hh]; csimpl; constructor; [done|].
    by destruct Hh; constructor.
  - intros k. rewrite filter_fmap, (filter_agree _ (fun r => m_Model r = k)) by done.
    rewrite Hrows, Hp1, insert_or_ignore_lookup, <- (seeded_head now).
    destruct (v_prices g !! k); [done|]. by destruct (head _).
  - split_and!; [done..|]. rewrite Hp2. apply inserts_known, Forall_forall.
    intros r (i & r0 & -> & Hr0)%elem_of_lookup_imap_1. cbn [m_Model price_row].
    rewrite Hp1, insert_or_ignore_lookup. destruct (v_prices g !! pr_Model r0); [done|].
    apply fmap_is_Some with (f := public_price). rewrite seeded_head.
    destruct (filter _ rows) as [|x l] eqn:Hnil; [|done]. exfalso.
    apply list_elem_of_lookup_2 in Hr0.
    assert (r0 ∈ filter (fun r => pr_Model r = pr_Model r0) rows) as Hin by (by apply list_elem_of_filter).
    rewrite Hnil in Hin. by apply not_elem_of_nil in Hin.
Qed.
End PriceBook.

(** ** An implementation: tables in memory

    The engine may be down; it keeps the statements it executed. *)

Record Tables := {
  t_logs : list requestLog;
  t_settings : gmap Z settings_row;
  t_prices : gmap string modelPrice;
  t_executed : list ddl;
  t_down : bool
}.

Definition empty_tables : Tables :=
  {| t_logs := []; t_settings := ∅; t_prices := ∅; t_executed := []; t_down := false |}.

Definition fits64 (z : Z) : bool := (int64_min <=? z) && (z <=? int64_max).

(** A write of an engine that may be down. *)
Definition t_write (t : Tables) (ok : bool) (t' : Tables) : Tables * option unit :=
  if t_down t || negb ok then (t, Some tt) else (t', None).
Definition t_read {A} (t : Tables) (r : result unit A) : result unit A :=
  if t_down t then Err tt else r.

Definition set_logs (t : Tables) (l : list requestLog) : Tables :=
  {| t_logs := l; t_settings := t_settings t; t_prices := t_prices t; t_executed := t_executed t;
     t_down := t_down t |}.
Definition set_settings (t : Tables) (m : gmap Z settings_row) : Tables :=
  {| t_logs := t_logs t; t_settings := m; t_prices := t_prices t; t_executed := t_executed t;
     t_down := t_down t |}.
Definition set_prices (t : Tables) (m : gmap string modelPrice) : Tables :=
  {| t_logs := t_logs t; t_settings := t_settings t; t_prices := m; t_executed := t_executed t;
     t_down := t_down t |}.
Definition set_executed (t : Tables) (l : list ddl) : Tables :=
  {| t_logs := t_logs t; t_settings := t_settings t; t_prices := t_prices t; t_executed := l;
     t_down := t_down t |}.

#[export] Instance tables_gorm : Gorm Tables unit :=
  {| os_MkdirAll _ := None;
     gorm_Open _ := Ok empty_tables;
     g_DB _ := None;
     g_SetMaxOpenConns t _ := t;
     g_Exec t s := t_read t (Ok (set_executed t (t_executed t ++ [s])));
     g_AutoMigrate t _ := t_read t (Ok t);
     g_CreateLog t row :=
       t_write t true (set_logs t (t_logs t ++ [with_ID row (1 + Z.of_nat (length (t_logs t)))]));
     g_SumCost t cs :=
       let total := sumZ (selected cs (t_logs t)) in
       t_read t (if fits64 total then Ok total else Err tt);
     g_FirstSettings t id := t_read t (Ok (t_settings t !! id));
     g_CreateSettings t row :=
       t_write t (bool_decide (t_settings t !! s_ID row = None))
         (set_settings t (<[s_ID row := with_defaults row]> (t_settings t)));
     g_UpsertSettings t row cols :=
       t_write t true (set_settings t (<[s_ID row :=
         match t_settings t !! s_ID row with
         | Some old => assign_columns cols old (with_defaults row)
         | None => with_defaults row end]> (t_settings t)));
     g_InsertPrices t rows := t_write t true (set_prices t (foldl insert_or_ignore (t_prices t) rows));
     g_FindPrices t := t_read t (Ok (merge_sort nocase_le (map_to_list (t_prices t)).*2));
     g_Close _ := None |}.

#[export] Instance tables_view : TablesView Tables :=
  {| v_logs := t_logs; v_settings := t_settings; v_prices := t_prices; v_up t := t_down t = false |}.

Lemma fits64_spec z : fits64 z = true <-> in_int64 z.
Proof. unfold fits64, in_int64. rewrite andb_true_iff. lia. Qed.

Lemma sum_abs (l : list Z) : - sumZ (Z.abs <$> l) <= sumZ l <= sumZ (Z.abs <$> l).
Proof. induction l as [|z l IH]; csimpl; lia. Qed.

#[export] Instance nocase_le_total : Total nocase_le.
Proof.
  intros x y. unfold nocase_le. destruct (String.leb_total (nocase (m_Model x)) (nocase (m_Model y))); auto.
Qed.

#[export] Instance tables_laws : GormLaws Tables unit.
Proof.
  split; unfold same_tables; cbn; unfold t_write, t_read; intros t.
  - intros row. destruct (t_down t); cbn; split_and!; eauto.
  - intros cs total. destruct (t_down t); [done|]. destruct (fits64 _) eqn:Hf; [|done].
    apply fits64_spec in Hf. by intros [= <-].
  - intros id row. destruct (t_down t); [done|]. by intros [= <-].
  - intros row. destruct (t_down t || _); cbn; by split_and!.
  - intros row cols. destruct (t_down t || _); cbn; by split_and!.
  - intros rows. destruct (t_down t || _); cbn; by split_and!.
  - intros rows. destruct (t_down t); [done|]. intros [= <-]. split; [apply merge_sort_Permutation|].
    apply Sorted_merge_sort. apply _.
  - intros row Hup. rewrite Hup. done.
  - intros cs Hup Hr. rewrite Hup. exists (sumZ (selected cs (t_logs t))).
    fold (selected cs (t_logs t)) in Hr. revert Hr. generalize (selected cs (t_logs t)). intros l Hr. pose proof (sum_abs l).
    assert (fits64 (sumZ l) = true) as ->; [|done]. apply fits64_spec.
    unfold in_int64, int64_min, int64_max in *. lia.
  - intros id Hup. rewrite Hup. eauto.
  - intros row Hup Hn. rewrite Hup, bool_decide_eq_true_2 by done. done.
  - intros row cols Hup. rewrite Hup. done.
  - intros rows Hup. rewrite Hup. done.
  - intros Hup. rewrite Hup. eauto.
Qed.

(** Open migrates the core tables and executes exactly these statements, in this order. *)
Example open_executes :
  match Open (bytes_of_string "data/finops.db") with
  | Ok d => t_executed <$> gorm d
            = Some [Pragma "PRAGMA journal_mode = WAL"; Pragma "PRAGMA synchronous = NORMAL";
                    Pragma "PRAGMA busy_timeout = 5000";
                    CreateIndex "idx_request_logs_actual_time" RequestLogs ["is_loop_blocked"; "timestamp"];
                    CreateIndex "idx_request_logs_key_actual_time" RequestLogs
                      ["key_id"; "is_loop_blocked"; "timestamp"];
                    CreateIndex "idx_model_prices_provider" ModelPrices ["provider"]]
  | Err _ => False
  end.
Proof. vm_compute. reflexivity. Qed.

Definition sample_record (key : string) (cost ts : Z) (blocked : bool) : RequestRecord :=
  {| r_AgentID := "a"; r_KeyID := key; r_ProjectName := ""; r_Model := "m"; r_PromptTokens := 1;
     r_CompletionTokens := 1; r_CostUSD := cost; r_IsLoopBlocked := blocked; r_Timestamp := ts |}.

Definition sample_ops : list store_op :=
  [OpLog (sample_record "k" 30 100 false); OpLog (sample_record "k" 50 100 true);
   OpLog (sample_record "j" 7 200 false); OpSum 100; OpKeySum "k" 0; OpGet 0;
   OpUpdate 0 {| LoopThresholdCount := 5; CostAlertThresholdMicro := 9 |}; OpGet 0].

Lemma sqlite_refines_memory_witness :
  let '(d, answers) := store_run (Build_DB (Some empty_tables)) sample_ops in
  answers = [Done; Done; Done; Summed 37; Summed 30;
             Row {| LoopThresholdCount := 2; CostAlertThresholdMicro := 0 |}; Done;
             Row {| LoopThresholdCount := 5; CostAlertThresholdMicro := 9 |}]
  /\ exists g' m', d = Build_DB (Some g') /\ replay Store.New sample_ops answers = Some m' /\ related g' m'.
Proof.
  pose proof (sqlite_refines_memory (E := unit) empty_tables Store.New sample_ops) as Hr.
  assert ((store_run (Build_DB (Some empty_tables)) sample_ops).2
    = [Done; Done; Done; Summed 37; Summed 30;
       Row {| LoopThresholdCount := 2; CostAlertThresholdMicro := 0 |}; Done;
       Row {| LoopThresholdCount := 5; CostAlertThresholdMicro := 9 |}]) as Ha by (vm_compute; reflexivity).
  destruct (store_run (Build_DB (Some empty_tables)) sample_ops) as [d answers]. cbn [snd] in Ha.
  destruct Hr as (g' & m' & Hd & Hm & Hrel & _).
  - split; reflexivity.
  - repeat (apply Forall_cons_2; [first [exact I|discriminate]|]). apply Forall_nil_2.
  - split; [exact Ha|]. exists g', m'. split; [exact Hd|]. split; [exact Hm|exact Hrel].
Defined.

Definition sample_prices : list PriceRow :=
  [{| pr_Model := "b"; pr_Provider := ""; pr_InputMicroUSD := 2; pr_OutputMicroUSD := 3; pr_Source := "seed" |};
   {| pr_Model := "A"; pr_Provider := ""; pr_InputMicroUSD := 4; pr_OutputMicroUSD := 5; pr_Source := "seed" |};
   {| pr_Model := "b"; pr_Provider := ""; pr_InputMicroUSD := 9; pr_OutputMicroUSD := 9; pr_Source := "seed" |}].

Lemma price_book_seeded_witness :
  exists g1 listed,
    SeedModelPrices (Build_DB (Some empty_tables)) (fun _ => 0) sample_prices = (Build_DB (Some g1), Ok tt)
    /\ ListModelPrices (Build_DB (Some g1)) = Ok listed
    /\ filter (fun r => pr_Model r = "b") listed = take 1 sample_prices.
Proof.
  destruct (price_book_seeded (E := unit) empty_tables (fun _ => 0) sample_prices (fun _ => 0))
    as (g1 & g2 & listed & Hs & Hl & _ & _ & Hk & _).
  - reflexivity.
  - apply map_Forall_empty.
  - exists g1, listed. split; [exact Hs|]. split; [exact Hl|]. rewrite Hk. reflexivity.
Defined.
