(* ===== verification/Budget.v ===== *)
(** * pkg/proxy/budget.go and notifier.go: budget windows and the daily monitor *)

From S2P Require Import Prelude GoTime GoFloat.

(** ** The windows *)

Definition utcMonthStart (t : Z) : Z :=
  let '(y, m, _) := civil (day_of t) in date_unix y m 1.
Definition nextMonthStart (t : Z) : Z :=
  let '(y, m, _) := civil (day_of t) in date_unix y (m + 1) 1.
Definition utcDayStart (t : Z) : Z :=
  let '(y, m, d) := civil (day_of t) in date_unix y m d.
Definition nextDayStart (t : Z) : Z :=
  let '(y, m, d) := civil (day_of t) in date_unix y m (d + 1).

(** ** Events *)

Inductive EventType :=
  | EventLoopBlocked
  | EventBudgetLevel
  | EventSemanticLoop
  | EventIntentDrift
  | EventQuotaLevel.

Record Event := {
  ev_Type : EventType;
  ev_Timestamp : Z;
  ev_AgentID : string;
  ev_Project : string;
  ev_Model : string;
  ev_SavedCostMicro : Z;
  ev_Reason : string;
  ev_RetryAfter : Z;
  ev_BudgetMicroUSD : Z;
  ev_SpentMicroUSD : Z;
  ev_ThresholdPct : Z;
  ev_Similarity : float64;
  ev_IntentScore : float64;
  ev_QuotaKind : string;
  ev_QuotaID : string
}.

(** ** The monitor *)

Record BudgetConfig := {
  DailyBudgetMicro : Z;
  ThresholdPct : list Z
}.

(** [dayKey] is the calendar date the formatted key stands for, None for "". *)
Record BudgetMonitor := {
  cfg : BudgetConfig;
  thresholds : list Z;
  dayKey : option (Z * Z * Z);
  fired : gset Z
}.

Definition sanitize_step (acc : gset Z * list Z) (p : Z) : gset Z * list Z :=
  let '(seen, out) := acc in
  if (p <=? 0) || (100 <? p) || bool_decide (p ∈ seen) then acc
  else ({[p]} ∪ seen, out ++ [p]).

Definition sanitizeThresholds (l : list Z) : list Z :=
  merge_sort Z.le (foldl sanitize_step (∅, []) l).2.

Definition NewBudgetMonitor (c : BudgetConfig) : BudgetMonitor :=
  let ts := sanitizeThresholds (ThresholdPct c) in
  {| cfg := c;
     thresholds := if (DailyBudgetMicro c <=? 0) || (Z.of_nat (length ts) =? 0) then [] else ts;
     dayKey := None; fired := ∅ |}.

(** m.cfg.DailyBudgetMicro * int64(pct) / 100. *)
Definition thresholdMicro (c : BudgetConfig) (pct : Z) : Z :=
  Z.quot (wrap64 (DailyBudgetMicro c * pct)) 100.

Definition budget_event (c : BudgetConfig) (spent now pct : Z) : Event :=
  {| ev_Type := EventBudgetLevel; ev_Timestamp := time_unix now; ev_AgentID := "";
     ev_Project := ""; ev_Model := ""; ev_SavedCostMicro := 0; ev_Reason := "";
     ev_RetryAfter := 0; ev_BudgetMicroUSD := DailyBudgetMicro c; ev_SpentMicroUSD := spent;
     ev_ThresholdPct := pct; ev_Similarity := f64_zero; ev_IntentScore := f64_zero;
     ev_QuotaKind := ""; ev_QuotaID := "" |}.

(** The seam the request path evaluates the budget through. *)
Class BudgetSpender (B : Type) := {
  spend : B -> Z -> Z -> (Event -> bool) -> B * list Event
}.

(** One turn of the threshold loop: the fired set and the events offered to [emit]
    so far. *)
Definition spend_step (c : BudgetConfig) (spent now : Z) (emit : Event -> bool)
    (acc : gset Z * list Event) (pct : Z) : gset Z * list Event :=
  let '(fired, offered) := acc in
  if bool_decide (pct ∈ fired) then acc
  else if spent <? thresholdMicro c pct then acc
  else
    let ev := budget_event c spent now pct in
    (if emit ev then {[pct]} ∪ fired else fired, offered ++ [ev]).

(** Spend: the monitor after it and the events offered, in order. *)
Definition Spend (m : BudgetMonitor) (spent now : Z) (emit : Event -> bool) :
    BudgetMonitor * list Event :=
  if (Z.of_nat (length (thresholds m)) =? 0) || (DailyBudgetMicro (cfg m) <=? 0) then (m, [])
  else
    let day := Some (civil (day_of now)) in
    let fired0 := if bool_decide (dayKey m = day) then fired m else ∅ in
    let '(f, evs) := foldl (spend_step (cfg m) spent now emit) (fired0, []) (thresholds m) in
    ({| cfg := cfg m; thresholds := thresholds m; dayKey := day; fired := f |}, evs).

#[export] Instance BudgetMonitor_spender : BudgetSpender BudgetMonitor := {| spend := Spend |}.

(** ** Specification-level views *)

(** Successive evaluations, each with the spend, the clock and the sink's answers: the
    percentages of the events that were accepted. *)
Definition accepted (emit : Event -> bool) (evs : list Event) : list Z :=
  ev_ThresholdPct <$> filter (fun ev => emit ev = true) evs.

Fixpoint spend_seq (m : BudgetMonitor) (calls : list (Z * Z * (Event -> bool))) :
    BudgetMonitor * list Z :=
  match calls with
  | [] => (m, [])
  | (spent, now, emit) :: calls' =>
      let '(m1, evs) := Spend m spent now emit in
      let '(m2, ps) := spend_seq m1 calls' in (m2, accepted emit evs ++ ps)
  end.

(** ** The windows *)

Lemma window_bounds t :
  utcMonthStart t <= utcDayStart t <= time_unix t
  /\ time_unix t < nextDayStart t <= nextMonthStart t
  /\ nextDayStart t = utcDayStart t + 86400
  /\ 1 <= nextDayStart t - time_unix t /\ 1 <= nextMonthStart t - time_unix t.
Proof.
  unfold utcMonthStart, utcDayStart, nextDayStart, nextMonthStart, date_unix.
  pose proof (civil_spec (day_of t)) as Hc. pose proof (day_unix_bounds t) as Hd.
  destruct (civil (day_of t)) as [[y m] d]. destruct Hc as (Hday & Hm & Hd1 & Hfirst & Hnext).
  assert (date_day y m (d + 1) = day_of t + 1) as Hsucc.
  { rewrite <- Hday. unfold date_day. lia. }
  rewrite Hday, Hsucc, Hfirst.
  pose proof (day_unix_mono (day_of t - (d - 1)) (day_of t) ltac:(lia)).
  pose proof (day_unix_mono (day_of t + 1) (date_day y (m + 1) 1) ltac:(lia)).
  assert (day_unix (day_of t + 1) = day_unix (day_of t) + 86400)
    by (unfold day_unix, day_seconds; lia).
  lia.
Qed.

(** The budget windows: the current second lies in the half-open month and in the
    half-open day [start, next), the day is 86400 seconds long, the boundaries are
    midnights on the first of a month, and so the Retry-After of an exhausted budget
    is always at least one second. *)
Theorem budget_windows t :
  utcMonthStart t <= utcDayStart t <= time_unix t
  /\ time_unix t < nextDayStart t <= nextMonthStart t
  /\ nextDayStart t = utcDayStart t + 86400
  /\ 1 <= nextDayStart t - time_unix t /\ 1 <= nextMonthStart t - time_unix t.
Proof. exact (window_bounds t). Qed.

(** ** The thresholds *)

Lemma sanitize_fold l seen out :
  (forall p, p ∈ seen <-> p ∈ out) -> NoDup out ->
  let '(seen', out') := foldl sanitize_step (seen, out) l in
  (forall p, p ∈ seen' <-> p ∈ out') /\ NoDup out'
  /\ forall p, p ∈ out' <-> p ∈ out \/ (p ∈ l /\ 1 <= p <= 100).
Proof.
  revert seen out. induction l as [|q l IH]; intros seen out Hs Hnd; cbn [foldl].
  { split_and!; try done. set_solver. }
  assert (sanitize_step (seen, out) q
    = if (q <=? 0) || (100 <? q) || bool_decide (q ∈ seen) then (seen, out)
      else ({[q]} ∪ seen, out ++ [q])) as -> by done.
  destruct ((q <=? 0) || (100 <? q) || bool_decide (q ∈ seen)) eqn:E.
  - specialize (IH seen out Hs Hnd). destruct (foldl _ _ _) as [seen' out'].
    destruct IH as (Hs' & Hnd' & Hin). split_and!; try done. intros p. rewrite Hin.
    assert (q ∈ out \/ ~ 1 <= q <= 100) as Hq.
    { apply orb_true_iff in E as [E|E].
      - apply orb_true_iff in E as [E|E]; zbool; right; lia.
      - apply bool_decide_eq_true in E. left. by apply Hs. }
    set_solver.
  - apply orb_false_iff in E as [E Eq]. zbool. apply bool_decide_eq_false in Eq.
    specialize (IH ({[q]} ∪ seen) (out ++ [q]) ltac:(set_solver)).
    assert (NoDup (out ++ [q])) as Hnd1.
    { apply NoDup_app. split_and!; [done| |apply NoDup_singleton]. set_solver. }
    specialize (IH Hnd1). destruct (foldl _ _ _) as [seen' out'].
    destruct IH as (Hs' & Hnd' & Hin). split_and!; try done. intros p. rewrite Hin.
    rewrite elem_of_app, !elem_of_cons. destruct (decide (p = q)) as [->|]; [|set_solver].
    split; intros _; [right; split; [by left|lia]|left; right; by left].
Qed.

Lemma sanitize_spec l :
  Sorted Z.le (sanitizeThresholds l) /\ NoDup (sanitizeThresholds l)
  /\ forall p, p ∈ sanitizeThresholds l <-> p ∈ l /\ 1 <= p <= 100.
Proof.
  unfold sanitizeThresholds. pose proof (sanitize_fold l ∅ [] ltac:(set_solver) (NoDup_nil_2)) as H.
  destruct (foldl sanitize_step (∅, []) l) as [seen out]. destruct H as (_ & Hnd & Hin). cbn [snd].
  split_and!.
  - apply Sorted_merge_sort. intros x y. destruct (decide (x <= y)); [by left|right; lia].
  - by rewrite merge_sort_Permutation.
  - intros p. rewrite merge_sort_Permutation, Hin. set_solver.
Qed.

(** ** One evaluation *)

Lemma spend_fold c spent now emit l f evs :
  NoDup l ->
  let '(f', evs') := foldl (spend_step c spent now emit) (f, evs) l in
  let crossed := filter (fun p => (p ∉ f) /\ thresholdMicro c p <= spent) l in
  evs' = evs ++ (budget_event c spent now <$> crossed)
  /\ forall p, p ∈ f' <-> p ∈ f \/ (p ∈ crossed /\ emit (budget_event c spent now p) = true).
Proof.
  revert f evs. induction l as [|q l IH]; intros f evs Hnd; cbn [foldl].
  { cbn. rewrite app_nil_r. split; [done|]. set_solver. }
  apply NoDup_cons in Hnd as [Hq Hnd].
  assert (spend_step c spent now emit (f, evs) q
    = if bool_decide (q ∈ f) then (f, evs) else if spent <? thresholdMicro c q then (f, evs)
      else (if emit (budget_event c spent now q) then {[q]} ∪ f else f,
            evs ++ [budget_event c spent now q])) as -> by done.
  rewrite filter_cons. case_bool_decide as Hf.
  - specialize (IH f evs Hnd). destruct (foldl _ _ _) as [f' evs'].
    rewrite decide_False by tauto. done.
  - destruct (spent <? thresholdMicro c q) eqn:Es; zbool.
    + specialize (IH f evs Hnd). destruct (foldl _ _ _) as [f' evs'].
      rewrite decide_False by lia. done.
    + rewrite decide_True by (split; [done|lia]).
      set (f1 := if emit _ then _ else f). specialize (IH f1 (evs ++ [budget_event c spent now q]) Hnd).
      assert (filter (fun p => (p ∉ f1) /\ thresholdMicro c p <= spent) l
              = filter (fun p => (p ∉ f) /\ thresholdMicro c p <= spent) l) as Heq.
      { apply filter_agree. intros p Hp. unfold f1. destruct (emit _); [|done].
        assert (p <> q) by (intros ->; done). set_solver. }
      rewrite Heq in IH. destruct (foldl _ _ _) as [f' evs']. destruct IH as [-> Hin].
      split; [by rewrite <- app_assoc|]. intros p. rewrite Hin, elem_of_cons. unfold f1.
      destruct (decide (p = q)) as [->|Hne]; [|by destruct (emit (budget_event c spent now q)); set_solver].
      assert (q ∉ filter (fun p => (p ∉ f) /\ thresholdMicro c p <= spent) l) as Hn
        by (rewrite list_elem_of_filter; tauto).
      destruct (emit (budget_event c spent now q)) eqn:Ee; rewrite ?Ee; set_solver.
Qed.

(** ** Sequences of evaluations *)

(** A threshold's crossed-and-accepted condition in one evaluation. *)
Definition reaches (c : BudgetConfig) (call : Z * Z * (Event -> bool)) (p : Z) : bool :=
  let '(spent, now, emit) := call in
  (thresholdMicro c p <=? spent) && emit (budget_event c spent now p).

Definition call_day (call : Z * Z * (Event -> bool)) : Z * Z * Z := civil (day_of call.1.2).

(** The monitor is armed: a budget is set and thresholds remain. *)
Definition armed (m : BudgetMonitor) : Prop :=
  NoDup (thresholds m) /\ thresholds m <> [] /\ 0 < DailyBudgetMicro (cfg m).

(** What has already fired on [day]. *)
Definition fired_on (m : BudgetMonitor) (day : Z * Z * Z) : gset Z :=
  if bool_decide (dayKey m = Some day) then fired m else ∅.

Lemma accepted_spec c spent now emit l :
  accepted emit (budget_event c spent now <$> l)
  = filter (fun p => emit (budget_event c spent now p) = true) l.
Proof.
  unfold accepted. induction l as [|p l IH]; [done|]. csimpl. rewrite !filter_cons.
  destruct (decide (emit (budget_event c spent now p) = true)) as [He|He].
  - csimpl. by rewrite IH.
  - done.
Qed.

Lemma new_armed c :
  0 < DailyBudgetMicro c -> sanitizeThresholds (ThresholdPct c) <> [] -> armed (NewBudgetMonitor c).
Proof.
  intros Hb Hne. unfold armed, NewBudgetMonitor. cbn.
  destruct (sanitizeThresholds (ThresholdPct c)) as [|q ts] eqn:E; [done|].
  replace (DailyBudgetMicro c <=? 0) with false by lia.
  replace (Z.of_nat (length (q :: ts)) =? 0) with false by done.
  cbn [orb]. rewrite <- E. split_and!; [apply sanitize_spec|congruence|done].
Qed.

(** One evaluation of an armed monitor: what it accepts and what is left fired. *)
Lemma spend_armed m call :
  armed m ->
  let '(m', evs) := Spend m call.1.1 call.1.2 call.2 in
  armed m' /\ cfg m' = cfg m /\ thresholds m' = thresholds m
  /\ dayKey m' = Some (call_day call)
  /\ accepted call.2 evs
     = filter (fun p => (p ∉ fired_on m (call_day call)) /\ reaches (cfg m) call p = true) (thresholds m)
  /\ forall p, p ∈ fired m' <->
       p ∈ fired_on m (call_day call) \/ (p ∈ thresholds m /\ reaches (cfg m) call p = true).
Proof.
  intros (Hnd & Hne & Hb). destruct call as [[spent now] emit]. cbn [fst snd]. unfold Spend.
  replace (DailyBudgetMicro (cfg m) <=? 0) with false by lia.
  replace (Z.of_nat (length (thresholds m)) =? 0) with false
    by (by destruct (thresholds m)).
  cbn [orb]. unfold fired_on, call_day. cbn [fst snd].
  set (f0 := if bool_decide _ then _ else _).
  pose proof (spend_fold (cfg m) spent now emit (thresholds m) f0 [] Hnd) as H.
  destruct (foldl _ _ _) as [f evs]. destruct H as [-> Hin]. cbn [app].
  split_and!; try done.
  - rewrite accepted_spec, list_filter_filter. apply filter_agree. intros p _. cbn [reaches].
    rewrite andb_true_iff, Z.leb_le. tauto.
  - intros p. cbn [fired]. rewrite Hin, list_elem_of_filter. cbn [reaches].
    rewrite andb_true_iff, Z.leb_le. destruct (decide (p ∈ f0)); tauto.
Qed.


(** Consecutive evaluations on one day: every threshold is accepted at most once, and
    exactly when some evaluation crossed it with a sink that took the event. *)
Lemma spend_seq_day m d calls :
  armed m -> Forall (fun call => call_day call = d) calls ->
  let '(m', ps) := spend_seq m calls in
  armed m' /\ cfg m' = cfg m /\ thresholds m' = thresholds m
  /\ (dayKey m' = dayKey m \/ dayKey m' = Some d) /\ NoDup ps
  /\ forall p, p ∈ ps <-> p ∈ thresholds m /\ (p ∉ fired_on m d)
                       /\ exists call, call ∈ calls /\ reaches (cfg m) call p = true.
Proof.
  intros Harm Hall. revert m Harm. induction Hall as [|call calls Hd Hall IH]; intros m Harm.
  { cbn. split_and!; try done; [by left|apply NoDup_nil_2|]. set_solver. }
  pose proof (spend_armed m call Harm) as H. destruct call as [[spent now] emit].
  cbn [fst snd spend_seq] in *. destruct (Spend m spent now emit) as [m1 evs].
  destruct H as (Harm1 & Hc1 & Ht1 & Hk1 & Hacc & Hf1). rewrite Hd in *.
  specialize (IH m1 Harm1). destruct (spend_seq m1 calls) as [m2 ps].
  destruct IH as (Harm2 & Hc2 & Ht2 & Hk2 & Hnd & Hin).
  assert (fired_on m1 d = fired m1) as Hfo
    by (unfold fired_on; by rewrite bool_decide_eq_true_2).
  rewrite Hfo, Hc1, Ht1 in *.
  assert (forall p, p ∈ accepted emit evs <->
    p ∈ thresholds m /\ (p ∉ fired_on m d) /\ reaches (cfg m) (spent, now, emit) p = true) as Ha
    by (intros p; rewrite Hacc, list_elem_of_filter; tauto).
  split_and!; try congruence.
  - right. destruct Hk2 as [->| ->]; done.
  - apply NoDup_app. split_and!; [|intros p Hp; rewrite Hin, Hf1; rewrite Ha in Hp; tauto|done].
    rewrite Hacc. apply NoDup_filter, Harm.
  - intros p. rewrite elem_of_app, Ha, Hin, Hf1. split.
    + intros [(Ht & Hf & Hr)|(Ht & Hf & call & Hc & Hr)].
      * split_and!; [done|done|]. exists (spent, now, emit). split; [left|done].
      * split_and!; [done|tauto|]. exists call. split; [by right|done].
    + intros (Ht & Hf & call & [-> |Hc]%elem_of_cons & Hr); [by left; split_and!|].
      destruct (reaches (cfg m) (spent, now, emit) p) eqn:Er; [by left; split_and!|right].
      split_and!; [done| |by exists call]. intros [Hx|[_ Hx]]; done.
Qed.

Lemma spend_seq_app m calls1 calls2 :
  spend_seq m (calls1 ++ calls2)
  = let '(m1, ps1) := spend_seq m calls1 in
    let '(m2, ps2) := spend_seq m1 calls2 in (m2, ps1 ++ ps2).
Proof.
  revert m. induction calls1 as [|[[spent now] emit] calls1 IH]; intros m; cbn [app spend_seq].
  { by destruct (spend_seq m calls2). }
  destruct (Spend m spent now emit) as [m1 evs]. rewrite IH.
  destruct (spend_seq m1 calls1) as [m2 ps1]. destruct (spend_seq m2 calls2) as [m3 ps2].
  by rewrite app_assoc.
Qed.

(** C31. The daily monitor: over any evaluations of one UTC day and then of another,
    every configured percentage within 1..100 is announced at most once per day, and
    on a day it is announced exactly when some evaluation of that day found the spend
    at the percentage of the budget and the sink took the event; a dropped event is
    therefore offered again, and the next day starts afresh. *)
Theorem budget_alerts_once_a_day c d1 d2 calls1 calls2 :
  0 < DailyBudgetMicro c -> sanitizeThresholds (ThresholdPct c) <> [] -> d1 <> d2 ->
  Forall (fun call => call_day call = d1) calls1 ->
  Forall (fun call => call_day call = d2) calls2 ->
  exists ps1 ps2,
    (spend_seq (NewBudgetMonitor c) (calls1 ++ calls2)).2 = ps1 ++ ps2
    /\ NoDup ps1 /\ NoDup ps2
    /\ (forall p, p ∈ ps1 <-> p ∈ ThresholdPct c /\ 1 <= p <= 100
                  /\ exists call, call ∈ calls1 /\ reaches c call p = true)
    /\ (forall p, p ∈ ps2 <-> p ∈ ThresholdPct c /\ 1 <= p <= 100
                  /\ exists call, call ∈ calls2 /\ reaches c call p = true).
Proof.
  intros Hb Hne Hd H1 H2. pose proof (new_armed c Hb Hne) as Harm.
  assert (thresholds (NewBudgetMonitor c) = sanitizeThresholds (ThresholdPct c)) as Hth.
  { destruct Harm as (_ & Hn & _). cbn in *. by destruct (_ || _). }
  rewrite spend_seq_app. pose proof (spend_seq_day _ d1 calls1 Harm H1) as S1.
  destruct (spend_seq _ calls1) as [m1 ps1]. destruct S1 as (Harm1 & Hc1 & Ht1 & Hk1 & Hnd1 & Hin1).
  pose proof (spend_seq_day _ d2 calls2 Harm1 H2) as S2. destruct (spend_seq m1 calls2) as [m2 ps2].
  destruct S2 as (_ & _ & _ & _ & Hnd2 & Hin2).
  assert (fired_on m1 d2 = ∅) as Hf2.
  { unfold fired_on. rewrite bool_decide_eq_false_2; [done|]. destruct Hk1 as [->| ->]; naive_solver. }
  destruct (sanitize_spec (ThresholdPct c)) as (_ & _ & Hsan).
  exists ps1, ps2. split_and!; try done.
  - intros p. rewrite Hin1, Hth, Hsan. cbn [cfg NewBudgetMonitor]. set_solver.
  - intros p. rewrite Hin2, Ht1, Hc1, Hf2, Hth, Hsan. cbn [cfg NewBudgetMonitor]. set_solver.
Qed.

Lemma budget_alerts_once_a_day_witness :
  exists ps1 ps2,
    (spend_seq (NewBudgetMonitor {| DailyBudgetMicro := 1000; ThresholdPct := [80; 50; 200; 80] |})
       ([(500, 0, fun _ => false); (600, 1000, fun _ => true); (900, 2000, fun _ => true)]
        ++ [(900, 86400000000000, fun _ => true)])).2 = ps1 ++ ps2
    /\ ps1 ++ ps2 = [50; 80; 50; 80].
Proof.
  destruct (budget_alerts_once_a_day
    {| DailyBudgetMicro := 1000; ThresholdPct := [80; 50; 200; 80] |} (1, 1, 1) (1, 1, 2)
    [(500, 0, fun _ => false); (600, 1000, fun _ => true); (900, 2000, fun _ => true)]
    [(900, 86400000000000, fun _ => true)]) as (ps1 & ps2 & Heq & _).
  - reflexivity.
  - discriminate.
  - discriminate.
  - repeat (apply Forall_cons_2; [vm_compute; reflexivity|]). apply Forall_nil_2.
  - repeat (apply Forall_cons_2; [vm_compute; reflexivity|]). apply Forall_nil_2.
  - exists ps1, ps2. split; [exact Heq|]. rewrite <- Heq. reflexivity.
Defined.
