(* ===== verification/Hub.v ===== *)
(** * pkg/logstream/hub.go: the live log stream

    A delivery to one subscriber is three channel operations made under the
    subscriber's mutex: the fullness check, the receive that drops the oldest event,
    and the send. The consumer holds no lock, so its receives may fall between any two
    of them; [act] and [sub_step] are that interleaving. *)

From S2P Require Import Prelude.

(** ** Data *)

Record LogEvent := {
  le_Type : string;
  le_Level : string;
  le_Timestamp : Z;
  le_TenantID : string;
  le_TenantName : string;
  le_AgentID : string;
  le_Model : string;
  le_ProjectName : string;
  le_PromptTokens : Z;
  le_CompletionTokens : Z;
  le_CostMicroUSD : Z;
  le_SavedCostMicroUSD : Z;
  le_BudgetMicroUSD : Z;
  le_SpentMicroUSD : Z;
  le_MonthlyBudgetMicro : Z;
  le_StatusCode : Z;
  le_FirstBlock : bool;
  le_Reason : string;
  le_RetryAfter : Z;
  le_ThresholdPct : Z;
  le_DroppedEvents : Z
}.

Definition TypeRequestComplete : string := "request.complete".
Definition TypeLoopBlocked : string := "loop_blocked".
Definition TypeBudgetExceeded : string := "budget_exceeded".
Definition TypeBudgetLevel : string := "budget_level".
Definition TypeCostAlert : string := "cost_alert".
Definition TypeSettingsUpdated : string := "settings.updated".

(** The zero LogEvent, which the publishers fill in. *)
Definition no_event : LogEvent :=
  {| le_Type := ""; le_Level := ""; le_Timestamp := 0; le_TenantID := ""; le_TenantName := "";
     le_AgentID := ""; le_Model := ""; le_ProjectName := ""; le_PromptTokens := 0;
     le_CompletionTokens := 0; le_CostMicroUSD := 0; le_SavedCostMicroUSD := 0;
     le_BudgetMicroUSD := 0; le_SpentMicroUSD := 0; le_MonthlyBudgetMicro := 0;
     le_StatusCode := 0; le_FirstBlock := false; le_Reason := ""; le_RetryAfter := 0;
     le_ThresholdPct := 0; le_DroppedEvents := 0 |}.

Definition set_TenantName (ev : LogEvent) (name : string) : LogEvent :=
  {| le_Type := le_Type ev; le_Level := le_Level ev; le_Timestamp := le_Timestamp ev;
     le_TenantID := le_TenantID ev; le_TenantName := name; le_AgentID := le_AgentID ev;
     le_Model := le_Model ev; le_ProjectName := le_ProjectName ev;
     le_PromptTokens := le_PromptTokens ev; le_CompletionTokens := le_CompletionTokens ev;
     le_CostMicroUSD := le_CostMicroUSD ev; le_SavedCostMicroUSD := le_SavedCostMicroUSD ev;
     le_BudgetMicroUSD := le_BudgetMicroUSD ev; le_SpentMicroUSD := le_SpentMicroUSD ev;
     le_MonthlyBudgetMicro := le_MonthlyBudgetMicro ev; le_StatusCode := le_StatusCode ev;
     le_FirstBlock := le_FirstBlock ev; le_Reason := le_Reason ev;
     le_RetryAfter := le_RetryAfter ev; le_ThresholdPct := le_ThresholdPct ev;
     le_DroppedEvents := le_DroppedEvents ev |}.

(** A subscriber: the buffered channel, its capacity, the drop counter (uint64), and
    whether the channel was closed. *)
Record subscriber := {
  ch : list LogEvent;
  cap : Z;
  dropped : Z;
  closed : bool
}.

(** The hub: the registered subscribers, by identity, and every subscriber ever made
    (a closed one still drains its buffer). *)
Record Hub := {
  subs : gset nat;
  heap : gmap nat subscriber;
  resolver : option (string -> string * bool)
}.

Definition with_ch (s : subscriber) (l : list LogEvent) (d : Z) : subscriber :=
  {| ch := l; cap := cap s; dropped := d; closed := closed s |}.

(** ** Publish, one channel operation at a time *)

(** len(sub.ch) == cap(sub.ch). *)
Definition full (s : subscriber) : bool := Z.of_nat (length (ch s)) =? cap s.

(** select { case <-sub.ch: sub.dropped++; default: } *)
Definition pop_oldest (s : subscriber) : subscriber :=
  match ch s with
  | [] => s
  | _ :: l => with_ch s l (wrapu64 (dropped s + 1))
  end.

(** select { case sub.ch <- ev: default: sub.dropped++ } *)
Definition push_new (s : subscriber) (ev : LogEvent) : subscriber :=
  if Z.of_nat (length (ch s)) <? cap s then with_ch s (ch s ++ [ev]) (dropped s)
  else with_ch s (ch s) (wrapu64 (dropped s + 1)).

(** The loop body, with no receive in between. *)
Definition deliver (ev : LogEvent) (s : subscriber) : subscriber :=
  push_new (if full s then pop_oldest s else s) ev.

(** TenantName resolution, once, before the fan-out. *)
Definition resolve (r : option (string -> string * bool)) (ev : LogEvent) : LogEvent :=
  match r with
  | None => ev
  | Some f =>
      if String.eqb (le_TenantName ev) "" && negb (String.eqb (le_TenantID ev) "") then
        let '(name, ok) := f (le_TenantID ev) in
        if ok then set_TenantName ev name else ev
      else ev
  end.

(** Publish, the range visiting the subscribers in the given order. *)
Definition Publish (h : Hub) (order : list nat) (ev : LogEvent) : Hub :=
  let ev := resolve (resolver h) ev in
  {| subs := subs h; heap := foldl (fun hp i => alter (deliver ev) i hp) (heap h) order;
     resolver := resolver h |}.

(** ** The other operations *)

Definition NewHub (r : option (string -> string * bool)) : Hub :=
  {| subs := ∅; heap := ∅; resolver := r |}.

(** Subscribe: the new subscriber's identity is the allocation's. *)
Definition Subscribe (h : Hub) (buf : Z) : Hub * nat :=
  let buf := if buf <? 1 then 1 else buf in
  let id := fresh (dom (heap h)) in
  ({| subs := {[id]} ∪ subs h;
      heap := <[id := {| ch := []; cap := buf; dropped := 0; closed := false |}]> (heap h);
      resolver := resolver h |}, id).

(** Close, under sync.Once: [closed] is the Once's state. *)
Definition Close (h : Hub) (id : nat) : Hub :=
  match heap h !! id with
  | Some s =>
      if closed s then h
      else {| subs := subs h ∖ {[id]};
              heap := <[id := {| ch := ch s; cap := cap s; dropped := dropped s; closed := true |}]>
                        (heap h);
              resolver := resolver h |}
  | None => h
  end.

(** Dropped and QueueDepth of a subscription, Len of the hub. *)
Definition Dropped (h : Hub) (id : nat) : option Z := dropped <$> heap h !! id.
Definition QueueDepth (h : Hub) (id : nat) : option Z :=
  (fun s => Z.of_nat (length (ch s))) <$> heap h !! id.
Definition Len (h : Hub) : Z := Z.of_nat (size (subs h)).

(** A receive from C by the consumer: the event, and whether the channel is closed and
    drained. None when it would wait. *)
Definition recv (s : subscriber) : option (option LogEvent * subscriber) :=
  match ch s with
  | ev :: l => Some (Some ev, with_ch s l (dropped s))
  | [] => if closed s then Some (None, s) else None
  end.

(** ** The interleaving of one subscriber's publisher and consumer *)

(** Where the publisher that holds the subscriber's mutex is. *)
Inductive phase :=
  | Idle
  | Popping (ev : LogEvent)
  | Pushing (ev : LogEvent).

(** [published]: the events whose delivery has finished, in order; [left]: the events
    that left the buffer, in order, each with whether the consumer received it. *)
Record history := {
  sub : subscriber;
  pc : phase;
  published : list LogEvent;
  left_buf : list (bool * LogEvent);
  refused : list LogEvent
}.

Inductive act :=
  | Begin (ev : LogEvent)  (* lock; if len(ch) == cap(ch) *)
  | Pop                    (* the non-blocking receive *)
  | Push                   (* the non-blocking send; unlock *)
  | Recv.                  (* the consumer's receive *)

Definition tag_head (b : bool) (s : subscriber) : list (bool * LogEvent) :=
  match ch s with [] => [] | ev :: _ => [(b, ev)] end.

(** One step; None when it is not enabled. *)
Definition sub_step (h : history) (a : act) : option history :=
  match a, pc h with
  | Begin ev, Idle =>
      Some {| sub := sub h; pc := if full (sub h) then Popping ev else Pushing ev;
              published := published h; left_buf := left_buf h; refused := refused h |}
  | Pop, Popping ev =>
      Some {| sub := pop_oldest (sub h); pc := Pushing ev; published := published h;
              left_buf := left_buf h ++ tag_head false (sub h); refused := refused h |}
  | Push, Pushing ev =>
      let room := Z.of_nat (length (ch (sub h))) <? cap (sub h) in
      Some {| sub := push_new (sub h) ev; pc := Idle; published := published h ++ [ev];
              left_buf := left_buf h;
              refused := if room then refused h else refused h ++ [ev] |}
  | Recv, _ =>
      match recv (sub h) with
      | Some (Some ev, s) =>
          Some {| sub := s; pc := pc h; published := published h;
                  left_buf := left_buf h ++ [(true, ev)]; refused := refused h |}
      | _ => None
      end
  | _, _ => None
  end.

Fixpoint sub_run (h : history) (l : list act) : option history :=
  match l with
  | [] => Some h
  | a :: l' => h' ← sub_step h a; sub_run h' l'
  end.

Definition new_history (buf : Z) : history :=
  {| sub := {| ch := []; cap := if buf <? 1 then 1 else buf; dropped := 0; closed := false |};
     pc := Idle; published := []; left_buf := []; refused := [] |}.

(** The events the consumer received, in order, and those lost. *)
Definition received (h : history) : list LogEvent :=
  snd <$> filter (fun p => p.1 = true) (left_buf h).
Definition lost (h : history) : list LogEvent :=
  snd <$> filter (fun p => p.1 = false) (left_buf h).

(** ** Delivery is lossy only at the old end *)

Definition hub_inv (h : history) : Prop :=
  1 <= cap (sub h)
  /\ Z.of_nat (length (ch (sub h))) <= cap (sub h)
  /\ refused h = []
  /\ published h = (snd <$> left_buf h) ++ ch (sub h)
  /\ dropped (sub h) = wrapu64 (Z.of_nat (length (lost h)))
  /\ match pc h with Pushing _ => Z.of_nat (length (ch (sub h))) < cap (sub h) | _ => True end.

Lemma wrapu64_succ n : wrapu64 (wrapu64 n + 1) = wrapu64 (n + 1).
Proof. unfold wrapu64. by rewrite Zplus_mod_idemp_l. Qed.

Lemma hub_inv_step h a h' : hub_inv h -> sub_step h a = Some h' -> hub_inv h'.
Proof.
  intros (Hcap & Hlen & Href & Hpub & Hdrop & Hpc) Hstep.
  destruct h as [s p pub lb rf]. cbn in *. destruct a; cbn in Hstep.
  - destruct p; try done. injection Hstep as <-. unfold full. repeat split; cbn; try done.
    destruct (_ =? _) eqn:E; [done|]. zbool. lia.
  - destruct p as [|ev|]; try done. injection Hstep as <-. unfold tag_head, pop_oldest.
    destruct (ch s) as [|e l] eqn:Ec; cbn in *.
    + rewrite app_nil_r. repeat split; cbn; rewrite ?Ec; try done; cbn; lia.
    + repeat split; cbn; try done; try lia.
      * by rewrite Hpub, fmap_app, <- app_assoc.
      * unfold lost in *. cbn in *. rewrite Hdrop, wrapu64_succ, filter_app, fmap_app, length_app.
        rewrite (Nat2Z.inj_add _ (length (snd <$> filter _ [(false, e)]))). done.
  - destruct p as [| |ev]; try done. injection Hstep as <-. unfold push_new.
    replace (Z.of_nat (length (ch s)) <? cap s) with true by lia.
    repeat split; cbn; try done.
    + rewrite length_app. cbn. lia.
    + by rewrite Hpub, app_assoc.
  - unfold recv in Hstep. destruct (ch s) as [|e l] eqn:Ec; [by destruct (closed s), p|].
    assert (Some {| sub := with_ch s l (dropped s); pc := p; published := pub;
                    left_buf := lb ++ [(true, e)]; refused := rf |} = Some h') as [= <-]
      by (by destruct p).
    cbn in *. repeat split; cbn; try done; try lia.
    + by rewrite Hpub, fmap_app, <- app_assoc.
    + unfold lost in *. cbn in *. rewrite filter_app, fmap_app, length_app. cbn.
      by rewrite Nat.add_0_r.
    + destruct p; try done. lia.
Qed.

Lemma hub_inv_run l h h' : hub_inv h -> sub_run h l = Some h' -> hub_inv h'.
Proof.
  revert h. induction l as [|a l IH]; intros h Hi Hr; cbn in Hr; [by injection Hr as <-|].
  apply bind_Some in Hr as (h1 & Hs & Hr). eapply IH; [|done]. by eapply hub_inv_step.
Qed.

(** C29. Delivery to one subscriber, under every interleaving of publishers and
    consumer: every published event is accounted for exactly once and in order, those
    that left the buffer before those still in it; the counter is the number of events
    dropped, which are always the oldest ones buffered; the newly published event is
    never the one dropped; the buffer stays within its capacity; and the consumer sees
    a subsequence of what was published. *)
Theorem hub_delivery buf l h :
  sub_run (new_history buf) l = Some h ->
  published h = (snd <$> left_buf h) ++ ch (sub h)
  /\ refused h = []
  /\ dropped (sub h) = wrapu64 (Z.of_nat (length (lost h)))
  /\ Z.of_nat (length (ch (sub h))) <= Z.max 1 buf
  /\ length (published h) = (length (received h) + length (lost h) + length (ch (sub h)))%nat
  /\ received h `sublist_of` published h.
Proof.
  intros Hr. assert (cap (sub h) = Z.max 1 buf) as Hcap.
  { assert (forall g a g', sub_step g a = Some g' -> cap (sub g') = cap (sub g)) as Hstep.
    { intros g a g' Hs. destruct g as [s p ? ? ?], a, p; cbn in Hs; try done;
        unfold recv, pop_oldest, push_new in Hs; repeat case_match; simplify_eq; done. }
    assert (cap (sub (new_history buf)) = Z.max 1 buf) as <-
      by (cbn; destruct (buf <? 1) eqn:E; zbool; lia).
    clear -Hr Hstep. revert Hr. generalize (new_history buf) as g.
    induction l as [|a l IH]; intros g Hr; cbn in Hr; [by injection Hr as <-|].
    apply bind_Some in Hr as (g1 & Hs & Hr). rewrite (IH g1 Hr). by eapply Hstep. }
  assert (hub_inv h) as (_ & Hlen & Href & Hpub & Hdrop & _).
  { eapply hub_inv_run; [|done]. unfold hub_inv, new_history. cbn.
    destruct (buf <? 1) eqn:E; zbool; repeat split; try done; lia. }
  assert (length (left_buf h) = length (received h) + length (lost h))%nat as Hcount.
  { unfold received, lost. rewrite !length_fmap. clear. induction (left_buf h) as [|[[] e] lb IH];
      [done| |]; rewrite !filter_cons; cbn [fst]; [rewrite decide_True, decide_False by done|
      rewrite decide_False, decide_True by done]; cbn [length]; lia. }
  split_and!; try done; [lia| |].
  - rewrite Hpub, length_app, length_fmap. lia.
  - rewrite Hpub. unfold received. transitivity (snd <$> left_buf h).
    + clear. induction (left_buf h) as [|[[] e] lb IH]; [done| |];
        rewrite filter_cons; cbn [fst]; [rewrite decide_True by done; by apply sublist_skip|
        rewrite decide_False by done; by apply sublist_cons].
    + apply sublist_inserts_r, reflexivity.
Qed.

Lemma hub_delivery_witness :
  exists h, sub_run (new_history 0)
    [Begin no_event; Push; Begin (set_TenantName no_event "b"); Pop; Push; Recv] = Some h
  /\ received h = [set_TenantName no_event "b"] /\ dropped (sub h) = 1
  /\ received h `sublist_of` published h.
Proof.
  eexists. split; [vm_compute; reflexivity|].
  split; [reflexivity|]. split; [reflexivity|].
  refine (proj2 (proj2 (proj2 (proj2 (proj2 (hub_delivery 0 
    [Begin no_event; Push; Begin (set_TenantName no_event "b"); Pop; Push; Recv] _ _)))))).
  vm_compute. reflexivity.
Defined.

(** Without a receive in between, the steps are [deliver]. *)
Lemma deliver_steps h ev :
  pc h = Idle ->
  exists h', sub_run h (Begin ev :: (if full (sub h) then [Pop; Push] else [Push])) = Some h'
             /\ sub h' = deliver ev (sub h) /\ pc h' = Idle.
Proof.
  intros Hpc. destruct h as [s p ? ? ?]. cbn in *. subst p. unfold deliver.
  destruct (full s); cbn; eexists; split_and!; reflexivity.
Qed.

(** ** The fan-out *)

Lemma alter_fold ev (order : list nat) (hp : gmap nat subscriber) (i : nat) :
  NoDup order ->
  foldl (fun hp i => alter (deliver ev) i hp) hp order !! i
  = if bool_decide (i ∈ order) then deliver ev <$> hp !! i else hp !! i.
Proof.
  revert hp. induction order as [|j order IH]; intros hp Hnd; cbn [foldl]; [done|].
  apply NoDup_cons in Hnd as [Hj Hnd]. rewrite IH by done. destruct (decide (i = j)) as [->|Hne].
  - rewrite bool_decide_eq_false_2 by done. rewrite bool_decide_eq_true_2 by (by left).
    by rewrite lookup_alter_eq.
  - rewrite lookup_alter_ne by done.
    rewrite (bool_decide_ext (i ∈ j :: order) (i ∈ order)); [done|]. set_solver.
Qed.

(** A subscription is registered until it is closed. *)
Definition hub_wf (h : Hub) : Prop :=
  forall i, i ∈ subs h <-> exists s, heap h !! i = Some s /\ closed s = false.

(** The consumer's receive. *)
Definition Receive (h : Hub) (id : nat) : Hub :=
  match heap h !! id ≫= recv with
  | Some (_, s) => {| subs := subs h; heap := <[id := s]> (heap h); resolver := resolver h |}
  | None => h
  end.

Inductive hub_op :=
  | OSubscribe (buf : Z)
  | OClose (id : nat)
  | OPublish (ev : LogEvent)
  | OReceive (id : nat).

(** One operation on the hub. Publish holds the hub's read lock throughout and its
    deliveries touch disjoint subscribers, so it is one step, visiting them in any order;
    what a consumer may do in the middle of one delivery is [sub_step]. *)
Inductive hub_step : Hub -> hub_op -> Hub -> Prop :=
  | step_subscribe h buf : hub_step h (OSubscribe buf) (Subscribe h buf).1
  | step_close h id : hub_step h (OClose id) (Close h id)
  | step_publish h ev order :
      order ≡ₚ elements (subs h) -> hub_step h (OPublish ev) (Publish h order ev)
  | step_receive h id : hub_step h (OReceive id) (Receive h id).

Inductive hub_reach (r : option (string -> string * bool)) : Hub -> Prop :=
  | reach_new : hub_reach r (NewHub r)
  | reach_step h op h' : hub_reach r h -> hub_step h op h' -> hub_reach r h'.

Lemma publish_heap h order ev i :
  order ≡ₚ elements (subs h) ->
  heap (Publish h order ev) !! i
  = if bool_decide (i ∈ subs h) then deliver (resolve (resolver h) ev) <$> heap h !! i
    else heap h !! i.
Proof.
  intros Hp. cbn. rewrite alter_fold by (rewrite Hp; apply NoDup_elements).
  rewrite (bool_decide_ext (i ∈ order) (i ∈ subs h)); [done|]. rewrite Hp. apply elem_of_elements.
Qed.

Lemma deliver_closed ev s : closed (deliver ev s) = closed s.
Proof. unfold deliver, push_new, pop_oldest. by repeat case_match. Qed.

Lemma recv_closed s o s' : recv s = Some (o, s') -> closed s' = closed s.
Proof. unfold recv. intros. repeat case_match; by simplify_eq. Qed.

Lemma hub_reach_wf r h : hub_reach r h -> hub_wf h.
Proof.
  unfold hub_wf. induction 1 as [|h op h' _ IH Hs]; intros i.
  { cbn. rewrite lookup_empty. set_solver. }
  destruct Hs as [h buf|h id|h ev order Hp|h id].
  - cbn. rewrite elem_of_union, elem_of_singleton, IH.
    pose proof (is_fresh (dom (heap h))) as Hf. set (j := fresh _) in *.
    destruct (decide (i = j)) as [->|Hne].
    + rewrite lookup_insert_eq. naive_solver.
    + rewrite lookup_insert_ne by done. naive_solver.
  - unfold Close. destruct (heap h !! id) as [s|] eqn:E; [|done]. destruct (closed s) eqn:Ec; [done|].
    cbn. rewrite elem_of_difference, elem_of_singleton, IH. destruct (decide (i = id)) as [->|Hne].
    + rewrite lookup_insert_eq. naive_solver.
    + rewrite lookup_insert_ne by done. naive_solver.
  - rewrite publish_heap by done. cbn [subs Publish]. rewrite IH. case_bool_decide as Hi; [|done].
    split.
    + intros (s & -> & Hc). exists (deliver (resolve (resolver h) ev) s). by rewrite deliver_closed.
    + intros _. by apply IH.
  - unfold Receive. destruct (heap h !! id ≫= recv) as [[o s]|] eqn:E; [|done]. cbn.
    apply bind_Some in E as (s0 & Hs0 & Hr). apply recv_closed in Hr. rewrite IH.
    destruct (decide (i = id)) as [->|Hne].
    + rewrite lookup_insert_eq, Hs0. naive_solver.
    + by rewrite lookup_insert_ne.
Qed.

(** The fan-out, in every hub the operations can reach and in whatever order the
    range visits the subscribers: a published event is delivered exactly once, with its
    team name resolved, to every subscription that is open, and changes nothing for a
    closed one or anything else; Close unregisters only its own subscription, leaves
    the events it still buffers, and closing again changes nothing. *)
Theorem publish_fans_out r h id s :
  hub_reach r h -> heap h !! id = Some s ->
  (forall ev order, order ≡ₚ elements (subs h) ->
     heap (Publish h order ev) !! id
     = Some (if closed s then s else deliver (resolve (resolver h) ev) s))
  /\ subs (Close h id) = subs h ∖ {[id]}
  /\ heap (Close h id) !! id
     = Some {| ch := ch s; cap := cap s; dropped := dropped s; closed := true |}
  /\ Close (Close h id) id = Close h id.
Proof.
  intros Hr Hs. pose proof (hub_reach_wf r h Hr id) as Hwf. split_and!.
  - intros ev order Hp. rewrite publish_heap by done.
    destruct (closed s) eqn:Ec.
    + rewrite bool_decide_eq_false_2; [done|]. rewrite Hwf. intros (s1 & H1 & H2). congruence.
    + rewrite bool_decide_eq_true_2, Hs; [done|]. rewrite Hwf. by exists s.
  - unfold Close. rewrite Hs. destruct (closed s) eqn:Ec; [|done].
    assert (id ∉ subs h) by (rewrite Hwf; intros (s1 & H1 & H2); congruence). set_solver.
  - unfold Close. rewrite Hs. destruct (closed s) eqn:Ec; cbn.
    + rewrite Hs. destruct s; cbn in *; by subst.
    + by rewrite lookup_insert_eq.
  - assert (exists s', heap (Close h id) !! id = Some s' /\ closed s' = true) as (s' & Hs' & Hc').
    { unfold Close. rewrite Hs. destruct (closed s) eqn:Ec; cbn; [by exists s|].
      rewrite lookup_insert_eq. by eexists. }
    generalize dependent (Close h id). intros g Hs'. unfold Close. by rewrite Hs', Hc'.
Qed.

Lemma publish_fans_out_witness :
  hub_reach None (Subscribe (NewHub None) 2).1
  /\ forall order, order ≡ₚ elements (subs (Subscribe (NewHub None) 2).1) ->
     heap (Publish (Subscribe (NewHub None) 2).1 order no_event) !! 0%nat
     = Some {| ch := [no_event]; cap := 2; dropped := 0; closed := false |}.
Proof.
  assert (hub_reach None (Subscribe (NewHub None) 2).1) as Hr.
  { eapply reach_step; [apply reach_new|apply step_subscribe]. }
  split; [exact Hr|].
  exact (proj1 (publish_fans_out None _ 0%nat
    {| ch := []; cap := 2; dropped := 0; closed := false |} Hr eq_refl) no_event).
Defined.
