(* ===== verification/Logging.v ===== *)
(** * internal/logging/jsonlog.go and slog.go: the JSON loggers

    Two implementations of the Notifier seam: [Logger] hands every event to one
    json.Encoder, [SlogLogger] flattens it into slog attributes. A [Logger]'s output is the
    bytes its writer accepted; a [SlogLogger]'s is the object each record handed to the
    writer holds, member by member. *)

From S2P Require Import Prelude GoFloat GoJson JsonTyping GoJsonPrint GoFloatPrint GoJsonObject GoStrings GoTime Budget Hub.

(** ** The JSON form of the two events: the struct tags *)

Definition event_type_string (t : EventType) : string :=
  match t with
  | EventLoopBlocked => "loop_blocked"
  | EventBudgetLevel => "budget_level"
  | EventSemanticLoop => "semantic_loop"
  | EventIntentDrift => "intent_drift"
  | EventQuotaLevel => "quota_level"
  end.

Definition f_str (name : string) (omit : bool) (s : string) : field := Field name omit (SStr (bytes_of_string s)).
Definition f_int (name : string) (omit : bool) (z : Z) : field := Field name omit (SInt z).
Definition f_float (name : string) (omit : bool) (f : float64) : field := Field name omit (SFloat f).

(** proxy.Event. *)
Definition event_fields (ev : Event) : list field :=
  [ f_str "type" false (event_type_string (ev_Type ev));
    f_int "timestamp" false (ev_Timestamp ev);
    f_str "agent_id" true (ev_AgentID ev);
    f_str "project" true (ev_Project ev);
    f_str "model" true (ev_Model ev);
    f_int "saved_cost_micro_usd" true (ev_SavedCostMicro ev);
    f_str "reason" true (ev_Reason ev);
    f_int "retry_after" true (ev_RetryAfter ev);
    f_int "budget_micro_usd" true (ev_BudgetMicroUSD ev);
    f_int "spent_micro_usd" true (ev_SpentMicroUSD ev);
    f_int "threshold_pct" true (ev_ThresholdPct ev);
    f_float "similarity" true (ev_Similarity ev);
    f_float "intent_score" true (ev_IntentScore ev);
    f_str "quota_kind" true (ev_QuotaKind ev);
    f_str "quota_id" true (ev_QuotaID ev) ].

(** logstream.LogEvent. *)
Definition log_event_fields (ev : LogEvent) : list field :=
  [ f_str "type" false (le_Type ev);
    f_str "level" false (le_Level ev);
    f_int "timestamp" false (le_Timestamp ev);
    f_str "tenant_id" true (le_TenantID ev);
    f_str "tenant_name" true (le_TenantName ev);
    f_str "agent_id" true (le_AgentID ev);
    f_str "model" true (le_Model ev);
    f_str "project_name" true (le_ProjectName ev);
    f_int "prompt_tokens" true (le_PromptTokens ev);
    f_int "completion_tokens" true (le_CompletionTokens ev);
    f_int "cost_micro_usd" true (le_CostMicroUSD ev);
    f_int "saved_cost_micro_usd" true (le_SavedCostMicroUSD ev);
    f_int "budget_micro_usd" true (le_BudgetMicroUSD ev);
    f_int "spent_micro_usd" true (le_SpentMicroUSD ev);
    f_int "monthly_budget_micro" true (le_MonthlyBudgetMicro ev);
    f_int "status_code" true (le_StatusCode ev);
    Field "first_block" true (SBool (le_FirstBlock ev));
    f_str "reason" true (le_Reason ev);
    f_int "retry_after" true (le_RetryAfter ev);
    f_int "threshold_pct" true (le_ThresholdPct ev);
    f_int "dropped_events" true (le_DroppedEvents ev) ].

(** ** Logger *)

(** What one call of the writer did: it took everything, or it took [n] bytes and failed. *)
Inductive write_result := WroteAll | WriteError (n : nat).

(** The encoder keeps the first write error and refuses every later call. *)
Record Logger := { enc_err : bool; out : list byte }.

Definition logging_New : Logger := {| enc_err := false; out := [] |}.

(** enc.Encode of a value with the given line, None when marshalling fails. *)
Definition Encode (l : Logger) (line : option (list byte)) (w : write_result) : Logger :=
  if enc_err l then l
  else match line with
       | None => l
       | Some b =>
           match w with
           | WroteAll => {| enc_err := false; out := out l ++ b |}
           | WriteError n => {| enc_err := true; out := out l ++ take n b |}
           end
       end.

Definition Logger_Notify (l : Logger) (ev : Event) (w : write_result) : Logger :=
  Encode l (encode_line (event_fields ev)) w.

Definition Logger_Log (l : Logger) (ev : LogEvent) (w : write_result) : Logger :=
  Encode l (encode_line (log_event_fields ev)) w.

(** Subscribe: no hub, no subscription. The goroutine logs what it receives, in order. *)
Definition Logger_Subscribe (h : option Hub) : option (Hub * nat) :=
  match h with None => None | Some h => Some (Hub.Subscribe h 1024) end.
Definition Logger_drain (l : Logger) (received : list (LogEvent * write_result)) : Logger :=
  foldl (fun l ew => Logger_Log l (fst ew) (snd ew)) l received.

(** ** SlogLogger *)

Definition LevelDebug : Z := -4.
Definition LevelInfo : Z := 0.
Definition LevelWarn : Z := 4.
Definition LevelError : Z := 8.

(** slog.Level.String on the four levels the logger uses. *)
Definition level_string (l : Z) : string :=
  if l =? LevelDebug then "DEBUG" else if l =? LevelInfo then "INFO"
  else if l =? LevelWarn then "WARN" else "ERROR".

Definition attr : Type := string * scalar.

(** ReplaceAttr: the attribute keyed "level" in lower case. *)
Definition replace_attr (a : attr) : attr :=
  if String.eqb (fst a) "level"
  then (fst a, match snd a with SStr s => SStr (to_lower s) | v => v end) else a.

Record SlogLogger := { sl_level : Z; sl_out : list (list attr) }.

Definition NewSlogLogger (level : Z) : SlogLogger := {| sl_level := level; sl_out := [] |}.

(** LogAttrs: the level check, then one object of time, level, msg and the attributes.
    [now] is the text of the current time. *)
Definition LogAttrs (s : SlogLogger) (now : string) (level : Z) (msg : string) (attrs : list attr) : SlogLogger :=
  if level <? sl_level s then s
  else
    let built_in := [("time"%string, SStr (bytes_of_string now));
                     ("level"%string, SStr (bytes_of_string (level_string level)));
                     ("msg"%string, SStr (bytes_of_string msg))] in
    {| sl_level := sl_level s; sl_out := sl_out s ++ [replace_attr <$> built_in ++ attrs] |}.

Definition levelFor (l : string) : Z :=
  if String.eqb l "error" then LevelError
  else if String.eqb l "warn" then LevelWarn
  else if String.eqb l "debug" then LevelDebug
  else LevelInfo.

(** slog.String and the like, appended under a guard. *)
Definition s_String (k v : string) : attr := (k, SStr (bytes_of_string v)).
Definition s_Int (k : string) (v : Z) : attr := (k, SInt v).
Definition when (b : bool) (a : attr) : list attr := if b then [a] else [].
Definition nonempty (s : string) : bool := negb (String.eqb s "").
Definition nonzero (z : Z) : bool := negb (z =? 0).

Definition eventAttrs (ev : Event) : list attr :=
  [s_String "type" (event_type_string (ev_Type ev)); s_Int "timestamp" (ev_Timestamp ev)]
  ++ when (nonempty (ev_AgentID ev)) (s_String "agent_id" (ev_AgentID ev))
  ++ when (nonempty (ev_Project ev)) (s_String "project" (ev_Project ev))
  ++ when (nonempty (ev_Model ev)) (s_String "model" (ev_Model ev))
  ++ when (nonzero (ev_SavedCostMicro ev)) (s_Int "saved_cost_micro_usd" (ev_SavedCostMicro ev))
  ++ when (nonempty (ev_Reason ev)) (s_String "reason" (ev_Reason ev))
  ++ when (nonzero (ev_RetryAfter ev)) (s_Int "retry_after" (ev_RetryAfter ev))
  ++ when (nonzero (ev_BudgetMicroUSD ev)) (s_Int "budget_micro_usd" (ev_BudgetMicroUSD ev))
  ++ when (nonzero (ev_SpentMicroUSD ev)) (s_Int "spent_micro_usd" (ev_SpentMicroUSD ev))
  ++ when (nonzero (ev_ThresholdPct ev)) (s_Int "threshold_pct" (ev_ThresholdPct ev)).

Definition logEventAttrs (ev : LogEvent) : list attr :=
  [s_String "type" (le_Type ev); s_Int "timestamp" (le_Timestamp ev)]
  ++ when (nonempty (le_TenantID ev)) (s_String "tenant_id" (le_TenantID ev))
  ++ when (nonempty (le_TenantName ev)) (s_String "tenant_name" (le_TenantName ev))
  ++ when (nonempty (le_AgentID ev)) (s_String "agent_id" (le_AgentID ev))
  ++ when (nonempty (le_Model ev)) (s_String "model" (le_Model ev))
  ++ when (nonempty (le_ProjectName ev)) (s_String "project_name" (le_ProjectName ev))
  ++ when (nonzero (le_PromptTokens ev)) (s_Int "prompt_tokens" (le_PromptTokens ev))
  ++ when (nonzero (le_CompletionTokens ev)) (s_Int "completion_tokens" (le_CompletionTokens ev))
  ++ when (nonzero (le_CostMicroUSD ev)) (s_Int "cost_micro_usd" (le_CostMicroUSD ev))
  ++ when (nonzero (le_SavedCostMicroUSD ev)) (s_Int "saved_cost_micro_usd" (le_SavedCostMicroUSD ev))
  ++ when (nonzero (le_BudgetMicroUSD ev)) (s_Int "budget_micro_usd" (le_BudgetMicroUSD ev))
  ++ when (nonzero (le_SpentMicroUSD ev)) (s_Int "spent_micro_usd" (le_SpentMicroUSD ev))
  ++ when (nonzero (le_MonthlyBudgetMicro ev)) (s_Int "monthly_budget_micro" (le_MonthlyBudgetMicro ev))
  ++ when (nonzero (le_StatusCode ev)) (s_Int "status_code" (le_StatusCode ev))
  ++ when (le_FirstBlock ev) ("first_block"%string, SBool (le_FirstBlock ev))
  ++ when (nonempty (le_Reason ev)) (s_String "reason" (le_Reason ev))
  ++ when (nonzero (le_RetryAfter ev)) (s_Int "retry_after" (le_RetryAfter ev))
  ++ when (nonzero (le_ThresholdPct ev)) (s_Int "threshold_pct" (le_ThresholdPct ev)).

Definition Slog_Notify (s : SlogLogger) (now : string) (ev : Event) : SlogLogger :=
  LogAttrs s now LevelWarn (event_type_string (ev_Type ev)) (eventAttrs ev).
Definition Slog_Log (s : SlogLogger) (now : string) (ev : LogEvent) : SlogLogger :=
  LogAttrs s now (levelFor (le_Level ev)) (le_Type ev) (logEventAttrs ev).
Definition Slog_Subscribe (h : option Hub) : option (Hub * nat) :=
  match h with None => None | Some h => Some (Hub.Subscribe h 1024) end.

(** ** The two loggers against each other *)

(** The fields of an event's JSON form that its attributes lack. *)
Definition unattributed_event : list string := ["similarity"; "intent_score"; "quota_kind"; "quota_id"]%string.
Definition unattributed_log : list string := ["level"; "dropped_events"]%string.

Definition keep (names : list string) (kvs : list attr) : list attr :=
  filter (fun kv => fst kv ∉ names) kvs.

Lemma struct_members_cons f fs :
  struct_members (f :: fs)
  = (if f_omitempty f && is_empty (f_value f) then [] else [(f_name f, f_value f)]) ++ struct_members fs.
Proof.
  unfold struct_members. rewrite filter_cons. destruct (f_omitempty f && is_empty (f_value f)).
  - by rewrite decide_False.
  - by rewrite decide_True.
Qed.

Lemma keep_app names l1 l2 : keep names (l1 ++ l2) = keep names l1 ++ keep names l2.
Proof. apply filter_app. Qed.

Lemma nonempty_spec s : is_empty (SStr (bytes_of_string s)) = negb (nonempty s).
Proof. by destruct s. Qed.
Lemma nonzero_spec z : is_empty (SInt z) = negb (nonzero z).
Proof. unfold nonzero. by rewrite negb_involutive. Qed.
Lemma nonzero_float_spec f : is_empty (SFloat f) = negb (negb (f64_is_zero f)).
Proof. cbn. by rewrite negb_involutive. Qed.

(** One field with omitempty against one guarded attribute. *)
Lemma omit_when (b : bool) (a : attr) : (if negb b then [] else [a]) = when b a.
Proof. by destruct b. Qed.

Lemma keep_when names b k v :
  keep names (when b (k, v)) = if bool_decide (k ∈ names) then [] else when b (k, v).
Proof.
  destruct b; cbn [when]; unfold keep; [rewrite filter_cons|]; case_bool_decide; cbn [fst];
    [by rewrite decide_False by tauto|by rewrite decide_True|done|done].
Qed.


Ltac decide_names :=
  repeat match goal with
  | |- context [bool_decide (?k ∈ ?names)] =>
      let b := eval vm_compute in (bool_decide (k ∈ names)) in
      change (bool_decide (k ∈ names)) with b; cbv iota
  end.

(** Both sides become the same list of guarded attributes. *)
Ltac compare_attrs :=
  rewrite !struct_members_cons; cbn [f_omitempty f_name f_value andb];
  rewrite ?nonempty_spec, ?nonzero_spec, ?nonzero_float_spec; change (is_empty (SBool ?b)) with (negb b);
  rewrite !omit_when;
  repeat match goal with |- context [[(?k, ?v)]] => change [(k, v)] with (when true (k, v)) end;
  rewrite !keep_app, !keep_when; decide_names; rewrite ?app_nil_r.

Lemma event_attrs_members ev :
  eventAttrs ev = keep unattributed_event (struct_members (event_fields ev)).
Proof. unfold event_fields, f_str, f_int, f_float. compare_attrs. reflexivity. Qed.

Lemma log_event_attrs_members ev :
  logEventAttrs ev = keep unattributed_log (struct_members (log_event_fields ev)).
Proof. unfold log_event_fields, f_str, f_int. compare_attrs. reflexivity. Qed.

Lemma replace_other (l : list attr) :
  "level"%string ∉ (fst <$> l) -> replace_attr <$> l = l.
Proof.
  induction l as [|[k v] l IH]; intros Hn; [done|]. cbn [fmap list_fmap fst] in Hn |- *.
  apply not_elem_of_cons in Hn as [Hk Hn]. rewrite IH by done. unfold replace_attr. cbn [fst snd] in *.
  by destruct (String.eqb_spec k "level"); subst.
Qed.

Lemma keep_names names l k : k ∈ (fst <$> keep names l) -> (k ∉ names) /\ k ∈ (fst <$> l).
Proof.
  intros (kv & -> & Hkv)%list_elem_of_fmap. apply list_elem_of_filter in Hkv as [Hn Hl].
  split; [done|]. by apply list_elem_of_fmap_2.
Qed.

Lemma struct_members_names fs k : k ∈ (fst <$> struct_members fs) -> k ∈ (f_name <$> fs).
Proof.
  unfold struct_members. rewrite <- list_fmap_compose. intros (f & -> & Hf)%list_elem_of_fmap.
  apply list_elem_of_filter in Hf as [_ Hf]. by apply (list_elem_of_fmap_2 f_name).
Qed.

Lemma event_fields_no_level ev : "level"%string ∉ (f_name <$> event_fields ev).
Proof. apply (bool_decide_unpack _). by vm_compute. Qed.

(** What a record of [SlogLogger] holds. *)
Definition slog_record (now level msg : string) (attrs : list attr) : list attr :=
  [s_String "time" now; s_String "level" level; s_String "msg" msg] ++ attrs.

Lemma LogAttrs_out s now level msg attrs :
  level ∈ [LevelDebug; LevelInfo; LevelWarn; LevelError] -> "level"%string ∉ (fst <$> attrs) ->
  sl_out (LogAttrs s now level msg attrs)
  = sl_out s ++ (if level <? sl_level s then []
                 else [slog_record now (string_of_bytes (to_lower (bytes_of_string (level_string level)))) msg attrs]).
Proof.
  intros Hl Hn. unfold LogAttrs. case_match; [by rewrite app_nil_r|]. cbn [sl_out].
  rewrite fmap_app, (replace_other attrs Hn). unfold slog_record, s_String.
  by rewrite bytes_of_string_of_bytes.
Qed.

(** The level of a log event as the record shows it. *)
Definition shown_level (l : string) : string :=
  if bool_decide (l ∈ ["error"; "warn"; "debug"]%string) then l else "info".

Lemma levelFor_shown l :
  levelFor l ∈ [LevelDebug; LevelInfo; LevelWarn; LevelError]
  /\ string_of_bytes (to_lower (bytes_of_string (level_string (levelFor l)))) = shown_level l.
Proof.
  unfold levelFor, shown_level.
  destruct (String.eqb_spec l "error"), (String.eqb_spec l "warn"), (String.eqb_spec l "debug");
    subst; try done; rewrite ?bool_decide_false by set_solver;
    split; try (apply (bool_decide_unpack _); by vm_compute); by vm_compute.
Qed.

(** A struct whose floats all have a JSON form is written on one line. *)
Lemma encode_line_all fs :
  Forall (fun f => encodable (f_value f) = true) fs ->
  encode_line fs = Some (print_object (struct_members fs) ++ ["010"%byte]).
Proof.
  intros Hf. unfold encode_line. rewrite (proj2 (forallb_forall _ _)); [done|].
  intros kv (f & -> & [_ Hin]%list_elem_of_filter)%list_elem_of_In%list_elem_of_fmap. cbn [snd].
  by apply (proj1 (Forall_forall _ _) Hf).
Qed.

(** C35. The slog variant against the reference encoder, on any event. An alert is written
    unless the handler's level is above WARN, a log event unless it is above the event's own
    level; what is written is one object with slog's time, level and msg, followed by exactly
    the members of the event's JSON form, in the same order and with the same values, except
    similarity, intent_score, quota_kind and quota_id of an alert and dropped_events of a log
    event, which no attribute carries; the level member is the event's own level in lower
    case, "info" for a level slog does not know. The JSON form is what the reference logger
    writes, on one line: always for a log event, and for an alert unless a score of it is no
    JSON number - then it writes nothing, where slog still writes the rest. *)
Theorem slog_matches_json s now (ev : Event) (lev : LogEvent) :
  let alert := struct_members (event_fields ev) in
  let live := struct_members (log_event_fields lev) in
  sl_out (Slog_Notify s now ev)
  = sl_out s ++ (if LevelWarn <? sl_level s then []
                 else [slog_record now "warn" (event_type_string (ev_Type ev)) (keep unattributed_event alert)])
  /\ out (Logger_Notify logging_New ev WroteAll)
     = (if forallb (fun kv => encodable (snd kv)) alert then print_object alert ++ ["010"%byte] else [])
  /\ sl_out (Slog_Log s now lev)
     = sl_out s ++ (if levelFor (le_Level lev) <? sl_level s then []
                    else [slog_record now (shown_level (le_Level lev)) (le_Type lev) (keep unattributed_log live)])
  /\ out (Logger_Log logging_New lev WroteAll) = print_object live ++ ["010"%byte].
Proof.
  intros alert live. split_and!.
  - unfold Slog_Notify. rewrite event_attrs_members, LogAttrs_out; [done|set_solver|].
    intros Hin. apply keep_names in Hin as [_ Hin%struct_members_names]. by apply event_fields_no_level in Hin.
  - unfold Logger_Notify, encode_line. fold alert. by destruct (forallb _ alert).
  - unfold Slog_Log. destruct (levelFor_shown (le_Level lev)) as [Hl Hs].
    rewrite log_event_attrs_members, LogAttrs_out, Hs; [done|done|].
    intros Hin. apply keep_names in Hin as [Hn _]. set_solver.
  - unfold Logger_Log. by rewrite encode_line_all by (repeat constructor).
Qed.

(** ** Reading a log back *)

(** Text is valid UTF-8, integers fit in int64 (a drop counter beyond that is not a value of
    the reader's type), and a float has a JSON form and is no negative zero. *)
Definition field_ok (f : field) : Prop :=
  match f_value f with SStr s => utf8_valid s | v => scalar_ok v end.
#[export] Instance field_ok_dec f : Decision (field_ok f).
Proof. unfold field_ok. destruct (f_value f); apply _. Defined.
Definition loggable (ev : LogEvent) : Prop := Forall field_ok (log_event_fields ev).

(** The target type of a reader, and the value it reads. *)
Definition log_event_doc : ty := TStruct (schema (log_event_fields no_event)).

Definition read_log_event (v : gov) : LogEvent :=
  let str i := string_of_bytes (g_str (g_field i v)) in
  let int i := g_int (g_field i v) in
  {| le_Type := str 0%nat; le_Level := str 1%nat; le_Timestamp := int 2%nat; le_TenantID := str 3%nat;
     le_TenantName := str 4%nat; le_AgentID := str 5%nat; le_Model := str 6%nat;
     le_ProjectName := str 7%nat; le_PromptTokens := int 8%nat; le_CompletionTokens := int 9%nat;
     le_CostMicroUSD := int 10%nat; le_SavedCostMicroUSD := int 11%nat; le_BudgetMicroUSD := int 12%nat;
     le_SpentMicroUSD := int 13%nat; le_MonthlyBudgetMicro := int 14%nat; le_StatusCode := int 15%nat;
     le_FirstBlock := g_bool (g_field 16 v); le_Reason := str 17%nat; le_RetryAfter := int 18%nat;
     le_ThresholdPct := int 19%nat; le_DroppedEvents := int 20%nat |}.

Lemma log_fields_tagged ev : loggable ev -> well_tagged (log_event_fields ev).
Proof.
  intros Hok. split.
  - apply (bool_decide_unpack _). by vm_compute.
  - repeat (constructor; [by vm_compute|]). constructor.
  - eapply Forall_impl; [exact Hok|]. intros f. unfold field_ok, scalar_ok. by destruct (f_value f).
Qed.

Lemma log_fields_read ev : loggable ev -> read_log_event (GStruct (gov_fields (log_event_fields ev))) = ev.
Proof.
  intros Hok. unfold loggable, log_event_fields in Hok. rewrite !Forall_cons in Hok.
  unfold field_ok, f_str, f_int, utf8_valid in Hok. cbn [f_value] in Hok. destruct_and!.
  unfold read_log_event, gov_fields, log_event_fields, f_str, f_int, g_field.
  cbn [fmap list_fmap f_value gov_of lookup list_lookup default id g_str g_int g_bool].
  repeat match goal with H : to_valid ?s = ?s |- _ => rewrite H; clear H end.
  rewrite !string_of_bytes_of_string. by destruct ev.
Qed.

Definition newline : byte := "010".

(** A reader of the file: its whole lines, each decoded as a log event; None when one is
    not. What follows the last newline is no line yet. *)
Definition whole_lines (file : list byte) : list (list byte) := removelast (split_byte newline file).
Definition read_line (line : list byte) : option LogEvent := read_log_event <$> unmarshal log_event_doc line.
Definition read_log (file : list byte) : option (list LogEvent) := mapM read_line (whole_lines file).

Lemma split_nonempty c l : split_byte c l <> [].
Proof. destruct l as [|b l]; cbn; [done|]. destruct (split_byte c l); [done|]. by destruct (byte_eqb b c). Qed.

Lemma newline_neqb b : newline <> b -> byte_eqb b newline = false.
Proof. intros Hb. destruct (byte_eqb b newline) eqn:E; [|done]. by apply byte_eqb_eq in E. Qed.

Lemma split_line body rest :
  newline ∉ body -> split_byte newline (body ++ newline :: rest) = body :: split_byte newline rest.
Proof.
  induction body as [|b body IH]; intros Hn.
  - cbn [app split_byte]. pose proof (split_nonempty newline rest) as Hs.
    destruct (split_byte newline rest); done.
  - apply not_elem_of_cons in Hn as [Hb Hn]. cbn [app split_byte]. rewrite (IH Hn).
    by rewrite (newline_neqb b Hb).
Qed.

Lemma split_partial body : newline ∉ body -> split_byte newline body = [body].
Proof.
  induction body as [|b body IH]; intros Hn; [done|]. apply not_elem_of_cons in Hn as [Hb Hn].
  cbn [split_byte]. rewrite (IH Hn). by rewrite (newline_neqb b Hb).
Qed.

Lemma whole_lines_cons body rest : newline ∉ body -> whole_lines (body ++ newline :: rest) = body :: whole_lines rest.
Proof.
  intros Hn. unfold whole_lines. rewrite split_line by done. pose proof (split_nonempty newline rest).
  by destruct (split_byte newline rest).
Qed.

Lemma whole_lines_partial body : newline ∉ body -> whole_lines body = [].
Proof. intros Hn. unfold whole_lines. by rewrite split_partial. Qed.

Lemma read_line_back ev :
  loggable ev -> read_line (print_object (struct_members (log_event_fields ev))) = Some ev.
Proof.
  intros Hok. unfold read_line. rewrite <- (app_nil_r (print_object _)).
  change log_event_doc with (TStruct (schema (log_event_fields ev))).
  rewrite object_roundtrip by (done || by apply log_fields_tagged). cbn [fmap option_fmap option_map].
  by rewrite log_fields_read.
Qed.

(** The items up to the first write that failed. *)
Fixpoint before_failure {A} (evs : list (A * write_result)) : list A :=
  match evs with
  | (ev, WroteAll) :: r => ev :: before_failure r
  | _ => []
  end.

(** What a sequence of Encode calls leaves in the file, for any items that are one line each
    and read back. *)
Section encoded.
Context {A : Type} (line : A -> list byte) (read : list byte -> option A) (ok : A -> Prop).
Context (one_line : forall a, newline ∉ line a) (read_back : forall a, ok a -> read (line a) = Some a).

Definition encode_all (l : Logger) (evs : list (A * write_result)) : Logger :=
  foldl (fun l ew => Encode l (Some (line (fst ew) ++ [newline])) (snd ew)) l evs.

(** A failing write is cut short of the line's newline. *)
Definition cut_short (ew : A * write_result) : Prop :=
  match snd ew with WroteAll => True | WriteError n => (n <= length (line (fst ew)))%nat end.

Lemma encode_failed evs o : out (encode_all {| enc_err := true; out := o |} evs) = o.
Proof. induction evs as [|ew evs IH]; [done|]. apply IH. Qed.

Lemma encode_all_out evs o :
  exists tl, out (encode_all {| enc_err := false; out := o |} evs) = o ++ tl
    /\ (Forall ok (fst <$> evs) -> Forall cut_short evs ->
        mapM read (whole_lines tl) = Some (before_failure evs)).
Proof.
  revert o. induction evs as [|[ev w] evs IH]; intros o.
  { exists []. split; [by rewrite app_nil_r|]. done. }
  unfold encode_all. cbn [foldl fst snd]. fold (encode_all (Encode {| enc_err := false; out := o |}
    (Some (line ev ++ [newline])) w) evs).
  unfold Encode. cbn [enc_err]. destruct w as [|n]; cbn [out].
  - destruct (IH (o ++ line ev ++ [newline])) as (tl & Hout & Hr). exists ((line ev ++ [newline]) ++ tl).
    split; [by rewrite Hout, <- !app_assoc|]. intros Hl Hs. apply Forall_cons in Hl as [Hl Hls].
    apply Forall_cons in Hs as [_ Hs]. rewrite <- app_assoc. cbn [app].
    specialize (Hr Hls Hs). rewrite whole_lines_cons by apply one_line.
    cbn [before_failure]. apply mapM_Some in Hr. apply mapM_Some. constructor; [exact (read_back ev Hl)|exact Hr].
  - exists (take n (line ev ++ [newline])). rewrite encode_failed. split; [done|]. intros _ [Hs _]%Forall_cons.
    unfold cut_short in Hs. cbn [fst snd] in Hs. rewrite whole_lines_partial; [done|].
    rewrite take_app_le by lia. intros Hin. apply (subseteq_take n) in Hin. by apply one_line in Hin.
Qed.
End encoded.

Definition log_text (ev : LogEvent) : list byte := print_object (struct_members (log_event_fields ev)).
Definition short_write : LogEvent * write_result -> Prop := cut_short log_text.

Lemma log_encoded l ev w : Logger_Log l ev w = Encode l (Some (log_text ev ++ [newline])) w.
Proof. unfold Logger_Log. by rewrite encode_line_all by (repeat constructor). Qed.

Lemma drain_encodes l evs : Logger_drain l evs = encode_all log_text l evs.
Proof.
  revert l. induction evs as [|[ev w] evs IH]; intros l; [done|]. unfold Logger_drain, encode_all in *. cbn [foldl fst snd].
  by rewrite log_encoded, IH.
Qed.

(** What a drained logger appended. *)
Lemma drain_out evs o :
  exists tl, out (Logger_drain {| enc_err := false; out := o |} evs) = o ++ tl
    /\ (Forall loggable (fst <$> evs) -> Forall short_write evs ->
        read_log tl = Some (before_failure evs)).
Proof.
  rewrite drain_encodes.
  apply (encode_all_out log_text read_line loggable (fun ev => print_object_one_line _) read_line_back evs o).
Qed.

(** A log read back. Whatever the drained subscription delivers, and wherever a write
    fails, the file's whole lines decode to exactly the events before the first failed write,
    in order and field by field: each event is one line, no text of an event can break a
    line, and after a failed write the encoder writes nothing more, so the file never
    continues with a later event after a cut one. *)
Theorem json_log_roundtrip evs :
  Forall loggable (fst <$> evs) -> Forall short_write evs ->
  read_log (out (Logger_drain logging_New evs)) = Some (before_failure evs).
Proof.
  intros Hl Hs. destruct (drain_out evs []) as (tl & Hout & Hr).
  unfold logging_New. rewrite Hout. cbn [app]. by apply Hr.
Qed.

Definition sample_log : list (LogEvent * write_result) :=
  [({| le_Type := TypeLoopBlocked; le_Level := "warn"; le_Timestamp := 1700000000; le_TenantID := "k1";
       le_TenantName := ""; le_AgentID := "agent<1>"; le_Model := "gpt-4o"; le_ProjectName := "";
       le_PromptTokens := 12; le_CompletionTokens := 0; le_CostMicroUSD := 0; le_SavedCostMicroUSD := -5;
       le_BudgetMicroUSD := 0; le_SpentMicroUSD := 0; le_MonthlyBudgetMicro := 0; le_StatusCode := 429;
       le_FirstBlock := true; le_Reason := "a\b"; le_RetryAfter := 300; le_ThresholdPct := 0;
       le_DroppedEvents := 0 |}, WroteAll);
   (no_event, WriteError 7); (no_event, WroteAll)].

Lemma json_log_roundtrip_witness :
  read_log (out (Logger_drain logging_New sample_log)) = Some (fst <$> take 1 sample_log).
Proof.
  apply (json_log_roundtrip sample_log).
  - repeat (constructor; [repeat (constructor; [by vm_compute|]); constructor|]). constructor.
  - repeat (constructor; [vm_compute; lia|]). constructor.
Defined.
