(* ===== verification/Metrics.v ===== *)
(** * pkg/proxy/metrics.go: the in-memory observability registry

    A bucket index that Go would compute negative (an observation before 1970) is a
    run-time panic there, None here. *)

From S2P Require Import Prelude GoFloat Detector.

(** ** The token window *)

Definition velocityBuckets : Z := 64.
Definition velocityWindow : Z := 5.

Record tokenWindow := {
  buckets : list Z;
  last : Z
}.

Definition new_window : tokenWindow := {| buckets := replicate 64 0; last := 0 |}.

(** sec % velocityBuckets, for a non-negative second. *)
Definition slot (sec : Z) : nat := Z.to_nat (Z.rem sec velocityBuckets).

Definition advance (w : tokenWindow) (sec : Z) : tokenWindow :=
  if sec <=? last w then w
  else
    let first := if velocityBuckets <? sec - last w then sec - velocityBuckets + 1 else last w + 1 in
    {| buckets := foldl (fun b i => <[slot i := 0]> b) (buckets w) (seqZ first (sec - first + 1));
       last := sec |}.

Definition window_add (w : tokenWindow) (now tokens : Z) : option tokenWindow :=
  if tokens <=? 0 then Some w
  else
    let sec := time_unix now in
    let w := advance w sec in
    if Z.rem sec velocityBuckets <? 0 then None
    else Some {| buckets := alter (fun n => wrap64 (n + tokens)) (slot sec) (buckets w);
                 last := last w |}.

(** w.buckets[s%velocityBuckets] *)
Definition bucket (w : tokenWindow) (s : Z) : Z := default 0 (buckets w !! slot s).

(** The loop of velocity: i from 0, breaking at a negative second. *)
Fixpoint velocity_sum (w : tokenWindow) (n : nat) (s sum : Z) : Z :=
  match n with
  | O => sum
  | S n' => if s <? 0 then sum else velocity_sum w n' (s - 1) (wrap64 (sum + bucket w s))
  end.

Definition velocity (w : tokenWindow) (now : Z) : tokenWindow * float64 :=
  let sec := time_unix now in
  let w := advance w sec in
  (w, f64_div (f64_of_Z (velocity_sum w (Z.to_nat velocityWindow) sec 0))
        (f64_of_Z velocityWindow)).

Record TokenPoint := { tp_Second : Z; tp_Tokens : Z }.

Definition series (w : tokenWindow) (now : Z) : tokenWindow * list TokenPoint :=
  let sec := time_unix now in
  let w := advance w sec in
  (w, foldl (fun out s => if s <? 0 then out
                          else out ++ [{| tp_Second := s; tp_Tokens := bucket w s |}])
        [] (seqZ (sec - (velocityBuckets - 1)) velocityBuckets)).

(** ** The trigger ring *)

Definition triggerCap : Z := 100.

Record TriggerEvent := {
  te_Timestamp : Z;
  te_AgentID : string;
  te_Model : string;
  te_Reason : string;
  te_SavedMicro : Z
}.

Definition push (ring : list TriggerEvent) (ev : TriggerEvent) : list TriggerEvent :=
  let ring := ring ++ [ev] in
  if triggerCap <? Z.of_nat (length ring)
  then drop (Z.to_nat (Z.of_nat (length ring) - triggerCap)) ring else ring.

(** out[i] = ring[len-1-i]. *)
Definition snapshot (ring : list TriggerEvent) : list TriggerEvent := reverse ring.

(** ** The registry *)

Record Metrics := {
  active : Z;
  requests : Z;
  loopBlocks : Z;
  savedCost : Z;
  latencyNs : Z;
  latencyN : Z;
  tokens : tokenWindow;
  triggers : list TriggerEvent;
  started : Z
}.

Definition NewMetrics (now : Z) : Metrics :=
  {| active := 0; requests := 0; loopBlocks := 0; savedCost := 0; latencyNs := 0; latencyN := 0;
     tokens := new_window; triggers := []; started := now |}.

Definition markStart (m : Metrics) : Metrics :=
  {| active := wrap64 (active m + 1); requests := requests m; loopBlocks := loopBlocks m;
     savedCost := savedCost m; latencyNs := latencyNs m; latencyN := latencyN m;
     tokens := tokens m; triggers := triggers m; started := started m |}.

Definition markDone (m : Metrics) : Metrics :=
  {| active := wrap64 (active m + -1); requests := requests m; loopBlocks := loopBlocks m;
     savedCost := savedCost m; latencyNs := latencyNs m; latencyN := latencyN m;
     tokens := tokens m; triggers := triggers m; started := started m |}.

Definition markLoopBlocked (m : Metrics) (now saved promptTok : Z) : option Metrics :=
  w ← window_add (tokens m) now promptTok;
  Some {| active := active m; requests := requests m; loopBlocks := wrap64 (loopBlocks m + 1);
          savedCost := wrap64 (savedCost m + saved); latencyNs := latencyNs m;
          latencyN := latencyN m; tokens := w; triggers := triggers m; started := started m |}.

Definition markForwarded (m : Metrics) (now latency promptTok completionTok : Z) : option Metrics :=
  w ← window_add (tokens m) now (wrap64 (promptTok + completionTok));
  Some {| active := active m; requests := wrap64 (requests m + 1); loopBlocks := loopBlocks m;
          savedCost := savedCost m; latencyNs := wrap64 (latencyNs m + latency);
          latencyN := wrap64 (latencyN m + 1); tokens := w; triggers := triggers m;
          started := started m |}.

Definition recordTrigger (m : Metrics) (t : TriggerEvent) : Metrics :=
  {| active := active m; requests := requests m; loopBlocks := loopBlocks m;
     savedCost := savedCost m; latencyNs := latencyNs m; latencyN := latencyN m;
     tokens := tokens m; triggers := push (triggers m) t; started := started m |}.

Record MetricsSnapshot := {
  ActiveRequests : Z;
  TotalRequests : Z;
  LoopBlocks : Z;
  BlockedAgents : Z;
  SavedCostMicroUSD : Z;
  AvgLatencyMicro : Z;
  TokenVelocity : float64;
  TokenSeries : list TokenPoint;
  RecentTriggers : list TriggerEvent;
  UptimeSeconds : Z
}.

Definition empty_snapshot : MetricsSnapshot :=
  {| ActiveRequests := 0; TotalRequests := 0; LoopBlocks := 0; BlockedAgents := 0;
     SavedCostMicroUSD := 0; AvgLatencyMicro := 0; TokenVelocity := f64_zero; TokenSeries := [];
     RecentTriggers := []; UptimeSeconds := 0 |}.

(** Snapshot advances the token window as it reads it. *)
Definition Snapshot (m : Metrics) (now : Z) : Metrics * MetricsSnapshot :=
  let avg := if 0 <? latencyN m
             then Z.quot (Z.quot (latencyNs m) (latencyN m)) Microsecond else 0 in
  let '(w1, v) := velocity (tokens m) now in
  let '(w2, ser) := series w1 now in
  ({| active := active m; requests := requests m; loopBlocks := loopBlocks m;
      savedCost := savedCost m; latencyNs := latencyNs m; latencyN := latencyN m;
      tokens := w2; triggers := triggers m; started := started m |},
   {| ActiveRequests := active m; TotalRequests := requests m; LoopBlocks := loopBlocks m;
      BlockedAgents := 0; SavedCostMicroUSD := savedCost m; AvgLatencyMicro := avg;
      TokenVelocity := v; TokenSeries := ser; RecentTriggers := snapshot (triggers m);
      UptimeSeconds := f64_to_int64 (duration_seconds (time_sub now (started m))) |}).

(** MetricsHandler: the status and the snapshot encoded on 200. [m] is None for a nil
    registry, [blocked] the blocked agents when the detector implements DetectorStatus. *)
Definition MetricsHandler (m : option Metrics) (blocked : option (list AgentStatus))
    (method : string) (now : Z) : option Metrics * (Z * option MetricsSnapshot) :=
  if negb (String.eqb method "GET") then (m, (405, None))
  else
    let '(m', snap) :=
      match m with
      | Some m => let '(m', s) := Snapshot m now in (Some m', s)
      | None => (None, empty_snapshot)
      end in
    let snap :=
      match blocked with
      | Some l =>
          {| ActiveRequests := ActiveRequests snap; TotalRequests := TotalRequests snap;
             LoopBlocks := LoopBlocks snap; BlockedAgents := Z.of_nat (length l);
             SavedCostMicroUSD := SavedCostMicroUSD snap; AvgLatencyMicro := AvgLatencyMicro snap;
             TokenVelocity := TokenVelocity snap; TokenSeries := TokenSeries snap;
             RecentTriggers := RecentTriggers snap; UptimeSeconds := UptimeSeconds snap |}
      | None => snap
      end in
    (m', (200, Some snap)).

(** ** Specification-level views *)

(** What is done with a window: tokens are added, or a gauge is read. *)
Inductive window_op :=
  | WAdd (now tok : Z)
  | WVelocity (now : Z)
  | WSeries (now : Z).

Definition op_second (o : window_op) : Z :=
  match o with WAdd now _ | WVelocity now | WSeries now => time_unix now end.

Definition window_exec (w : tokenWindow) (o : window_op) : option tokenWindow :=
  match o with
  | WAdd now tok => window_add w now tok
  | WVelocity now => Some (velocity w now).1
  | WSeries now => Some (series w now).1
  end.

Fixpoint window_run (w : tokenWindow) (ops : list window_op) : option tokenWindow :=
  match ops with
  | [] => Some w
  | o :: ops' => w' ← window_exec w o; window_run w' ops'
  end.

(** The clock, from second [t] on, does not step back. *)
Fixpoint forward (t : Z) (ops : list window_op) : Prop :=
  match ops with
  | [] => True
  | o :: ops' => t <= op_second o /\ forward (op_second o) ops'
  end.

(** The last second read. *)
Fixpoint final_second (t : Z) (ops : list window_op) : Z :=
  match ops with [] => t | o :: ops' => final_second (op_second o) ops' end.

(** The tokens an operation contributes to a second, and those a run does. *)
Definition op_tokens (o : window_op) (s : Z) : Z :=
  match o with
  | WAdd now tok => if (0 <? tok) && (time_unix now =? s) then tok else 0
  | _ => 0
  end.
Definition tokens_at (ops : list window_op) (s : Z) : Z := sumZ ((fun o => op_tokens o s) <$> ops).

(** ** The token window *)

Lemma slot_mod s : 0 <= s -> slot s = Z.to_nat (s mod 64).
Proof. intros. unfold slot, velocityBuckets. by rewrite Z.rem_mod_nonneg. Qed.

Lemma slot_lt s : 0 <= s -> (slot s < 64)%nat.
Proof. intros. rewrite slot_mod by done. pose proof (Z.mod_pos_bound s 64 ltac:(lia)). lia. Qed.

Lemma slot_inj s i : 0 <= s -> 0 <= i -> -64 < s - i < 64 -> slot s = slot i -> s = i.
Proof. intros ? ? ?. rewrite !slot_mod by done. intros Heq. zify. Z.to_euclidean_division_equations. lia. Qed.

Lemma zero_fold (l : list Z) (b : list Z) (j : nat) :
  foldl (fun b i => <[slot i := 0]> b) b l !! j
  = if bool_decide (j ∈ slot <$> l) then (fun _ => 0) <$> b !! j else b !! j.
Proof.
  revert b. induction l as [|i l IH]; intros b; cbn [foldl]; [done|]. rewrite IH, fmap_cons.
  destruct (decide (j = slot i)) as [->|Hne].
  - rewrite (bool_decide_eq_true_2 (slot i ∈ slot i :: _)) by (by left).
    destruct (decide (slot i < length b)%nat).
    + rewrite list_lookup_insert_eq by done. destruct (lookup_lt_is_Some_2 b (slot i)) as [x ->]; [done|].
      by case_bool_decide.
    + rewrite list_insert_ge by lia. rewrite lookup_ge_None_2 by lia. by case_bool_decide.
  - rewrite list_lookup_insert_ne by done.
    rewrite (bool_decide_ext (j ∈ slot i :: _) (j ∈ slot <$> l)); [done|]. set_solver.
Qed.

Lemma zero_fold_length l (b : list Z) : length (foldl (fun b i => <[slot i := 0]> b) b l) = length b.
Proof. revert b. induction l as [|i l IH]; intros b; cbn [foldl]; [done|]. by rewrite IH, length_insert. Qed.

(** The ring holds the totals [f] of the last 64 seconds. *)
Definition window_ok (w : tokenWindow) (f : Z -> Z) : Prop :=
  length (buckets w) = 64%nat /\ 0 <= last w
  /\ (forall s, last w - 64 < s <= last w -> 0 <= s -> bucket w s = wrap64 (f s))
  /\ (forall s, last w < s -> f s = 0) /\ (forall s, s < 0 -> f s = 0).

Lemma new_window_ok : window_ok new_window (fun _ => 0).
Proof.
  split_and!; try done. intros s _ Hs. unfold bucket, new_window. cbn [buckets].
  by rewrite lookup_replicate_2 by (by apply slot_lt).
Qed.

Lemma advance_ok w f sec :
  window_ok w f -> last w <= sec -> window_ok (advance w sec) f /\ last (advance w sec) = sec.
Proof.
  intros (Hlen & H0 & Hb & Hnew & Hneg) Hle. unfold advance. zcase (sec <=? last w).
  { assert (sec = last w) as -> by lia. done. }
  set (first := if velocityBuckets <? _ then _ else _). cbn [last]. split; [|done].
  assert (last w < first /\ sec - 64 < first <= sec /\ (first = last w + 1 \/ first = sec - 63)) as Hf.
  { unfold first, velocityBuckets. zcase (64 <? sec - last w); lia. }
  split_and!; cbn; [by rewrite zero_fold_length|lia| |intros; apply Hnew; lia|done].
  intros s Hs Hs0. unfold bucket. cbn [buckets]. rewrite zero_fold. case_bool_decide as Hin.
  - apply list_elem_of_fmap in Hin as (i & Hsi & Hi). apply elem_of_seqZ in Hi.
    assert (s = i) as -> by (apply slot_inj; lia). rewrite Hnew by lia.
    by destruct (buckets w !! slot i).
  - assert (s < first) as Hsf.
    { destruct (decide (s < first)); [done|]. destruct Hin. apply list_elem_of_fmap.
      exists s. split; [done|]. apply elem_of_seqZ. lia. }
    apply Hb; lia.
Qed.

Lemma add_ok w f now tok :
  window_ok w f -> last w <= time_unix now -> 0 <= time_unix now ->
  exists w', window_add w now tok = Some w' /\ last w' <= time_unix now
    /\ window_ok w' (fun s => f s + op_tokens (WAdd now tok) s).
Proof.
  intros Hw Hle H0. unfold window_add. cbn [op_tokens]. zcase (tok <=? 0).
  { exists w. split; [done|]. split; [done|]. replace (0 <? tok) with false by lia. cbn [andb].
    destruct Hw as (? & ? & Hb & Hn & Hg).
    split_and!; try done; intros; rewrite ?Z.add_0_r; auto. }
  destruct (advance_ok w f (time_unix now) Hw Hle) as [(Hlen & _ & Hb & Hnew & Hneg) Hlast].
  set (w1 := advance w (time_unix now)) in *. set (sec := time_unix now) in *.
  replace (Z.rem sec velocityBuckets <? 0) with false
    by (symmetry; apply Z.ltb_ge; unfold velocityBuckets; by apply Z.rem_nonneg).
  eexists. split; [done|]. cbn. rewrite Hlast in *. split; [lia|].
  replace (0 <? tok) with true by lia. cbn [andb].
  split_and!; cbn [buckets last]; rewrite ?length_alter; try lia.
  - intros s Hs Hs0. unfold bucket. cbn [buckets].
    zcase (sec =? s).
    + subst s. rewrite list_lookup_alter_eq. specialize (Hb sec ltac:(lia) ltac:(lia)). unfold bucket in Hb.
      destruct (lookup_lt_is_Some_2 (buckets w1) (slot sec)) as [x Hx];
        [rewrite Hlen; by apply slot_lt|]. rewrite Hx in *. cbn in *.
      by rewrite Hb, wrap64_wrap64_add.
    + rewrite list_lookup_alter_ne by (intros Heq; apply slot_inj in Heq; lia).
      rewrite Z.add_0_r. apply Hb; lia.
  - intros s Hs. rewrite Hnew by lia. zcase (sec =? s).
  - intros s Hs. rewrite Hneg by lia. zcase (sec =? s).
Qed.

Lemma window_ok_ext w f g : (forall s, f s = g s) -> window_ok w f -> window_ok w g.
Proof.
  intros He (? & ? & Hb & Hn & Hg). split_and!; try done; intros; rewrite <- He; auto.
Qed.

Lemma run_ok ops w f t :
  window_ok w f -> last w <= t -> 0 <= t -> forward t ops ->
  exists w', window_run w ops = Some w' /\ last w' <= final_second t ops
             /\ window_ok w' (fun s => f s + tokens_at ops s) /\ t <= final_second t ops.
Proof.
  revert w f t. induction ops as [|o ops IH]; intros w f t Hw Hl Ht Hfw; cbn [window_run forward] in *.
  { exists w. split_and!; try done. eapply window_ok_ext; [|exact Hw]. intros. cbn. lia. }
  destruct Hfw as [Hle Hfw].
  assert (exists w1, window_exec w o = Some w1 /\ last w1 <= op_second o
    /\ window_ok w1 (fun s => f s + op_tokens o s)) as (w1 & -> & Hl1 & Hw1).
  { destruct o as [now tok|now|now]; cbn in *.
    - apply add_ok; [done|lia|lia].
    - eexists. split; [done|]. destruct (advance_ok w f (time_unix now) Hw ltac:(lia)) as [Ha ->].
      split; [done|]. eapply window_ok_ext; [|exact Ha]. intros. lia.
    - eexists. split; [done|]. destruct (advance_ok w f (time_unix now) Hw ltac:(lia)) as [Ha ->].
      split; [done|]. eapply window_ok_ext; [|exact Ha]. intros. lia. }
  destruct (IH w1 _ (op_second o) Hw1 Hl1 ltac:(lia) Hfw) as (w' & Hr & Hl' & Hw' & Hf').
  exists w'. cbn [mbind option_bind final_second]. split_and!; try done; [|lia].
  eapply window_ok_ext; [|exact Hw']. intros s. unfold tokens_at. rewrite fmap_cons. cbn [sumZ]. lia.
Qed.

Lemma velocity_sum_exact w f n s sum :
  window_ok w f -> s <= last w -> last w - 64 < s - Z.of_nat n + 1 ->
  velocity_sum w n s (wrap64 sum)
  = wrap64 (sum + sumZ (f <$> seqZ (s - Z.of_nat n + 1) (Z.of_nat n))).
Proof.
  intros (_ & _ & Hb & _ & Hneg). revert s sum. induction n as [|n IH]; intros s sum Hs Hw;
    cbn [velocity_sum].
  { cbn. by rewrite Z.add_0_r. }
  assert (sumZ (f <$> seqZ (s - Z.of_nat (S n) + 1) (Z.of_nat (S n)))
          = f s + sumZ (f <$> seqZ (s - 1 - Z.of_nat n + 1) (Z.of_nat n))) as ->.
  { replace (Z.of_nat (S n)) with (Z.of_nat n + 1) by lia.
    rewrite seqZ_app by lia. rewrite fmap_app, sumZ_app.
    replace (s - (Z.of_nat n + 1) + 1 + Z.of_nat n) with s by lia.
    replace (s - (Z.of_nat n + 1) + 1) with (s - 1 - Z.of_nat n + 1) by lia.
    change (seqZ s 1) with [s]. cbn [fmap list_fmap sumZ]. lia. }
  zcase (s <? 0).
  - assert (sumZ (f <$> seqZ (s - 1 - Z.of_nat n + 1) (Z.of_nat n)) = 0) as ->.
    { assert (forall l, (forall x, x ∈ l -> x < 0) -> sumZ (f <$> l) = 0) as Hz.
      { induction l as [|x l IHl]; intros Hl; [done|]. rewrite fmap_cons. cbn [sumZ].
        rewrite Hneg by (apply Hl; by left). rewrite IHl; [done|]. intros; apply Hl; by right. }
      apply Hz. intros x Hx%elem_of_seqZ. lia. }
    rewrite Hneg by lia. by rewrite !Z.add_0_r.
  - rewrite Hb by lia. rewrite wrap64_wrap64_add, (Z.add_comm sum), wrap64_wrap64_add.
    rewrite (IH (s - 1)) by lia. f_equal. lia.
Qed.

(** C32. The token gauges: however additions and reads are mixed, as long as the clock
    does not step back, no call panics, token_velocity is the tokens of the last five
    seconds divided by five, and the series lists, for each of the last 64 seconds in
    order, exactly the tokens of that second - a slot of the ring never shows what a
    second 64 or more before left in it. *)
Theorem token_gauges_exact ops now :
  forward 0 ops -> final_second 0 ops <= time_unix now ->
  exists w, window_run new_window ops = Some w
  /\ (velocity w now).2
     = f64_div (f64_of_Z (wrap64 (sumZ (tokens_at ops <$> seqZ (time_unix now - 4) 5)))) (f64_of_Z 5)
  /\ (series w now).2
     = (fun s => {| tp_Second := s; tp_Tokens := wrap64 (tokens_at ops s) |})
         <$> filter (fun s => 0 <= s) (seqZ (time_unix now - 63) 64).
Proof.
  intros Hfw Hnow.
  destruct (run_ok ops new_window _ 0 new_window_ok ltac:(done) ltac:(done) Hfw)
    as (w & Hr & Hl & Hw & H0).
  apply (window_ok_ext _ _ (tokens_at ops)) in Hw; [|done].
  destruct (advance_ok w _ (time_unix now) Hw ltac:(lia)) as [Ha Hlast].
  exists w. split; [done|]. split.
  - cbn [velocity snd]. f_equal. f_equal. change 0 with (wrap64 0) at 1.
    change (Z.to_nat velocityWindow) with 5%nat.
    rewrite (velocity_sum_exact _ (tokens_at ops)) by (try done; lia). rewrite Z.add_0_l.
    change (Z.of_nat 5) with 5. by replace (time_unix now - 5 + 1) with (time_unix now - 4) by lia.
  - cbn [series snd].
    assert (forall l out, (forall s, s ∈ l -> time_unix now - 64 < s <= time_unix now) ->
      foldl (fun out s => if s <? 0 then out
                else out ++ [{| tp_Second := s; tp_Tokens := bucket (advance w (time_unix now)) s |}]) out l
      = out ++ ((fun s => {| tp_Second := s; tp_Tokens := wrap64 (tokens_at ops s) |})
                  <$> filter (fun s => 0 <= s) l)) as Hfold.
    { destruct Ha as (_ & _ & Hb & _). induction l as [|s l IH]; intros out Hin; cbn [foldl].
      { cbn. by rewrite app_nil_r. }
      assert (time_unix now - 64 < s <= time_unix now) as Hs by (apply Hin; by left).
      rewrite filter_cons, IH by (intros; apply Hin; by right). zcase (s <? 0).
      - by rewrite decide_False by lia.
      - rewrite decide_True by lia. rewrite Hb by lia. rewrite fmap_cons. by rewrite <- app_assoc. }
    unfold velocityBuckets. rewrite Hfold; [done|]. intros s Hs%elem_of_seqZ. lia.
Qed.

Lemma token_gauges_exact_witness :
  exists w, window_run new_window [WAdd (unix_time 100) 7; WSeries (unix_time 101); WAdd (unix_time 164) 5]
            = Some w
  /\ (velocity w (unix_time 166)).2 = f64_of_Z 1
  /\ (series w (unix_time 166)).2
     = (fun s => {| tp_Second := s; tp_Tokens := if s =? 164 then 5 else 0 |}) <$> seqZ 103 64.
Proof.
  destruct (token_gauges_exact
    [WAdd (unix_time 100) 7; WSeries (unix_time 101); WAdd (unix_time 164) 5] (unix_time 166))
    as (w & Hw & Hv & Hs).
  - cbn [forward op_second]. repeat split; vm_compute; discriminate.
  - vm_compute. discriminate.
  - exists w. split; [exact Hw|]. split; [rewrite Hv; vm_compute; reflexivity|].
    rewrite Hs. vm_compute. reflexivity.
Defined.

(** ** The trigger history and the counters *)

Lemma push_eq ring e : push ring e = drop (length ring + 1 - 100) (ring ++ [e]).
Proof.
  unfold push, triggerCap. rewrite length_app. cbn [length].
  zcase (100 <? Z.of_nat (length ring + 1)).
  - f_equal. lia.
  - by replace (length ring + 1 - 100)%nat with 0%nat by lia.
Qed.

Lemma push_fold l ring :
  (length ring <= 100)%nat ->
  foldl push ring l = drop (length ring + length l - 100) (ring ++ l).
Proof.
  revert ring. induction l as [|e l IH]; intros ring Hr; cbn [foldl length].
  { rewrite app_nil_r. by replace (length ring + 0 - 100)%nat with 0%nat by lia. }
  rewrite IH, push_eq, length_drop, length_app by (rewrite push_eq, length_drop, length_app; cbn; lia).
  cbn [length]. rewrite <- (drop_app_le _ l) by (rewrite length_app; cbn; lia).
  rewrite drop_drop, <- app_assoc. f_equal. lia.
Qed.

(** The marks the request path makes. *)
Inductive mark :=
  | MStart
  | MDone
  | MLoopBlocked (now saved promptTok : Z)
  | MForwarded (now latency promptTok completionTok : Z)
  | MTrigger (t : TriggerEvent).

Definition apply_mark (m : Metrics) (k : mark) : option Metrics :=
  match k with
  | MStart => Some (markStart m)
  | MDone => Some (markDone m)
  | MLoopBlocked now saved p => markLoopBlocked m now saved p
  | MForwarded now lat p c => markForwarded m now lat p c
  | MTrigger t => Some (recordTrigger m t)
  end.

Fixpoint apply_marks (m : Metrics) (l : list mark) : option Metrics :=
  match l with
  | [] => Some m
  | k :: l' => m' ← apply_mark m k; apply_marks m' l'
  end.

Definition in_flight (l : list mark) : Z :=
  sumZ ((fun k => match k with MStart => 1 | MDone => -1 | _ => 0 end) <$> l).
Definition forwarded_count (l : list mark) : Z :=
  sumZ ((fun k => match k with MForwarded _ _ _ _ => 1 | _ => 0 end) <$> l).
Definition blocked_count (l : list mark) : Z :=
  sumZ ((fun k => match k with MLoopBlocked _ _ _ => 1 | _ => 0 end) <$> l).
Definition saved_total (l : list mark) : Z :=
  sumZ ((fun k => match k with MLoopBlocked _ s _ => s | _ => 0 end) <$> l).
Definition latency_total (l : list mark) : Z :=
  sumZ ((fun k => match k with MForwarded _ d _ _ => d | _ => 0 end) <$> l).
Definition mark_triggers (l : list mark) : list TriggerEvent :=
  omap (fun k => match k with MTrigger t => Some t | _ => None end) l.

(** Adding to a counter modulo 2^64, whatever the order of the additions. *)
Lemma wrap64_sum_step a b c : wrap64 (wrap64 (a + b) + c) = wrap64 (a + (b + c)).
Proof. rewrite wrap64_wrap64_add. f_equal. lia. Qed.

Lemma apply_marks_counters l m m' :
  apply_marks m l = Some m' ->
  wrap64 (active m') = wrap64 (active m + in_flight l)
  /\ wrap64 (requests m') = wrap64 (requests m + forwarded_count l)
  /\ wrap64 (loopBlocks m') = wrap64 (loopBlocks m + blocked_count l)
  /\ wrap64 (savedCost m') = wrap64 (savedCost m + saved_total l)
  /\ wrap64 (latencyNs m') = wrap64 (latencyNs m + latency_total l)
  /\ wrap64 (latencyN m') = wrap64 (latencyN m + forwarded_count l)
  /\ triggers m' = foldl push (triggers m) (mark_triggers l) /\ started m' = started m.
Proof.
  revert m. induction l as [|k l IH]; intros m Hr; cbn [apply_marks] in Hr.
  { injection Hr as <-. cbn. by rewrite !Z.add_0_r. }
  apply bind_Some in Hr as (m1 & Hk & Hr). specialize (IH m1 Hr).
  destruct IH as (-> & -> & -> & -> & -> & -> & -> & ->).
  unfold in_flight, forwarded_count, blocked_count, saved_total, latency_total, mark_triggers.
  rewrite !fmap_cons. cbn [sumZ omap list_omap].
  destruct k; cbn [apply_mark] in Hk; unfold markLoopBlocked, markForwarded in Hk;
    try (apply bind_Some in Hk as (w & _ & Hk)); injection Hk as <-; cbn;
    rewrite ?wrap64_sum_step, ?Z.add_0_l; split_and!; done.
Qed.

(** The counters always hold an int64. *)
Definition counters_ok (m : Metrics) : Prop :=
  in_int64 (active m) /\ in_int64 (requests m) /\ in_int64 (loopBlocks m)
  /\ in_int64 (savedCost m) /\ in_int64 (latencyNs m) /\ in_int64 (latencyN m).

Lemma apply_marks_ok l m m' : counters_ok m -> apply_marks m l = Some m' -> counters_ok m'.
Proof.
  revert m. induction l as [|k l IH]; intros m Hok Hr; cbn [apply_marks] in Hr.
  { by injection Hr as <-. }
  apply bind_Some in Hr as (m1 & Hk & Hr). eapply IH; [|exact Hr]. clear Hr IH.
  unfold counters_ok in *. destruct Hok as (? & ? & ? & ? & ? & ?).
  destruct k; cbn [apply_mark] in Hk; unfold markLoopBlocked, markForwarded in Hk;
    try (apply bind_Some in Hk as (w & _ & Hk)); injection Hk as <-; cbn;
    split_and!; first [done|apply wrap64_range].
Qed.

(** A registry that holds the counts of [l], whatever was read from it in between. *)
Record counts (m : Metrics) (l : list mark) : Prop := {
  cn_ok : counters_ok m;
  cn_active : active m = wrap64 (in_flight l);
  cn_requests : requests m = wrap64 (forwarded_count l);
  cn_blocks : loopBlocks m = wrap64 (blocked_count l);
  cn_saved : savedCost m = wrap64 (saved_total l);
  cn_latency : latencyNs m = wrap64 (latency_total l);
  cn_samples : latencyN m = wrap64 (forwarded_count l);
  cn_triggers : triggers m = foldl push [] (mark_triggers l)
}.

Lemma counts_new now : counts (NewMetrics now) [].
Proof. by split. Qed.

Lemma counts_marks m l l2 m' : counts m l -> apply_marks m l2 = Some m' -> counts m' (l ++ l2).
Proof.
  intros [Hok A1 A2 A3 A4 A5 A6 A7] Hr. pose proof (apply_marks_counters l2 m m' Hr) as Hc.
  pose proof (apply_marks_ok l2 m m' Hok Hr) as Hok'. assert (Hok'' := Hok').
  destruct Hok'' as (? & ? & ? & ? & ? & ?).
  rewrite ?(wrap64_id (active m')), ?(wrap64_id (requests m')), ?(wrap64_id (loopBlocks m')),
    ?(wrap64_id (savedCost m')), ?(wrap64_id (latencyNs m')), ?(wrap64_id (latencyN m')) in Hc by done.
  destruct Hc as (C1 & C2 & C3 & C4 & C5 & C6 & C7 & _).
  unfold in_flight, forwarded_count, blocked_count, saved_total, latency_total, mark_triggers in *.
  split; [exact Hok'|..];
    unfold in_flight, forwarded_count, blocked_count, saved_total, latency_total, mark_triggers;
    rewrite ?fmap_app, ?omap_app, ?sumZ_app, ?foldl_app.
  1: rewrite C1, A1. 2: rewrite C2, A2. 3: rewrite C3, A3. 4: rewrite C4, A4. 5: rewrite C5, A5. 6: rewrite C6, A6.
  7: by rewrite C7, A7.
  all: by rewrite wrap64_wrap64_add.
Qed.

(** Reading leaves the counts. *)
Lemma counts_snapshot m l now : counts m l -> counts (Snapshot m now).1 l.
Proof. by intros [? ? ? ? ? ? ? ?]. Qed.

Lemma counts_exact m l now :
  counts m l ->
  in_int64 (in_flight l) -> in_int64 (forwarded_count l) -> in_int64 (blocked_count l) ->
  in_int64 (saved_total l) -> in_int64 (latency_total l) ->
  let snap := (Snapshot m now).2 in
  ActiveRequests snap = in_flight l /\ TotalRequests snap = forwarded_count l
  /\ LoopBlocks snap = blocked_count l /\ SavedCostMicroUSD snap = saved_total l
  /\ AvgLatencyMicro snap
     = (if 0 <? forwarded_count l
        then Z.quot (Z.quot (latency_total l) (forwarded_count l)) 1000 else 0)
  /\ RecentTriggers snap = take 100 (reverse (mark_triggers l)).
Proof.
  intros [_ Ha Hq Hb Hs Hl Hn Ht] ? ? ? ? ? snap. rewrite !wrap64_id in * by done.
  unfold snap. cbn. unfold snapshot, Microsecond. rewrite Ha, Hq, Hb, Hs, Hl, Hn, Ht.
  split_and!; try done. rewrite push_fold by (cbn; lia). cbn [app length Nat.add].
  by rewrite take_reverse.
Qed.

(** The counters and the trigger history: after any marks on a fresh registry, each
    counter is exactly the count or sum it documents (as long as that fits an int64), the
    average latency is the mean of the samples in microseconds, and the history is the
    last hundred triggers, newest first. *)
Theorem metrics_snapshot_exact l now0 m now :
  apply_marks (NewMetrics now0) l = Some m ->
  in_int64 (in_flight l) -> in_int64 (forwarded_count l) -> in_int64 (blocked_count l) ->
  in_int64 (saved_total l) -> in_int64 (latency_total l) ->
  let snap := (Snapshot m now).2 in
  ActiveRequests snap = in_flight l /\ TotalRequests snap = forwarded_count l
  /\ LoopBlocks snap = blocked_count l /\ SavedCostMicroUSD snap = saved_total l
  /\ AvgLatencyMicro snap
     = (if 0 <? forwarded_count l
        then Z.quot (Z.quot (latency_total l) (forwarded_count l)) 1000 else 0)
  /\ RecentTriggers snap = take 100 (reverse (mark_triggers l)).
Proof. intros Hr. apply counts_exact. by apply (counts_marks _ [] l m (counts_new now0)). Qed.

Lemma metrics_snapshot_exact_witness :
  exists m,
    apply_marks (NewMetrics 0)
      [MStart; MStart; MForwarded (unix_time 10) 3000000 5 7; MDone;
       MLoopBlocked (unix_time 11) 42 9;
       MTrigger {| te_Timestamp := 11; te_AgentID := "a"; te_Model := "m"; te_Reason := "r";
                   te_SavedMicro := 42 |}] = Some m
    /\ ActiveRequests (Snapshot m (unix_time 12)).2 = 1
    /\ AvgLatencyMicro (Snapshot m (unix_time 12)).2 = 3000.
Proof.
  eexists. split; [vm_compute; reflexivity|].
  edestruct (metrics_snapshot_exact
      [MStart; MStart; MForwarded (unix_time 10) 3000000 5 7; MDone;
       MLoopBlocked (unix_time 11) 42 9;
       MTrigger {| te_Timestamp := 11; te_AgentID := "a"; te_Model := "m"; te_Reason := "r";
                   te_SavedMicro := 42 |}] 0) as (Ha & _ & _ & _ & Hl & _).
  - vm_compute. reflexivity.
  - split; vm_compute; discriminate.
  - split; vm_compute; discriminate.
  - split; vm_compute; discriminate.
  - split; vm_compute; discriminate.
  - split; vm_compute; discriminate.
  - split; [exact Ha|exact Hl].
Defined.
