(* ===== verification/UsageTracking.v ===== *)
(** * pkg/proxy/cost_tracking.go: the passive usage observer

    [usageTrackingBody] watches the bytes of an upstream response as the reverse proxy
    copies them, and reports token counts once.  What the report does (onCost) is in
    Handler.v. *)

From S2P Require Import Prelude GoJson GoStrings.

Definition usageBufferCap : Z := 2 ^ 20.

Record reqMeta := {
  model : string;
  promptTok : Z;
  agent : string;
  fp : string;
  projectName : string;
  callerID : string;
  statusCode : Z;
  trackCost : bool;
  start : Z
}.

(** The observer.  [finalized] is the state of the Once. *)
Record usageTrackingBody := {
  meta : reqMeta;
  isSSE : bool;
  finalized : bool;
  pending : list byte;
  overCap : bool;
  haveUse : bool;
  useP : Z;
  useC : Z;
  deltaCh : Z;
  jsonBuf : list byte
}.

(** The body modifyResponse installs. *)
Definition new_body (m : reqMeta) (sse : bool) : usageTrackingBody :=
  {| meta := m; isSSE := sse; finalized := false; pending := []; overCap := false;
     haveUse := false; useP := 0; useC := 0; deltaCh := 0; jsonBuf := [] |}.

Definition set_parse (b : usageTrackingBody) (pend : list byte) (over use : bool) (p c d : Z)
    (buf : list byte) : usageTrackingBody :=
  {| meta := meta b; isSSE := isSSE b; finalized := finalized b; pending := pend; overCap := over;
     haveUse := use; useP := p; useC := c; deltaCh := d; jsonBuf := buf |}.

(** ** Parsing *)

Definition len (l : list byte) : Z := Z.of_nat (length l).

Definition feedJSON (b : usageTrackingBody) (chunk : list byte) : usageTrackingBody :=
  if overCap b then b
  else if usageBufferCap <? len (jsonBuf b) + len chunk
  then set_parse b (pending b) true (haveUse b) (useP b) (useC b) (deltaCh b) []
  else set_parse b (pending b) (overCap b) (haveUse b) (useP b) (useC b) (deltaCh b)
         (jsonBuf b ++ chunk).

Definition usage_doc : ty :=
  TPtr (TStruct [("prompt_tokens"%string, TInt); ("completion_tokens"%string, TInt)]).
Definition delta_doc : ty :=
  TStruct [("delta"%string, TStruct [("content"%string, TString)])].
Definition chunk_doc : ty :=
  TStruct [("choices"%string, TSlice delta_doc); ("usage"%string, usage_doc)].

(** len(c.Delta.Content) of one choice. *)
Definition content_len (c : gov) : Z := len (g_str (g_field 0 (g_field 0 c))).

Definition parseSSEPayload (b : usageTrackingBody) (payload : list byte) : usageTrackingBody :=
  if overCap b || haveUse b then b
  else
    match unmarshal chunk_doc payload with
    | None => b
    | Some chunk =>
        match g_ptr (g_field 1 chunk) with
        | Some u =>
            set_parse b (pending b) (overCap b) true (g_int (g_field 0 u)) (g_int (g_field 1 u))
              (deltaCh b) (jsonBuf b)
        | None =>
            set_parse b (pending b) (overCap b) (haveUse b) (useP b) (useC b)
              (foldl (fun n c => wrap64 (n + content_len c)) (deltaCh b) (g_elems (g_field 0 chunk)))
              (jsonBuf b)
        end
    end.

Definition processLine (b : usageTrackingBody) (line : list byte) : usageTrackingBody :=
  let line := trim_suffix ["013"%byte] line in
  if negb (has_prefix (bytes_of_string "data:") line) then b
  else
    let payload := trim_space (drop 5 line) in
    if len payload =? 0 then b
    else if bool_decide (payload = bytes_of_string "[DONE]") then b
    else parseSSEPayload b payload.

Definition set_pending (b : usageTrackingBody) (pend : list byte) : usageTrackingBody :=
  set_parse b pend (overCap b) (haveUse b) (useP b) (useC b) (deltaCh b) (jsonBuf b).

(** The line loop; every turn takes at least the newline off, so the length of the
    buffer is enough fuel. *)
Fixpoint sse_loop (fuel : nat) (b : usageTrackingBody) : usageTrackingBody :=
  match fuel with
  | O => b
  | S fuel' =>
      match cut_byte "010" (pending b) with
      | None => b
      | Some (line, rest) => sse_loop fuel' (processLine (set_pending b rest) line)
      end
  end.

Definition feedSSE (b : usageTrackingBody) (chunk : list byte) : usageTrackingBody :=
  if overCap b then b
  else
    let pend := pending b ++ chunk in
    if usageBufferCap <? len pend
    then set_parse b [] true (haveUse b) (useP b) (useC b)
           (if haveUse b then deltaCh b else 0) (jsonBuf b)
    else sse_loop (length pend) (set_pending b pend).

Definition parseChunk (b : usageTrackingBody) (chunk : list byte) : usageTrackingBody :=
  if isSSE b then feedSSE b chunk else feedJSON b chunk.

(** ** The report *)

Definition parseJSONUsage (body : list byte) : option (Z * Z) :=
  match unmarshal (TStruct [("usage"%string, usage_doc)]) body with
  | None => None
  | Some doc =>
      match g_ptr (g_field 0 doc) with
      | None => None
      | Some u => Some (g_int (g_field 0 u), g_int (g_field 1 u))
      end
  end.

(** (chars + 3) / 4, on an int. *)
Definition estimateCompletionTokens (chars : Z) : Z :=
  if chars <=? 0 then 0 else Z.quot (wrap64 (chars + 3)) 4.

Definition tokens (b : usageTrackingBody) : Z * Z :=
  if isSSE b then
    if haveUse b then (useP b, useC b)
    else (promptTok (meta b), estimateCompletionTokens (deltaCh b))
  else
    match (if overCap b then None else parseJSONUsage (jsonBuf b)) with
    | Some pc => pc
    | None => (promptTok (meta b), 0)
    end.

(** A call of onCost. *)
Definition report : Type := reqMeta * Z * Z.

Definition finalize (b : usageTrackingBody) : usageTrackingBody * list report :=
  if finalized b then (b, [])
  else
    let '(p, c) := tokens b in
    ({| meta := meta b; isSSE := isSSE b; finalized := true; pending := pending b;
        overCap := overCap b; haveUse := haveUse b; useP := useP b; useC := useC b;
        deltaCh := deltaCh b; jsonBuf := jsonBuf b |}, [(meta b, p, c)]).

(** Read: [chunk] are the bytes the underlying body delivered, [eof] whether its error
    was io.EOF. The bytes go on to the caller unchanged. *)
Definition body_Read (b : usageTrackingBody) (chunk : list byte) (eof : bool) :
    usageTrackingBody * list byte * list report :=
  let b := if 0 <? len chunk then parseChunk b chunk else b in
  let '(b, rs) := if eof then finalize b else (b, []) in
  (b, chunk, rs).

Definition body_Close (b : usageTrackingBody) : usageTrackingBody * list report := finalize b.

(** What the reverse proxy does with the body. *)
Inductive body_op := BRead (chunk : list byte) (eof : bool) | BClose.

Fixpoint body_run (b : usageTrackingBody) (ops : list body_op) :
    usageTrackingBody * list byte * list report :=
  match ops with
  | [] => (b, [], [])
  | BRead chunk eof :: ops' =>
      let '(b1, out1, rs1) := body_Read b chunk eof in
      let '(b2, out2, rs2) := body_run b1 ops' in (b2, out1 ++ out2, rs1 ++ rs2)
  | BClose :: ops' =>
      let '(b1, rs1) := body_Close b in
      let '(b2, out2, rs2) := body_run b1 ops' in (b2, out2, rs1 ++ rs2)
  end.

(** The Content-Type test of modifyResponse. (ToLower only matters here on the ASCII
    letters: no other rune lowers to a letter of "text/event-stream".) *)
Definition is_event_stream (contentType : string) : bool :=
  contains (bytes_of_string "text/event-stream") (to_lower (bytes_of_string contentType)).

(** ** Specification-level views *)

(** The complete lines of a stream, and what follows the last newline. *)
Fixpoint split_lines (l : list byte) : list (list byte) * list byte :=
  match l with
  | [] => ([], [])
  | b :: l' =>
      let '(ls, r) := split_lines l' in
      if byte_eqb b "010" then ([] :: ls, r)
      else match ls with [] => ([], b :: r) | x :: xs => ((b :: x) :: xs, r) end
  end.

(** The JSON event a line carries, if it is a data line that decodes. *)
Definition line_event (line : list byte) : option gov :=
  let line := trim_suffix ["013"%byte] line in
  if has_prefix (bytes_of_string "data:") line then
    let payload := trim_space (drop 5 line) in
    if (len payload =? 0) || bool_decide (payload = bytes_of_string "[DONE]") then None
    else unmarshal chunk_doc payload
  else None.

Definition event_usage (e : gov) : option (Z * Z) :=
  (fun u => (g_int (g_field 0 u), g_int (g_field 1 u))) <$> g_ptr (g_field 1 e).
Definition event_content (e : gov) : Z := sumZ (content_len <$> g_elems (g_field 0 e)).

(** The tokens of a whole event stream: the first usage any event carries; without one,
    the prompt estimate and the completion estimate on all the delta content. *)
Definition sse_reference (m : reqMeta) (data : list byte) : Z * Z :=
  let evs := omap line_event (split_lines data).1 in
  match head (omap event_usage evs) with
  | Some pc => pc
  | None => (promptTok m, estimateCompletionTokens (wrap64 (sumZ (event_content <$> evs))))
  end.

(** The tokens of a whole JSON response. *)
Definition json_reference (m : reqMeta) (data : list byte) : Z * Z :=
  if usageBufferCap <? len data then (promptTok m, 0)
  else default (promptTok m, 0) (parseJSONUsage data).

(** No chunk, together with the incomplete line before it, exceeds the buffer. *)
Fixpoint fits (rest : list byte) (chunks : list (list byte)) : Prop :=
  match chunks with
  | [] => True
  | c :: cs => len (rest ++ c) <= usageBufferCap /\ fits (split_lines (rest ++ c)).2 cs
  end.

(** What of a stream, read in these chunks, is parsed: the bytes before the read that
    overflows the buffer, and whether there was one. *)
Fixpoint kept (rest : list byte) (chunks : list (list byte)) : list byte * bool :=
  match chunks with
  | [] => ([], false)
  | c :: cs =>
      if usageBufferCap <? len (rest ++ c) then ([], true)
      else let '(d, over) := kept (split_lines (rest ++ c)).2 cs in (c ++ d, over)
  end.

(** The tokens of a stream so read: the first usage in what was parsed; without one, the
    estimates, that of the completion being dropped when the buffer overflowed. *)
Definition sse_reported (m : reqMeta) (chunks : list (list byte)) : Z * Z :=
  let '(data, over) := kept [] chunks in
  let evs := omap line_event (split_lines data).1 in
  match head (omap event_usage evs) with
  | Some pc => pc
  | None => (promptTok m, if over then 0 else estimateCompletionTokens (wrap64 (sumZ (event_content <$> evs))))
  end.

(** The first operation that ends the body, and the bytes it delivers. *)
Inductive final_op : body_op -> list byte -> Prop :=
  | final_close : final_op BClose []
  | final_eof c : final_op (BRead c true) c.

Definition op_bytes (o : body_op) : list byte := match o with BRead c _ => c | BClose => [] end.

(** ** Lines *)

Lemma split_lines_cut l :
  split_lines l
  = match cut_byte "010" l with
    | None => ([], l)
    | Some (x, y) => (x :: (split_lines y).1, (split_lines y).2)
    end.
Proof.
  induction l as [|b l IH]; [done|]. cbn [split_lines cut_byte]. rewrite IH.
  destruct (byte_eqb b "010") eqn:E.
  - rewrite <- IH. by destruct (split_lines l).
  - by destruct (cut_byte "010" l) as [[x y]|].
Qed.

Lemma split_lines_app s t :
  split_lines (s ++ t)
  = ((split_lines s).1 ++ (split_lines ((split_lines s).2 ++ t)).1,
     (split_lines ((split_lines s).2 ++ t)).2).
Proof.
  induction s as [|b s IH]; [by cbn; destruct (split_lines t)|]. cbn [app split_lines].
  rewrite IH. destruct (split_lines s) as [ls r]. cbn [fst snd].
  destruct (byte_eqb b "010") eqn:E; [done|]. destruct ls as [|x xs]; [|done].
  cbn [app fst snd split_lines]. rewrite E. by destruct (split_lines (r ++ t)) as [[|y ys] r'].
Qed.

(** ** The line loop *)

Lemma set_pending_twice b x y : set_pending (set_pending b x) y = set_pending b y.
Proof. done. Qed.

Lemma processLine_pending b x line :
  processLine (set_pending b x) line = set_pending (processLine b line) x.
Proof.
  unfold processLine, parseSSEPayload. destruct (negb _); [done|]. destruct (_ =? 0); [done|].
  case_bool_decide; [done|]. cbn [overCap haveUse set_pending set_parse].
  destruct (overCap b || haveUse b); [done|].
  destruct (unmarshal _ _) as [chunk|]; [|done]. by destruct (g_ptr _).
Qed.

Lemma processLine_frame b line :
  let b' := processLine b line in
  meta b' = meta b /\ isSSE b' = isSSE b /\ finalized b' = finalized b
  /\ overCap b' = overCap b /\ jsonBuf b' = jsonBuf b /\ pending b' = pending b.
Proof.
  unfold processLine, parseSSEPayload. destruct (negb _); [done|]. destruct (_ =? 0); [done|].
  case_bool_decide; [done|]. destruct (overCap b || haveUse b); [done|].
  destruct (unmarshal _ _) as [chunk|]; [|done]. by destruct (g_ptr _).
Qed.

Lemma fold_pending ls b x :
  foldl processLine (set_pending b x) ls = set_pending (foldl processLine b ls) x.
Proof.
  revert b. induction ls as [|l ls IH]; intros b; cbn [foldl]; [done|].
  by rewrite processLine_pending, IH.
Qed.

Lemma fold_frame ls b :
  let b' := foldl processLine b ls in
  meta b' = meta b /\ isSSE b' = isSSE b /\ finalized b' = finalized b
  /\ overCap b' = overCap b /\ jsonBuf b' = jsonBuf b /\ pending b' = pending b.
Proof.
  revert b. induction ls as [|l ls IH]; intros b; cbn [foldl]; [done|].
  destruct (IH (processLine b l)) as (-> & -> & -> & -> & -> & ->). apply processLine_frame.
Qed.

Lemma sse_loop_lines n b :
  (length (pending b) <= n)%nat ->
  sse_loop n b
  = set_pending (foldl processLine b (split_lines (pending b)).1) (split_lines (pending b)).2.
Proof.
  revert b. induction n as [|n IH]; intros b Hn; cbn [sse_loop].
  { destruct b as [? ? ? pend ? ? ? ? ? ?]. cbn in Hn |- *. by destruct pend; [|cbn in Hn; lia]. }
  rewrite split_lines_cut. pose proof (cut_byte_spec "010" (pending b)) as Hcut.
  destruct (cut_byte "010" (pending b)) as [[x y]|] eqn:Ec; [|by destruct b].
  destruct Hcut as [Hp _]. rewrite IH.
  - rewrite processLine_pending. cbn [pending set_pending set_parse fst snd foldl].
    by rewrite fold_pending, set_pending_twice.
  - destruct (processLine_frame (set_pending b y) x) as (_ & _ & _ & _ & _ & ->).
    cbn [pending set_pending set_parse]. rewrite Hp, length_app in Hn. cbn [length] in Hn. lia.
Qed.

Lemma split_lines_rest l : split_lines (split_lines l).2 = ([], (split_lines l).2).
Proof.
  induction l as [|b l IH]; [done|]. cbn [split_lines]. destruct (split_lines l) as [ls r].
  cbn [snd] in IH. destruct (byte_eqb b "010") eqn:E; [done|]. destruct ls as [|x xs]; [|done].
  cbn [snd split_lines]. by rewrite IH, E.
Qed.

(** Feeding chunks is processing the lines of those that are kept; an overflow then drops
    the incomplete line and, without a usage, the estimate. *)
Definition overflowed (b : usageTrackingBody) : usageTrackingBody :=
  set_parse b [] true (haveUse b) (useP b) (useC b) (if haveUse b then deltaCh b else 0) (jsonBuf b).

Lemma feed_over chunks b : overCap b = true -> foldl feedSSE b chunks = b.
Proof. revert b. induction chunks as [|c cs IH]; intros b Ho; [done|]. cbn [foldl]. unfold feedSSE at 2. rewrite Ho. by apply IH. Qed.

Lemma feed_kept chunks b :
  overCap b = false -> split_lines (pending b) = ([], pending b) ->
  let '(d, over) := kept (pending b) chunks in
  let b' := set_pending (foldl processLine b (split_lines (pending b ++ d)).1) (split_lines (pending b ++ d)).2 in
  foldl feedSSE b chunks = if over then overflowed b' else b'.
Proof.
  revert b. induction chunks as [|c cs IH]; intros b Ho Hp; cbn [foldl kept].
  { rewrite app_nil_r, Hp. cbn. by destruct b. }
  unfold feedSSE at 2. rewrite Ho. destruct (usageBufferCap <? len (pending b ++ c)).
  { rewrite feed_over by done. rewrite app_nil_r, Hp. by destruct b. }
  rewrite sse_loop_lines by done. cbn [pending set_pending set_parse].
  set (b1 := set_pending _ _). specialize (IH b1).
  destruct (fold_frame (split_lines (pending b ++ c)).1 b) as (_ & _ & _ & Hov & _).
  assert (b1 = set_pending (foldl processLine b (split_lines (pending b ++ c)).1) (split_lines (pending b ++ c)).2)
    as Hb1 by (unfold b1; by rewrite fold_pending, set_pending_twice).
  rewrite Hb1 in IH |- *. cbn [pending overCap set_pending set_parse] in IH.
  specialize (IH ltac:(congruence) (split_lines_rest _)).
  destruct (kept (split_lines (pending b ++ c)).2 cs) as [d over]. rewrite IH. clear IH Hb1 b1.
  rewrite app_assoc, (split_lines_app (pending b ++ c) d). cbn [fst snd].
  by rewrite foldl_app, fold_pending, set_pending_twice.
Qed.

(** Nothing overflows in chunks that fit. *)
Lemma kept_fits rest chunks : fits rest chunks -> kept rest chunks = (concat chunks, false).
Proof.
  revert rest. induction chunks as [|c cs IH]; intros rest Hf; [done|]. destruct Hf as [Hc Hf]. cbn [kept concat].
  replace (usageBufferCap <? len (rest ++ c)) with false by lia. by rewrite (IH _ Hf).
Qed.

Lemma reported_fits m chunks : fits [] chunks -> sse_reported m chunks = sse_reference m (concat chunks).
Proof. intros Hf. unfold sse_reported. by rewrite kept_fits. Qed.

(** ** What the lines of a stream amount to *)

Lemma processLine_event b line :
  processLine b line
  = match line_event line with
    | None => b
    | Some e =>
        if overCap b || haveUse b then b
        else match event_usage e with
             | Some (p, c) =>
                 set_parse b (pending b) (overCap b) true p c (deltaCh b) (jsonBuf b)
             | None =>
                 set_parse b (pending b) (overCap b) (haveUse b) (useP b) (useC b)
                   (foldl (fun n c => wrap64 (n + content_len c)) (deltaCh b)
                      (g_elems (g_field 0 e))) (jsonBuf b)
             end
    end.
Proof.
  unfold processLine, line_event. destruct (has_prefix _ _); [|done]. cbn [negb].
  destruct (_ =? 0); [done|]. cbn [orb]. case_bool_decide; [done|]. unfold parseSSEPayload, event_usage.
  destruct (unmarshal _ _) as [e|]; [|by destruct (overCap b || haveUse b)].
  destruct (overCap b || haveUse b); [done|]. by destruct (g_ptr _).
Qed.

Lemma content_fold n l :
  wrap64 (foldl (fun n c => wrap64 (n + content_len c)) n l)
  = wrap64 (n + sumZ (content_len <$> l)).
Proof.
  revert n. induction l as [|c l IH]; intros n; cbn [foldl fmap list_fmap sumZ].
  { by rewrite Z.add_0_r. }
  rewrite IH, wrap64_wrap64_add. f_equal. lia.
Qed.

Lemma have_use_stays ls b : haveUse b = true -> foldl processLine b ls = b.
Proof.
  intros Hu. induction ls as [|l ls IH]; cbn [foldl]; [done|].
  rewrite processLine_event, Hu, orb_true_r. by destruct (line_event l).
Qed.

Lemma fold_events ls b :
  overCap b = false -> haveUse b = false -> in_int64 (deltaCh b) ->
  let evs := omap line_event ls in
  let b' := foldl processLine b ls in
  match head (omap event_usage evs) with
  | Some (p, c) => haveUse b' = true /\ useP b' = p /\ useC b' = c
  | None => haveUse b' = false
            /\ deltaCh b' = wrap64 (deltaCh b + sumZ (event_content <$> evs))
  end.
Proof.
  revert b. induction ls as [|l ls IH]; intros b Ho Hu Hd; cbn [foldl omap list_omap].
  { cbn. split; [done|]. by rewrite Z.add_0_r, wrap64_id. }
  rewrite processLine_event. destruct (line_event l) as [e|]; [|by apply IH].
  rewrite Ho, Hu. cbn [orb omap list_omap]. destruct (event_usage e) as [[p c]|] eqn:Ee.
  - cbn [head]. by rewrite have_use_stays.
  - match goal with |- context [foldl processLine ?b1 ls] => specialize (IH b1) end.
    cbn [overCap haveUse deltaCh set_parse] in IH.
    assert (in_int64 (foldl (fun n c => wrap64 (n + content_len c)) (deltaCh b)
                        (g_elems (g_field 0 e)))) as Hr.
    { destruct (g_elems (g_field 0 e)) as [|x l0 _] using rev_ind; [done|].
      rewrite foldl_snoc. apply wrap64_range. }
    specialize (IH eq_refl eq_refl Hr).
    destruct (head (omap event_usage (omap line_event ls))) as [[p c]|]; [exact IH|].
    destruct IH as [H1 H2]. split; [exact H1|]. rewrite H2, fmap_cons. cbn [sumZ].
    rewrite <- (wrap64_wrap64_add _ (sumZ _)), content_fold. unfold event_content at 1.
    rewrite wrap64_wrap64_add. f_equal. unfold event_content. lia.
Qed.

(** ** JSON bodies *)

Lemma len_app l1 l2 : len (l1 ++ l2) = len l1 + len l2.
Proof. unfold len. rewrite length_app. lia. Qed.

Lemma feed_json chunks b :
  overCap b = false -> len (jsonBuf b) <= usageBufferCap ->
  let b' := foldl feedJSON b chunks in
  if usageBufferCap <? len (jsonBuf b ++ concat chunks) then overCap b' = true
  else overCap b' = false /\ jsonBuf b' = jsonBuf b ++ concat chunks.
Proof.
  revert b. induction chunks as [|c cs IH]; intros b Ho Hl; cbn [foldl concat].
  { rewrite app_nil_r. by replace (usageBufferCap <? len (jsonBuf b)) with false by lia. }
  pose proof (len_app (jsonBuf b) c) as Happ.
  pose proof (len_app (jsonBuf b ++ c) (concat cs)) as Hall. rewrite <- app_assoc in Hall.
  assert (0 <= len (concat cs)) by (unfold len; lia).
  destruct (usageBufferCap <? len (jsonBuf b) + len c) eqn:E; zbool.
  - replace (usageBufferCap <? len (jsonBuf b ++ c ++ concat cs)) with true by lia.
    assert (overCap (feedJSON b c) = true) as Hover
      by (unfold feedJSON; rewrite Ho; by replace (usageBufferCap <? _) with true by lia).
    clear -Hover. generalize dependent (feedJSON b c).
    induction cs as [|x cs IH]; intros b1 Hb1; cbn [foldl]; [done|].
    apply IH. unfold feedJSON. by rewrite Hb1.
  - assert (feedJSON b c = set_parse b (pending b) (overCap b) (haveUse b) (useP b) (useC b)
              (deltaCh b) (jsonBuf b ++ c)) as ->
      by (unfold feedJSON; rewrite Ho; by replace (usageBufferCap <? _) with false by lia).
    rewrite app_assoc. match goal with |- context [foldl feedJSON ?b1 cs] => apply (IH b1) end;
      cbn [overCap jsonBuf set_parse]; [done|lia].
Qed.

Lemma feed_json_frame chunks b :
  let b' := foldl feedJSON b chunks in meta b' = meta b /\ isSSE b' = isSSE b /\ finalized b' = finalized b.
Proof.
  revert b. induction chunks as [|c cs IH]; intros b; cbn [foldl]; [done|].
  destruct (IH (feedJSON b c)) as (-> & -> & ->). unfold feedJSON. repeat case_match; done.
Qed.

(** ** The tokens of a body *)

Lemma sse_tokens m chunks :
  let b := foldl feedSSE (new_body m true) chunks in
  tokens b = sse_reported m chunks /\ meta b = m /\ finalized b = false.
Proof.
  cbn zeta. pose proof (feed_kept chunks (new_body m true) eq_refl eq_refl) as Hk. unfold sse_reported.
  cbn [new_body pending app] in Hk. destruct (kept [] chunks) as [d over]. cbv zeta in Hk. rewrite Hk. clear Hk.
  set (ls := (split_lines d).1).
  pose proof (fold_frame ls (new_body m true)) as (Hm & Hs & Hfin & _).
  pose proof (fold_events ls (new_body m true) eq_refl eq_refl) as He.
  specialize (He ltac:(split; vm_compute; discriminate)). cbn zeta in He.
  fold ls. set (b := foldl processLine (new_body m true) ls) in *.
  assert (tokens b = match head (omap event_usage (omap line_event ls)) with
    | Some pc => pc
    | None => (promptTok m, estimateCompletionTokens (wrap64 (sumZ (event_content <$> omap line_event ls))))
    end) as Ht.
  { unfold tokens. rewrite Hs, Hm. cbn [isSSE new_body].
    destruct (head (omap event_usage (omap line_event ls))) as [[p c]|].
    - destruct He as (-> & -> & ->). done.
    - destruct He as (-> & ->). done. }
  split; [|by destruct over]. destruct over; [|exact Ht].
  unfold tokens in *. cbn [isSSE haveUse useP useC meta deltaCh overflowed set_pending set_parse].
  rewrite Hs, Hm in *. cbn [isSSE new_body] in *.
  destruct (head (omap event_usage (omap line_event ls))) as [[p c]|].
  - destruct He as (Hu & _). by rewrite Hu in *.
  - destruct He as (Hu & _). by rewrite Hu.
Qed.

Lemma json_tokens m chunks :
  let b := foldl feedJSON (new_body m false) chunks in
  tokens b = json_reference m (concat chunks) /\ meta b = m /\ finalized b = false.
Proof.
  cbn zeta. pose proof (feed_json_frame chunks (new_body m false)) as (Hm & Hs & Hfin).
  split_and!; [|exact Hm|exact Hfin].
  pose proof (feed_json chunks (new_body m false) eq_refl ltac:(done)) as Hj.
  unfold tokens, json_reference. rewrite Hs, Hm. cbn [isSSE meta new_body jsonBuf app] in *.
  destruct (usageBufferCap <? len (concat chunks)).
  - by rewrite Hj.
  - destruct Hj as [-> ->]. by destruct (parseJSONUsage (concat chunks)).
Qed.

(** ** Runs of the body *)

Definition feed (b : usageTrackingBody) (chunk : list byte) : usageTrackingBody :=
  if 0 <? len chunk then parseChunk b chunk else b.

Lemma sse_loop_frame n b :
  let b' := sse_loop n b in meta b' = meta b /\ isSSE b' = isSSE b /\ finalized b' = finalized b.
Proof.
  revert b. induction n as [|n IH]; intros b; cbn [sse_loop]; [done|].
  destruct (cut_byte _ _) as [[x y]|]; [|done].
  destruct (IH (processLine (set_pending b y) x)) as (-> & -> & ->).
  destruct (processLine_frame (set_pending b y) x) as (-> & -> & -> & _). done.
Qed.

Lemma feed_frame b c :
  let b' := feed b c in meta b' = meta b /\ isSSE b' = isSSE b /\ finalized b' = finalized b.
Proof.
  unfold feed, parseChunk, feedSSE, feedJSON. cbn zeta.
  pose proof (sse_loop_frame (length (pending b ++ c)) (set_pending b (pending b ++ c))) as Hs.
  cbn zeta in Hs. cbn [meta isSSE finalized set_pending set_parse] in Hs.
  repeat case_match; cbn in *; naive_solver.
Qed.

Lemma split_rest_len l : len (split_lines l).2 <= len l.
Proof.
  induction l as [|c l IH]; [done|]. cbn [split_lines]. unfold len in *.
  destruct (split_lines l) as [ls r]. cbn [snd length] in *.
  destruct (byte_eqb c "010"); [cbn [snd]; lia|]. destruct ls; cbn [snd length]; lia.
Qed.

(** Empty reads are not fed. *)
Definition nonempty (chunks : list (list byte)) : list (list byte) :=
  filter (fun c => 0 < len c) chunks.

Lemma feed_nonempty chunks b : foldl feed b chunks = foldl parseChunk b (nonempty chunks).
Proof.
  revert b. induction chunks as [|c cs IH]; intros b; cbn [foldl]; [done|].
  unfold nonempty. rewrite filter_cons, IH. unfold feed. zcase (0 <? len c).
  - by rewrite decide_True by lia.
  - by rewrite decide_False by lia.
Qed.

Lemma len_nil c : ~ 0 < len c -> c = [].
Proof. destruct c; [done|]. unfold len. cbn [length]. lia. Qed.

Lemma concat_nonempty chunks : concat (nonempty chunks) = concat chunks.
Proof.
  induction chunks as [|c cs IH]; [done|]. unfold nonempty. rewrite filter_cons. cbn [concat].
  case_decide as Hc; [cbn [concat]; by rewrite <- IH|]. by rewrite (len_nil c Hc).
Qed.

Lemma kept_nonempty chunks rest :
  split_lines rest = ([], rest) -> len rest <= usageBufferCap -> kept rest (nonempty chunks) = kept rest chunks.
Proof.
  revert rest. induction chunks as [|c cs IH]; intros rest Hr Hl; [done|].
  unfold nonempty. rewrite filter_cons. case_decide as Hc; cbn [kept].
  - destruct (usageBufferCap <? len (rest ++ c)) eqn:E; [done|]. zbool.
    fold (nonempty cs). rewrite IH; [done|apply split_lines_rest|].
    pose proof (split_rest_len (rest ++ c)). lia.
  - rewrite (len_nil c Hc), app_nil_r, Hr. replace (usageBufferCap <? len rest) with false by lia. cbn [snd].
    fold (nonempty cs). rewrite IH by done. by destruct (kept rest cs).
Qed.

Lemma parse_fold chunks b :
  foldl parseChunk b chunks = if isSSE b then foldl feedSSE b chunks else foldl feedJSON b chunks.
Proof.
  revert b. induction chunks as [|c cs IH]; intros b; cbn [foldl]; [by destruct (isSSE b)|].
  rewrite IH. assert (isSSE (parseChunk b c) = isSSE b) as ->.
  { destruct (feed_frame b c) as (_ & Hs & _). unfold feed in Hs. destruct (0 <? len c) eqn:E; [done|].
    zbool. rewrite (len_nil c) by lia. unfold parseChunk, feedSSE, feedJSON. repeat case_match; try done.
    by destruct (sse_loop_frame (length (pending b ++ [])) (set_pending b (pending b ++ []))) as (_ & -> & _). }
  unfold parseChunk. by destruct (isSSE b).
Qed.


(** Once finalized, a body reports nothing more. *)
Lemma run_finalized ops b :
  finalized b = true ->
  let '(_, out, rs) := body_run b ops in out = concat (op_bytes <$> ops) /\ rs = [].
Proof.
  revert b. induction ops as [|o ops IH]; intros b Hb; cbn [body_run]; [done|].
  destruct o as [c eof|]; rewrite fmap_cons; cbn [concat op_bytes].
  - unfold body_Read. fold (feed b c). destruct (feed_frame b c) as (_ & _ & Hf).
    assert ((if eof then finalize (feed b c) else (feed b c, [])) = (feed b c, [])) as ->.
    { unfold finalize. rewrite Hf, Hb. by destruct eof. }
    specialize (IH (feed b c) ltac:(congruence)). destruct (body_run _ ops) as [[b2 out] rs].
    by destruct IH as [-> ->].
  - unfold body_Close, finalize. rewrite Hb. specialize (IH b Hb).
    destruct (body_run _ ops) as [[b2 out] rs]. by destruct IH as [-> ->].
Qed.

(** Reads before the end of the body report nothing and feed the parser. *)
Lemma run_chunks chunks ops b :
  body_run b (((fun c => BRead c false) <$> chunks) ++ ops)
  = let '(b', out, rs) := body_run (foldl feed b chunks) ops in (b', concat chunks ++ out, rs).
Proof.
  revert b. induction chunks as [|c cs IH]; intros b; cbn [foldl fmap list_fmap app body_run concat].
  { by destruct (body_run b ops) as [[b' out] rs]. }
  unfold body_Read. fold (feed b c). rewrite IH.
  destruct (body_run (foldl feed (feed b c) cs) ops) as [[b' out] rs]. by rewrite app_assoc.
Qed.

(** The tokens of a whole response, by the observer's mode. *)
Definition reference (sse : bool) (m : reqMeta) (whole : list byte) : Z * Z :=
  if sse then sse_reference m whole else json_reference m whole.

(** The tokens of a response read in these chunks. *)
Definition reported (sse : bool) (m : reqMeta) (chunks : list (list byte)) : Z * Z :=
  if sse then sse_reported m chunks else json_reference m (concat chunks).

(** A body read to its end, and whatever is done with it after. *)
Lemma run_reported m sse chunks fin data more :
  final_op fin data ->
  let whole := concat chunks ++ data in
  let '(p, c) := reported sse m (chunks ++ [data]) in
  exists b, body_run (new_body m sse) (((fun c => BRead c false) <$> chunks) ++ fin :: more)
  = (b, whole ++ concat (op_bytes <$> more), [(m, p, c)]).
Proof.
  intros Hfin whole.
  set (b := foldl feed (new_body m sse) (chunks ++ [data])).
  assert (tokens b = reported sse m (chunks ++ [data]) /\ meta b = m /\ finalized b = false) as (Htok & Hm & Hb).
  { unfold b, reported. rewrite feed_nonempty, parse_fold. destruct sse; cbn [isSSE new_body].
    - assert (sse_reported m (chunks ++ [data]) = sse_reported m (nonempty (chunks ++ [data]))) as ->
        by (unfold sse_reported; rewrite kept_nonempty; [done|done|vm_compute; discriminate]).
      apply sse_tokens.
    - rewrite <- concat_nonempty. apply json_tokens. }
  destruct (reported sse m (chunks ++ [data])) as [p c]. rewrite run_chunks.
  set (b0 := foldl feed (new_body m sse) chunks) in *.
  assert (exists b1, finalized b1 = true /\ body_run b0 (fin :: more)
    = let '(b2, out, rs) := body_run b1 more in (b2, data ++ out, [(m, p, c)] ++ rs))
    as (b1 & Hb1 & ->).
  { unfold b in *. rewrite foldl_app in *. cbn [foldl] in *. fold b0 in Htok, Hm, Hb.
    destruct Hfin as [|d]; cbn [body_run].
    - change (feed b0 []) with b0 in *. unfold body_Close, finalize. rewrite Hb, Htok, Hm.
      eexists. split; [|reflexivity]. done.
    - unfold body_Read. fold (feed b0 d). unfold finalize. rewrite Hb, Htok, Hm.
      eexists. split; [|reflexivity]. done. }
  pose proof (run_finalized more b1 Hb1) as Hrest.
  destruct (body_run b1 more) as [[b2 out] rs]. destruct Hrest as [-> ->]. exists b2.
  unfold whole. by rewrite <- app_assoc.
Qed.

(** The same, for reads that fit the buffer: the tokens are those of the bytes. *)
Lemma reported_reference m sse chunks data :
  (sse = true -> fits [] (chunks ++ [data])) ->
  reported sse m (chunks ++ [data]) = reference sse m (concat chunks ++ data).
Proof.
  intros Hf. assert (concat (chunks ++ [data]) = concat chunks ++ data) as Hc
    by (rewrite concat_app; cbn; by rewrite app_nil_r).
  unfold reported, reference. destruct sse; [|by rewrite Hc]. rewrite <- Hc. by apply reported_fits, Hf.
Qed.

Lemma run_to_end m sse chunks fin data more :
  final_op fin data -> (sse = true -> fits [] (chunks ++ [data])) ->
  let whole := concat chunks ++ data in
  let '(p, c) := reference sse m whole in
  exists b, body_run (new_body m sse) (((fun c => BRead c false) <$> chunks) ++ fin :: more)
  = (b, whole ++ concat (op_bytes <$> more), [(m, p, c)]).
Proof.
  intros Hfin Hfits. cbv zeta. rewrite <- reported_reference by done. by apply run_reported.
Qed.

(** An unfinished line starts the first line of what follows it. *)
Lemma split_lines_starts rest t :
  split_lines rest = ([], rest) ->
  exists x xs, (split_lines (rest ++ t)).1 ++ [(split_lines (rest ++ t)).2] = x :: xs /\ len rest <= len x.
Proof.
  induction rest as [|b rest IH]; intros Hr.
  { cbn [app]. destruct (split_lines t) as [[|x xs] r]; eexists _, _; (split; [reflexivity|]); unfold len; cbn; lia. }
  cbn [split_lines app] in *. destruct (split_lines rest) as [ls r] eqn:Er.
  destruct (byte_eqb b "010"); [done|]. destruct ls as [|y ys]; [|done]. injection Hr as ->.
  destruct (IH eq_refl) as (x & xs & Hx & Hle). destruct (split_lines (rest ++ t)) as [[|z zs] r'];
    cbn [fst snd app] in *; injection Hx as -> ->; eexists _, _; (split; [reflexivity|]); unfold len in *; cbn [length]; lia.
Qed.

(** Small reads of short lines fit: no line, finished or not, is longer than [L] bytes, no
    read than [C], and the two together are within the buffer. *)
Lemma short_fits L C chunks rest :
  L + C <= usageBufferCap -> Forall (fun c => len c <= C) chunks ->
  Forall (fun l => len l <= L) ((split_lines (rest ++ concat chunks)).1 ++ [(split_lines (rest ++ concat chunks)).2]) ->
  split_lines rest = ([], rest) -> fits rest chunks.
Proof.
  intros HLC. revert rest. induction chunks as [|c cs IH]; intros rest Hc Hl Hr; [done|].
  apply Forall_cons in Hc as [Hc Hcs]. cbn [concat fits] in *.
  assert (len rest <= L) as Hrest.
  { destruct (split_lines_starts rest (c ++ concat cs) Hr) as (x & xs & Hx & Hle). rewrite Hx in Hl.
    apply Forall_cons in Hl as [Hl _]. lia. }
  split; [unfold len in *; rewrite length_app; lia|]. apply IH; [done| |apply split_lines_rest].
  rewrite app_assoc, (split_lines_app (rest ++ c)) in Hl. cbn [fst snd] in Hl.
  rewrite <- app_assoc in Hl. by apply Forall_app in Hl as [_ Hl].
Qed.

(** Before its end nothing is reported. *)
Lemma run_open m sse chunks :
  exists b, body_run (new_body m sse) ((fun c => BRead c false) <$> chunks) = (b, concat chunks, []).
Proof.
  pose proof (run_chunks chunks [] (new_body m sse)) as Hpre. rewrite app_nil_r in Hpre. rewrite Hpre.
  change (body_run ?b0 []) with (b0, @nil byte, @nil report). cbv beta iota. rewrite app_nil_r. by eexists.
Qed.

(** C13. The usage observer: whatever the reads deliver is passed on unchanged; until the
    end of the body nothing is reported, and from then on exactly one report is made,
    however often the body is read or closed again. A JSON document reports the usage it
    holds - or, without one or beyond 1 MiB, the prompt estimate and zero - however it was
    cut. An event stream reports the first usage of the lines parsed, or else the estimates;
    parsing stops for good at the read that takes an unfinished line and itself past 1 MiB,
    and the completion estimate is then zero. As long as no read does - in particular when no
    read is longer than 32 KiB, the reverse proxy's copy buffer, and no line than 992 KiB -
    the tokens are those of the whole stream, and do not depend on the cut. *)
Theorem usage_report_exact m (sse : bool) chunks fin data more :
  final_op fin data ->
  let whole := concat chunks ++ data in
  let reads := chunks ++ [data] in
  let '(p, c) :=
    if sse then
      let '(parsed, over) := kept [] reads in
      let evs := omap line_event (split_lines parsed).1 in
      match head (omap event_usage evs) with
      | Some pc => pc
      | None => (promptTok m, if over then 0 else estimateCompletionTokens (wrap64 (sumZ (event_content <$> evs))))
      end
    else if usageBufferCap <? len whole then (promptTok m, 0) else default (promptTok m, 0) (parseJSONUsage whole) in
  let '(_, out1, rs1) := body_run (new_body m sse) ((fun c => BRead c false) <$> chunks) in
  let '(_, out, rs) :=
    body_run (new_body m sse) (((fun c => BRead c false) <$> chunks) ++ fin :: more) in
  out1 = concat chunks /\ rs1 = [] /\ out = whole ++ concat (op_bytes <$> more) /\ rs = [(m, p, c)]
  /\ (fits [] reads -> kept [] reads = (whole, false))
  /\ (Forall (fun r => len r <= 32 * 2 ^ 10) reads ->
      Forall (fun l => len l <= 992 * 2 ^ 10) ((split_lines whole).1 ++ [(split_lines whole).2]) -> fits [] reads).
Proof.
  intros Hfin whole reads. pose proof (run_reported m sse chunks fin data more Hfin) as Hrun. cbv zeta in Hrun.
  fold whole reads in Hrun.
  assert (concat reads = whole) as Hw by (unfold reads, whole; rewrite concat_app; cbn; by rewrite app_nil_r).
  unfold reported, sse_reported, json_reference in Hrun. rewrite Hw in Hrun.
  match type of Hrun with let '(p, c) := ?x in _ => destruct x as [p c] end. destruct Hrun as [b ->].
  destruct (run_open m sse chunks) as [b0 ->]. do 4 (split; [done|]). split.
  - intros Hf. by rewrite kept_fits, Hw.
  - intros Hr Hl. apply (short_fits (992 * 2 ^ 10) (32 * 2 ^ 10)); [vm_compute; discriminate|done|by rewrite Hw|done].
Qed.

Definition sample_meta : reqMeta :=
  {| model := "gpt-4o"; promptTok := 11; agent := "a"; fp := "f"; projectName := "p"; callerID := "";
     statusCode := 200; trackCost := true; start := 0 |}.

Definition nl : list byte := ["010"%byte].

(** A stream cut inside its usage line, then closed twice. *)
Lemma usage_report_exact_witness :
  let s1 := text "data: {'choices':[{'delta':{'content':'hello'}}]}" ++ nl ++ text "data: {'usage':{'prom" in
  let s2 := text "pt_tokens':3,'completion_tokens':4}}" ++ nl ++ text "data: [DONE]" ++ nl in
  exists b,
  body_run (new_body sample_meta true) [BRead s1 false; BRead s2 true; BClose]
  = (b, s1 ++ s2, [(sample_meta, 3, 4)]) /\ kept [] [s1; s2] = (s1 ++ s2, false).
Proof.
  intros s1 s2.
  pose proof (usage_report_exact sample_meta true [s1] (BRead s2 true) s2 [BClose] (final_eof s2)) as H.
  cbv zeta in H. match type of H with let '(p, c) := ?x in _ => assert (x = (3, 4)) as Hr by (vm_compute; reflexivity) end.
  cbv zeta in Hr. rewrite Hr in H. cbn [fmap list_fmap app] in H.
  destruct (body_run (new_body sample_meta true) [BRead s1 false]) as [[b1 o1] r1].
  destruct (body_run (new_body sample_meta true) [BRead s1 false; BRead s2 true; BClose]) as [[b out] rs].
  exists b. destruct H as (_ & _ & Hout & Hrs & Hfit & Hshort). split.
  - rewrite Hout, Hrs. cbn [concat op_bytes fmap list_fmap]. by rewrite !app_nil_r.
  - rewrite Hfit; [cbn [concat]; by rewrite !app_nil_r|]. apply Hshort;
      apply (bool_decide_unpack _); vm_compute; exact I.
Defined.

(** ** Bounds *)

Definition parse_bounded (b : usageTrackingBody) : Prop :=
  len (pending b) <= usageBufferCap /\ len (jsonBuf b) <= usageBufferCap.

Lemma feed_bounded b c : parse_bounded b -> parse_bounded (feed b c).
Proof.
  intros [Hp Hj]. unfold feed. destruct (0 <? len c); [|done].
  unfold parseChunk. destruct (isSSE b).
  - unfold feedSSE. destruct (overCap b); [done|].
    destruct (usageBufferCap <? len (pending b ++ c)) eqn:E; [done|]. zbool.
    rewrite sse_loop_lines by done. split; cbn [pending jsonBuf set_pending set_parse].
    + pose proof (split_rest_len (pending b ++ c)). lia.
    + destruct (fold_frame (split_lines (pending b ++ c)).1 (set_pending b (pending b ++ c)))
        as (_ & _ & _ & _ & -> & _). done.
  - unfold feedJSON. destruct (overCap b); [done|].
    destruct (usageBufferCap <? len (jsonBuf b) + len c) eqn:E; [done|]. zbool.
    split; cbn [pending jsonBuf set_parse]; [done|]. rewrite len_app. lia.
Qed.

Lemma finalize_parse b : pending (finalize b).1 = pending b /\ jsonBuf (finalize b).1 = jsonBuf b.
Proof. unfold finalize. destruct (finalized b); [done|]. by destruct (tokens b). Qed.

(** The observer's memory: whatever the upstream sends, cut however it likes, the
    observer never retains more than usageBufferCap bytes of the stream in either
    buffer. *)
Theorem usage_memory_bounded m sse ops :
  let '(b, _, _) := body_run (new_body m sse) ops in
  len (pending b) <= 2 ^ 20 /\ len (jsonBuf b) <= 2 ^ 20.
Proof.
  assert (parse_bounded (new_body m sse)) as Hb by done. revert Hb. generalize (new_body m sse) as b.
  induction ops as [|o ops IH]; intros b Hb; cbn [body_run]; [exact Hb|].
  destruct o as [c eof|].
  - unfold body_Read. fold (feed b c).
    assert (parse_bounded (if eof then finalize (feed b c) else (feed b c, [])).1) as Hf.
    { destruct eof; cbn [fst]; [|by apply feed_bounded]. unfold parse_bounded.
      destruct (finalize_parse (feed b c)) as [-> ->]. by apply feed_bounded. }
    destruct (if eof then _ else _) as [b1 rs1]. specialize (IH b1 Hf).
    by destruct (body_run b1 ops) as [[b2 out] rs].
  - unfold body_Close. destruct (finalize_parse b) as [Hp Hj]. destruct (finalize b) as [b1 rs1].
    cbn [fst] in *. specialize (IH b1). destruct (body_run b1 ops) as [[b2 out] rs]. apply IH.
    unfold parse_bounded. by rewrite Hp, Hj.
Qed.

(** The completion estimate is the length over four, rounded up. *)
Lemma estimate_completion_exact chars :
  0 <= chars <= int64_max - 3 ->
  4 * (estimateCompletionTokens chars - 1) < chars <= 4 * estimateCompletionTokens chars.
Proof.
  intros. unfold estimateCompletionTokens. zcase (chars <=? 0).
  rewrite wrap64_id by (unfold in_int64, int64_min, int64_max in *; lia).
  Z.to_euclidean_division_equations. lia.
Qed.
