(* ===== verification/GoSha256.v ===== *)
(** * crypto/sha256 and encoding/hex: the digest the fingerprints and keys use

    SHA-256 (FIPS 180-4) on lists of bytes, 32-bit words as Z modulo 2^32. *)

From S2P Require Import Prelude.

Definition w32 (z : Z) : Z := Z.land z (2 ^ 32 - 1).
Definition rotr (n x : Z) : Z := w32 (Z.lor (Z.shiftr x n) (Z.shiftl x (32 - n))).

Definition sha_k : list Z :=
  [1116352408; 1899447441; 3049323471; 3921009573; 961987163; 1508970993;
   2453635748; 2870763221; 3624381080; 310598401; 607225278; 1426881987;
   1925078388; 2162078206; 2614888103; 3248222580; 3835390401; 4022224774;
   264347078; 604807628; 770255983; 1249150122; 1555081692; 1996064986;
   2554220882; 2821834349; 2952996808; 3210313671; 3336571891; 3584528711;
   113926993; 338241895; 666307205; 773529912; 1294757372; 1396182291;
   1695183700; 1986661051; 2177026350; 2456956037; 2730485921; 2820302411;
   3259730800; 3345764771; 3516065817; 3600352804; 4094571909; 275423344;
   430227734; 506948616; 659060556; 883997877; 958139571; 1322822218;
   1537002063; 1747873779; 1955562222; 2024104815; 2227730452; 2361852424;
   2428436474; 2756734187; 3204031479; 3329325298].

Definition sha_init : list Z :=
  [1779033703; 3144134277; 1013904242; 2773480762; 1359893119; 2600822924;
   528734635; 1541459225].

Definition big_sigma0 (x : Z) : Z := Z.lxor (Z.lxor (rotr 2 x) (rotr 13 x)) (rotr 22 x).
Definition big_sigma1 (x : Z) : Z := Z.lxor (Z.lxor (rotr 6 x) (rotr 11 x)) (rotr 25 x).
Definition small_sigma0 (x : Z) : Z := Z.lxor (Z.lxor (rotr 7 x) (rotr 18 x)) (Z.shiftr x 3).
Definition small_sigma1 (x : Z) : Z := Z.lxor (Z.lxor (rotr 17 x) (rotr 19 x)) (Z.shiftr x 10).
Definition choose (x y z : Z) : Z := Z.lxor (Z.land x y) (Z.land (2 ^ 32 - 1 - x) z).
Definition majority (x y z : Z) : Z := Z.lxor (Z.lxor (Z.land x y) (Z.land x z)) (Z.land y z).

(** Big-endian bytes. *)
Fixpoint be_bytes (n : nat) (z : Z) : list byte :=
  match n with
  | O => []
  | S n' => default "000"%byte (Byte.of_N (Z.to_N (Z.land (Z.shiftr z (8 * Z.of_nat n')) 255)))
            :: be_bytes n' z
  end.
Definition be_word (l : list byte) : Z := foldl (fun acc b => acc * 256 + byte_to_Z b) 0 l.

(** The padding: a one bit, zeros up to 56 modulo 64, the length in bits. *)
Definition pad (l : list byte) : list byte :=
  let n := Z.of_nat (length l) in
  l ++ ["128"%byte] ++ replicate (Z.to_nat ((55 - n) mod 64)) "000"%byte
    ++ be_bytes 8 ((n * 8) mod 2 ^ 64).

Fixpoint chunk (n fuel : nat) (l : list byte) : list (list byte) :=
  match fuel with
  | O => []
  | S fuel' => match l with [] => [] | _ => take n l :: chunk n fuel' (drop n l) end
  end.

(** The message schedule, kept newest first. *)
Fixpoint schedule (n : nat) (w : list Z) : list Z :=
  match n with
  | O => w
  | S n' =>
      let at_ i := nth i w 0 in
      schedule n' (w32 (small_sigma1 (at_ 1%nat) + at_ 6%nat + small_sigma0 (at_ 14%nat)
                        + at_ 15%nat) :: w)
  end.

Definition round (s : list Z) (kw : Z * Z) : list Z :=
  match s with
  | [a; b; c; d; e; f; g; h] =>
      let t1 := h + big_sigma1 e + choose e f g + kw.1 + kw.2 in
      let t2 := big_sigma0 a + majority a b c in
      [w32 (t1 + t2); a; b; c; w32 (d + t1); e; f; g]
  | _ => s
  end.

Definition compress (s : list Z) (block : list byte) : list Z :=
  let w := reverse (schedule 48 (reverse (be_word <$> chunk 4 16 block))) in
  zip_with (fun x y => w32 (x + y)) s (foldl round s (zip sha_k w)).

(** sha256.Sum256. *)
Definition sha256 (l : list byte) : list byte :=
  let p := pad l in
  concat (be_bytes 4 <$> foldl compress sha_init (chunk 64 (length p) p)).

(** hex.EncodeToString. *)
Definition hex_digit (n : Z) : byte :=
  default "000"%byte (Byte.of_N (Z.to_N (if n <? 10 then 48 + n else 87 + n))).
Definition hex (l : list byte) : string :=
  string_of_bytes (concat ((fun b => [hex_digit (byte_to_Z b / 16); hex_digit (byte_to_Z b mod 16)]) <$> l)).

Definition sha256_hex (l : list byte) : string := hex (sha256 l).

Example sha256_abc :
  sha256_hex (bytes_of_string "abc")
  = "ba7816bf8f01cfea414140de5dae2223b00361a396177a9cb410ff61f20015ad"%string.
Proof. vm_compute. reflexivity. Qed.

Example sha256_two_blocks :
  sha256_hex (bytes_of_string "abcdbcdecdefdefgefghfghighijhijkijkljklmklmnlmnomnopnopq")
  = "248d6a61d20638b8e5c026930c3e6039a33ce45964ff2167f6ecedd419db06c1"%string.
Proof. vm_compute. reflexivity. Qed.

(** ** The digest is 64 lowercase hexadecimal digits *)

Lemma length_be_bytes n z : length (be_bytes n z) = n.
Proof. induction n; cbn [be_bytes length]; congruence. Qed.

Lemma round_length s kw : length (round s kw) = length s.
Proof. unfold round. by repeat case_match. Qed.

Lemma fold_round_length s l : length (foldl round s l) = length s.
Proof. revert s. induction l as [|x l IH]; intros s; cbn [foldl]; [done|]. by rewrite IH, round_length. Qed.

Lemma compress_length s block : length (compress s block) = length s.
Proof. unfold compress. rewrite length_zip_with, fold_round_length. lia. Qed.

Lemma sha256_length l : length (sha256 l) = 32%nat.
Proof.
  unfold sha256. assert (forall bs s, length (foldl compress s bs) = length s) as Hl.
  { induction bs as [|x bs IH]; intros s; cbn [foldl]; [done|]. by rewrite IH, compress_length. }
  specialize (Hl (chunk 64 (length (pad l)) (pad l)) sha_init).
  destruct (foldl compress sha_init _) as [|? [|? [|? [|? [|? [|? [|? [|? [|? ?]]]]]]]]]; try done.
Qed.

Definition is_hex (b : byte) : bool :=
  ((48 <=? byte_to_Z b) && (byte_to_Z b <=? 57)) || ((97 <=? byte_to_Z b) && (byte_to_Z b <=? 102)).

Lemma hex_digits_ok b : is_hex (hex_digit (byte_to_Z b / 16)) && is_hex (hex_digit (byte_to_Z b mod 16)) = true.
Proof. by destruct b. Qed.

Lemma sha256_hex_shape l :
  String.length (sha256_hex l) = 64%nat
  /\ Forall (fun b => is_hex b = true) (bytes_of_string (sha256_hex l)).
Proof.
  assert (String.length (sha256_hex l) = length (bytes_of_string (sha256_hex l))) as ->.
  { unfold bytes_of_string. generalize (sha256_hex l). induction s as [|a s IH]; [done|].
    cbn. by rewrite IH. }
  unfold sha256_hex, hex. rewrite bytes_of_string_of_bytes. split.
  - pose proof (sha256_length l) as Hl. revert Hl. generalize (sha256 l). intros d Hd.
    replace 64%nat with (2 * length d)%nat by lia. clear.
    induction d as [|b d IH]; [done|]. rewrite fmap_cons. cbn [concat app length]. rewrite IH. lia.
  - generalize (sha256 l). induction l0 as [|b d IH]; [constructor|]. rewrite fmap_cons.
    cbn [concat app]. pose proof (hex_digits_ok b) as Hb. apply andb_true_iff in Hb as [H1 H2].
    by repeat constructor.
Qed.
