(* ===== verification/GoUrl.v ===== *)
(** * What the program uses of net/url and of httputil's URL joining

    A URL as net/url keeps it, its escaping, its query, and what a reverse proxy makes of a
    request's URL when it sends it to another host.  Opaque URLs, user information and
    fragments, which SetURL neither reads nor changes, are left out. *)

From S2P Require Import Prelude GoStrings GoJson.

(** ** Escaping *)

(** The URL escaping of net/url, by mode. *)
Inductive escape_mode := encodePath | encodePathSegment.

Definition unreserved (c : byte) : bool :=
  between 97 122 c || between 65 90 c || between 48 57 c
  || bool_decide (c ∈ bytes_of_string "-_.~").

Definition shouldEscape (mode : escape_mode) (c : byte) : bool :=
  if unreserved c then false
  else if bool_decide (c ∈ bytes_of_string "$&+,/:;=?@") then
    match mode with
    | encodePath => byte_eqb c "?"
    | encodePathSegment => bool_decide (c ∈ bytes_of_string "/;,?")
    end
  else true.

Definition upper_hex (n : Z) : byte :=
  default "000"%byte (Byte.of_N (Z.to_N (if n <? 10 then 48 + n else 55 + n))).

Definition escape_byte (mode : escape_mode) (c : byte) : list byte :=
  if shouldEscape mode c
  then ["%"%byte; upper_hex (byte_to_Z c / 16); upper_hex (byte_to_Z c mod 16)] else [c].
Definition escape (mode : escape_mode) (l : list byte) : list byte := concat (escape_byte mode <$> l).

Definition PathEscape : list byte -> list byte := escape encodePathSegment.

(** url.PathUnescape: None on a malformed escape. *)
Definition hex_val (c : byte) : option Z :=
  let z := byte_to_Z c in
  if between 48 57 c then Some (z - 48) else if between 97 102 c then Some (z - 87)
  else if between 65 70 c then Some (z - 55) else None.
Fixpoint unescape (l : list byte) : option (list byte) :=
  match l with
  | [] => Some []
  | "%"%byte :: r =>
      match r with
      | h :: lo :: r' =>
          match hex_val h, hex_val lo with
          | Some a, Some b => r'' ← unescape r'; Some (byte_of_Z (16 * a + b) :: r'')
          | _, _ => None
          end
      | _ => None
      end
  | c :: r => r' ← unescape r; Some (c :: r')
  end.

(** ** Queries *)

Definition QueryUnescape (l : list byte) : option (list byte) :=
  unescape ((fun c => if byte_eqb c "+" then " "%byte else c) <$> l).

Definition query_pair (part : list byte) : option (list byte * list byte) :=
  if bool_decide (";"%byte ∈ part) || bool_decide (part = []) then None
  else
    let '(k, v) := default (part, []) (cut_byte "=" part) in
    k' ← QueryUnescape k; v' ← QueryUnescape v; Some (k', v').

Definition ParseQuery (q : list byte) : list (list byte * list byte) := omap query_pair (split_byte "&" q).

(** url.QueryEscape. *)
Definition query_escape_byte (c : byte) : list byte :=
  if byte_eqb c " " then ["+"%byte] else if unreserved c then [c]
  else ["%"%byte; upper_hex (byte_to_Z c / 16); upper_hex (byte_to_Z c mod 16)].
Definition QueryEscape (l : list byte) : list byte := concat (query_escape_byte <$> l).

(** The order of the keys of Values.Encode: bytes, a prefix first. *)
Fixpoint key_le (a b : list byte) : bool :=
  match a, b with
  | [], _ => true
  | _ :: _, [] => false
  | c :: a', d :: b' =>
      if byte_to_Z c =? byte_to_Z d then key_le a' b' else byte_to_Z c <? byte_to_Z d
  end.

(** Values.Encode: the keys sorted, the values of a key in the order of the query. *)
Fixpoint insert_pair (kv : list byte * list byte) (l : list (list byte * list byte)) :
    list (list byte * list byte) :=
  match l with
  | [] => [kv]
  | kv' :: l' => if key_le kv.1 kv'.1 then kv :: l else kv' :: insert_pair kv l'
  end.
Definition sort_pairs (l : list (list byte * list byte)) : list (list byte * list byte) :=
  foldr insert_pair [] l.
Definition encode_pair (kv : list byte * list byte) : list byte :=
  QueryEscape kv.1 ++ "="%byte :: QueryEscape kv.2.
Fixpoint join_pairs (l : list (list byte)) : list byte :=
  match l with [] => [] | [p] => p | p :: l' => p ++ "&"%byte :: join_pairs l' end.
Definition Encode (l : list (list byte * list byte)) : list byte := join_pairs (encode_pair <$> sort_pairs l).

(** httputil's cleanQueryParams: a query with a semicolon or a malformed escape is
    re-encoded from what of it parses. *)
Definition cleanQueryParams (q : list byte) : list byte :=
  if bool_decide (";"%byte ∈ q) || bool_decide (unescape q = None) then Encode (ParseQuery q) else q.

(** ** URLs *)

Record url := {
  Scheme : string;
  u_Host : string;
  Path : list byte;
  RawPath : list byte;
  RawQuery : list byte
}.

Definition validEncoded (l : list byte) : bool :=
  forallb (fun c => bool_decide (c ∈ bytes_of_string "!$&'()*+,;=:@[]%") || negb (shouldEscape encodePath c)) l.

Definition EscapedPath (u : url) : list byte :=
  if negb (bool_decide (RawPath u = [])) && validEncoded (RawPath u)
     && bool_decide (unescape (RawPath u) = Some (Path u))
  then RawPath u
  else if bool_decide (Path u = bytes_of_string "*") then Path u
  else escape encodePath (Path u).

(** url.ParseRequestURI of an origin-form target (a path and a query). *)
Definition origin_url (target : list byte) : option url :=
  let '(p, q) := default (target, []) (cut_byte "?" target) in
  path ← unescape p;
  Some {| Scheme := ""; u_Host := ""; Path := path;
          RawPath := if bool_decide (escape encodePath path = p) then [] else p; RawQuery := q |}.

(** ** httputil: joining two URLs *)

Definition slash : list byte := ["/"%byte].

Definition singleJoiningSlash (a b : list byte) : list byte :=
  if has_suffix slash a && has_prefix slash b then a ++ drop 1 b
  else if negb (has_suffix slash a) && negb (has_prefix slash b) then a ++ slash ++ b
  else a ++ b.

Definition joinURLPath (a b : url) : list byte * list byte :=
  if bool_decide (RawPath a = []) && bool_decide (RawPath b = []) then (singleJoiningSlash (Path a) (Path b), [])
  else
    let apath := EscapedPath a in
    let bpath := EscapedPath b in
    if has_suffix slash apath && has_prefix slash bpath then (Path a ++ drop 1 (Path b), apath ++ drop 1 bpath)
    else if negb (has_suffix slash apath) && negb (has_prefix slash bpath)
    then (Path a ++ slash ++ Path b, apath ++ slash ++ bpath)
    else (Path a ++ Path b, apath ++ bpath).

Definition joinQuery (a b : list byte) : list byte :=
  if bool_decide (a = []) || bool_decide (b = []) then a ++ b else a ++ "&"%byte :: b.

(** rewriteRequestURL, on the URL of the request. *)
Definition rewriteRequestURL (u target : url) : url :=
  let '(path, raw) := joinURLPath target u in
  {| Scheme := Scheme target; u_Host := u_Host target; Path := path; RawPath := raw;
     RawQuery := joinQuery (RawQuery target) (RawQuery u) |}.

Example url_examples :
  let up := {| Scheme := "http"; u_Host := "h"; Path := bytes_of_string "/v1/"; RawPath := [];
               RawQuery := bytes_of_string "k=1" |} in
  (u ← origin_url (bytes_of_string "/a%2Fb%20c?x=2&y");
   let v := rewriteRequestURL u up in Some (string_of_bytes (EscapedPath v), string_of_bytes (RawQuery v)))
  = Some ("/v1/a%2Fb%20c", "k=1&x=2&y")
  /\ string_of_bytes (cleanQueryParams (bytes_of_string "b=2&a=%41;&a=x y&a=1&c=%zz")) = "a=x+y&a=1&b=2".
Proof. vm_compute. done. Qed.

(** ** Lemmas on escaping *)

Lemma escape_app mode a b : escape mode (a ++ b) = escape mode a ++ escape mode b.
Proof. unfold escape. by rewrite fmap_app, concat_app. Qed.

Lemma unescape_byte mode c r :
  unescape (escape_byte mode c ++ r) = (r' ← unescape r; Some (c :: r')).
Proof.
  assert (match escape_byte mode c with
          | [d] => byte_eqb d c && negb (byte_eqb d "%")
          | [p; h; lo] =>
              match hex_val h, hex_val lo with
              | Some a, Some b => byte_eqb p "%" && byte_eqb (byte_of_Z (16 * a + b)) c
              | _, _ => false
              end
          | _ => false
          end = true) as Hc by (destruct mode, c; vm_compute; reflexivity).
  destruct (escape_byte mode c) as [|d [|h [|lo [|]]]]; try done.
  - apply andb_true_iff in Hc as [Hd Hp]. apply byte_eqb_eq in Hd as ->.
    apply negb_true_iff in Hp. cbn [app]. by destruct c.
  - cbn [app]. destruct (hex_val h) as [a|] eqn:Eh; [|done]. destruct (hex_val lo) as [b|] eqn:El; [|done].
    apply andb_true_iff in Hc as [Hp Hc]. apply byte_eqb_eq in Hp as ->. apply byte_eqb_eq in Hc.
    cbn [unescape]. by rewrite Eh, El, Hc.
Qed.

Lemma unescape_escape mode l : unescape (escape mode l) = Some l.
Proof.
  induction l as [|c l IH]; [done|]. unfold escape in *. rewrite fmap_cons. cbn [concat].
  by rewrite unescape_byte, IH.
Qed.

Lemma escape_no_slash mode l :
  (forall c, c ∈ l -> mode = encodePathSegment \/ c <> "/"%byte) -> "/"%byte ∉ escape mode l.
Proof.
  induction l as [|c l IH]; intros Hl; [apply not_elem_of_nil|].
  unfold escape. rewrite fmap_cons. cbn [concat]. rewrite elem_of_app. intros [Hin|Hin].
  - assert (mode = encodePathSegment \/ c <> "/"%byte) as Hc by (apply Hl; by left).
    assert (forall c, "/"%byte ∉ escape_byte encodePathSegment c) as Hseg.
    { intros b Hb. apply (bool_decide_eq_true_2 _) in Hb. destruct b; vm_compute in Hb; discriminate. }
    destruct Hc as [->|Hc]; [by apply (Hseg c)|]. destruct mode; [|by apply (Hseg c)].
    apply (bool_decide_eq_true_2 _) in Hin. destruct c; try done; vm_compute in Hin; discriminate.
  - revert Hin. apply IH. intros. apply Hl. by right.
Qed.

Lemma escape_id_iff l :
  PathEscape l = l <-> Forall (fun c => shouldEscape encodePathSegment c = false) l.
Proof.
  assert (forall l, (length l <= length (PathEscape l))%nat) as Hlen.
  { clear. induction l as [|c l IH]; [done|]. unfold PathEscape, escape in *. rewrite fmap_cons.
    cbn [concat length]. rewrite length_app. unfold escape_byte at 1.
    destruct (shouldEscape _ c); cbn [length]; lia. }
  induction l as [|c l IH]; [split; [constructor|done]|].
  unfold PathEscape, escape. rewrite fmap_cons. cbn [concat]. fold (escape encodePathSegment l).
  fold (PathEscape l). unfold escape_byte at 1. rewrite Forall_cons.
  destruct (shouldEscape encodePathSegment c) eqn:E.
  - split; [|by intros [? _]]. intros Heq. apply (f_equal length) in Heq.
    rewrite length_app in Heq. cbn [length] in Heq. specialize (Hlen l). lia.
  - cbn [app]. rewrite <- IH. split; [by intros [= ?]|by intros [_ ->]].
Qed.

(** ** Lemmas on joining *)

Lemma has_prefix_slash l : has_prefix slash l = true <-> exists t, l = "/"%byte :: t.
Proof. apply has_prefix_spec. Qed.

Lemma has_suffix_app x y : y <> [] -> has_suffix slash (x ++ y) = has_suffix slash y.
Proof.
  intros Hy. unfold has_suffix. rewrite reverse_app.
  destruct (reverse y) as [|c r] eqn:E; [|done].
  apply (f_equal reverse) in E. by rewrite reverse_involutive in E.
Qed.

(** A slash is neither made nor lost by escaping a path. *)
Lemma escape_slash_head l : has_prefix slash (escape encodePath l) = has_prefix slash l.
Proof. destruct l as [|c l]; [done|]. unfold escape. rewrite fmap_cons. cbn [concat]. by destruct c. Qed.

Lemma escape_slash_tail l : has_suffix slash (escape encodePath l) = has_suffix slash l.
Proof.
  destruct l as [|c l] using rev_ind; [done|]. clear IHl. rewrite escape_app.
  assert (escape encodePath [c] <> [] /\ has_suffix slash (escape encodePath [c]) = has_suffix slash [c])
    as [Hne Hs] by (destruct c; (split; [discriminate|reflexivity])).
  by rewrite !has_suffix_app, Hs.
Qed.

Lemma escape_slash l : escape encodePath ("/"%byte :: l) = "/"%byte :: escape encodePath l.
Proof. done. Qed.

Lemma unescape_plain c r : c <> "%"%byte -> unescape (c :: r) = (r' ← unescape r; Some (c :: r')).
Proof. by destruct c. Qed.

(** Decoding piece by piece: a text that decodes, before any other. *)
Lemma unescape_app l1 l2 a : unescape l1 = Some a -> unescape (l1 ++ l2) = (r ← unescape l2; Some (a ++ r)).
Proof.
  revert a. induction l1 as [l1 IH] using (induction_ltof1 _ (@length byte)). unfold ltof in IH.
  intros a Ha. destruct l1 as [|c r]; [injection Ha as <-; cbn [app]; by destruct (unescape l2)|].
  destruct (decide (c = "%"%byte)) as [->|Hc].
  - destruct r as [|h [|lo r]]; [done|done|]. cbn [unescape app] in *.
    destruct (hex_val h) as [x|]; [|done]. destruct (hex_val lo) as [y|]; [|done].
    apply bind_Some in Ha as (r' & Hr & [= <-]). rewrite (IH r) with (a := r') by (done || cbn; lia).
    by destruct (unescape l2).
  - cbn [app]. rewrite unescape_plain in Ha |- * by done. apply bind_Some in Ha as (r' & Hr & [= <-]).
    rewrite (IH r) with (a := r') by (done || cbn; lia). by destruct (unescape l2).
Qed.

Lemma EscapedPath_unescapes u : unescape (EscapedPath u) = Some (Path u).
Proof.
  unfold EscapedPath. destruct (negb _ && _ && _) eqn:E.
  - apply andb_true_iff in E as [_ E]. by apply bool_decide_eq_true in E.
  - clear E. case_bool_decide as Hp; [by rewrite Hp|apply unescape_escape].
Qed.

Lemma escape_valid l : validEncoded (escape encodePath l) = true.
Proof.
  induction l as [|c l IH]; [done|]. unfold escape. rewrite fmap_cons. cbn [concat]. unfold validEncoded in *.
  rewrite forallb_app. apply andb_true_iff. split; [by destruct c|exact IH].
Qed.

Lemma EscapedPath_valid u : validEncoded (EscapedPath u) = true.
Proof.
  unfold EscapedPath. destruct (negb _ && _ && _) eqn:E.
  - apply andb_true_iff in E as [E _]. by apply andb_true_iff in E as [_ E].
  - clear E. case_bool_decide as Hp; [by rewrite Hp|apply escape_valid].
Qed.

(** One slash between two paths, where the two meet. *)
Lemma single_join_cases a b :
  (exists b', b = "/"%byte :: b' /\ has_suffix slash a = true /\ singleJoiningSlash a b = a ++ b')
  \/ (exists b', b = "/"%byte :: b' /\ has_suffix slash a = false /\ singleJoiningSlash a b = a ++ b)
  \/ (has_prefix slash b = false /\ has_suffix slash a = true /\ singleJoiningSlash a b = a ++ b)
  \/ (has_prefix slash b = false /\ has_suffix slash a = false /\ singleJoiningSlash a b = a ++ slash ++ b).
Proof.
  unfold singleJoiningSlash. destruct (has_prefix slash b) eqn:Eb.
  - apply has_prefix_slash in Eb as [b' ->]. destruct (has_suffix slash a); [left|right; left]; by exists b'.
  - right; right. destruct (has_suffix slash a); [by left|by right].
Qed.

Definition server_wide (u : url) : Prop := Path u = bytes_of_string "*".

Lemma suffix_slash_in a : has_suffix slash a = true -> ("/"%byte : byte) ∈ a.
Proof.
  unfold has_suffix. intros [r Hr]%has_prefix_spec. apply elem_of_reverse. rewrite Hr. by left.
Qed.

Lemma join_not_star a b : singleJoiningSlash a b <> bytes_of_string "*".
Proof.
  intros H. assert (("/"%byte : byte) ∈ singleJoiningSlash a b) as Hin.
  { destruct (single_join_cases a b) as [(b' & -> & Ha & ->)|[(b' & -> & Ha & ->)|[(Hb & Ha & ->)|(Hb & Ha & ->)]]].
    - apply elem_of_app. left. by apply suffix_slash_in.
    - apply elem_of_app. right. by left.
    - apply elem_of_app. left. by apply suffix_slash_in.
    - apply elem_of_app. right. by left. }
  rewrite H in Hin. apply list_elem_of_singleton in Hin. done.
Qed.

Lemma escape_join a b :
  escape encodePath (singleJoiningSlash a b) = singleJoiningSlash (escape encodePath a) (escape encodePath b).
Proof.
  unfold singleJoiningSlash. rewrite !escape_slash_tail, !escape_slash_head.
  destruct (has_prefix slash b) eqn:Eb.
  - apply has_prefix_slash in Eb as [b' ->]. destruct (has_suffix slash a); cbn [andb negb];
      by rewrite escape_app.
  - rewrite !andb_false_r, andb_true_r. destruct (has_suffix slash a); cbn [negb]; by rewrite ?escape_app.
Qed.

Lemma valid_app a b : validEncoded (a ++ b) = validEncoded a && validEncoded b.
Proof. apply forallb_app. Qed.

(** Joining two escaped paths joins what they decode to. *)
Lemma raw_join u target :
  let apath := EscapedPath target in
  let bpath := EscapedPath u in
  let '(path, raw) :=
    if has_suffix slash apath && has_prefix slash bpath then (Path target ++ drop 1 (Path u), apath ++ drop 1 bpath)
    else if negb (has_suffix slash apath) && negb (has_prefix slash bpath)
    then (Path target ++ slash ++ Path u, apath ++ slash ++ bpath)
    else (Path target ++ Path u, apath ++ bpath) in
  EscapedPath {| Scheme := Scheme target; u_Host := u_Host target; Path := path; RawPath := raw;
                 RawQuery := joinQuery (RawQuery target) (RawQuery u) |}
  = singleJoiningSlash apath bpath.
Proof.
  pose proof (EscapedPath_unescapes target) as Ha. pose proof (EscapedPath_unescapes u) as Hb.
  pose proof (EscapedPath_valid target) as Va. pose proof (EscapedPath_valid u) as Vb. cbv zeta.
  set (apath := EscapedPath target) in *. set (bpath := EscapedPath u) in *. clearbody apath bpath.
  assert (forall path raw, unescape raw = Some path -> validEncoded raw = true -> raw <> [] ->
    EscapedPath {| Scheme := Scheme target; u_Host := u_Host target; Path := path; RawPath := raw;
                   RawQuery := joinQuery (RawQuery target) (RawQuery u) |} = raw) as Hraw.
  { intros path raw Hun Hv Hne. unfold EscapedPath. cbn [RawPath Path].
    by rewrite bool_decide_eq_false_2, Hv, bool_decide_eq_true_2. }
  assert (forall l, validEncoded l = true -> validEncoded (apath ++ l) = true) as Hval
    by (intros l Hl; by rewrite valid_app, Va).
  destruct (single_join_cases apath bpath) as [(b' & -> & E & J)|[(b' & -> & E & J)|[(Eb & E & J)|(Eb & E & J)]]];
    rewrite ?E, ?Eb, J; cbn [has_prefix slash andb negb drop].
  - assert (apath <> []) as Hne by (intros ->; done). rewrite unescape_plain in Hb by done.
    apply bind_Some in Hb as (p' & Hp & Heq). injection Heq as Heq. rewrite <- Heq. apply Hraw; [|by apply Hval|].
    + rewrite (unescape_app _ _ _ Ha), Hp. done.
    + by destruct apath.
  - apply Hraw; [by rewrite (unescape_app _ _ _ Ha), Hb|by apply Hval|by destruct apath].
  - assert (apath <> []) as Hne by (intros ->; done).
    apply Hraw; [by rewrite (unescape_app _ _ _ Ha), Hb|by apply Hval|by destruct apath].
  - apply Hraw; [|by apply Hval|by destruct apath].
    rewrite (unescape_app _ _ _ Ha). change (slash ++ bpath) with ("/"%byte :: bpath).
    rewrite unescape_plain, Hb by done. done.
Qed.

(** The path on the wire: the target's, then the request's, with exactly one slash where
    they meet, and neither re-encoded. *)
Lemma rewrite_escaped_path u target :
  ~ server_wide u -> ~ server_wide target ->
  EscapedPath (rewriteRequestURL u target) = singleJoiningSlash (EscapedPath target) (EscapedPath u).
Proof.
  intros Hu Ht. unfold rewriteRequestURL, joinURLPath.
  case_bool_decide as Ea; [case_bool_decide as Eb|]; cbn [andb].
  - unfold EscapedPath. cbn [RawPath Path]. rewrite Ea, Eb. cbn [bool_decide negb andb].
    rewrite !(bool_decide_eq_false_2 (_ = bytes_of_string "*")) by (done || apply join_not_star).
    rewrite !bool_decide_eq_true_2 by done. apply escape_join.
  - pose proof (raw_join u target) as Hr. cbv zeta in Hr.
    by destruct (has_suffix slash (EscapedPath target)), (has_prefix slash (EscapedPath u)).
  - pose proof (raw_join u target) as Hr. cbv zeta in Hr.
    by destruct (has_suffix slash (EscapedPath target)), (has_prefix slash (EscapedPath u)).
Qed.

(** A query without semicolons and with well-formed escapes is left as it is. *)
Lemma clean_query_id q : (";"%byte : byte) ∉ q -> is_Some (unescape q) -> cleanQueryParams q = q.
Proof.
  intros Hs [v Hv]. unfold cleanQueryParams. rewrite !bool_decide_eq_false_2; [done|by rewrite Hv|done].
Qed.
