(* ===== verification/GoHttp.v ===== *)
(** * What the program uses of net/http: headers, requests, responses *)

From S2P Require Import Prelude GoUrl.

(** ** Headers

    A header map holds canonical keys; textproto canonicalizes a valid key to an upper
    case letter at the start and after a hyphen and lower case elsewhere, and leaves a
    key with any other byte alone. *)

Definition up (c : byte) : byte :=
  if (97 <=? byte_to_Z c) && (byte_to_Z c <=? 122)
  then default c (Byte.of_N (Z.to_N (byte_to_Z c - 32))) else c.
Definition down (c : byte) : byte :=
  if (65 <=? byte_to_Z c) && (byte_to_Z c <=? 90)
  then default c (Byte.of_N (Z.to_N (byte_to_Z c + 32))) else c.

Definition token_byte (c : byte) : bool :=
  let z := byte_to_Z c in
  ((48 <=? z) && (z <=? 57)) || ((65 <=? z) && (z <=? 90)) || ((97 <=? z) && (z <=? 122))
  || bool_decide (c ∈ bytes_of_string "!#$%&'*+-.^_`|~").

Fixpoint canonical_from (upper : bool) (l : list byte) : list byte :=
  match l with
  | [] => []
  | c :: l' => (if upper then up c else down c) :: canonical_from (byte_eqb c "-") l'
  end.

Definition CanonicalHeaderKey (k : string) : string :=
  let l := bytes_of_string k in
  if forallb token_byte l then string_of_bytes (canonical_from true l) else k.

Abbreviation Header := (gmap string (list string)).

Definition header_Get (h : Header) (k : string) : string :=
  match h !! CanonicalHeaderKey k with Some (v :: _) => v | _ => "" end.
Definition header_Set (h : Header) (k v : string) : Header := <[CanonicalHeaderKey k := [v]]> h.
Definition header_Del (h : Header) (k : string) : Header := delete (CanonicalHeaderKey k) h.

(** ** Requests and responses

    [Segments] is what ServeMux routes on: the segments of the URL's path, clean and
    decoded (it redirects a path that is not clean).  [Body] is what the client sends,
    [BodyErr] whether reading it ends in an error (a client abort).  [ContentLength] is -1
    for an unknown length.  [ClientIP] is what net.SplitHostPort makes of RemoteAddr, and
    [TLS] whether the connection is encrypted. *)
Record Request := {
  Method : string;
  URL : url;
  Host : string;
  ClientIP : option string;
  TLS : bool;
  Segments : list string;
  ReqHeader : Header;
  ContentLength : Z;
  Body : list byte;
  BodyErr : bool
}.

Record Response := {
  Status : Z;
  RespHeader : Header;
  RespBody : string
}.

Definition StatusOK : Z := 200.
Definition StatusNoContent : Z := 204.
Definition StatusUnauthorized : Z := 401.
Definition StatusRequestEntityTooLarge : Z := 413.
Definition StatusTooManyRequests : Z := 429.
Definition StatusBadGateway : Z := 502.

Definition set_header (r : Request) (h : Header) : Request :=
  {| Method := Method r; URL := URL r; Host := Host r; ClientIP := ClientIP r; TLS := TLS r;
     Segments := Segments r; ReqHeader := h;
     ContentLength := ContentLength r; Body := Body r; BodyErr := BodyErr r |}.

(** io.ReadAll of http.MaxBytesReader: None on an error. *)
Definition read_limited (r : Request) (limit : Z) : option (list byte) :=
  if (limit <? Z.of_nat (length (Body r))) || BodyErr r then None else Some (Body r).

(** A response with the JSON content type. *)
Definition json_response (status : Z) (body : string) : Response :=
  {| Status := status; RespHeader := header_Set ∅ "Content-Type" "application/json";
     RespBody := body |}.

(** Double quotes are written as ' in the texts below. *)
Definition quoted (s : string) : string :=
  string_of_bytes (map (fun c => if byte_eqb c "'" then "034"%byte else c) (bytes_of_string s)).

(** strconv.Itoa and strconv.FormatInt(_, 10). *)
Definition itoa (z : Z) : string := pretty.pretty z.

Example canonical_examples :
  CanonicalHeaderKey "X-FinOps-API-Key" = "X-Finops-Api-Key"
  /\ CanonicalHeaderKey "retry-after" = "Retry-After"
  /\ CanonicalHeaderKey "a b" = "a b"
  /\ itoa (-42) = "-42" /\ itoa 0 = "0".
Proof. vm_compute. done. Qed.

Lemma header_get_del h k : header_Get (header_Del h k) k = "".
Proof. unfold header_Get, header_Del. by rewrite lookup_delete_eq. Qed.

Lemma header_get_del_ne h k k' :
  CanonicalHeaderKey k <> CanonicalHeaderKey k' -> header_Get (header_Del h k) k' = header_Get h k'.
Proof. intros. unfold header_Get, header_Del. by rewrite lookup_delete_ne. Qed.

Lemma header_get_set h k v : header_Get (header_Set h k v) k = v.
Proof. unfold header_Get, header_Set. by rewrite lookup_insert_eq. Qed.

Lemma header_get_set_ne h k v k' :
  CanonicalHeaderKey k <> CanonicalHeaderKey k' -> header_Get (header_Set h k v) k' = header_Get h k'.
Proof. intros. unfold header_Get, header_Set. by rewrite lookup_insert_ne. Qed.
