(* ===== verification/GoReverseProxy.v ===== *)
(** * net/http/httputil's ReverseProxy: the request it sends

    What ReverseProxy.ServeHTTP makes of an inbound request before it hands the outbound one
    to the transport, with a Rewrite function: the hop-by-hop headers, the forwarding
    headers of the client and the unparsable query parameters removed, then Rewrite, and the
    two methods Rewrite functions call. *)

From S2P Require Import Prelude GoStrings GoUrl GoHttp.

(** ** Header values that are lists of tokens *)

Fixpoint drop_while (f : byte -> bool) (l : list byte) : list byte :=
  match l with c :: l' => if f c then drop_while f l' else l | [] => [] end.
Definition trim_bytes (f : byte -> bool) (l : list byte) : list byte :=
  reverse (drop_while f (reverse (drop_while f l))).

Definition ows (c : byte) : bool := byte_eqb c " " || byte_eqb c "009".
Definition header_space (c : byte) : bool := ows c || byte_eqb c "010" || byte_eqb c "013".

Definition header_values (h : Header) (k : string) : list string := default [] (h !! k).

(** httpguts.HeaderValuesContainsToken. *)
Definition contains_token (vs : list string) (token : string) : bool :=
  existsb (fun v => existsb (fun p => bool_decide (to_lower (trim_bytes ows p) = to_lower (bytes_of_string token)))
                      (split_byte "," (bytes_of_string v))) vs.

(** The header names the Connection header lists. *)
Definition connection_tokens (h : Header) : list string :=
  string_of_bytes <$> filter (fun t => t <> [])
    (concat ((fun v => trim_bytes header_space <$> split_byte "," (bytes_of_string v)) <$> header_values h "Connection")).

Definition hopHeaders : list string :=
  ["Connection"; "Proxy-Connection"; "Keep-Alive"; "Proxy-Authenticate"; "Proxy-Authorization"; "Te";
   "Trailer"; "Transfer-Encoding"; "Upgrade"].

Definition header_Del_all (h : Header) (ks : list string) : Header := foldl header_Del h ks.

Definition removeHopByHopHeaders (h : Header) : Header :=
  header_Del_all (header_Del_all h (connection_tokens h)) hopHeaders.

Definition upgradeType (h : Header) : string :=
  if contains_token (header_values h "Connection") "Upgrade" then header_Get h "Upgrade" else "".

(** ascii.IsPrint. *)
Definition is_print (s : string) : bool :=
  forallb (fun c => (32 <=? byte_to_Z c) && (byte_to_Z c <=? 126)) (bytes_of_string s).

(** ** The methods of ProxyRequest, on its Out *)

Definition set_url (r : Request) (u : url) (host : string) : Request :=
  {| Method := Method r; URL := u; Host := host; ClientIP := ClientIP r; TLS := TLS r;
     Segments := Segments r; ReqHeader := ReqHeader r; ContentLength := ContentLength r;
     Body := Body r; BodyErr := BodyErr r |}.

Definition SetURL (target : url) (out : Request) : Request :=
  set_url out (rewriteRequestURL (URL out) target) "".

Definition SetXForwarded (r_in out : Request) : Request :=
  let h := ReqHeader out in
  let h := match ClientIP r_in with
           | Some ip => header_Set h "X-Forwarded-For" (String.concat ", " (header_values h "X-Forwarded-For" ++ [ip]))
           | None => header_Del h "X-Forwarded-For"
           end in
  let h := header_Set h "X-Forwarded-Host" (Host r_in) in
  set_header out (header_Set h "X-Forwarded-Proto" (if TLS r_in then "https" else "http")).

(** ** ServeHTTP, up to the transport

    None: the client asks for an upgrade to a protocol whose name is not printable, and the
    ErrorHandler answers. *)

Definition client_forwarding : list string := ["Forwarded"; "X-Forwarded-For"; "X-Forwarded-Host"; "X-Forwarded-Proto"].

Definition outbound_header (h : Header) : Header :=
  let up := upgradeType h in
  let h1 := removeHopByHopHeaders h in
  let h2 := if contains_token (header_values h "Te") "trailers" then header_Set h1 "Te" "trailers" else h1 in
  let h3 := if String.eqb up "" then h2 else header_Set (header_Set h2 "Connection" "Upgrade") "Upgrade" up in
  header_Del_all h3 client_forwarding.

(** A request without a User-Agent gets an empty one, which the transport does not send. *)
Definition quiet_agent (h : Header) : Header :=
  match h !! "User-Agent" with Some _ => h | None => header_Set h "User-Agent" "" end.

Definition outreq (rewrite : Request -> Request -> Request) (r : Request) : option Request :=
  if is_print (upgradeType (ReqHeader r)) then
    let u := URL r in
    let out := rewrite r
      {| Method := Method r;
         URL := {| Scheme := Scheme u; u_Host := u_Host u; Path := Path u; RawPath := RawPath u;
                   RawQuery := cleanQueryParams (RawQuery u) |};
         Host := Host r; ClientIP := ClientIP r; TLS := TLS r; Segments := Segments r;
         ReqHeader := outbound_header (ReqHeader r); ContentLength := ContentLength r;
         Body := if ContentLength r =? 0 then [] else Body r;
         BodyErr := if ContentLength r =? 0 then false else BodyErr r |} in
    Some (set_header out (quiet_agent (ReqHeader out)))
  else None.

Example outbound_example :
  let h := header_Set (header_Set (header_Set (header_Set ∅ "Connection" "close, X-Drop") "X-Drop" "1")
             "Te" "gzip, Trailers") "X-Forwarded-For" "6.6.6.6" in
  outbound_header (header_Set h "Accept" "*/*") = header_Set (header_Set ∅ "Te" "trailers") "Accept" "*/*"
  /\ upgradeType (header_Set (header_Set ∅ "Connection" "keep-alive, upgrade") "Upgrade" "websocket") = "websocket".
Proof. split; [apply (bool_decide_unpack _); vm_compute; exact I|vm_compute; reflexivity]. Qed.

(** ** Lemmas *)

Lemma del_all_lookup h ks k :
  header_Del_all h ks !! k = if bool_decide (k ∈ CanonicalHeaderKey <$> ks) then None else h !! k.
Proof.
  revert h. induction ks as [|x ks IH]; intros h; [done|]. unfold header_Del_all in *. cbn [foldl].
  rewrite IH. unfold header_Del. destruct (decide (k = CanonicalHeaderKey x)) as [->|Hne].
  - rewrite lookup_delete_eq, (bool_decide_eq_true_2 (_ ∈ CanonicalHeaderKey <$> x :: ks)) by (left; done).
    by case_bool_decide.
  - rewrite lookup_delete_ne by done. rewrite fmap_cons.
    rewrite (bool_decide_ext (k ∈ CanonicalHeaderKey x :: _) (k ∈ CanonicalHeaderKey <$> ks)); [done|].
    rewrite elem_of_cons. tauto.
Qed.

(** Computes the canonical forms of the constant header names of the goal. *)
Ltac canon :=
  repeat match goal with
  | |- context [CanonicalHeaderKey ?s] =>
      let v := eval vm_compute in (CanonicalHeaderKey s) in
      match v with String _ _ => change (CanonicalHeaderKey s) with v end
  end.

(** The names an outbound request does not take over from the inbound one. *)
Definition dropped_names (h : Header) : list string :=
  CanonicalHeaderKey <$> (connection_tokens h ++ hopHeaders ++ client_forwarding).

Lemma dropped_fixed h k :
  k ∈ CanonicalHeaderKey <$> (hopHeaders ++ client_forwarding) -> k ∈ dropped_names h.
Proof. unfold dropped_names. rewrite !fmap_app, !elem_of_app. tauto. Qed.

Lemma outbound_lookup h k :
  outbound_header h !! k
  = if bool_decide (k ∈ CanonicalHeaderKey <$> client_forwarding) then None
    else if bool_decide (k = "Upgrade") && negb (String.eqb (upgradeType h) "") then Some [upgradeType h]
    else if bool_decide (k = "Connection") && negb (String.eqb (upgradeType h) "") then Some ["Upgrade"]
    else if bool_decide (k = "Te") && contains_token (header_values h "Te") "trailers" then Some ["trailers"]
    else if bool_decide (k ∈ dropped_names h) then None else h !! k.
Proof.
  unfold outbound_header. rewrite del_all_lookup. case_bool_decide as Hf; [done|].
  assert (removeHopByHopHeaders h !! k = if bool_decide (k ∈ dropped_names h) then None else h !! k) as Hr.
  { unfold removeHopByHopHeaders. rewrite !del_all_lookup. unfold dropped_names. rewrite !fmap_app.
    repeat case_bool_decide; rewrite !elem_of_app in *; try done; tauto. }
  unfold header_Set. canon. rewrite <- Hr. clear Hr. generalize (removeHopByHopHeaders h). intros h1.
  destruct (String.eqb (upgradeType h) "") eqn:Eu; cbn [negb]; rewrite ?andb_false_r, ?andb_true_r.
  - destruct (contains_token _ "trailers"); rewrite ?andb_false_r, ?andb_true_r; [|done].
    case_bool_decide as Ek; [subst; by rewrite lookup_insert_eq|by rewrite lookup_insert_ne].
  - case_bool_decide as E1; [subst; by rewrite lookup_insert_eq|]. rewrite lookup_insert_ne by done.
    case_bool_decide as E2; [subst; by rewrite lookup_insert_eq|]. rewrite lookup_insert_ne by done.
    destruct (contains_token _ "trailers"); rewrite ?andb_false_r, ?andb_true_r; [|done].
    case_bool_decide as Ek; [subst; by rewrite lookup_insert_eq|by rewrite lookup_insert_ne].
Qed.

(** What the outbound headers take over, and what they never do. *)
Lemma outbound_kept h k : k ∉ dropped_names h -> outbound_header h !! k = h !! k.
Proof.
  intros Hk. rewrite outbound_lookup, (bool_decide_eq_false_2 (k ∈ dropped_names h)) by done.
  assert (forall k', k' ∈ CanonicalHeaderKey <$> (hopHeaders ++ client_forwarding) -> k <> k') as Hne.
  { intros k' Hk' ->. by apply Hk, dropped_fixed. }
  rewrite !bool_decide_eq_false_2; [done| | | |];
    first [by apply Hne; apply (bool_decide_unpack _); vm_compute
          |intros Hin; apply (Hne k); [rewrite fmap_app, elem_of_app; by right|done]].
Qed.

Lemma outbound_dropped h k :
  k ∈ dropped_names h -> k ∉ ["Te"; "Connection"; "Upgrade"] -> outbound_header h !! k = None.
Proof.
  intros Hk Hn. rewrite outbound_lookup. case_bool_decide; [done|].
  rewrite !not_elem_of_cons in Hn. destruct Hn as (H1 & H2 & H3 & _).
  rewrite !(bool_decide_eq_false_2 (k = _)) by done. cbn [andb]. by rewrite bool_decide_eq_true_2.
Qed.
