(* ===== verification/Auth.v ===== *)
(** * pkg/proxy/caller.go: API-key authentication *)

From S2P Require Import Prelude GoHttp GoSha256 Store.

Definition APIKeyHeader : string := "X-FinOps-API-Key".

(** The persistence seam: None is an error, ErrInvalidKey or any other. *)
Class CallerStore (S : Type) := { caller_by_key_hash : S -> string -> option Caller }.

#[export] Instance memory_CallerStore : CallerStore MemoryStore :=
  {| caller_by_key_hash := CallerByKeyHash |}.
#[export] Instance keystore_CallerStore : CallerStore KeyStore :=
  {| caller_by_key_hash := KeyStore_CallerByKeyHash |}.

(** HashAPIKey: the lowercase hex SHA-256. *)
Definition HashAPIKey (raw : string) : string := sha256_hex (bytes_of_string raw).

(** subtle.ConstantTimeCompare(a, b) == 1. *)
Definition secureCompare (a b : string) : bool :=
  bool_decide (bytes_of_string a = bytes_of_string b).
Definition dummyHash : string := "0000000000000000000000000000000000000000000000000000000000000000".

(** The Authenticator interface: None is ErrInvalidKey. *)
Definition Authenticator : Type := string -> option Caller.

(** NewAuthenticator and its Authenticate. *)
Definition NewAuthenticator {S} `{CallerStore S} (store : S) : Authenticator :=
  fun rawKey =>
    if String.eqb rawKey "" then None
    else
      let hash := HashAPIKey rawKey in
      match caller_by_key_hash store hash with
      | None => let _ := secureCompare hash dummyHash in None
      | Some c => Some c
      end.

(** The zero Caller, and the authenticator that accepts every request as it. *)
Definition zero_caller : Caller :=
  {| c_ID := ""; c_Name := ""; MonthlyBudgetMicro := 0; DailyBudgetMicro := 0 |}.
Definition Noop : Authenticator := fun _ => Some zero_caller.

(** What reaches the wrapped handler: the request and the caller in its context. *)
Definition CallerFrom (ctx : option Caller) : option Caller := ctx.
Definition WithCaller (ctx : option Caller) (c : Caller) : option Caller := Some c.

Definition unauthorized : Response :=
  json_response StatusUnauthorized (quoted "{'error':{'type':'unauthorized'}}").

(** Middleware: the response it writes itself, or what [next] is called with. *)
Definition Middleware {A} (a : option Authenticator) (refuse : Response -> A)
    (next : Request -> option Caller -> A) (r : Request) : A :=
  let raw := header_Get (ReqHeader r) APIKeyHeader in
  let r := set_header r (header_Del (ReqHeader r) APIKeyHeader) in
  match a with
  | None => next r None
  | Some auth =>
      match auth raw with
      | None => refuse unauthorized
      | Some c => next r (WithCaller None c)
      end
  end.

(** C14. Authentication fails closed and leaks nothing: with a key store, a request gets
    through exactly when its key is non-empty and the store knows the key's SHA-256 hash
    - then the caller carried on is the store's - and in every other case, a failing
    store included, it is answered 401 without calling the handler; the key itself never
    reaches the handler, authenticated or not, and no other header is touched. *)
Theorem authentication_fails_closed {S} `{CallerStore S} (store : option S) r :
  let raw := header_Get (ReqHeader r) APIKeyHeader in
  match Middleware (NewAuthenticator <$> store) inl (fun r ctx => inr (r, ctx)) r with
  | inl resp =>
      Status resp = 401
      /\ exists s, store = Some s /\ (raw = "" \/ caller_by_key_hash s (sha256_hex (bytes_of_string raw)) = None)
  | inr (r', ctx) =>
      header_Get (ReqHeader r') APIKeyHeader = ""
      /\ (forall k, CanonicalHeaderKey k <> "X-Finops-Api-Key" ->
                    header_Get (ReqHeader r') k = header_Get (ReqHeader r) k)
      /\ Body r' = Body r /\ Method r' = Method r /\ Segments r' = Segments r
      /\ match store with
         | None => ctx = None
         | Some s => raw <> "" /\ exists c, ctx = Some c
                     /\ caller_by_key_hash s (sha256_hex (bytes_of_string raw)) = Some c
         end
  end.
Proof.
  assert (forall k, CanonicalHeaderKey k <> "X-Finops-Api-Key" ->
    header_Get (header_Del (ReqHeader r) APIKeyHeader) k = header_Get (ReqHeader r) k) as Hother.
  { intros k Hk. apply header_get_del_ne. intros Heq. by rewrite <- Heq in Hk. }
  unfold Middleware. destruct store as [s|]; cbn [fmap option_fmap option_map].
  - unfold NewAuthenticator, HashAPIKey.
    destruct (String.eqb_spec (header_Get (ReqHeader r) APIKeyHeader) "") as [->|Hne].
    + split; [done|]. exists s. split; [done|]. by left.
    + destruct (caller_by_key_hash s _) as [c|] eqn:Ec.
      * split_and!; try done; [apply header_get_del|]. by exists c.
      * split; [done|]. exists s. split; [done|]. by right.
  - split_and!; try done. apply header_get_del.
Qed.
