(* ===== verification/Handler.v ===== *)
(** * pkg/proxy/handler.go, alerting.go, reverseproxy.go and the onCost half of
    cost_tracking.go: the request path

    A request is served by a computation in the monad [M]: it changes the world - the
    detector, the store behind the log and the ledger, the budget monitor - and emits
    effects, in order, on everything it only talks to.  Every clock reading of the code
    is a field of [times]. *)

From S2P Require Import Prelude GoTime GoUrl GoHttp GoReverseProxy GoSha256 GoJson Detector Store Budget.
From S2P Require Hub Metrics UsageTracking Pricing Auth.
From S2P Require Pipeline.

Import UsageTracking(reqMeta).

(** ** Constants *)

Definition MaxBodyBytes : Z := 10 * 2 ^ 20.
Definition AgentIDHeader : string := "X-FinOps-Agent-Id".
Definition ProjectHeader : string := "X-FinOps-Project".
Definition RetryAfterHeader : string := "Retry-After".

(** emitter.go, PayloadEvent. *)
Record PayloadEvent := {
  pe_AgentID : string;
  pe_KeyID : string;
  pe_Project : string;
  pe_Model : string;
  pe_Fingerprint : string;
  pe_Body : list byte;
  pe_Timestamp : Z
}.

(** ** Effects *)

Inductive effect :=
  | EMark (k : Metrics.mark)                              (* h.metrics *)
  | EEmit (ev : PayloadEvent)                             (* h.emitter.Emit *)
  | ELog (r : RequestRecord)                              (* h.store.LogRequest *)
  | EIncident (i : IncidentInput)                         (* h.incidents.RecordIncident *)
  | ENotify (ev : Event)                                  (* h.notifier.Notify *)
  | EPublish (ev : Hub.LogEvent)                          (* h.hub.Publish *)
  | EForward (out : option Request) (meta : option reqMeta)
      (* h.rp.ServeHTTP, with what it sends; None: its ErrorHandler answers instead *)
  | ERespond (resp : Response).                           (* a response written here *)

(** ** The monad *)

Definition M (W A : Type) : Type := W -> W * list effect * A.

Definition mret {W A} (a : A) : M W A := fun w => (w, [], a).
Definition mthen {W A B} (m : M W A) (k : A -> M W B) : M W B :=
  fun w =>
    let '(w1, es1, a) := m w in
    let '(w2, es2, b) := k a w1 in (w2, es1 ++ es2, b).
Definition tell {W} (e : effect) : M W unit := fun w => (w, [e], tt).
Definition when {W} (b : bool) (m : M W unit) : M W unit := if b then m else mret tt.

Declare Scope handler_scope.
Delimit Scope handler_scope with handler.
Notation "'let!' x ':=' m 'in' k" := (mthen m (fun x => k))
  (at level 200, x pattern, m at level 100, k at level 200) : handler_scope.
Notation "m ;;; k" := (mthen m (fun _ => k)) (at level 199, right associativity) : handler_scope.
Open Scope handler_scope.

(** ** The seams *)

(** The optional PayloadChecker capability of a detector, None when it has none. *)
Class PayloadCapability (D : Type) := {
  payload_checker :
    option (D -> Pipeline.clocks -> AgentID -> Fingerprint -> list byte -> D * CheckResult)
}.

(** Every clock reading of one request. *)
Record times := {
  t_gate : Z;
  t_exceeded : Z;
  t_emit : Z;
  t_check : Pipeline.clocks;
  t_mark : Z;
  t_trigger : Z;
  t_row : Z;
  t_event : Z;
  t_live : Z;
  t_start : Z
}.

(** Every clock reading of one onCost call. *)
Record cost_times := {
  o_since : Z;
  o_mark : Z;
  o_row : Z;
  o_day : Z;
  o_spend : Z;
  o_live : Z;
  o_alert : Z
}.

(** The handler: which seams are wired. [notifier] is the loop-alert gate of the notifier
    when it has one; [costThreshold] is what the reader answers. *)
Record handler (P : Type) := {
  upstream : url;
  price : option P;
  store : bool;
  ledger : bool;
  incidents : bool;
  notifier : option (option bool);
  budget : bool;
  auth : option Auth.Authenticator;
  hub : bool;
  costThreshold : option Z;
  emitter : bool;
  metrics : bool
}.
Arguments upstream {P} _.
Arguments price {P} _.
Arguments store {P} _.
Arguments ledger {P} _.
Arguments incidents {P} _.
Arguments notifier {P} _.
Arguments budget {P} _.
Arguments auth {P} _.
Arguments hub {P} _.
Arguments costThreshold {P} _.
Arguments emitter {P} _.
Arguments metrics {P} _.

(** ** Construction

    The handler before the options, and the options: each wires one seam. *)

Definition new_handler {P} (u : url) (p : option P) : handler P :=
  {| upstream := u; price := p; store := false; ledger := false; incidents := false; notifier := None;
     budget := false; auth := None; hub := false; costThreshold := None; emitter := false;
     metrics := false |}.
Definition WithNotifier {P} (n : option (option bool)) (h : handler P) : handler P :=
  {| upstream := upstream h; price := price h; store := store h; ledger := ledger h; incidents := incidents h;
  notifier := n; budget := budget h; auth := auth h; hub := hub h; costThreshold :=
  costThreshold h; emitter := emitter h; metrics := metrics h |}.
Definition WithBudgetSpender {P} (b : bool) (h : handler P) : handler P :=
  {| upstream := upstream h; price := price h; store := store h; ledger := ledger h; incidents := incidents h;
  notifier := notifier h; budget := b; auth := auth h; hub := hub h; costThreshold :=
  costThreshold h; emitter := emitter h; metrics := metrics h |}.
Definition WithAuth {P} (a : option Auth.Authenticator) (h : handler P) : handler P :=
  {| upstream := upstream h; price := price h; store := store h; ledger := ledger h; incidents := incidents h;
  notifier := notifier h; budget := budget h; auth := a; hub := hub h; costThreshold :=
  costThreshold h; emitter := emitter h; metrics := metrics h |}.
(** [incident_capable]: whether the store also is an IncidentRecorder. *)
Definition WithStore {P} (incident_capable : bool) (h : handler P) : handler P :=
  {| upstream := upstream h; price := price h; store := true; ledger := true; incidents := incident_capable ||
  incidents h; notifier := notifier h; budget := budget h; auth := auth h; hub := hub h;
  costThreshold := costThreshold h; emitter := emitter h; metrics := metrics h |}.
Definition WithRequestLogStore {P} (s : bool) (h : handler P) : handler P :=
  {| upstream := upstream h; price := price h; store := s; ledger := ledger h; incidents := incidents h; notifier :=
  notifier h; budget := budget h; auth := auth h; hub := hub h; costThreshold := costThreshold
  h; emitter := emitter h; metrics := metrics h |}.
Definition WithBudgetLedger {P} (l : bool) (h : handler P) : handler P :=
  {| upstream := upstream h; price := price h; store := store h; ledger := l; incidents := incidents h; notifier :=
  notifier h; budget := budget h; auth := auth h; hub := hub h; costThreshold := costThreshold
  h; emitter := emitter h; metrics := metrics h |}.
Definition WithIncidentRecorder {P} (i : bool) (h : handler P) : handler P :=
  {| upstream := upstream h; price := price h; store := store h; ledger := ledger h; incidents := i; notifier :=
  notifier h; budget := budget h; auth := auth h; hub := hub h; costThreshold := costThreshold
  h; emitter := emitter h; metrics := metrics h |}.
Definition WithLogStream {P} (b : bool) (h : handler P) : handler P :=
  {| upstream := upstream h; price := price h; store := store h; ledger := ledger h; incidents := incidents h;
  notifier := notifier h; budget := budget h; auth := auth h; hub := b; costThreshold :=
  costThreshold h; emitter := emitter h; metrics := metrics h |}.
Definition WithCostThreshold {P} (c : option Z) (h : handler P) : handler P :=
  {| upstream := upstream h; price := price h; store := store h; ledger := ledger h; incidents := incidents h;
  notifier := notifier h; budget := budget h; auth := auth h; hub := hub h; costThreshold :=
  c; emitter := emitter h; metrics := metrics h |}.
Definition WithEmitter {P} (e : bool) (h : handler P) : handler P :=
  {| upstream := upstream h; price := price h; store := store h; ledger := ledger h; incidents := incidents h;
  notifier := notifier h; budget := budget h; auth := auth h; hub := hub h; costThreshold :=
  costThreshold h; emitter := e; metrics := metrics h |}.
Definition WithMetrics {P} (m : bool) (h : handler P) : handler P :=
  {| upstream := upstream h; price := price h; store := store h; ledger := ledger h; incidents := incidents h;
  notifier := notifier h; budget := budget h; auth := auth h; hub := hub h; costThreshold :=
  costThreshold h; emitter := emitter h; metrics := m |}.

(** NewHandler's handler: the options applied in order. *)
Definition NewHandler {P} (u : url) (p : option P) (opts : list (handler P -> handler P)) : handler P :=
  foldl (fun h opt => opt h) (new_handler u p) opts.

(** What the seams with state hold: the detector, the store (the request log and the
    ledger), the budget spender. *)
Record world (D S B : Type) := { w_det : D; w_store : S; w_budget : B }.
Arguments w_det {D S B} _.
Arguments w_store {D S B} _.
Arguments w_budget {D S B} _.
Arguments Build_world {D S B} _ _ _.

Section Handler.
Context {D S B P : Type}.
Context `{Detector D, PayloadCapability D, RequestLogStore S, BudgetLedger S, BudgetSpender B,
          Pricing.PriceSource P}.
Abbreviation MW := (M (world D S B)).

Implicit Type h : handler P.

(** ** alerting.go and logstream.go *)

Definition emit (h : handler P) (ev : Event) : MW unit :=
  match notifier h with Some _ => tell (ENotify ev) | None => mret tt end.

Definition loopAlertsEnabled (h : handler P) : bool :=
  match notifier h with
  | None => false
  | Some (Some enabled) => enabled
  | Some None => true
  end.

Definition publishLog (h : handler P) (ev : Hub.LogEvent) : MW unit :=
  when (hub h) (tell (EPublish ev)).

Definition mark (h : handler P) (k : Metrics.mark) : MW unit := when (metrics h) (tell (EMark k)).

(** h.store.LogRequest, its error ignored. *)
Definition log_request (r : RequestRecord) : MW unit :=
  fun w => (Build_world (w_det w) (LogRequest (w_store w) r).1 (w_budget w), [ELog r], tt).

(** The live event mirroring a budget_level notification. *)
Definition budget_level_log (ev : Event) : Hub.LogEvent :=
  {| Hub.le_Type := Hub.TypeBudgetLevel; Hub.le_Level := "warn";
     Hub.le_Timestamp := ev_Timestamp ev; Hub.le_TenantID := ""; Hub.le_TenantName := "";
     Hub.le_AgentID := ""; Hub.le_Model := ""; Hub.le_ProjectName := "";
     Hub.le_PromptTokens := 0; Hub.le_CompletionTokens := 0; Hub.le_CostMicroUSD := 0;
     Hub.le_SavedCostMicroUSD := 0; Hub.le_BudgetMicroUSD := ev_BudgetMicroUSD ev;
     Hub.le_SpentMicroUSD := ev_SpentMicroUSD ev; Hub.le_MonthlyBudgetMicro := 0;
     Hub.le_StatusCode := 0; Hub.le_FirstBlock := false;
     Hub.le_Reason := "daily budget level crossed"; Hub.le_RetryAfter := 0;
     Hub.le_ThresholdPct := ev_ThresholdPct ev; Hub.le_DroppedEvents := 0 |}.

(** The callback checkBudget gives Spend, on each event offered, in order: it notifies,
    mirrors the event on the live log, and takes it. *)
Fixpoint deliver_levels (h : handler P) (evs : list Event) : MW unit :=
  match evs with
  | [] => mret tt
  | ev :: evs' => tell (ENotify ev) ;;; publishLog h (budget_level_log ev) ;;; deliver_levels h evs'
  end.

Definition spend_budget (spent now : Z) : MW (list Event) :=
  fun w =>
    let '(b, evs) := spend (w_budget w) spent now (fun _ => true) in
    (Build_world (w_det w) (w_store w) b, [], evs).

Definition ledger_sum (since : Z) : MW (option Z) :=
  fun w => (w, [], SumActualCostSince (w_store w) since).
Definition ledger_key_sum (key : string) (since : Z) : MW (option Z) :=
  fun w => (w, [], SumActualCostForKeySince (w_store w) key since).

Definition checkBudget (h : handler P) (t : cost_times) : MW unit :=
  if bool_decide (notifier h = None) || negb (budget h) || negb (ledger h) then mret tt
  else
    let start := utcDayStart (o_day t) in
    let! spent := ledger_sum start in
    match spent with
    | None => mret tt
    | Some spent =>
        let! evs := spend_budget spent (o_spend t) in
        deliver_levels h evs
    end.

(** ** Answers *)

(** A 429 with its Retry-After. *)
Definition too_many (retryAfter : string) (body : string) : Response :=
  {| Status := StatusTooManyRequests;
     RespHeader := header_Set (header_Set ∅ "Content-Type" "application/json")
                     RetryAfterHeader retryAfter;
     RespBody := body |}.

Definition callerID (ctx : option Caller) : string :=
  match Auth.CallerFrom ctx with Some c => c_ID c | None => "" end.

Definition writeBudgetExceeded (h : handler P) (t : times) (c : Caller) (spent retryAfter : Z)
    (reason : string) : MW unit :=
  let retryAfter := if retryAfter <? 1 then 1 else retryAfter in
  publishLog h
    {| Hub.le_Type := Hub.TypeBudgetExceeded; Hub.le_Level := "error";
       Hub.le_Timestamp := time_unix (t_exceeded t); Hub.le_TenantID := c_ID c;
       Hub.le_TenantName := c_Name c; Hub.le_AgentID := ""; Hub.le_Model := "";
       Hub.le_ProjectName := ""; Hub.le_PromptTokens := 0; Hub.le_CompletionTokens := 0;
       Hub.le_CostMicroUSD := 0; Hub.le_SavedCostMicroUSD := 0; Hub.le_BudgetMicroUSD := 0;
       Hub.le_SpentMicroUSD := spent; Hub.le_MonthlyBudgetMicro := Store.MonthlyBudgetMicro c;
       Hub.le_StatusCode := StatusTooManyRequests; Hub.le_FirstBlock := false;
       Hub.le_Reason := reason; Hub.le_RetryAfter := retryAfter; Hub.le_ThresholdPct := 0;
       Hub.le_DroppedEvents := 0 |} ;;;
  tell (ERespond (too_many (itoa retryAfter)
    (quoted "{'error':{'type':'budget_exceeded','message':'" +:+ reason
     +:+ quoted "','code':'budget_exceeded','retry_after':" +:+ itoa retryAfter +:+ "}}"))).

(** One dimension of the budget gate: whether it answered the request. *)
Definition gate_dimension (h : handler P) (t : times) (c : Caller) (limit since retryAfter : Z)
    (reason : string) : MW bool :=
  if 0 <? limit then
    let! spent := ledger_key_sum (c_ID c) since in
    match spent with
    | None => mret false
    | Some spent =>
        if limit <=? spent then writeBudgetExceeded h t c spent retryAfter reason ;;; mret true
        else mret false
    end
  else mret false.

Definition budget_gate (h : handler P) (t : times) (ctx : option Caller) : MW bool :=
  match (if ledger h then Auth.CallerFrom ctx else None) with
  | None => mret false
  | Some c =>
      let now := t_gate t in
      let! stopped := gate_dimension h t c (Store.MonthlyBudgetMicro c) (utcMonthStart now)
                        (nextMonthStart now - time_unix now) "Monthly budget exceeded" in
      if stopped then mret true
      else gate_dimension h t c (Store.DailyBudgetMicro c) (utcDayStart now)
             (nextDayStart now - time_unix now) "Daily budget exceeded"
  end.

(** ** reverseproxy.go *)

(** The Rewrite function: the target's URL, the forwarding headers, and the internal headers
    deleted. *)
Definition Rewrite (upstream : url) (r_in out : Request) : Request :=
  let out := SetXForwarded r_in (SetURL upstream out) in
  set_header out
    (header_Del (header_Del (header_Del (ReqHeader out) AgentIDHeader) ProjectHeader) Auth.APIKeyHeader).

(** What the reverse proxy sends for a request, None when it answers an upgrade to an
    unprintable protocol with its ErrorHandler. *)
Definition outgoing (h : handler P) (r : Request) : option Request := outreq (Rewrite (upstream h)) r.

(** h.rp.ServeHTTP. *)
Definition forward (h : handler P) (r : Request) (meta : option reqMeta) : MW unit :=
  tell (EForward (outgoing h r) meta).

(** ErrorHandler, on an upstream failure with that error text. *)
Definition upstream_error (err : string) : Response :=
  json_response StatusBadGateway
    (quoted "{'error':{'type':'upstream_unreachable','message':'" +:+ err +:+ quoted "'}}").

(** ** ServeHTTP *)

Definition respond (resp : Response) : MW unit := tell (ERespond resp).

Definition too_large : Response :=
  json_response StatusRequestEntityTooLarge (quoted "{'error':{'type':'request_too_large'}}").

(** Prefer CheckPayload when the detector has it; exactly one of the two runs. *)
Definition consult (t : times) (agent : AgentID) (fp : Fingerprint) (body : list byte) :
    MW CheckResult :=
  fun w =>
    let '(d, res) :=
      match payload_checker with
      | Some check => check (w_det w) (t_check t) agent fp body
      | None => det_check (w_det w) (Pipeline.c_exact (t_check t)) agent fp
      end in
    (Build_world d (w_store w) (w_budget w), [], res).

(** The parts of a blocked request's report. *)
Definition saved_cost (h : handler P) (body : list byte) : Z :=
  match price h with Some p => Pricing.ps_SavedCost p body | None => 0 end.
Definition prompt_tokens (h : handler P) (body : list byte) : Z :=
  match price h with Some p => Pricing.ps_EstimatePromptTokens p body | None => 0 end.

Definition blocked_row (h : handler P) (p : P) (t : times) (r : Request) (ctx : option Caller)
    (agent : AgentID) (body : list byte) : RequestRecord :=
  {| r_AgentID := agent; r_KeyID := callerID ctx; r_ProjectName := header_Get (ReqHeader r) ProjectHeader;
     r_Model := Pricing.ExtractModel body; r_PromptTokens := Pricing.ps_EstimatePromptTokens p body;
     r_CompletionTokens := Pricing.ps_AssumedCompletionTokens p; r_CostUSD := saved_cost h body;
     r_IsLoopBlocked := true; r_Timestamp := time_unix (t_row t) |}.

Definition blocked_incident (h : handler P) (r : Request) (ctx : option Caller)
    (agent : AgentID) (fp : Fingerprint) (body : list byte) : IncidentInput :=
  {| i_AgentID := agent; i_KeyID := callerID ctx;
     i_ProjectName := header_Get (ReqHeader r) ProjectHeader; i_Model := Pricing.ExtractModel body;
     i_Fingerprint := fp; i_CostMicro := saved_cost h body |}.

Definition blocked_event (h : handler P) (t : times) (r : Request) (agent : AgentID)
    (res : CheckResult) (body : list byte) : Event :=
  {| ev_Type := EventLoopBlocked; ev_Timestamp := time_unix (t_event t); ev_AgentID := agent;
     ev_Project := header_Get (ReqHeader r) ProjectHeader;
     ev_Model := (match price h with Some _ => Pricing.ExtractModel body | None => "" end);
     ev_SavedCostMicro := (match price h with Some _ => saved_cost h body | None => 0 end);
     ev_Reason := Reason res; ev_RetryAfter := RetryAfter res; ev_BudgetMicroUSD := 0;
     ev_SpentMicroUSD := 0; ev_ThresholdPct := 0; ev_Similarity := GoFloat.f64_zero;
     ev_IntentScore := GoFloat.f64_zero; ev_QuotaKind := ""; ev_QuotaID := "" |}.

Definition blocked_log (h : handler P) (t : times) (r : Request) (ctx : option Caller)
    (agent : AgentID) (res : CheckResult) (body : list byte) : Hub.LogEvent :=
  {| Hub.le_Type := Hub.TypeLoopBlocked; Hub.le_Level := "warn";
     Hub.le_Timestamp := time_unix (t_live t); Hub.le_TenantID := callerID ctx;
     Hub.le_TenantName := ""; Hub.le_AgentID := agent; Hub.le_Model := Pricing.ExtractModel body;
     Hub.le_ProjectName := header_Get (ReqHeader r) ProjectHeader; Hub.le_PromptTokens := 0;
     Hub.le_CompletionTokens := 0; Hub.le_CostMicroUSD := 0;
     Hub.le_SavedCostMicroUSD := saved_cost h body; Hub.le_BudgetMicroUSD := 0;
     Hub.le_SpentMicroUSD := 0; Hub.le_MonthlyBudgetMicro := 0;
     Hub.le_StatusCode := StatusTooManyRequests; Hub.le_FirstBlock := FirstBlock res;
     Hub.le_Reason := Reason res; Hub.le_RetryAfter := RetryAfter res; Hub.le_ThresholdPct := 0;
     Hub.le_DroppedEvents := 0 |}.

Definition blocked_response (res : CheckResult) : Response :=
  too_many (itoa (RetryAfter res))
    (quoted "{'error':{'type':'agent_loop_exception','message':'" +:+ Reason res
     +:+ quoted "','code':'agent_loop_exception','retry_after':" +:+ itoa (RetryAfter res) +:+ "}}").

(** The block branch of (e). *)
Definition report_block (h : handler P) (t : times) (r : Request) (ctx : option Caller)
    (agent : AgentID) (fp : Fingerprint) (body : list byte) (res : CheckResult) : MW unit :=
  let costMicro := saved_cost h body in
  mark h (Metrics.MLoopBlocked (t_mark t) costMicro (prompt_tokens h body)) ;;;
  mark h (Metrics.MTrigger
    {| Metrics.te_Timestamp := time_unix (t_trigger t); Metrics.te_AgentID := agent;
       Metrics.te_Model := Pricing.ExtractModel body; Metrics.te_Reason := Reason res;
       Metrics.te_SavedMicro := costMicro |}) ;;;
  match price h with
  | Some p => when (store h) (log_request (blocked_row h p t r ctx agent body))
  | None => mret tt
  end ;;;
  when (incidents h) (tell (EIncident (blocked_incident h r ctx agent fp body))) ;;;
  when (FirstBlock res && loopAlertsEnabled h) (emit h (blocked_event h t r agent res body)) ;;;
  publishLog h (blocked_log h t r ctx agent res body) ;;;
  respond (blocked_response res).

(** The metadata stashed for the response, when cost recording is wired. *)
Definition request_meta (h : handler P) (t : times) (r : Request) (ctx : option Caller)
    (agent : AgentID) (fp : Fingerprint) (body : list byte) : option reqMeta :=
  match price h with
  | Some p =>
      if store h then
        Some {| UsageTracking.model := Pricing.ExtractModel body;
                UsageTracking.promptTok := Pricing.ps_EstimatePromptTokens p body;
                UsageTracking.agent := agent; UsageTracking.fp := fp;
                UsageTracking.projectName := header_Get (ReqHeader r) ProjectHeader;
                UsageTracking.callerID := callerID ctx; UsageTracking.statusCode := 0;
                UsageTracking.trackCost := true; UsageTracking.start := t_start t |}
      else None
  | None => None
  end.

(** The request with its body rewound. *)
Definition rewind (r : Request) (body : list byte) : Request :=
  {| Method := Method r; URL := URL r; Host := Host r; ClientIP := ClientIP r; TLS := TLS r;
     Segments := Segments r; ReqHeader := ReqHeader r;
     ContentLength := Z.of_nat (length body); Body := body; BodyErr := false |}.

(** From (d) on: the request whose body was read. *)
Definition serve_body (h : handler P) (t : times) (r : Request) (ctx : option Caller)
    (body : list byte) : MW unit :=
  let agent := header_Get (ReqHeader r) AgentIDHeader in
  let fp := sha256_hex body in
  when (emitter h) (tell (EEmit
    {| pe_AgentID := agent; pe_KeyID := callerID ctx;
       pe_Project := header_Get (ReqHeader r) ProjectHeader; pe_Model := Pricing.ExtractModel body;
       pe_Fingerprint := fp; pe_Body := body; pe_Timestamp := time_unix (t_emit t) |})) ;;;
  let! res := consult t agent fp body in
  if Block res then report_block h t r ctx agent fp body res
  else forward h (rewind r body) (request_meta h t r ctx agent fp body).

(** The body of ServeHTTP between markStart and the deferred markDone. *)
Definition serve (h : handler P) (t : times) (r : Request) (ctx : option Caller) : MW unit :=
  if negb (String.eqb (Method r) "POST") || (ContentLength r =? 0) then forward h r None
  else
    let! stopped := budget_gate h t ctx in
    if stopped then mret tt
    else if MaxBodyBytes <? ContentLength r then forward h r None
    else
      match read_limited r MaxBodyBytes with
      | None => respond too_large
      | Some body => serve_body h t r ctx body
      end.

Definition ServeHTTP (h : handler P) (t : times) (r : Request) (ctx : option Caller) : MW unit :=
  mark h Metrics.MStart ;;; serve h t r ctx ;;; mark h Metrics.MDone.

(** ** The routes *)

Definition handleDeleteHistory (id : string) : MW unit :=
  (fun w => (Build_world (det_reset (w_det w) id).1 (w_store w) (w_budget w), [], tt)) ;;;
  respond {| Status := StatusNoContent; RespHeader := ∅; RespBody := "" |}.

(** The mux: DELETE /v1/agent/{id}/history, and the handler for everything else. *)
Definition mux (h : handler P) (t : times) (r : Request) (ctx : option Caller) : MW unit :=
  match Segments r with
  | [v1; agent; id; history] =>
      if String.eqb (Method r) "DELETE" && String.eqb v1 "v1" && String.eqb agent "agent"
         && String.eqb history "history" && negb (String.eqb id "")
      then handleDeleteHistory id else ServeHTTP h t r ctx
  | _ => ServeHTTP h t r ctx
  end.

(** What NewHandler returns, serving one request. *)
Definition handle (h : handler P) (t : times) (r : Request) : MW unit :=
  match auth h with
  | Some a => Auth.Middleware (Some a) respond (mux h t) r
  | None => mux h t r None
  end.

(** ** The response *)

(** modifyResponse: the observer it installs. *)
Definition modifyResponse (meta : option reqMeta) (status : Z) (contentType : string) :
    option UsageTracking.usageTrackingBody :=
  match meta with
  | Some m =>
      if UsageTracking.trackCost m then
        Some (UsageTracking.new_body
          {| UsageTracking.model := UsageTracking.model m;
             UsageTracking.promptTok := UsageTracking.promptTok m;
             UsageTracking.agent := UsageTracking.agent m; UsageTracking.fp := UsageTracking.fp m;
             UsageTracking.projectName := UsageTracking.projectName m;
             UsageTracking.callerID := UsageTracking.callerID m;
             UsageTracking.statusCode := status; UsageTracking.trackCost := UsageTracking.trackCost m;
             UsageTracking.start := UsageTracking.start m |}
          (UsageTracking.is_event_stream contentType))
      else None
  | None => None
  end.

Definition completion_row (t : cost_times) (m : reqMeta) (p c cost : Z) : RequestRecord :=
  {| r_AgentID := UsageTracking.agent m; r_KeyID := UsageTracking.callerID m;
     r_ProjectName := UsageTracking.projectName m; r_Model := UsageTracking.model m;
     r_PromptTokens := p; r_CompletionTokens := c; r_CostUSD := cost; r_IsLoopBlocked := false;
     r_Timestamp := time_unix (o_row t) |}.

Definition completion_log (ty level : string) (now : Z) (m : reqMeta) (p c cost : Z) : Hub.LogEvent :=
  {| Hub.le_Type := ty; Hub.le_Level := level; Hub.le_Timestamp := time_unix now;
     Hub.le_TenantID := UsageTracking.callerID m; Hub.le_TenantName := "";
     Hub.le_AgentID := UsageTracking.agent m; Hub.le_Model := UsageTracking.model m;
     Hub.le_ProjectName := UsageTracking.projectName m; Hub.le_PromptTokens := p;
     Hub.le_CompletionTokens := c; Hub.le_CostMicroUSD := cost; Hub.le_SavedCostMicroUSD := 0;
     Hub.le_BudgetMicroUSD := 0; Hub.le_SpentMicroUSD := 0; Hub.le_MonthlyBudgetMicro := 0;
     Hub.le_StatusCode := UsageTracking.statusCode m; Hub.le_FirstBlock := false;
     Hub.le_Reason := ""; Hub.le_RetryAfter := 0; Hub.le_ThresholdPct := 0;
     Hub.le_DroppedEvents := 0 |}.

Definition onCost (h : handler P) (t : cost_times) (m : reqMeta) (promptTok completionTok : Z) :
    MW unit :=
  mark h (Metrics.MForwarded (o_mark t) (time_sub (o_since t) (UsageTracking.start m))
            promptTok completionTok) ;;;
  match price h with
  | Some p =>
      if store h then
        let cost := Pricing.Cost (Pricing.ps_PriceFor p (UsageTracking.model m)).1
                      promptTok completionTok in
        log_request (completion_row t m promptTok completionTok cost) ;;;
        checkBudget h t ;;;
        publishLog h (completion_log Hub.TypeRequestComplete "info" (o_live t) m
                        promptTok completionTok cost) ;;;
        match costThreshold h with
        | Some thr =>
            when ((0 <? thr) && (thr <=? cost))
              (publishLog h (completion_log Hub.TypeCostAlert "warn" (o_alert t) m 0 0 cost))
        | None => mret tt
        end
      else mret tt
  | None => mret tt
  end.
End Handler.

(** ** Views of a trace *)

Definition forwards (es : list effect) : list (option Request * option reqMeta) :=
  omap (fun e => match e with EForward o m => Some (o, m) | _ => None end) es.
Definition responses (es : list effect) : list Response :=
  omap (fun e => match e with ERespond r => Some r | _ => None end) es.
Definition logged (es : list effect) : list RequestRecord :=
  omap (fun e => match e with ELog r => Some r | _ => None end) es.
Definition notified (es : list effect) : list Event :=
  omap (fun e => match e with ENotify ev => Some ev | _ => None end) es.
Definition streamed (es : list effect) : list Hub.LogEvent :=
  omap (fun e => match e with EPublish ev => Some ev | _ => None end) es.
Definition incidents_of (es : list effect) : list IncidentInput :=
  omap (fun e => match e with EIncident i => Some i | _ => None end) es.
Definition marks_of (es : list effect) : list Metrics.mark :=
  omap (fun e => match e with EMark k => Some k | _ => None end) es.

(** Present when [b]. *)
Definition opt {A} (b : bool) (a : A) : list A := if b then [a] else [].

Section Properties.
Context {D S B P : Type}.
Context `{Detector D, PayloadCapability D, RequestLogStore S, BudgetLedger S, BudgetSpender B,
          Pricing.PriceSource P}.
Implicit Type (h : handler P) (w : world D S B) (t : times) (r : Request) (ctx : option Caller).

(** ** The specification of the request flow *)

(** What the budget gate finds: the spend, the seconds to the window's end, the reason. *)
Definition over (w : world D S B) (c : Caller) (limit since retryAfter : Z) (reason : string) :
    option (Z * Z * string) :=
  if 0 <? limit then
    match SumActualCostForKeySince (w_store w) (c_ID c) since with
    | Some spent => if limit <=? spent then Some (spent, retryAfter, reason) else None
    | None => None
    end
  else None.

Definition exhausted h (w : world D S B) ctx (now : Z) : option (Caller * (Z * Z * string)) :=
  if ledger h then
    match ctx with
    | None => None
    | Some c =>
        match over w c (Store.MonthlyBudgetMicro c) (utcMonthStart now)
                (nextMonthStart now - time_unix now) "Monthly budget exceeded" with
        | Some v => Some (c, v)
        | None =>
            match over w c (Store.DailyBudgetMicro c) (utcDayStart now)
                    (nextDayStart now - time_unix now) "Daily budget exceeded" with
            | Some v => Some (c, v)
            | None => None
            end
        end
    end
  else None.

(** Where a request ends. *)
Inductive verdict :=
  | Untouched                        (* forwarded without being read *)
  | BudgetExceeded (c : Caller) (spent retryAfter : Z) (reason : string)
  | TooLarge
  | Blocked (body : list byte) (res : CheckResult)
  | Passed (body : list byte).

(** The detector's answer and its state after. *)
Definition checked (w : world D S B) t r (body : list byte) : D * CheckResult :=
  match payload_checker with
  | Some check => check (w_det w) (t_check t) (header_Get (ReqHeader r) AgentIDHeader)
                    (sha256_hex body) body
  | None => det_check (w_det w) (Pipeline.c_exact (t_check t))
              (header_Get (ReqHeader r) AgentIDHeader) (sha256_hex body)
  end.

Definition classify h w t r ctx : verdict :=
  if negb (String.eqb (Method r) "POST") || (ContentLength r =? 0) then Untouched
  else
    match exhausted h w ctx (t_gate t) with
    | Some (c, (spent, retryAfter, reason)) => BudgetExceeded c spent retryAfter reason
    | None =>
        if MaxBodyBytes <? ContentLength r then Untouched
        else
          match read_limited r MaxBodyBytes with
          | None => TooLarge
          | Some body =>
              let res := (checked w t r body).2 in
              if Block res then Blocked body res else Passed body
          end
    end.

(** ** Running the parts *)

Lemma when_run {W} (b : bool) (m : M W unit) (w : W) : when b m w = if b then m w else (w, [], tt).
Proof. by destruct b. Qed.

Lemma publish_run h ev w : publishLog h ev w = (w, opt (hub h) (EPublish ev), tt).
Proof. unfold publishLog. by destruct (hub h). Qed.

Lemma mark_run h k w : mark h k w = (w, opt (metrics h) (EMark k), tt).
Proof. unfold mark. by destruct (metrics h). Qed.

Lemma emit_run h ev w : emit h ev w = (w, opt (bool_decide (is_Some (notifier h))) (ENotify ev), tt).
Proof. unfold emit. by destruct (notifier h). Qed.

(** The answer of an exhausted budget. *)
Definition exceeded_response (retryAfter : Z) (reason : string) : Response :=
  too_many (itoa (Z.max 1 retryAfter))
    (quoted "{'error':{'type':'budget_exceeded','message':'" +:+ reason
     +:+ quoted "','code':'budget_exceeded','retry_after':" +:+ itoa (Z.max 1 retryAfter) +:+ "}}").

Definition exceeded_effects h t (c : Caller) (spent retryAfter : Z) (reason : string) : list effect :=
  opt (hub h) (EPublish
    {| Hub.le_Type := Hub.TypeBudgetExceeded; Hub.le_Level := "error";
       Hub.le_Timestamp := time_unix (t_exceeded t); Hub.le_TenantID := c_ID c;
       Hub.le_TenantName := c_Name c; Hub.le_AgentID := ""; Hub.le_Model := "";
       Hub.le_ProjectName := ""; Hub.le_PromptTokens := 0; Hub.le_CompletionTokens := 0;
       Hub.le_CostMicroUSD := 0; Hub.le_SavedCostMicroUSD := 0; Hub.le_BudgetMicroUSD := 0;
       Hub.le_SpentMicroUSD := spent; Hub.le_MonthlyBudgetMicro := Store.MonthlyBudgetMicro c;
       Hub.le_StatusCode := 429; Hub.le_FirstBlock := false; Hub.le_Reason := reason;
       Hub.le_RetryAfter := Z.max 1 retryAfter; Hub.le_ThresholdPct := 0;
       Hub.le_DroppedEvents := 0 |})
  ++ [ERespond (exceeded_response retryAfter reason)].

Lemma exceeded_run h t c spent retryAfter reason w :
  writeBudgetExceeded h t c spent retryAfter reason w
  = (w, exceeded_effects h t c spent retryAfter reason, tt).
Proof.
  unfold writeBudgetExceeded, mthen, exceeded_effects, exceeded_response.
  replace (if retryAfter <? 1 then 1 else retryAfter) with (Z.max 1 retryAfter)
    by (zcase (retryAfter <? 1); lia).
  by rewrite publish_run.
Qed.

Lemma dimension_run h t c limit since retryAfter reason w :
  gate_dimension h t c limit since retryAfter reason w
  = match over w c limit since retryAfter reason with
    | Some (spent, ra, rs) => (w, exceeded_effects h t c spent ra rs, true)
    | None => (w, [], false)
    end.
Proof.
  unfold gate_dimension, over, ledger_key_sum, mthen. destruct (0 <? limit); [|done]. cbn.
  destruct (SumActualCostForKeySince (w_store w) (c_ID c) since) as [spent|]; [|done].
  destruct (limit <=? spent); [|done]. rewrite exceeded_run. unfold mret. by rewrite app_nil_r.
Qed.

Lemma gate_run h t ctx w :
  budget_gate h t ctx w
  = match exhausted h w ctx (t_gate t) with
    | None => (w, [], false)
    | Some (c, (spent, ra, rs)) => (w, exceeded_effects h t c spent ra rs, true)
    end.
Proof.
  unfold budget_gate, exhausted, mthen, Auth.CallerFrom. destruct (ledger h); [|done].
  destruct ctx as [c|]; [|done]. rewrite dimension_run.
  destruct (over w c _ _ _ "Monthly budget exceeded") as [[[sp ra] rs]|].
  - unfold mret. by rewrite app_nil_r.
  - rewrite dimension_run. by destruct (over w c _ _ _ _) as [[[sp ra] rs]|].
Qed.

(** What a blocked request reports, in order. *)
Definition block_effects h t r ctx (body : list byte) (res : CheckResult) : list effect :=
  let agent := header_Get (ReqHeader r) AgentIDHeader in
  opt (metrics h) (EMark (Metrics.MLoopBlocked (t_mark t) (saved_cost h body) (prompt_tokens h body)))
  ++ opt (metrics h) (EMark (Metrics.MTrigger
       {| Metrics.te_Timestamp := time_unix (t_trigger t); Metrics.te_AgentID := agent;
          Metrics.te_Model := Pricing.ExtractModel body; Metrics.te_Reason := Reason res;
          Metrics.te_SavedMicro := saved_cost h body |}))
  ++ match price h with
     | Some p => opt (store h) (ELog (blocked_row h p t r ctx agent body))
     | None => []
     end
  ++ opt (incidents h) (EIncident (blocked_incident h r ctx agent (sha256_hex body) body))
  ++ opt (FirstBlock res && loopAlertsEnabled h) (ENotify (blocked_event h t r agent res body))
  ++ opt (hub h) (EPublish (blocked_log h t r ctx agent res body))
  ++ [ERespond (blocked_response res)].

(** The store after a blocked request. *)
Definition block_store h t r ctx (body : list byte) (s : S) : S :=
  match price h with
  | Some p => if store h then
      (LogRequest s (blocked_row h p t r ctx (header_Get (ReqHeader r) AgentIDHeader) body)).1 else s
  | None => s
  end.

Lemma mthen_step {W A A'} (m : M W A) (k : A -> M W A') (w w1 : W) es1 a :
  m w = (w1, es1, a) ->
  mthen m k w = (let '(w2, es2, b) := k a w1 in (w2, es1 ++ es2, b)).
Proof. unfold mthen. by intros ->. Qed.

Lemma when_tell_run b e w : when b (tell e) w = (w, opt b e, tt).
Proof. by destruct b. Qed.

Lemma block_log_run h t r ctx body w :
  match price h with
  | Some p => when (store h)
      (log_request (blocked_row h p t r ctx (header_Get (ReqHeader r) AgentIDHeader) body))
  | None => mret tt
  end w
  = (Build_world (w_det w) (block_store h t r ctx body (w_store w)) (w_budget w),
     match price h with
     | Some p => opt (store h)
         (ELog (blocked_row h p t r ctx (header_Get (ReqHeader r) AgentIDHeader) body))
     | None => []
     end, tt).
Proof. unfold block_store. destruct w, (price h); [by destruct (store h)|done]. Qed.

Lemma block_notify_run h (first : bool) ev w :
  when (first && loopAlertsEnabled h) (emit h ev) w
  = (w, opt (first && loopAlertsEnabled h) (ENotify ev), tt).
Proof.
  destruct first; [|done]. unfold loopAlertsEnabled, emit. destruct (notifier h) as [[[]|]|]; done.
Qed.

Lemma report_block_run h t r ctx body res w :
  report_block h t r ctx (header_Get (ReqHeader r) AgentIDHeader) (sha256_hex body) body res w
  = (Build_world (w_det w) (block_store h t r ctx body (w_store w)) (w_budget w),
     block_effects h t r ctx body res, tt).
Proof.
  unfold report_block, block_effects.
  rewrite (mthen_step _ _ _ _ _ _ (mark_run _ _ _)), (mthen_step _ _ _ _ _ _ (mark_run _ _ _)),
    (mthen_step _ _ _ _ _ _ (block_log_run _ _ _ _ _ _)),
    (mthen_step _ _ _ _ _ _ (when_tell_run _ _ _)),
    (mthen_step _ _ _ _ _ _ (block_notify_run _ _ _ _)),
    (mthen_step _ _ _ _ _ _ (publish_run _ _ _)). reflexivity.
Qed.

(** ** The whole of ServeHTTP *)

(** The payload event of a request whose body was read. *)
Definition payload h t r ctx (body : list byte) : PayloadEvent :=
  {| pe_AgentID := header_Get (ReqHeader r) AgentIDHeader; pe_KeyID := callerID ctx;
     pe_Project := header_Get (ReqHeader r) ProjectHeader; pe_Model := Pricing.ExtractModel body;
     pe_Fingerprint := sha256_hex body; pe_Body := body; pe_Timestamp := time_unix (t_emit t) |}.

(** The effects and the world a request leaves, by its verdict. *)
Definition verdict_effects h t r ctx (v : verdict) : list effect :=
  match v with
  | Untouched => [EForward (outgoing h r) None]
  | BudgetExceeded c spent ra rs => exceeded_effects h t c spent ra rs
  | TooLarge => [ERespond too_large]
  | Blocked body res =>
      opt (emitter h) (EEmit (payload h t r ctx body)) ++ block_effects h t r ctx body res
  | Passed body =>
      opt (emitter h) (EEmit (payload h t r ctx body))
      ++ [EForward (outgoing h (rewind r body))
            (request_meta h t r ctx (header_Get (ReqHeader r) AgentIDHeader) (sha256_hex body) body)]
  end.

Definition verdict_world h t r ctx w (v : verdict) : world D S B :=
  match v with
  | Untouched | BudgetExceeded _ _ _ _ | TooLarge => w
  | Blocked body _ =>
      Build_world (checked w t r body).1 (block_store h t r ctx body (w_store w)) (w_budget w)
  | Passed body => Build_world (checked w t r body).1 (w_store w) (w_budget w)
  end.

Lemma consult_run w t r body :
  consult t (header_Get (ReqHeader r) AgentIDHeader) (sha256_hex body) body w
  = (Build_world (checked w t r body).1 (w_store w) (w_budget w), [], (checked w t r body).2).
Proof.
  unfold consult, checked. destruct payload_checker;
    match goal with |- context [let '(_, _) := ?x in _] => by destruct x end.
Qed.

Lemma serve_run h t r ctx w :
  serve h t r ctx w
  = (verdict_world h t r ctx w (classify h w t r ctx), verdict_effects h t r ctx (classify h w t r ctx), tt).
Proof.
  unfold serve, classify. destruct (negb _ || _); [done|].
  rewrite (mthen_step _ _ _ _ _ _ (gate_run _ _ _ _)) || unfold mthen; rewrite ?gate_run.
  destruct (exhausted h w ctx (t_gate t)) as [[c [[sp ra] rs]]|].
  { unfold mret. by rewrite app_nil_r. }
  destruct (MaxBodyBytes <? ContentLength r); [done|].
  destruct (read_limited r MaxBodyBytes) as [body|]; [|done]. unfold serve_body.
  rewrite (mthen_step _ _ _ _ _ _ (when_tell_run _ _ _)), (mthen_step _ _ _ _ _ _ (consult_run _ _ _ _)).
  destruct (Block (checked w t r body).2); [|done]. by rewrite report_block_run.
Qed.

Lemma ServeHTTP_run h t r ctx w :
  ServeHTTP h t r ctx w
  = (verdict_world h t r ctx w (classify h w t r ctx),
     opt (metrics h) (EMark Metrics.MStart) ++ verdict_effects h t r ctx (classify h w t r ctx)
     ++ opt (metrics h) (EMark Metrics.MDone), tt).
Proof.
  unfold ServeHTTP. rewrite (mthen_step _ _ _ _ _ _ (mark_run _ _ _)),
    (mthen_step _ _ _ _ _ _ (serve_run _ _ _ _ _)), mark_run. reflexivity.
Qed.
(** ** Views of the effects *)

Lemma view_opt {A E} (f : E -> option A) (b : bool) (e : E) :
  omap f (opt b e) = match f e with Some a => opt b a | None => [] end.
Proof. destruct b; cbn; by destruct (f e). Qed.

Lemma forwards_app es1 es2 : forwards (es1 ++ es2) = forwards es1 ++ forwards es2.
Proof. apply omap_app. Qed.
Lemma responses_app es1 es2 : responses (es1 ++ es2) = responses es1 ++ responses es2.
Proof. apply omap_app. Qed.
Lemma logged_app es1 es2 : logged (es1 ++ es2) = logged es1 ++ logged es2.
Proof. apply omap_app. Qed.
Lemma notified_app es1 es2 : notified (es1 ++ es2) = notified es1 ++ notified es2.
Proof. apply omap_app. Qed.
Lemma streamed_app es1 es2 : streamed (es1 ++ es2) = streamed es1 ++ streamed es2.
Proof. apply omap_app. Qed.
Lemma incidents_app es1 es2 : incidents_of (es1 ++ es2) = incidents_of es1 ++ incidents_of es2.
Proof. apply omap_app. Qed.
Lemma marks_app es1 es2 : marks_of (es1 ++ es2) = marks_of es1 ++ marks_of es2.
Proof. apply omap_app. Qed.

(** Computes the views of a list of effects given by its parts. *)
Ltac views :=
  unfold verdict_effects, exceeded_effects, block_effects;
  rewrite ?forwards_app, ?responses_app, ?logged_app, ?notified_app, ?streamed_app,
    ?incidents_app, ?marks_app.

Lemma verdict_once h t r ctx v :
  (length (forwards (verdict_effects h t r ctx v)) + length (responses (verdict_effects h t r ctx v)) = 1)%nat
  /\ Metrics.in_flight (marks_of (verdict_effects h t r ctx v)) = 0.
Proof.
  destruct v as [|c sp ra rs| |body res|body]; views; try done.
  - by destruct (hub h).
  - destruct (emitter h), (metrics h), (price h), (incidents h),
      (FirstBlock res && loopAlertsEnabled h), (hub h), (store h); done.
  - by destruct (emitter h).
Qed.

Lemma mux_cases h t r ctx w :
  (exists id, Segments r = ["v1"; "agent"; id; "history"] /\ Method r = "DELETE" /\ id <> ""
              /\ mux h t r ctx w = handleDeleteHistory id w)
  \/ mux h t r ctx w = ServeHTTP h t r ctx w.
Proof.
  unfold mux. destruct (Segments r) as [|v1 [|ag [|id [|hi [|]]]]]; try (by right).
  destruct (String.eqb_spec (Method r) "DELETE"), (String.eqb_spec v1 "v1"),
    (String.eqb_spec ag "agent"), (String.eqb_spec hi "history"), (String.eqb_spec id "");
    try (by right). left. subst. by exists id.
Qed.

(** C1. Every request is answered exactly once: through the whole handler - the
    authentication, the routes, the budget gate, the size limit and the detectors - a
    request is either forwarded upstream exactly once or answered here exactly once, never
    both and never neither; and the in-flight gauge is left where it was. *)
Theorem request_answered_once h t r w :
  let '(_, es, _) := handle h t r w in
  (length (forwards es) + length (responses es) = 1)%nat /\ Metrics.in_flight (marks_of es) = 0.
Proof.
  assert (forall r ctx, let '(_, es, _) := ServeHTTP h t r ctx w in
    (length (forwards es) + length (responses es) = 1)%nat /\ Metrics.in_flight (marks_of es) = 0)
    as Hserve.
  { intros r0 ctx. rewrite ServeHTTP_run.
    destruct (verdict_once h t r0 ctx (classify h w t r0 ctx)) as [H1' H2'].
    rewrite !forwards_app, !responses_app, !marks_app. destruct (metrics h); cbn [opt];
      rewrite ?length_app; cbn; (split; [lia|]); unfold Metrics.in_flight in *;
      cbn; rewrite ?fmap_app, ?sumZ_app, ?H2'; done. }
  assert (forall r ctx, let '(_, es, _) := mux h t r ctx w in
    (length (forwards es) + length (responses es) = 1)%nat /\ Metrics.in_flight (marks_of es) = 0)
    as Hmux.
  { intros r0 ctx. destruct (mux_cases h t r0 ctx w) as [(id & _ & _ & _ & ->)| ->]; [done|apply Hserve]. }
  unfold handle, Auth.Middleware. destruct (auth h) as [a|]; [|apply Hmux].
  destruct (a _) as [c|]; [apply Hmux|done].
Qed.

(** C11. The loop guard: a request the detectors block is never forwarded and is answered
    429 with the detector's reason and Retry-After, in the header and in the JSON body
    (which carries nothing of the saved cost). What the call would have cost - the price
    source's estimate for the body - is written down instead, under the agent, key, project
    and model of the request: in one loop-blocked row (never as spend) exactly when prices
    and a log are wired, in the metrics, in an incident on every block, in one event of the
    live log per block; and the notifier hears of it only on the first block of an episode,
    unless loop alerts are switched off. The detector keeps its new state; the budget
    monitor is not consulted. *)
Theorem blocked_request h t r ctx w body res :
  classify h w t r ctx = Blocked body res ->
  let '(w', es, _) := ServeHTTP h t r ctx w in
  let agent := header_Get (ReqHeader r) "X-FinOps-Agent-Id" in
  let project := header_Get (ReqHeader r) "X-FinOps-Project" in
  let key := match ctx with Some c => c_ID c | None => "" end in
  let model := Pricing.ExtractModel body in
  let cost := match price h with Some p => Pricing.ps_SavedCost p body | None => 0 end in
  let tokens := match price h with Some p => Pricing.ps_EstimatePromptTokens p body | None => 0 end in
  body = Body r /\ (checked w t r body).2 = res /\ Block res = true /\ forwards es = []
  /\ responses es
     = [{| Status := 429;
           RespHeader := <["Retry-After" := [itoa (RetryAfter res)]]> {["Content-Type" := ["application/json"]]};
           RespBody := quoted "{'error':{'type':'agent_loop_exception','message':'" +:+ Reason res
             +:+ quoted "','code':'agent_loop_exception','retry_after':" +:+ itoa (RetryAfter res) +:+ "}}" |}]
  /\ logged es
     = match price h with
       | Some p =>
           opt (store h)
             {| r_AgentID := agent; r_KeyID := key; r_ProjectName := project; r_Model := model;
                r_PromptTokens := tokens; r_CompletionTokens := Pricing.ps_AssumedCompletionTokens p;
                r_CostUSD := cost; r_IsLoopBlocked := true; r_Timestamp := time_unix (t_row t) |}
       | None => []
       end
  /\ w_store w' = foldl (fun s row => (LogRequest s row).1) (w_store w) (logged es)
  /\ marks_of es
     = (if metrics h then
          [Metrics.MStart; Metrics.MLoopBlocked (t_mark t) cost tokens;
           Metrics.MTrigger {| Metrics.te_Timestamp := time_unix (t_trigger t); Metrics.te_AgentID := agent;
             Metrics.te_Model := model; Metrics.te_Reason := Reason res; Metrics.te_SavedMicro := cost |};
           Metrics.MDone]
        else [])
  /\ incidents_of es
     = opt (incidents h)
         {| i_AgentID := agent; i_KeyID := key; i_ProjectName := project; i_Model := model;
            i_Fingerprint := sha256_hex body; i_CostMicro := cost |}
  /\ streamed es
     = opt (hub h)
         {| Hub.le_Type := "loop_blocked"; Hub.le_Level := "warn"; Hub.le_Timestamp := time_unix (t_live t);
            Hub.le_TenantID := key; Hub.le_TenantName := ""; Hub.le_AgentID := agent; Hub.le_Model := model;
            Hub.le_ProjectName := project; Hub.le_PromptTokens := 0; Hub.le_CompletionTokens := 0;
            Hub.le_CostMicroUSD := 0; Hub.le_SavedCostMicroUSD := cost; Hub.le_BudgetMicroUSD := 0;
            Hub.le_SpentMicroUSD := 0; Hub.le_MonthlyBudgetMicro := 0; Hub.le_StatusCode := 429;
            Hub.le_FirstBlock := FirstBlock res; Hub.le_Reason := Reason res;
            Hub.le_RetryAfter := RetryAfter res; Hub.le_ThresholdPct := 0; Hub.le_DroppedEvents := 0 |}
  /\ notified es
     = match FirstBlock res, notifier h with
       | true, Some None | true, Some (Some true) =>
           [{| ev_Type := EventLoopBlocked; ev_Timestamp := time_unix (t_event t); ev_AgentID := agent;
               ev_Project := project; ev_Model := (match price h with Some _ => model | None => "" end); ev_SavedCostMicro := cost;
               ev_Reason := Reason res; ev_RetryAfter := RetryAfter res; ev_BudgetMicroUSD := 0;
               ev_SpentMicroUSD := 0; ev_ThresholdPct := 0; ev_Similarity := GoFloat.f64_zero;
               ev_IntentScore := GoFloat.f64_zero; ev_QuotaKind := ""; ev_QuotaID := "" |}]
       | _, _ => []
       end
  /\ w_det w' = (checked w t r body).1 /\ w_budget w' = w_budget w.
Proof.
  intros Hv. rewrite ServeHTTP_run, Hv. cbn [verdict_effects verdict_world].
  assert (body = Body r /\ (checked w t r body).2 = res /\ Block res = true) as (Hbody & Hres & Hb).
  { unfold classify, read_limited in Hv. repeat case_match; simplify_eq; done. }
  cbn [w_store w_det w_budget]. unfold block_store.
  do 3 (split; [done|]). views. unfold forwards, responses, logged, marks_of, incidents_of, streamed, notified.
  rewrite !view_opt.
  assert (blocked_response res
    = {| Status := 429;
         RespHeader := <["Retry-After" := [itoa (RetryAfter res)]]> {["Content-Type" := ["application/json"]]};
         RespBody := quoted "{'error':{'type':'agent_loop_exception','message':'" +:+ Reason res
           +:+ quoted "','code':'agent_loop_exception','retry_after':" +:+ itoa (RetryAfter res) +:+ "}}" |}) as Hresp.
  { unfold blocked_response, too_many, header_Set, RetryAfterHeader. canon. reflexivity. }
  assert (saved_cost h body = match price h with Some p => Pricing.ps_SavedCost p body | None => 0 end) as Hcost by done.
  unfold loopAlertsEnabled, blocked_row, blocked_event, blocked_log, blocked_incident, prompt_tokens.
  rewrite <- Hcost. cbn [omap list_omap app]. rewrite Hresp. clear Hresp.
  destruct (price h) as [p|]; rewrite ?view_opt; cbn [omap list_omap app is_Some]; rewrite ?app_nil_r.
  - split; [done|]. split; [done|]. split; [done|]. split; [by destruct (store h)|].
    split; [by destruct (metrics h)|]. split; [done|]. split; [done|].
    split; [|done]. by destruct (FirstBlock res), (notifier h) as [[[]|]|].
  - split; [done|]. split; [done|]. split; [done|]. split; [done|].
    split; [by destruct (metrics h)|]. split; [done|]. split; [done|].
    split; [|done]. rewrite Hcost. by destruct (FirstBlock res), (notifier h) as [[[]|]|].
Qed.

(** The spend a limit is compared with reaches it. *)
Definition reached (w : world D S B) (c : Caller) (limit since : Z) : Prop :=
  0 < limit /\ exists spent, SumActualCostForKeySince (w_store w) (c_ID c) since = Some spent /\ limit <= spent.

Lemma over_spec w c limit since retryAfter reason :
  match over w c limit since retryAfter reason with
  | Some (spent, ra, rs) => reached w c limit since /\ ra = retryAfter /\ rs = reason
  | None => ~ reached w c limit since
  end.
Proof.
  unfold over, reached. zcase (0 <? limit).
  destruct (SumActualCostForKeySince _ _ _) as [spent|]; [|naive_solver].
  destruct (limit <=? spent) eqn:E2; zbool; [by split_and!; eauto|].
  intros (_ & sp & [= <-] & ?). lia.
Qed.

(** C12. The budget gate: a non-empty POST of an identified caller whose spend in the
    current UTC month (first) or day has reached a positive limit is answered 429
    budget_exceeded, with the seconds to the end of that window - at least one - as
    Retry-After; nothing else happens: no detector is consulted, nothing is logged or
    forwarded, whatever the size of the body; and when neither limit is reached - which
    includes a limit of zero and a failing ledger - the gate does not answer. *)
Theorem budget_gate_enforced h t r c w :
  Method r = "POST" -> ContentLength r <> 0 -> ledger h = true ->
  let now := t_gate t in
  let monthly := reached w c (Store.MonthlyBudgetMicro c) (utcMonthStart now) in
  let daily := reached w c (Store.DailyBudgetMicro c) (utcDayStart now) in
  let stopped left reason :=
    let '(w', es, _) := ServeHTTP h t r (Some c) w in
    w' = w /\ forwards es = [] /\ logged es = [] /\ notified es = []
    /\ exists resp, responses es = [resp] /\ Status resp = 429
       /\ header_Get (RespHeader resp) "Retry-After" = itoa left /\ 1 <= left
       /\ resp = exceeded_response left reason in
  (monthly -> stopped (nextMonthStart now - time_unix now) "Monthly budget exceeded")
  /\ (~ monthly -> daily -> stopped (nextDayStart now - time_unix now) "Daily budget exceeded")
  /\ (~ monthly -> ~ daily -> exhausted h w (Some c) now = None
      /\ forall c' sp ra rs, classify h w t r (Some c) <> BudgetExceeded c' sp ra rs).
Proof.
  intros Hm Hc Hl now monthly daily stopped.
  pose proof (window_bounds now) as (_ & _ & _ & Hday & Hmonth).
  assert (forall spent left reason, 1 <= left ->
    classify h w t r (Some c) = BudgetExceeded c spent left reason -> stopped left reason) as Hstop.
  { intros spent left reason Hleft Hv. unfold stopped. rewrite ServeHTTP_run, Hv.
    cbn [verdict_world verdict_effects]. rewrite !forwards_app, !logged_app, !notified_app, !responses_app.
    views. unfold forwards, logged, notified, responses. rewrite !view_opt. cbn [omap list_omap app].
    split_and!; try done. exists (exceeded_response left reason). split_and!; try done.
    unfold exceeded_response, too_many. cbn [RespHeader].
    assert (Z.max 1 left = left) as -> by lia. apply header_get_set. }
  pose proof (over_spec w c (Store.MonthlyBudgetMicro c) (utcMonthStart now)
    (nextMonthStart now - time_unix now) "Monthly budget exceeded") as Hmo.
  pose proof (over_spec w c (Store.DailyBudgetMicro c) (utcDayStart now)
    (nextDayStart now - time_unix now) "Daily budget exceeded") as Hdo.
  assert (classify h w t r (Some c)
    = match exhausted h w (Some c) now with
      | Some (c, (spent, ra, rs)) => BudgetExceeded c spent ra rs
      | None => classify h w t r None
      end) as Hcl.
  { unfold classify. rewrite Hm. zcase (ContentLength r =? 0). cbn [negb orb].
    assert (exhausted h w None (t_gate t) = None) as -> by (unfold exhausted; by destruct (ledger h)).
    done. }
  unfold exhausted in *. rewrite Hl in *. fold now in Hmo, Hdo.
  destruct (over w c _ _ _ "Monthly budget exceeded") as [[[sp ra] rs]|].
  { destruct Hmo as (Hmo & -> & ->). split_and!; [intros _; by eapply Hstop|..]; intros Hn; by destruct (Hn Hmo). }
  split; [intros Hm'; by destruct (Hmo Hm')|]. destruct (over w c _ _ _ "Daily budget exceeded") as [[[sp ra] rs]|].
  { destruct Hdo as (Hdo & -> & ->). split; [intros _ _; by eapply Hstop|].
    intros _ Hn. by destruct (Hn Hdo). }
  split; [intros _ Hd'; by destruct (Hdo Hd')|]. intros _ _. split; [done|]. rewrite Hcl. intros. unfold classify.
  destruct (negb _ || _); [done|].
  assert (exhausted h w None (t_gate t) = None) as -> by (unfold exhausted; by destruct (ledger h)).
  destruct (_ <? _); [done|]. destruct (read_limited _ _); [|done]. by destruct (Block _).
Qed.

(** ** What goes upstream *)

(** The headers Rewrite leaves, and those of the request that is sent. *)
Lemma Rewrite_lookup u r out k :
  ReqHeader out !! "X-Forwarded-For" = None ->
  ReqHeader (Rewrite u r out) !! k
  = if bool_decide (k ∈ ["X-Finops-Agent-Id"; "X-Finops-Project"; "X-Finops-Api-Key"]) then None
    else if bool_decide (k = "X-Forwarded-Proto") then Some [if TLS r then "https" else "http"]
    else if bool_decide (k = "X-Forwarded-Host") then Some [Host r]
    else if bool_decide (k = "X-Forwarded-For") then (fun ip => [ip]) <$> ClientIP r
    else ReqHeader out !! k.
Proof.
  intros Hff. unfold Rewrite, SetXForwarded, SetURL. cbn [ReqHeader set_header set_url]. 
  unfold header_Del at 1 2 3, AgentIDHeader, ProjectHeader, Auth.APIKeyHeader. canon.
  case_bool_decide as Hin.
  { rewrite !elem_of_cons, elem_of_nil in Hin. destruct Hin as [-> |[-> |[-> |[]]]];
      rewrite ?lookup_delete_eq; [rewrite !lookup_delete_ne by done; apply lookup_delete_eq
      |rewrite lookup_delete_ne by done; apply lookup_delete_eq|done]. }
  rewrite !not_elem_of_cons in Hin. destruct Hin as (H1' & H2' & H3' & _).
  rewrite !lookup_delete_ne by done. unfold header_Set at 1. canon.
  case_bool_decide as Ep; [subst; by rewrite lookup_insert_eq|]. rewrite lookup_insert_ne by done.
  unfold header_Set at 1. canon.
  case_bool_decide as Eh; [subst; by rewrite lookup_insert_eq|]. rewrite lookup_insert_ne by done.
  unfold header_values. rewrite Hff. cbn [from_option id app String.concat].
  destruct (ClientIP r) as [ip|]; unfold header_Set, header_Del; canon;
    (case_bool_decide as Ef; [subst; by rewrite ?lookup_insert_eq, ?lookup_delete_eq
                             |by rewrite ?lookup_insert_ne, ?lookup_delete_ne]).
Qed.

Lemma outgoing_lookup h r out k :
  outgoing h r = Some out ->
  ReqHeader out !! k
  = if bool_decide (k = "User-Agent") then Some (default [""] (outbound_header (ReqHeader r) !! k))
    else if bool_decide (k ∈ ["X-Finops-Agent-Id"; "X-Finops-Project"; "X-Finops-Api-Key"]) then None
    else if bool_decide (k = "X-Forwarded-Proto") then Some [if TLS r then "https" else "http"]
    else if bool_decide (k = "X-Forwarded-Host") then Some [Host r]
    else if bool_decide (k = "X-Forwarded-For") then (fun ip => [ip]) <$> ClientIP r
    else outbound_header (ReqHeader r) !! k.
Proof.
  unfold outgoing, outreq. destruct (is_print _); [|done].
  set (out0 := Build_Request _ _ _ _ _ _ _ _ _ _). intros Heq.
  assert (out = set_header (Rewrite (upstream h) r out0) (quiet_agent (ReqHeader (Rewrite (upstream h) r out0)))) as ->
    by congruence. clear Heq. cbn [ReqHeader set_header].
  assert (ReqHeader out0 !! "X-Forwarded-For" = None) as Hff
    by (apply outbound_dropped; [apply dropped_fixed|]; apply (bool_decide_unpack _); vm_compute; exact I).
  pose proof (fun k => Rewrite_lookup (upstream h) r out0 k Hff) as Hl.
  change (outbound_header (ReqHeader r)) with (ReqHeader out0).
  generalize dependent (ReqHeader (Rewrite (upstream h) r out0)). intros g Hl.
  unfold quiet_agent. pose proof (Hl "User-Agent") as Hua. 
  rewrite !bool_decide_eq_false_2 in Hua by (done || set_solver).
  case_bool_decide as Ek; [subst k; rewrite <- Hua|rewrite <- Hl]; destruct (g !! "User-Agent") as [ua|] eqn:Eg;
    try done; unfold header_Set; canon; [by rewrite lookup_insert_eq|by rewrite lookup_insert_ne].
Qed.

(** The request line, the body and the URL of what is sent. *)
Lemma outgoing_line h r out :
  outgoing h r = Some out ->
  Method out = Method r /\ ContentLength out = ContentLength r
  /\ Body out = (if ContentLength r =? 0 then [] else Body r)
  /\ BodyErr out = (if ContentLength r =? 0 then false else BodyErr r) /\ Host out = ""
  /\ Scheme (URL out) = Scheme (upstream h) /\ u_Host (URL out) = u_Host (upstream h)
  /\ RawQuery (URL out) = joinQuery (RawQuery (upstream h)) (cleanQueryParams (RawQuery (URL r)))
  /\ (~ server_wide (URL r) -> ~ server_wide (upstream h) ->
      EscapedPath (URL out) = singleJoiningSlash (EscapedPath (upstream h)) (EscapedPath (URL r))).
Proof.
  unfold outgoing, outreq. destruct (is_print _); [|done]. set (out0 := Build_Request _ _ _ _ _ _ _ _ _ _).
  intros Heq.
  assert (out = set_header (Rewrite (upstream h) r out0) (quiet_agent (ReqHeader (Rewrite (upstream h) r out0)))) as ->
    by congruence. clear Heq.
  cbn [set_header Method ContentLength Body BodyErr Host URL Rewrite SetXForwarded SetURL set_url].
  pose proof (rewrite_escaped_path (URL out0) (upstream h)) as Hp.
  unfold rewriteRequestURL in *. destruct (joinURLPath (upstream h) (URL out0)) as [path raw]. 
  do 8 (split; [reflexivity|]). intros Hr Hu. exact (Hp Hr Hu).
Qed.

(** What a request [r] must be relayed as, to the upstream [u]. *)
Definition relayed (u : url) r (sent : option Request) : Prop :=
  let hd := ReqHeader r in
  let listed := CanonicalHeaderKey <$> connection_tokens hd in
  match sent with
  | None => is_print (upgradeType hd) = false
  | Some out =>
      Method out = Method r /\ Body out = (if ContentLength r =? 0 then [] else Body r)
      /\ Scheme (URL out) = Scheme u /\ u_Host (URL out) = u_Host u /\ Host out = ""
      /\ (~ server_wide (URL r) -> ~ server_wide u ->
          EscapedPath (URL out) = singleJoiningSlash (EscapedPath u) (EscapedPath (URL r)))
      /\ (";"%byte ∉ RawQuery (URL r) -> is_Some (unescape (RawQuery (URL r))) ->
          RawQuery (URL out) = joinQuery (RawQuery u) (RawQuery (URL r)))
      /\ (forall k, k ∉ listed ->
            k ∉ ["X-Finops-Agent-Id"; "X-Finops-Project"; "X-Finops-Api-Key"; "Forwarded"; "X-Forwarded-For";
                 "X-Forwarded-Host"; "X-Forwarded-Proto"; "Connection"; "Proxy-Connection"; "Keep-Alive";
                 "Proxy-Authenticate"; "Proxy-Authorization"; "Te"; "Trailer"; "Transfer-Encoding"; "Upgrade";
                 "User-Agent"] -> ReqHeader out !! k = hd !! k)
      /\ ("User-Agent" ∉ listed -> ReqHeader out !! "User-Agent" = Some (default [""] (hd !! "User-Agent")))
      /\ Forall (fun k => ReqHeader out !! k = None)
           ["X-Finops-Agent-Id"; "X-Finops-Project"; "X-Finops-Api-Key"; "Forwarded"; "Proxy-Connection";
            "Keep-Alive"; "Proxy-Authenticate"; "Proxy-Authorization"; "Trailer"; "Transfer-Encoding"]
      /\ (forall k, k ∈ listed -> k ∉ ["Te"; "Connection"; "Upgrade"; "User-Agent"; "X-Forwarded-For";
              "X-Forwarded-Host"; "X-Forwarded-Proto"] -> ReqHeader out !! k = None)
      /\ ReqHeader out !! "X-Forwarded-For" = (fun ip => [ip]) <$> ClientIP r
      /\ ReqHeader out !! "X-Forwarded-Host" = Some [Host r]
      /\ ReqHeader out !! "X-Forwarded-Proto" = Some [if TLS r then "https" else "http"]
  end.

(** The headers of what is sent. *)
Lemma outgoing_headers h r out :
  outgoing h r = Some out ->
  let hd := ReqHeader r in
  let listed := CanonicalHeaderKey <$> connection_tokens hd in
  (forall k, k ∉ listed ->
     k ∉ ["X-Finops-Agent-Id"; "X-Finops-Project"; "X-Finops-Api-Key"; "Forwarded"; "X-Forwarded-For";
          "X-Forwarded-Host"; "X-Forwarded-Proto"; "Connection"; "Proxy-Connection"; "Keep-Alive";
          "Proxy-Authenticate"; "Proxy-Authorization"; "Te"; "Trailer"; "Transfer-Encoding"; "Upgrade";
          "User-Agent"] -> ReqHeader out !! k = hd !! k)
  /\ ("User-Agent" ∉ listed -> ReqHeader out !! "User-Agent" = Some (default [""] (hd !! "User-Agent")))
  /\ Forall (fun k => ReqHeader out !! k = None)
       ["X-Finops-Agent-Id"; "X-Finops-Project"; "X-Finops-Api-Key"; "Forwarded"; "Proxy-Connection";
        "Keep-Alive"; "Proxy-Authenticate"; "Proxy-Authorization"; "Trailer"; "Transfer-Encoding"]
  /\ (forall k, k ∈ listed -> k ∉ ["Te"; "Connection"; "Upgrade"; "User-Agent"; "X-Forwarded-For";
          "X-Forwarded-Host"; "X-Forwarded-Proto"] -> ReqHeader out !! k = None)
  /\ ReqHeader out !! "X-Forwarded-For" = (fun ip => [ip]) <$> ClientIP r
  /\ ReqHeader out !! "X-Forwarded-Host" = Some [Host r]
  /\ ReqHeader out !! "X-Forwarded-Proto" = Some [if TLS r then "https" else "http"].
Proof.
  intros Hout hd listed. pose proof (fun k => outgoing_lookup h r out k Hout) as Hl. clear Hout.
  assert (forall k, k ∈ dropped_names hd <-> k ∈ listed \/ k ∈ CanonicalHeaderKey <$> (hopHeaders ++ client_forwarding))
    as Hd by (intros k; unfold dropped_names; by rewrite fmap_app, elem_of_app).
  assert ((CanonicalHeaderKey <$> (hopHeaders ++ client_forwarding))
    = ["Connection"; "Proxy-Connection"; "Keep-Alive"; "Proxy-Authenticate"; "Proxy-Authorization"; "Te";
       "Trailer"; "Transfer-Encoding"; "Upgrade"; "Forwarded"; "X-Forwarded-For"; "X-Forwarded-Host"; "X-Forwarded-Proto"])
    as Hnames by (vm_compute; reflexivity). rewrite Hnames in Hd. clear Hnames.
  assert (forall k, k ∉ dropped_names hd -> outbound_header hd !! k = hd !! k) as Hkept by apply outbound_kept.
  assert (forall k, k ∈ dropped_names hd -> k ∉ ["Te"; "Connection"; "Upgrade"] -> outbound_header hd !! k = None)
    as Hgone by apply outbound_dropped. fold hd in Hl.
  split_and!; try (rewrite Hl; reflexivity).
  - intros k Hk Hn. rewrite !not_elem_of_cons in Hn. rewrite Hl, !bool_decide_eq_false_2 by (rewrite ?elem_of_cons, ?elem_of_nil; tauto).
    apply Hkept. rewrite Hd, !elem_of_cons, elem_of_nil. tauto.
  - intros Hk. rewrite Hl, bool_decide_eq_true_2 by done. rewrite Hkept; [done|]. rewrite Hd. intros [?|Hin]; [done|].
    apply (bool_decide_pack _) in Hin. by vm_compute in Hin.
  - repeat constructor; rewrite Hl; try reflexivity;
      (rewrite !bool_decide_eq_false_2 by (done || (apply (bool_decide_unpack _); vm_compute; exact I));
       apply Hgone; [rewrite Hd; right; apply (bool_decide_unpack _); vm_compute; exact I
                    |apply (bool_decide_unpack _); vm_compute; exact I]).
  - intros k Hk Hn. rewrite !not_elem_of_cons in Hn. rewrite Hl. case_bool_decide; [tauto|].
    case_bool_decide; [done|]. do 3 (rewrite bool_decide_eq_false_2 by tauto).
    apply Hgone; [rewrite Hd; by left|]. rewrite !not_elem_of_cons, elem_of_nil. tauto.
Qed.

Lemma relayed_spec h r : relayed (upstream h) r (outgoing h r).
Proof.
  unfold relayed. destruct (outgoing h r) as [out|] eqn:Hout.
  - destruct (outgoing_line h r out Hout) as (L1 & _ & L2 & _ & L3 & L4 & L5 & L6 & L7).
    destruct (outgoing_headers h r out Hout) as (K1 & K2 & K3 & K4 & K5 & K6 & K7).
    do 6 (split; [done|]). split; [|done]. intros Hs Hq. by rewrite L6, clean_query_id.
  - unfold outgoing, outreq in Hout. by destruct (is_print _).
Qed.

(** What serving a request leaves in flight. *)
Lemma served_forwards h t r ctx w :
  forwards (ServeHTTP h t r ctx w).1.2
  = match classify h w t r ctx with
    | Untouched => [(outgoing h r, None)]
    | Passed body =>
        [(outgoing h (rewind r body),
          request_meta h t r ctx (header_Get (ReqHeader r) AgentIDHeader) (sha256_hex body) body)]
    | _ => []
    end.
Proof.
  rewrite ServeHTTP_run. cbn [fst snd]. rewrite !forwards_app.
  assert (forwards (opt (metrics h) (EMark Metrics.MStart)) = []
          /\ forwards (opt (metrics h) (EMark Metrics.MDone)) = []) as [-> ->]
    by (by destruct (metrics h)). rewrite app_nil_r. cbn [app].
  destruct (classify h w t r ctx) as [|c sp ra rs| |body res|body];
    unfold verdict_effects, exceeded_effects, block_effects; rewrite ?forwards_app; try done.
  - by destruct (hub h).
  - unfold forwards. rewrite !view_opt. by destruct (price h); rewrite ?view_opt.
  - by destruct (emitter h).
Qed.

(** C17. Transparent forwarding: what the reverse proxy sends has the method and the body
    bytes of the client; it goes to the upstream's host, with the upstream's base path and
    the client's path joined by exactly one slash and neither re-encoded, and with the
    client's query (if it parses) after the upstream's. Every header but the hop-by-hop ones
    - those of the standard and those the Connection header lists - keeps all its values;
    the three internal headers never leave, nor does a forwarding header of the client's
    own: the X-Forwarded ones are the proxy's statement of the connection. Nothing is sent
    only when the client asks for an upgrade to an unprintable protocol. A request that is
    not a non-empty POST, or is declared larger than the limit, leaves the detector and the
    store untouched; cost metadata is attached exactly to the requests whose body was read
    and checked, when prices and a log are wired. *)
Theorem forwarding_transparent h t r ctx w sent meta :
  let '(w', es, _) := ServeHTTP h t r ctx w in
  (sent, meta) ∈ forwards es ->
  relayed (upstream h) r sent
  /\ match classify h w t r ctx with
     | Untouched =>
         w' = w /\ meta = None
         /\ forall out, sent = Some out -> ContentLength out = ContentLength r
                        /\ BodyErr out = (if ContentLength r =? 0 then false else BodyErr r)
     | Passed body =>
         body = Body r /\ Z.of_nat (length body) <= MaxBodyBytes
         /\ (forall out, sent = Some out -> ContentLength out = Z.of_nat (length body) /\ BodyErr out = false)
         /\ Block (checked w t r body).2 = false /\ w_store w' = w_store w
         /\ (is_Some meta <-> is_Some (price h) /\ store h = true)
     | _ => False
     end.
Proof.
  pose proof (served_forwards h t r ctx w) as Hf. pose proof (ServeHTTP_run h t r ctx w) as Hrun.
  destruct (ServeHTTP h t r ctx w) as [[w' es] u]. cbn [fst snd] in Hf. injection Hrun as -> _ _. rewrite Hf. clear Hf.
  destruct (classify h w t r ctx) as [|c sp ra rs| |body res|body] eqn:Hv;
    intros Hin; try (by apply elem_of_nil in Hin); apply list_elem_of_singleton in Hin as [= -> ->].
  - split; [|split_and!; try done; intros out Hout; by apply outgoing_line in Hout as (_ & ? & _ & ? & _)].
    apply relayed_spec.
  - unfold classify in Hv. destruct (negb _ || _) eqn:Hp; [done|].
    destruct (exhausted _ _ _ _) as [[? [[? ?] ?]]|]; [done|]. destruct (_ <? _); [done|].
    unfold read_limited in Hv. destruct (MaxBodyBytes <? Z.of_nat (length (Body r))) eqn:Hsz; [done|].
    destruct (BodyErr r); [done|]. cbn [orb] in Hv. destruct (Block _) eqn:Hb; [done|].
    injection Hv as <-. apply orb_false_iff in Hp as [_ Hp]. zbool. split.
    + pose proof (relayed_spec h (rewind r (Body r))) as Hs. unfold relayed in Hs |- *.
      cbn [rewind ReqHeader Method URL Host ClientIP TLS ContentLength Body] in Hs.
      replace (if Z.of_nat (length (Body r)) =? 0 then [] else Body r) with (Body r) in Hs
        by (by destruct (Body r)).
      by replace (ContentLength r =? 0) with false by lia.
    + split_and!; try done; try lia.
      * intros out Hout. apply outgoing_line in Hout as (_ & -> & _ & -> & _). split; [done|].
        by destruct (_ =? 0).
      * unfold request_meta. destruct (price h); [destruct (store h)|]; split; try (by intros [? ?]); naive_solver.
Qed.

(** ** Completion of a forwarded request *)

Definition level_effects h (evs : list Event) : list effect :=
  concat ((fun ev => ENotify ev :: opt (hub h) (EPublish (budget_level_log ev))) <$> evs).

Lemma deliver_run h evs w : deliver_levels h evs w = (w, level_effects h evs, tt).
Proof.
  induction evs as [|ev evs IH]; [done|]. cbn [deliver_levels]. unfold tell.
  unfold mthen. rewrite publish_run, IH. done.
Qed.

(** What checkBudget does: the monitor evaluated on what the ledger now says. *)
Definition budget_outcome h (t : cost_times) w : B * list Event :=
  if bool_decide (notifier h = None) || negb (budget h) || negb (ledger h) then (w_budget w, [])
  else match SumActualCostSince (w_store w) (utcDayStart (o_day t)) with
       | None => (w_budget w, [])
       | Some spent => spend (w_budget w) spent (o_spend t) (fun _ => true)
       end.

Lemma checkBudget_run h (t : cost_times) w :
  checkBudget h t w
  = (Build_world (w_det w) (w_store w) (budget_outcome h t w).1,
     level_effects h (budget_outcome h t w).2, tt).
Proof.
  unfold checkBudget, budget_outcome. destruct (_ || _ || _); [by destruct w|].
  unfold mthen, ledger_sum. destruct (SumActualCostSince _ _) as [spent|]; [|by destruct w].
  unfold spend_budget. destruct (spend _ _ _ _) as [b evs]. by rewrite deliver_run.
Qed.

Definition completion_cost (p : P) (m : reqMeta) (pt ct : Z) : Z :=
  Pricing.Cost (Pricing.ps_PriceFor p (UsageTracking.model m)).1 pt ct.

Lemma onCost_run h (t : cost_times) m pt ct w :
  onCost h t m pt ct w
  = let fwd := EMark (Metrics.MForwarded (o_mark t) (time_sub (o_since t) (UsageTracking.start m)) pt ct) in
    match price h with
    | Some p =>
        if store h then
          let cost := completion_cost p m pt ct in
          let row := completion_row t m pt ct cost in
          let w1 := Build_world (w_det w) (LogRequest (w_store w) row).1 (w_budget w) in
          (Build_world (w_det w) (w_store w1) (budget_outcome h t w1).1,
           opt (metrics h) fwd ++ [ELog row] ++ level_effects h (budget_outcome h t w1).2
           ++ opt (hub h) (EPublish (completion_log Hub.TypeRequestComplete "info" (o_live t) m pt ct cost))
           ++ match costThreshold h with
              | Some thr => opt (hub h && ((0 <? thr) && (thr <=? cost)))
                  (EPublish (completion_log Hub.TypeCostAlert "warn" (o_alert t) m 0 0 cost))
              | None => []
              end, tt)
        else (w, opt (metrics h) fwd, tt)
    | None => (w, opt (metrics h) fwd, tt)
    end.
Proof.
  unfold onCost. rewrite (mthen_step _ _ _ _ _ _ (mark_run _ _ _)).
  destruct (price h) as [p|]; [|unfold mret; by rewrite app_nil_r].
  destruct (store h); [|unfold mret; by rewrite app_nil_r].
  fold (completion_cost p m pt ct). unfold log_request. unfold mthen at 1.
  rewrite (mthen_step _ _ _ _ _ _ (checkBudget_run _ _ _)), (mthen_step _ _ _ _ _ _ (publish_run _ _ _)).
  destruct (costThreshold h) as [thr|]; [|done].
  rewrite when_run. destruct ((0 <? thr) && _); [rewrite publish_run|]; unfold mret;
    rewrite ?andb_true_r, ?andb_false_r; done.
Qed.

(** ** A caller's requests, one after the other *)

(** A request and its completion: the clocks, the upstream status, the tokens used. *)
Record exchange := {
  x_times : times;
  x_req : Request;
  x_cost_times : cost_times;
  x_status : Z;
  x_prompt : Z;
  x_completion : Z
}.

(** Serve it; if it was forwarded with metadata, its response completes. *)
Definition exchange_run h ctx (x : exchange) (w : world D S B) : world D S B * list effect :=
  let '(w1, es, _) := ServeHTTP h (x_times x) (x_req x) ctx w in
  match forwards es with
  | [(_, Some m)] =>
      match modifyResponse (Some m) (x_status x) "" with
      | Some b =>
          let '(w2, es2, _) :=
            onCost h (x_cost_times x) (UsageTracking.meta b) (x_prompt x) (x_completion x) w1 in
          (w2, es ++ es2)
      | None => (w1, es)
      end
  | _ => (w1, es)
  end.

Fixpoint exchanges_run h ctx (xs : list exchange) (w : world D S B) : world D S B :=
  match xs with [] => w | x :: xs' => exchanges_run h ctx xs' (exchange_run h ctx x w).1 end.

(** The month of the gate's clock starts at [since], and the completion is logged in it. *)
Definition in_month (since : Z) (x : exchange) : Prop :=
  utcMonthStart (t_gate (x_times x)) = since /\ since <= time_unix (o_row (x_cost_times x)).
Lemma level_views h evs :
  forwards (level_effects h evs) = [] /\ responses (level_effects h evs) = []
  /\ logged (level_effects h evs) = [] /\ notified (level_effects h evs) = evs
  /\ streamed (level_effects h evs) = if hub h then budget_level_log <$> evs else [].
Proof.
  unfold level_effects. induction evs as [|ev evs (IH1 & IH2 & IH3 & IH4 & IH5)];
    [by destruct (hub h)|]. rewrite fmap_cons. cbn [concat].
  rewrite forwards_app, responses_app, logged_app, notified_app, streamed_app,
    IH1, IH2, IH3, IH4, IH5. by destruct (hub h).
Qed.

(** C18. Recording a completed call: with prices and a log, exactly one row is logged, not
    loop-blocked, with the reported tokens and the exact price of the model for them; the
    day's budget is then evaluated on a ledger that already contains that row, and every
    level it offers is notified and mirrored; the live log gets the completion and, exactly
    when the cost reaches a positive threshold, a cost alert; without prices or a log
    nothing is recorded; and in no case is anything forwarded or answered. *)
Theorem completion_recorded h (t : cost_times) m pt ct w :
  let '(w', es, _) := onCost h t m pt ct w in
  forwards es = [] /\ responses es = [] /\ w_det w' = w_det w
  /\ match price h with
     | Some p =>
         if store h then
           let cost := Pricing.Cost (Pricing.ps_PriceFor p (UsageTracking.model m)).1 pt ct in
           let row := completion_row t m pt ct cost in
           let alert := match costThreshold h with
                        | Some thr => (0 <? thr) && (thr <=? cost) | None => false end in
           r_IsLoopBlocked row = false /\ r_CostUSD row = cost
           /\ logged es = [row] /\ w_store w' = (LogRequest (w_store w) row).1
           /\ notified es = (budget_outcome h t (Build_world (w_det w) (w_store w') (w_budget w))).2
           /\ streamed es
              = if hub h then
                  (budget_level_log <$> notified es)
                  ++ [completion_log Hub.TypeRequestComplete "info" (o_live t) m pt ct cost]
                  ++ opt alert (completion_log Hub.TypeCostAlert "warn" (o_alert t) m 0 0 cost)
                else []
         else logged es = [] /\ w' = w
     | None => logged es = [] /\ w' = w
     end.
Proof.
  rewrite onCost_run. cbn zeta. destruct (price h) as [p|];
    [destruct (store h)|]; [|split_and!; try done; by destruct (metrics h)..].
  fold (completion_cost p m pt ct). set (row := completion_row t m pt ct (completion_cost p m pt ct)).
  set (w1 := Build_world (w_det w) (LogRequest (w_store w) row).1 (w_budget w)).
  destruct (level_views h (budget_outcome h t w1).2) as (L1 & L2 & L3 & L4 & L5).
  rewrite !forwards_app, !responses_app, !logged_app, !notified_app, !streamed_app, L1, L2, L3, L4, L5.
  unfold forwards, responses, logged, notified, streamed. rewrite !view_opt.
  cbn [omap list_omap app w_store w_det w_budget w1].
  destruct (costThreshold h) as [thr|]; rewrite ?view_opt; cbn [omap list_omap app opt];
    rewrite ?app_nil_r; split_and!; try done; destruct (hub h); cbn [andb opt app]; by rewrite ?app_nil_r.
Qed.

(** ** The monthly budget holds *)

(** What the ledger of a caller promises and a run relies on: rows are stored, sums
    answered. *)
Definition ledger_up (S0 : Type) `{RequestLogStore S0, BudgetLedger S0} : Prop :=
  (forall s row, (LogRequest s row).2 = true)
  /\ (forall s key since, is_Some (SumActualCostForKeySince (S := S0) s key since)).

Section MonthlyBudget.
Context `{!LedgerLaws S}.

Lemma blocked_row_free h p t r ctx agent body key since :
  counted_for key since (blocked_row h p t r ctx agent body) = false.
Proof. done. Qed.

(** The spend of the caller after an exchange. *)
Lemma exchange_spend h c x w since p (C spent : Z) :
  ledger_up S -> ledger h = true -> price h = Some p -> store h = true ->
  in_month since x ->
  (forall model, 0 <= Pricing.Cost (Pricing.ps_PriceFor p model).1 (x_prompt x) (x_completion x) <= C) ->
  0 < Store.MonthlyBudgetMicro c -> Store.MonthlyBudgetMicro c + C <= int64_max ->
  in_int64 spent -> SumActualCostForKeySince (w_store w) (c_ID c) since = Some spent ->
  exists spent', SumActualCostForKeySince (w_store (exchange_run h (Some c) x w).1) (c_ID c) since = Some spent'
    /\ spent <= spent' /\ (spent' = spent \/ spent < Store.MonthlyBudgetMicro c /\ spent' <= spent + C).
Proof.
  intros [Hup _] Hl Hp Hs [Hmonth Hrow] Hcost HM Hmax Hspent Hsum. unfold exchange_run.
  rewrite ServeHTTP_run, !forwards_app.
  assert (forwards (opt (metrics h) (EMark Metrics.MStart)) = []
          /\ forwards (opt (metrics h) (EMark Metrics.MDone)) = []) as [-> ->]
    by (by destruct (metrics h)). rewrite app_nil_r. cbn [app].
  destruct (classify h w (x_times x) (x_req x) (Some c)) as [|c' sp ra rs| |body res|body] eqn:Hv.
  - exists spent. cbn. split_and!; [done|lia|by left].
  - exists spent. assert (forwards (verdict_effects h (x_times x) (x_req x) (Some c)
      (BudgetExceeded c' sp ra rs)) = []) as -> by (views; by destruct (hub h)).
    cbn. split_and!; [done|lia|by left].
  - exists spent. cbn. split_and!; [done|lia|by left].
  - assert (forwards (verdict_effects h (x_times x) (x_req x) (Some c) (Blocked body res)) = []) as ->.
    { views. unfold forwards. rewrite !view_opt. by destruct (price h); rewrite ?view_opt. }
    exists spent. cbn [verdict_world w_store fst]. unfold block_store. rewrite Hp, Hs.
    erewrite law_log_key_sum by (try apply Hup; done). cbn. split_and!; [done|lia|by left].
  - assert (forwards (verdict_effects h (x_times x) (x_req x) (Some c) (Passed body))
      = [(outgoing h (rewind (x_req x) body), request_meta h (x_times x) (x_req x) (Some c)
          (header_Get (ReqHeader (x_req x)) AgentIDHeader) (sha256_hex body) body)]) as ->
      by (views; by destruct (emitter h)).
    unfold request_meta. rewrite Hp, Hs. cbn [modifyResponse UsageTracking.trackCost].
    rewrite onCost_run, Hp, Hs. cbn [UsageTracking.meta UsageTracking.new_body fst w_store].
    cbn [verdict_world w_store].
    unfold completion_cost. cbn [UsageTracking.model].
    specialize (Hcost (Pricing.ExtractModel body)). set (cost := Pricing.Cost _ _ _) in *.
    erewrite law_log_key_sum by (try apply Hup; done).
    assert (spent < Store.MonthlyBudgetMicro c) as Hlt.
    { unfold classify in Hv. destruct (negb _ || _); [done|]. unfold exhausted in Hv.
      rewrite Hl, Hmonth in Hv. unfold over at 1 in Hv. rewrite Hsum in Hv.
      replace (0 <? Store.MonthlyBudgetMicro c) with true in Hv by lia.
      destruct (Store.MonthlyBudgetMicro c <=? spent) eqn:E; [done|]. by zbool. }
    unfold in_int64, int64_min, int64_max in *.
    exists (spent + cost). destruct (counted_for _ _ _) eqn:Ecf.
    + cbn [r_CostUSD completion_row]. rewrite wrap64_id by (unfold in_int64, int64_min, int64_max; lia).
      split_and!; [done|lia|right; lia].
    + unfold counted_for, counted in Ecf. cbn in Ecf.
      rewrite bool_decide_eq_true_2 in Ecf by done.
      replace (since <=? time_unix (o_row (x_cost_times x))) with true in Ecf by lia. done.
Qed.

(** The monthly budget holds: however many requests a caller with a positive monthly
    budget sends one after the other within a month, blocked, failed or forwarded, the
    spend the ledger sums for the caller never passes the budget by as much as one call's
    cost [C]: it ends below the budget plus [C] (or where it started, if that was higher). *)
Theorem monthly_budget_holds h c p xs w since (C spent : Z) :
  ledger_up S -> ledger h = true -> price h = Some p -> store h = true ->
  Forall (in_month since) xs ->
  Forall (fun x => forall model,
    0 <= Pricing.Cost (Pricing.ps_PriceFor p model).1 (x_prompt x) (x_completion x) <= C) xs ->
  0 < Store.MonthlyBudgetMicro c -> Store.MonthlyBudgetMicro c + C <= int64_max ->
  in_int64 spent -> SumActualCostForKeySince (w_store w) (c_ID c) since = Some spent ->
  exists spent',
    SumActualCostForKeySince (w_store (exchanges_run h (Some c) xs w)) (c_ID c) since = Some spent'
    /\ spent <= spent' <= Z.max spent (Store.MonthlyBudgetMicro c - 1 + C).
Proof.
  intros Hup Hl Hp Hs Hin Hcost HM Hmax. revert w spent.
  induction xs as [|x xs IH]; intros w spent Hspent Hsum; cbn [exchanges_run].
  { exists spent. split; [done|]. lia. }
  apply Forall_cons in Hin as [Hx Hin]. apply Forall_cons in Hcost as [Hcx Hcost].
  destruct (exchange_spend h c x w since p C spent Hup Hl Hp Hs Hx Hcx HM Hmax Hspent Hsum)
    as (s1 & Hs1 & Hle1 & Hb1).
  destruct (IH Hin Hcost (exchange_run h (Some c) x w).1 s1) as (s2 & Hs2 & Hb2); [|done|].
  { unfold in_int64 in *. lia. }
  exists s2. split; [done|]. lia.
Qed.
End MonthlyBudget.

(** ** Clearing an agent's history *)

(** DELETE /v1/agent/{id}/history, with a plain detector that keeps its contract:
    answered 204 without forwarding anything, and the agent's next request, whatever it
    is, is not blocked. *)
Theorem delete_history_clears `{!DetectorLaws D ok} h t r w id t' r' ctx ctx' :
  payload_checker (D := D) = None -> ok (w_det w) ->
  Segments r = ["v1"; "agent"; id; "history"] -> Method r = "DELETE" -> id <> "" ->
  header_Get (ReqHeader r') AgentIDHeader = id ->
  let '(w', es, _) := mux h t r ctx w in
  forwards es = [] /\ (Status <$> responses es) = [204] /\ w_store w' = w_store w
  /\ forall body res, classify h w' t' r' ctx' <> Blocked body res.
Proof.
  intros Hpc Hok Hseg Hmeth Hid Hagent. unfold mux. rewrite Hseg, Hmeth.
  cbn [String.eqb Ascii.eqb Bool.eqb andb]. destruct (String.eqb_spec id ""); [done|]. cbn [negb andb].
  split_and!; try done. intros body res Hv. unfold classify in Hv.
  destruct (negb _ || _); [done|]. destruct (exhausted _ _ _ _) as [[? [[? ?] ?]]|]; [done|].
  destruct (_ <? _); [done|]. destruct (read_limited _ _) as [body'|]; [|done].
  unfold checked in Hv. rewrite Hpc, Hagent in Hv. cbn [w_det] in Hv.
  rewrite (law_reset_proceeds (w_det w)) in Hv by done. done.
Qed.
End Properties.

(** ** The two detectors cmd/proxy wires *)

#[export] Instance hash_detector_payload : PayloadCapability HashDetector.HashDetector :=
  {| payload_checker := None |}.
#[export] Instance pipeline_payload `{Detector D}
    {RS : RangeOrder AgentID StructuralHasher.structuralState}
    {RT : RangeOrder AgentID ToolMatcher.toolState}
    {RV : RangeOrder AgentID VelocityBreaker.velocityState} : PayloadCapability (Pipeline.Pipeline D) :=
  {| payload_checker := Some Pipeline.CheckPayload |}.

(** ** A concrete proxy

    The exact detector of two repeats, the memory store, a flat price of one micro-dollar
    per token. *)

Section Witness.
#[local] Existing Instances HashDetector.key_eq_dec HashDetector.key_countable
  HashDetector.hash_detector_Detector HashDetector.hash_detector_laws.
Local Instance order_key : RangeOrder HashDetector.key HashDetector.entry := canonical_range _ _.
Local Instance flat_price : Pricing.PriceSource unit :=
  {| Pricing.ps_PriceFor _ _ := ({| Pricing.InputUSD := 1000000; Pricing.OutputUSD := 1000000 |}, true);
     Pricing.ps_EstimatePromptTokens _ body := Pricing.EstimatePromptTokens_default body;
     Pricing.ps_SavedCost _ _ := 7; Pricing.ps_AssumedCompletionTokens _ := 5 |}.

Definition sample_upstream : url :=
  {| Scheme := "http"; u_Host := "localhost:11434"; Path := bytes_of_string "/v1/"; RawPath := []; RawQuery := [] |}.

Definition sample_handler : handler unit :=
  NewHandler sample_upstream (Some tt) [WithStore false; WithNotifier (Some None); WithBudgetSpender true;
                        WithLogStream true; WithMetrics true; WithCostThreshold (Some 50)].

Definition sample_world : world HashDetector.HashDetector MemoryStore BudgetMonitor :=
  Build_world (HashDetector.NewHashDetector (5 * Minute) 2) Store.New
    (NewBudgetMonitor {| Budget.DailyBudgetMicro := 100; ThresholdPct := [50] |}).

Definition times_at (sec : Z) : times :=
  let n := unix_time sec in
  {| t_gate := n; t_exceeded := n; t_emit := n;
     t_check := {| Pipeline.c_exact := n; Pipeline.c_structural := n; Pipeline.c_tools := n;
                   Pipeline.c_velocity := n |};
     t_mark := n; t_trigger := n; t_row := n; t_event := n; t_live := n; t_start := n |}.
Definition cost_times_at (sec : Z) : cost_times :=
  let n := unix_time sec in
  {| o_since := n; o_mark := n; o_row := n; o_day := n; o_spend := n; o_live := n; o_alert := n |}.

(** A request from the local network. *)
Definition local_request (method : string) (segs : list string) (hd : Header) (body : list byte) : Request :=
  {| Method := method;
     URL := {| Scheme := ""; u_Host := ""; RawPath := []; RawQuery := [];
               Path := concat ((fun s => slash ++ bytes_of_string s) <$> segs) |};
     Host := "localhost:8080"; ClientIP := Some "10.0.0.7"; TLS := false; Segments := segs; ReqHeader := hd;
     ContentLength := Z.of_nat (length body); Body := body; BodyErr := false |}.

Definition sample_request : Request :=
  local_request "POST" ["v1"; "chat"] (header_Set ∅ AgentIDHeader "a") (bytes_of_string "[1,2]").

Definition sample_caller : Caller :=
  {| c_ID := "k1"; c_Name := "team"; Store.MonthlyBudgetMicro := 100; Store.DailyBudgetMicro := 0 |}.

Definition sample_exchange (n : Z) : exchange :=
  {| x_times := times_at (1000 + n); x_req :=
       local_request "POST" ["v1"; "chat"] (header_Set ∅ AgentIDHeader "a")
         (bytes_of_string "[1,2" ++ bytes_of_string (itoa n));
     x_cost_times := cost_times_at (1000 + n); x_status := 200; x_prompt := 30; x_completion := 30 |}.

(** The second identical request is blocked. *)
Lemma blocked_request_witness :
  let w := (ServeHTTP sample_handler (times_at 1000) sample_request None sample_world).1.1 in
  let '(_, es, _) := ServeHTTP sample_handler (times_at 1001) sample_request None w in
  forwards es = [] /\ Status <$> responses es = [429]
  /\ ((fun row => (r_AgentID row, r_CostUSD row, r_IsLoopBlocked row)) <$> logged es) = [("a"%string, 7, true)].
Proof.
  intros w.
  pose proof (blocked_request sample_handler (times_at 1001) sample_request None w
    (bytes_of_string "[1,2]")
    {| Block := true; Reason := ReasonExactHash; RetryAfter := 299; FirstBlock := true |}) as Hb.
  destruct (ServeHTTP sample_handler (times_at 1001) sample_request None w) as [[w' es] u].
  destruct Hb as (_ & _ & _ & Hf & Hr & Hl & _); [vm_compute; reflexivity|].
  split; [exact Hf|]. split; [rewrite Hr; reflexivity|]. rewrite Hl. vm_compute. reflexivity.
Defined.

(** After two calls of 60 micro-dollars the third is stopped, and so the month ends at 120. *)
Lemma monthly_budget_holds_witness :
  exists spent,
  SumActualCostForKeySince (w_store (exchanges_run sample_handler (Some sample_caller)
    [sample_exchange 1; sample_exchange 2; sample_exchange 3] sample_world)) "k1" 0 = Some spent
  /\ spent = 120 /\ 0 <= spent <= 159.
Proof.
  destruct (monthly_budget_holds sample_handler sample_caller tt
    [sample_exchange 1; sample_exchange 2; sample_exchange 3] sample_world 0 60 0)
    as (spent & Hsum & Hb).
  - split; [done|]. intros. by eexists.
  - done.
  - done.
  - done.
  - repeat constructor; vm_compute; discriminate.
  - repeat constructor; vm_compute; discriminate.
  - done.
  - vm_compute. discriminate.
  - split; vm_compute; discriminate.
  - reflexivity.
  - exists spent. split; [exact Hsum|]. split; [|exact Hb].
    assert (SumActualCostForKeySince (w_store (exchanges_run sample_handler (Some sample_caller)
      [sample_exchange 1; sample_exchange 2; sample_exchange 3] sample_world)) "k1" 0 = Some 120) as Hv
      by (vm_compute; reflexivity).
    cbn [c_ID sample_caller] in Hsum. congruence.
Defined.
(** With 120 micro-dollars spent this month, the gate answers until the month's end. *)
Lemma budget_gate_enforced_witness :
  let w := exchanges_run sample_handler (Some sample_caller) [sample_exchange 1; sample_exchange 2]
             sample_world in
  let '(w', es, _) :=
    ServeHTTP sample_handler (times_at 1003) sample_request (Some sample_caller) w in
  w' = w /\ forwards es = [] /\ Status <$> responses es = [429].
Proof.
  intros w.
  destruct (budget_gate_enforced sample_handler (times_at 1003) sample_request sample_caller w) as (Hm & _).
  - reflexivity.
  - discriminate.
  - reflexivity.
  - assert (reached w sample_caller (Store.MonthlyBudgetMicro sample_caller)
      (utcMonthStart (t_gate (times_at 1003)))) as Hr.
    { split; [reflexivity|]. exists 120. split; [vm_compute; reflexivity|vm_compute; discriminate]. }
    specialize (Hm Hr). cbv zeta in Hm.
    destruct (ServeHTTP sample_handler (times_at 1003) sample_request (Some sample_caller) w)
      as [[w' es] u].
    destruct Hm as (Hw & Hf & _ & _ & resp & Hresp & Hstatus & _).
    split; [exact Hw|]. split; [exact Hf|]. rewrite Hresp. cbn. by rewrite <- Hstatus.
Defined.

(** The first request of an agent, with a forged forwarding header and one for this hop
    only, goes to the upstream's base path without them. *)
Definition forged_request : Request :=
  local_request "POST" ["chat"]
    (header_Set (header_Set (header_Set (header_Set (header_Set ∅ AgentIDHeader "a") "X-Forwarded-For" "6.6.6.6")
       "Connection" "X-Hop") "X-Hop" "1") "Accept" "*/*") (bytes_of_string "[1,2]").

Lemma forwarding_transparent_witness :
  let '(_, es, _) := ServeHTTP sample_handler (times_at 1000) forged_request None sample_world in
  exists out meta, forwards es = [(Some out, meta)] /\ Body out = bytes_of_string "[1,2]"
    /\ string_of_bytes (EscapedPath (URL out)) = "/v1/chat" /\ ReqHeader out !! "X-Finops-Agent-Id" = None
    /\ ReqHeader out !! "X-Forwarded-For" = Some ["10.0.0.7"] /\ ReqHeader out !! "X-Hop" = None
    /\ ReqHeader out !! "Accept" = Some ["*/*"].
Proof.
  set (sent := outgoing sample_handler (rewind forged_request (Body forged_request))).
  set (meta := request_meta sample_handler (times_at 1000) forged_request None "a"
    (sha256_hex (Body forged_request)) (Body forged_request)).
  pose proof (forwarding_transparent sample_handler (times_at 1000) forged_request None sample_world
    sent meta) as Hf.
  assert (forwards (ServeHTTP sample_handler (times_at 1000) forged_request None sample_world).1.2
          = [(sent, meta)]) as Hes by (vm_compute; reflexivity).
  assert (bool_decide (is_Some sent) = true) as Hs by (vm_compute; reflexivity).
  destruct (ServeHTTP sample_handler (times_at 1000) forged_request None sample_world) as [[w' es] u].
  cbn [fst snd] in Hes. rewrite Hes in *. clear Hes.
  destruct Hf as [Hf _]; [apply list_elem_of_singleton; reflexivity|].
  destruct sent as [out|]; [|discriminate Hs]. exists out, meta. split; [reflexivity|].
  destruct Hf as (_ & Hb & _ & _ & _ & Hp & _ & Hk & _ & Hg & Hc & Hx & _).
  split; [exact Hb|]. split; [rewrite Hp; [vm_compute; reflexivity|..]; vm_compute; discriminate|].
  split; [exact (Forall_inv Hg)|]. split; [exact Hx|].
  split; [apply Hc|rewrite Hk]; try (apply (bool_decide_unpack _); vm_compute; exact I).
Defined.

(** After a block, DELETE lets the same request through again. *)
Lemma delete_history_clears_witness :
  let w := (ServeHTTP sample_handler (times_at 1000) sample_request None sample_world).1.1 in
  let del := local_request "DELETE" ["v1"; "agent"; "a"; "history"] ∅ [] in
  let '(w', es, _) := mux sample_handler (times_at 1001) del None w in
  Status <$> responses es = [204]
  /\ forall body res, classify sample_handler w' (times_at 1002) sample_request None <> Blocked body res.
Proof.
  intros w del.
  pose proof (delete_history_clears (ok := HashDetector.wf) sample_handler (times_at 1001) del w "a"
    (times_at 1002) sample_request None None) as Hd.
  destruct (mux sample_handler (times_at 1001) del None w) as [[w' es] u].
  destruct Hd as (_ & Hr & _ & Hn).
  - reflexivity.
  - vm_compute. split; [reflexivity|discriminate].
  - reflexivity.
  - reflexivity.
  - discriminate.
  - vm_compute. reflexivity.
  - split; [exact Hr|exact Hn].
Defined.
End Witness.
