(* ===== verification/Traffic.v ===== *)
(** * Concurrent traffic through the handler (pkg/proxy/handler.go, cost_tracking.go)

    Requests overlap: while one caller's call is upstream, others are served, and a call is
    billed only when its response ends. [traffic_step] interleaves the two halves of every
    request - serving it up to the forward, and finalizing its response - in any order and
    for any callers; the theorems bound what overlapping requests can do to a budget and
    what a looping agent can get past the detector. *)

From S2P Require Import Prelude Store Budget GoHttp GoSha256 Detector Handler.
From S2P Require Metrics Auth Pricing UsageTracking Pipeline HashDetector.

(** ** Interleavings

    Serving a request is one step: of its effects only the gate's reading matters to the
    others' budget, so the step stands for that moment. *)
Inductive traffic_event :=
  | Serve (ctx : option Caller) (t : times) (r : Request)
  | Finish (i : nat) (t : cost_times) (status : Z) (contentType : string) (pt ct : Z)
  | Lost (i : nat).                 (* the transport failed: no response to observe *)

Record traffic (D S B : Type) := { t_world : world D S B; inflight : list UsageTracking.reqMeta }.
Arguments t_world {D S B} _.
Arguments inflight {D S B} _.
Arguments Build_traffic {D S B} _ _.

Section Traffic.
Context {D S B P : Type}.
Context `{Detector D, PayloadCapability D, RequestLogStore S, BudgetLedger S, BudgetSpender B,
          Pricing.PriceSource P}.
Implicit Types (h : handler P) (st : traffic D S B) (w : world D S B).

(** The [i]-th call in flight finalizes its response (at most once, see UsageTracking). *)
Definition finish h (i : nat) (t : cost_times) (status : Z) (contentType : string) (pt ct : Z) st :
    traffic D S B * list effect :=
  match inflight st !! i with
  | None => (st, [])
  | Some m =>
      let rest := delete i (inflight st) in
      match modifyResponse (Some m) status contentType with
      | Some b =>
          let '(w, es, _) := onCost h t (UsageTracking.meta b) pt ct (t_world st) in
          (Build_traffic w rest, es)
      | None => (Build_traffic (t_world st) rest, [])
      end
  end.

Definition traffic_step h (e : traffic_event) st : traffic D S B * list effect :=
  match e with
  | Serve ctx t r =>
      let '(w, es, _) := ServeHTTP h t r ctx (t_world st) in
      (Build_traffic w (inflight st ++ omap snd (forwards es)), es)
  | Finish i t status contentType pt ct => finish h i t status contentType pt ct st
  | Lost i => (Build_traffic (t_world st) (delete i (inflight st)), [])
  end.

Fixpoint traffic_run h (evs : list traffic_event) st : traffic D S B * list (list effect) :=
  match evs with
  | [] => (st, [])
  | e :: evs' =>
      let '(st1, es) := traffic_step h e st in
      let '(st2, ess) := traffic_run h evs' st1 in (st2, es :: ess)
  end.

(** The calls of one caller in flight. *)
Definition own (id : string) (l : list UsageTracking.reqMeta) : nat :=
  length (filter (fun m => UsageTracking.callerID m = id) l).

(** At no point of the run has the caller more than [n] calls in flight. *)
Fixpoint at_most (id : string) (n : nat) h (evs : list traffic_event) st : Prop :=
  (own id (inflight st) <= n)%nat
  /\ match evs with [] => True | e :: evs' => at_most id n h evs' (traffic_step h e st).1 end.

(** ** What each event does to a caller's spend *)

Lemma own_app id l1 l2 : own id (l1 ++ l2) = (own id l1 + own id l2)%nat.
Proof. unfold own. by rewrite filter_app, length_app. Qed.

Lemma own_delete id (l : list UsageTracking.reqMeta) i m :
  l !! i = Some m ->
  own id l = (own id (delete i l) + (if bool_decide (UsageTracking.callerID m = id) then 1 else 0))%nat.
Proof.
  intros Hi. rewrite <- (take_drop_middle l i m Hi) at 1. rewrite delete_take_drop, !own_app.
  unfold own at 2. rewrite filter_cons. unfold own. case_bool_decide; case_decide; try done; csimpl; lia.
Qed.

Lemma own_delete_le id (l : list UsageTracking.reqMeta) i : (own id (delete i l) <= own id l)%nat.
Proof.
  destruct (l !! i) as [m|] eqn:Hi.
  - rewrite (own_delete id l i m Hi). lia.
  - apply lookup_ge_None in Hi. rewrite delete_take_drop, take_ge, drop_ge, app_nil_r by lia. lia.
Qed.

Section Spend.
Context `{!LedgerLaws S}.

(** Serving never changes what the caller has spent; and a call of the caller joins those
    in flight only while the month's spend is below the budget. *)
Lemma serve_spend h c t r ctx w (spent : Z) :
  ledger_up S -> ledger h = true ->
  (callerID ctx = c_ID c -> ctx = Some c) ->
  0 < Store.MonthlyBudgetMicro c ->
  (callerID ctx = c_ID c -> 
    SumActualCostForKeySince (w_store w) (c_ID c) (utcMonthStart (t_gate t)) = Some spent) ->
  let '(w', es, _) := ServeHTTP h t r ctx w in
  (forall since, SumActualCostForKeySince (w_store w') (c_ID c) since
                 = SumActualCostForKeySince (w_store w) (c_ID c) since)
  /\ (own (c_ID c) (omap snd (forwards es)) = 0%nat
      \/ own (c_ID c) (omap snd (forwards es)) = 1%nat /\ spent < Store.MonthlyBudgetMicro c).
Proof.
  intros [Hlog Hup] Hl Hctx HM Hsum. pose proof (served_forwards h t r ctx w) as Hf.
  rewrite ServeHTTP_run in *. cbn [fst snd] in Hf. rewrite Hf.
  destruct (classify h w t r ctx) as [|c' sp ra rs| |body res|body] eqn:Hv;
    cbn [verdict_world w_store]; (split; [intros since|]); try done; try (by left).
  - unfold block_store. destruct (price h) as [p|]; [|done]. destruct (store h); [|done].
    destruct (Hup (w_store w) (c_ID c) since) as [x Hx].
    by rewrite Hx, (law_log_key_sum _ _ _ _ x), blocked_row_free.
  - unfold request_meta. destruct (price h); [|by left]. destruct (store h); [|by left].
    cbn [omap list_omap snd]. unfold own. rewrite filter_cons. cbn [UsageTracking.callerID].
    case_decide as Hid; [right|by left]. split; [done|]. rewrite (Hctx Hid) in *.
    unfold classify in Hv. destruct (negb _ || _); [done|]. unfold exhausted in Hv.
    rewrite Hl in Hv. unfold over at 1 in Hv. rewrite Hsum in Hv by done.
    replace (0 <? Store.MonthlyBudgetMicro c) with true in Hv by lia.
    destruct (Store.MonthlyBudgetMicro c <=? spent) eqn:E; [done|]. by zbool.
Qed.

(** A response's end adds at most its own cost, and only to its own caller. *)
Lemma finish_spend h id i t status contentType pt ct st p since (C spent : Z) :
  ledger_up S -> price h = Some p ->
  (forall model, 0 <= Pricing.Cost (Pricing.ps_PriceFor p model).1 pt ct <= C) ->
  in_int64 spent -> spent + C * Z.of_nat (own id (inflight st)) <= int64_max ->
  SumActualCostForKeySince (w_store (t_world st)) id since = Some spent ->
  let st' := (finish h i t status contentType pt ct st).1 in
  exists spent', SumActualCostForKeySince (w_store (t_world st')) id since = Some spent'
    /\ spent <= spent'
    /\ spent' + C * Z.of_nat (own id (inflight st')) <= spent + C * Z.of_nat (own id (inflight st)).
Proof.
  intros [Hlog Hup] Hp Hcost Hspent Hmax Hsum st'. subst st'. unfold finish.
  assert (0 <= C) as HC by (destruct (Hcost ""); lia).
  destruct (inflight st !! i) as [m|] eqn:Hi; [|exists spent; cbn; split_and!; [done|lia|lia]].
  pose proof (own_delete id _ _ _ Hi) as Hown.
  destruct (modifyResponse (Some m) status contentType) as [b|] eqn:Hb.
  2:{ exists spent. cbn [fst inflight t_world]. rewrite Hown. split_and!; [done|lia|nia]. }
  assert (UsageTracking.callerID (UsageTracking.meta b) = UsageTracking.callerID m) as Hid.
  { unfold modifyResponse in Hb. destruct (UsageTracking.trackCost m); [|done]. by simplify_eq. }
  rewrite onCost_run, Hp. destruct (store h).
  2:{ exists spent. cbn [fst inflight t_world]. rewrite Hown. split_and!; [done|lia|nia]. }
  cbn [fst t_world w_store inflight]. fold (completion_cost p (UsageTracking.meta b) pt ct).
  pose proof (Hcost (UsageTracking.model (UsageTracking.meta b))) as Hc.
  fold (completion_cost p (UsageTracking.meta b) pt ct) in Hc.
  rewrite (law_log_key_sum _ _ _ _ spent (Hlog _ _) Hsum).
  destruct (counted_for id since _) eqn:Ecf.
  - unfold counted_for in Ecf. apply andb_true_iff in Ecf as [_ Ek].
    cbn [r_KeyID completion_row] in Ek. rewrite Hid in Ek. rewrite Ek in Hown. rewrite Hown in Hmax.
    cbn [r_CostUSD completion_row]. unfold in_int64 in Hspent.
    rewrite wrap64_id by (unfold in_int64, int64_min, int64_max in *; nia).
    eexists. split_and!; [done|lia|]. cbn [inflight]. rewrite Hown. lia.
  - exists spent. split_and!; [done|lia|]. cbn [inflight]. rewrite Hown. nia.
Qed.

(** The clock of the gate is in the month, and the caller is known by its id. *)
Definition served_in (c : Caller) (since : Z) (e : traffic_event) : Prop :=
  match e with
  | Serve ctx t _ => callerID ctx = c_ID c -> ctx = Some c /\ utcMonthStart (t_gate t) = since
  | _ => True
  end.

(** A call costs at most [C]. *)
Definition costs_at_most (p : P) (C : Z) (e : traffic_event) : Prop :=
  match e with
  | Finish _ _ _ _ pt ct => forall model, 0 <= Pricing.Cost (Pricing.ps_PriceFor p model).1 pt ct <= C
  | _ => True
  end.

(** One event keeps the potential - the spend, plus the most the calls in flight can still
    add - under any bound that covers a full house admitted just below the budget. *)
Lemma traffic_step_spend h c p e st since (C spent : Z) n Bd :
  ledger_up S -> ledger h = true -> price h = Some p ->
  served_in c since e -> costs_at_most p C e -> 0 <= C ->
  0 < Store.MonthlyBudgetMicro c -> Store.MonthlyBudgetMicro c - 1 + C * Z.of_nat n <= Bd <= int64_max ->
  in_int64 spent -> SumActualCostForKeySince (w_store (t_world st)) (c_ID c) since = Some spent ->
  spent + C * Z.of_nat (own (c_ID c) (inflight st)) <= Bd ->
  let st' := (traffic_step h e st).1 in
  (own (c_ID c) (inflight st') <= n)%nat ->
  exists spent', SumActualCostForKeySince (w_store (t_world st')) (c_ID c) since = Some spent'
    /\ spent <= spent' /\ spent' + C * Z.of_nat (own (c_ID c) (inflight st')) <= Bd.
Proof.
  intros Hup Hl Hp Hserve Hcost HC HM HB Hspent Hsum Hpot st' Hn. subst st'.
  destruct e as [ctx t r|i t status ty pt ct|i]; cbn [traffic_step served_in costs_at_most] in *.
  - pose proof (serve_spend h c t r ctx (t_world st) spent Hup Hl) as Hs.
    destruct (ServeHTTP h t r ctx (t_world st)) as [[w' es] u]. cbn [fst inflight t_world] in *.
    destruct Hs as [Hsame Hjoin]; [by intros Hid; destruct (Hserve Hid)|done| |].
    { intros Hid. by destruct (Hserve Hid) as [_ ->]. }
    exists spent. rewrite Hsame. split_and!; [done|lia|]. rewrite own_app in Hn |- *.
    pose proof (Z.mul_le_mono_nonneg_l _ _ C HC (proj1 (Nat2Z.inj_le _ _) Hn)).
    destruct Hjoin as [E|[E Hlt]]; rewrite E in *; [by rewrite Nat.add_0_r|lia].
  - destruct (finish_spend h (c_ID c) i t status ty pt ct st p since C spent Hup Hp Hcost Hspent
      ltac:(lia) Hsum) as (s & Hs & Hle & Hb). exists s. split_and!; [done|lia|lia].
  - exists spent. cbn [fst t_world inflight] in *. pose proof (own_delete_le (c_ID c) (inflight st) i).
    split_and!; [done|lia|nia].
Qed.

(** C6. The monthly budget under concurrency: whatever requests of whatever callers overlap in
    whatever order, if the caller never has more than [n] calls in flight and a call costs
    at most [C], then what it has spent in the month, and even that plus [C] for each of
    its calls still in flight, stays below the budget plus [n * C] (or where it started,
    if that was higher): the gate can be overshot only by what was in flight. *)
Theorem concurrent_budget_holds h c p evs st since (C spent : Z) n :
  let Bd := Z.max (spent + C * Z.of_nat (own (c_ID c) (inflight st)))
                  (Store.MonthlyBudgetMicro c - 1 + C * Z.of_nat n) in
  ledger_up S -> ledger h = true -> price h = Some p ->
  Forall (served_in c since) evs -> Forall (costs_at_most p C) evs -> 0 <= C ->
  0 < Store.MonthlyBudgetMicro c -> Bd <= int64_max ->
  in_int64 spent -> SumActualCostForKeySince (w_store (t_world st)) (c_ID c) since = Some spent ->
  at_most (c_ID c) n h evs st ->
  let st' := (traffic_run h evs st).1 in
  exists spent', SumActualCostForKeySince (w_store (t_world st')) (c_ID c) since = Some spent'
    /\ spent <= spent' /\ spent' + C * Z.of_nat (own (c_ID c) (inflight st')) <= Bd.
Proof.
  intros Bd Hup Hl Hp Hin Hcost HC HM HB Hspent Hsum Hmost. cbn zeta.
  assert (spent + C * Z.of_nat (own (c_ID c) (inflight st)) <= Bd
          /\ Store.MonthlyBudgetMicro c - 1 + C * Z.of_nat n <= Bd) as [Hpot HMB] by lia.
  clearbody Bd. revert st spent Hspent Hsum Hmost Hpot.
  induction evs as [|e evs IH]; intros st spent Hspent Hsum Hmost Hpot; cbn [traffic_run].
  { exists spent. split_and!; [done|lia|done]. }
  apply Forall_cons in Hin as [He Hin]. apply Forall_cons in Hcost as [Hce Hcost].
  destruct Hmost as [_ Hmost].
  assert ((own (c_ID c) (inflight (traffic_step h e st).1) <= n)%nat) as Hn
    by (by destruct evs, Hmost).
  destruct (traffic_step_spend h c p e st since C spent n Bd Hup Hl Hp He Hce HC HM ltac:(lia) Hspent
    Hsum Hpot Hn) as (s1 & Hs1 & Hle1 & Hpot1).
  destruct (traffic_step h e st) as [st1 es]. cbn [fst] in *.
  destruct (IH Hin Hcost st1 s1) as (s2 & Hs2 & Hle2 & Hpot2); [|done..|].
  { unfold in_int64 in *. nia. }
  destruct (traffic_run h evs st1) as [st2 ess]. exists s2. split_and!; [done|lia|done].
Qed.
End Spend.
End Traffic.

(** ** What a loop gets past the detector *)

Section Loop.
Context {S B P : Type}.
Context `{RequestLogStore S, BudgetLedger S, BudgetSpender B, Pricing.PriceSource P}.
#[local] Existing Instances HashDetector.key_eq_dec HashDetector.key_countable
  HashDetector.hash_detector_Detector.
Context {R : RangeOrder HashDetector.key HashDetector.entry}.
Implicit Types (h : handler P) (st : traffic HashDetector.HashDetector S B)
  (w : world HashDetector.HashDetector S B) (d : HashDetector.HashDetector).

(** The event is a request of agent [a] with a hashed body of fingerprint [fp]; the clock
    reading of its check. *)
Definition sighting (a : AgentID) (fp : Fingerprint) (e : traffic_event) : option Z :=
  match e with
  | Serve _ t r =>
      if String.eqb (Method r) "POST" && negb (ContentLength r =? 0)
         && (ContentLength r <=? MaxBodyBytes)
         && String.eqb (header_Get (ReqHeader r) AgentIDHeader) a then
        match read_limited r MaxBodyBytes with
        | Some body => if String.eqb (sha256_hex body) fp then Some (Pipeline.c_exact (t_check t)) else None
        | None => None
        end
      else None
  | _ => None
  end.

(** How often the sightings of a run were forwarded upstream. *)
Fixpoint forwarded_sightings (a : AgentID) (fp : Fingerprint) (evs : list traffic_event)
    (ess : list (list effect)) : nat :=
  match evs, ess with
  | e :: evs', es :: ess' =>
      ((if bool_decide (is_Some (sighting a fp e)) then length (forwards es) else 0)
       + forwarded_sightings a fp evs' ess')%nat
  | _, _ => 0%nat
  end.

(** [n] checks of the key in the window that started at [s] or later. *)
Definition tracked (a : AgentID) (fp : Fingerprint) (s n : Z) d : Prop :=
  match HashDetector.seen d !! HashDetector.Key a fp with
  | Some e =>
      n = 0 /\ HashDetector.expired s e = true
      \/ 1 <= n /\ HashDetector.sighted (HashDetector.limit d) (HashDetector.e_expires e) n e
         /\ time_add s (HashDetector.ttl d) <= HashDetector.e_expires e
  | None => n = 0
  end.

(** A check of the key: one more sighting, blocked from the limit on. *)
Lemma tracked_check a fp s n d now :
  tracked a fp s n d -> 0 < s -> s <= now < time_add s (HashDetector.ttl d) ->
  tracked a fp s (n + 1) (HashDetector.Check d now a fp).1
  /\ Block (HashDetector.Check d now a fp).2
     = (Z.max 2 (HashDetector.limit d) <=? n + 1).
Proof.
  intros Htr Hs Hnow. unfold tracked in *. destruct (HashDetector.Check_params d now a fp) as (Hl & Ht & _).
  assert (match HashDetector.seen d !! HashDetector.Key a fp with
          | None => True | Some e => HashDetector.expired now e = true end /\ n = 0
          \/ exists e, HashDetector.seen d !! HashDetector.Key a fp = Some e /\ 1 <= n
             /\ HashDetector.sighted (HashDetector.limit d) (HashDetector.e_expires e) n e
             /\ time_add s (HashDetector.ttl d) <= HashDetector.e_expires e)
    as [[Hf ->]|(e & He & Hn & Hsi & Hx)].
  { destruct (HashDetector.seen d !! _) as [e|]; [|by left].
    destruct Htr as [[-> Hexp]|(Hn & Hsi & Hx)]; [left|right; by exists e]. split; [|done].
    revert Hexp. unfold HashDetector.expired, time_before. zcase (s <? HashDetector.e_expires e). }
  - destruct (HashDetector.Check_fresh d now a fp Hf) as [-> ->]. rewrite Hl, Ht. split.
    + right. split_and!; [done|apply HashDetector.sighted_first|]. cbn. unfold time_add. lia.
    + cbn. zcase (Z.max 2 (HashDetector.limit d) <=? 0 + 1).
  - destruct (HashDetector.Check_repeat d now a fp e n He Hsi Hn ltac:(lia)) as (e' & -> & Hs' & Hv).
    rewrite Hl, Ht. split.
    + right. destruct Hs' as (Hc & Hx' & Hb). rewrite Hx'. split_and!; [lia|by split_and!|done].
    + injection Hv as Hb _. rewrite Hb. lia.
Qed.

(** A check of another key, with room in the map, leaves the key alone. *)
Lemma tracked_other a fp s n d now a' fp' :
  tracked a fp s n d -> (a', fp') <> (a, fp) ->
  Z.of_nat (size (HashDetector.seen d)) < HashDetector.max_entries d ->
  tracked a fp s n (HashDetector.Check d now a' fp').1.
Proof.
  intros Htr Hne Hroom. unfold tracked in *. destruct (HashDetector.Check_params d now a' fp') as (-> & -> & _).
  rewrite HashDetector.Check_seen_other; [done| |done]. congruence.
Qed.

Lemma finish_detector h i t status ty pt ct st :
  w_det (t_world (finish h i t status ty pt ct st).1) = w_det (t_world st).
Proof.
  unfold finish. destruct (inflight st !! i); [|done]. destruct (modifyResponse _ _ _); [|done].
  rewrite onCost_run. destruct (price h); [|done]. by destruct (store h).
Qed.

(** What serving a request does to the detector. *)
Lemma served_detector h t r ctx w a fp :
  let '(w', es, _) := ServeHTTP h t r ctx w in
  (w_det w' = w_det w /\ (is_Some (sighting a fp (Serve ctx t r)) -> forwards es = []))
  \/ exists body now,
       let agent := header_Get (ReqHeader r) AgentIDHeader in
       let res := HashDetector.Check (w_det w) now agent (sha256_hex body) in
       w_det w' = res.1 /\ length (forwards es) = (if Block res.2 then 0 else 1)%nat
       /\ sighting a fp (Serve ctx t r)
          = (if String.eqb agent a && String.eqb (sha256_hex body) fp then Some now else None).
Proof.
  pose proof (served_forwards h t r ctx w) as Hf. rewrite ServeHTTP_run in *. cbn [fst snd] in Hf.
  rewrite Hf. clear Hf. unfold classify. cbn [sighting].
  destruct (String.eqb (Method r) "POST"); [|left; by split; [|intros []]].
  destruct (ContentLength r =? 0); [left; by split; [|intros []]|]. cbn [negb orb andb].
  destruct (exhausted h w ctx (t_gate t)) as [[c [[sp ra] rs]]|]; [by left|].
  rewrite Z.leb_antisym. destruct (MaxBodyBytes <? ContentLength r); [left; by split; [|intros []]|].
  cbn [negb andb]. destruct (read_limited r MaxBodyBytes) as [body|]; [|by left].
  right. exists body, (Pipeline.c_exact (t_check t)). cbn zeta.
  assert (checked w t r body = HashDetector.Check (w_det w) (Pipeline.c_exact (t_check t))
    (header_Get (ReqHeader r) AgentIDHeader) (sha256_hex body)) as <- by done.
  destruct (Block (checked w t r body).2); (split_and!; [done|done|]);
    by destruct (String.eqb (header_Get _ _) a).
Qed.

(** One event: the sightings checked so far, and those forwarded. *)
Lemma traffic_step_tracked h a fp s n e st :
  let d := w_det (t_world st) in
  tracked a fp s n d -> 0 < s -> Z.of_nat (size (HashDetector.seen d)) < HashDetector.max_entries d ->
  (forall now, sighting a fp e = Some now -> s <= now < time_add s (HashDetector.ttl d)) ->
  let '(st', es) := traffic_step h e st in
  let d' := w_det (t_world st') in
  HashDetector.limit d' = HashDetector.limit d /\ HashDetector.ttl d' = HashDetector.ttl d
  /\ HashDetector.max_entries d' = HashDetector.max_entries d
  /\ (size (HashDetector.seen d') <= Datatypes.S (size (HashDetector.seen d)))%nat
  /\ (tracked a fp s n d' /\ (is_Some (sighting a fp e) -> forwards es = [])
      \/ is_Some (sighting a fp e) /\ tracked a fp s (n + 1) d'
         /\ Z.of_nat (length (forwards es)) = if Z.max 2 (HashDetector.limit d) <=? n + 1 then 0 else 1).
Proof.
  intros d Htr Hs Hroom Hclock. subst d. destruct e as [ctx t r|i t status ty pt ct|i].
  - pose proof (served_detector h t r ctx (t_world st) a fp) as Hd. cbn [traffic_step].
    destruct (ServeHTTP h t r ctx (t_world st)) as [[w' es] u]. cbn [t_world].
    destruct Hd as [[-> Hes]|(body & now & -> & Hlen & Hsi)].
    { split_and!; [done..|lia|by left]. }
    destruct (HashDetector.Check_params (w_det (t_world st)) now
      (header_Get (ReqHeader r) AgentIDHeader) (sha256_hex body)) as (Hl & Ht & Hm).
    destruct (HashDetector.Check_size (w_det (t_world st)) now (header_Get (ReqHeader r) AgentIDHeader)
      (sha256_hex body)) as [_ Hsz]; [split; lia|].
    split_and!; [done..|]. rewrite Hsi in *.
    destruct (String.eqb_spec (header_Get (ReqHeader r) AgentIDHeader) a) as [Ha|Ha];
      [destruct (String.eqb_spec (sha256_hex body) fp) as [Hb|Hb]|]; cbn [andb] in *.
    + right. rewrite Ha, Hb in *. destruct (tracked_check a fp s n (w_det (t_world st)) now Htr Hs) as [Htr' HB];
        [by apply Hclock|]. split_and!; [done|done|]. rewrite Hlen, HB. by destruct (_ <=? n + 1).
    + left. split; [|by intros []]. apply tracked_other; [done|congruence|done].
    + left. split; [|by intros []]. apply tracked_other; [done|congruence|done].
  - cbn [traffic_step]. pose proof (finish_detector h i t status ty pt ct st) as Hd.
    destruct (finish h i t status ty pt ct st) as [st' es]. cbn [fst] in Hd. rewrite Hd.
    split_and!; [done..|lia|left; by split; [|intros []]].
  - cbn. split_and!; [done..|lia|left; by split; [|intros []]].
Qed.

(** C7. A looping agent is stopped, end to end: whatever else the proxy serves, finishes or
    loses in between, and in whatever order, of the requests of one agent with one body
    made within a time to live at most [limit - 1] (and at most one, if the limit is below
    two) are ever forwarded upstream, as long as the detector's map has room. *)
Theorem loop_stopped h a fp s evs st :
  let d := w_det (t_world st) in
  match HashDetector.seen d !! HashDetector.Key a fp with
  | Some e => HashDetector.expired s e = true | None => True end ->
  0 < s ->
  Z.of_nat (size (HashDetector.seen d) + length evs) < HashDetector.max_entries d ->
  Forall (fun e => forall now, sighting a fp e = Some now ->
                   s <= now < time_add s (HashDetector.ttl d)) evs ->
  Z.of_nat (forwarded_sightings a fp evs (traffic_run h evs st).2)
  <= Z.max 2 (HashDetector.limit d) - 1.
Proof.
  intros d Hfresh Hs Hroom Hclock. subst d.
  assert (exists n, 0 <= n /\ tracked a fp s n (w_det (t_world st))
    /\ Z.max 0 (Z.max 2 (HashDetector.limit (w_det (t_world st))) - 1 - n)
       <= Z.max 2 (HashDetector.limit (w_det (t_world st))) - 1) as (n & Hn & Htr & Hle).
  { exists 0. unfold tracked. destruct (HashDetector.seen _ !! _); split_and!; try lia; try done. by left. }
  etrans; [|exact Hle]. clear Hfresh Hle. revert st n Hn Htr Hroom Hclock.
  induction evs as [|e evs IH]; intros st n Hn Htr Hroom Hclock; cbn [forwarded_sightings traffic_run]; [lia|].
  apply Forall_cons in Hclock as [He Hclock].
  pose proof (traffic_step_tracked h a fp s n e st Htr Hs ltac:(cbn in Hroom; lia) He) as Hstep.
  destruct (traffic_step h e st) as [st1 es]. destruct Hstep as (Hl & Ht & Hm & Hsz & Hcase).
  destruct (traffic_run h evs st1) as [st2 ess] eqn:Er. cbn [snd forwarded_sightings].
  assert (forall n1, 0 <= n1 -> tracked a fp s n1 (w_det (t_world st1)) ->
    Z.of_nat (forwarded_sightings a fp evs ess)
    <= Z.max 0 (Z.max 2 (HashDetector.limit (w_det (t_world st))) - 1 - n1)) as IH'.
  { intros n1 Hn1 Htr1. rewrite <- Hl. specialize (IH st1 n1 Hn1 Htr1). rewrite Er in IH. apply IH.
    - cbn in Hroom. lia.
    - by rewrite Ht. }
  destruct Hcase as [[Htr1 Hes]|(Hsi & Htr1 & Hlen)].
  - specialize (IH' n Hn Htr1). case_bool_decide as Hsi; [rewrite (Hes Hsi)|]; cbn [length]; lia.
  - specialize (IH' (n + 1) ltac:(lia) Htr1). rewrite bool_decide_eq_true_2 by done.
    destruct (Z.max 2 _ <=? n + 1) eqn:E; zbool; lia.
Qed.
End Loop.

(** ** Witnesses *)

Section Witness.
#[local] Existing Instances HashDetector.key_eq_dec HashDetector.key_countable
  HashDetector.hash_detector_Detector order_key flat_price.

Definition sample_traffic : traffic HashDetector.HashDetector MemoryStore BudgetMonitor :=
  Build_traffic sample_world [].

(** Two calls overlap, both admitted below the budget of 100; the third is stopped. *)
Definition overlapping : list traffic_event :=
  [Serve (Some sample_caller) (times_at 1000) (x_req (sample_exchange 1));
   Serve (Some sample_caller) (times_at 1001) (x_req (sample_exchange 2));
   Finish 1 (cost_times_at 1002) 200 "" 30 30;
   Finish 0 (cost_times_at 1003) 200 "" 30 30;
   Serve (Some sample_caller) (times_at 1004) (x_req (sample_exchange 3))].

Lemma concurrent_budget_holds_witness :
  exists spent,
    SumActualCostForKeySince (w_store (t_world (traffic_run sample_handler overlapping sample_traffic).1))
      "k1" 0 = Some spent
    /\ spent = 120 /\ 100 < spent <= 99 + 60 * 2.
Proof.
  destruct (concurrent_budget_holds sample_handler sample_caller tt overlapping sample_traffic 0 60 0 2)
    as (spent & Hsum & _ & Hb).
  - split; [done|]. intros. by eexists.
  - done.
  - done.
  - repeat (apply Forall_cons_2; [|]); try apply Forall_nil_2; try exact I;
      intros _; (split; [reflexivity|vm_compute; reflexivity]).
  - repeat (apply Forall_cons_2; [|]); try apply Forall_nil_2; try exact I;
      intros ?; (split; vm_compute; discriminate).
  - discriminate.
  - reflexivity.
  - vm_compute. discriminate.
  - split; vm_compute; discriminate.
  - reflexivity.
  - cbn [at_most overlapping]. split_and!; try exact I; apply Nat.leb_le; vm_compute; reflexivity.
  - assert (SumActualCostForKeySince
      (w_store (t_world (traffic_run sample_handler overlapping sample_traffic).1)) "k1" 0 = Some 120) as Hv
      by (vm_compute; reflexivity).
    cbn [c_ID sample_caller] in Hsum. exists spent. split; [exact Hsum|].
    assert (spent = 120) as -> by congruence. split; [reflexivity|]. by split.
Defined.

(** The same body three times, another in between: only the first of them goes out. *)
Definition looping : list traffic_event :=
  [Serve None (times_at 1000) sample_request;
   Serve None (times_at 1001) (x_req (sample_exchange 1));
   Serve None (times_at 1002) sample_request;
   Finish 0 (cost_times_at 1003) 200 "" 30 30;
   Serve None (times_at 1004) sample_request].

Definition sample_fp : Fingerprint := sha256_hex (bytes_of_string "[1,2]").

Lemma loop_stopped_witness :
  Z.of_nat (forwarded_sightings "a" sample_fp looping (traffic_run sample_handler looping sample_traffic).2)
  <= 1
  /\ forwarded_sightings "a" sample_fp looping (traffic_run sample_handler looping sample_traffic).2 = 1%nat.
Proof.
  split; [|vm_compute; reflexivity].
  apply (loop_stopped sample_handler "a" sample_fp (unix_time 1000) looping sample_traffic).
  - exact I.
  - reflexivity.
  - reflexivity.
  - repeat (apply Forall_cons_2; [intros now Hs; vm_compute in Hs; first [discriminate Hs|
      injection Hs as <-; split; vm_compute; congruence]|]). apply Forall_nil_2.
Defined.
End Witness.
