(* ===== verification/Accounting.v ===== *)
(** * One call accounted for, from the request to its row

    pkg/proxy/handler.go stashes the metadata of a forwarded request, cost_tracking.go
    observes the upstream's response as it is copied to the client and reports once, and the
    report is priced and recorded by onCost. [serve_call] is that whole path for one
    request, the upstream's answer being what it sent and how the copy read it. *)

From S2P Require Import Prelude GoHttp GoSha256 Detector Store Budget UsageTracking Handler.
From S2P Require Metrics Auth Pricing Pipeline HashDetector Hub GoJson.

(** What the upstream answered and how the reverse proxy read it. *)
Record reply := {
  a_status : Z;
  a_type : string;                (* Content-Type *)
  a_ops : list body_op
}.

Section Accounting.
Context {D S B P : Type}.
Context `{Detector D, PayloadCapability D, RequestLogStore S, BudgetLedger S, BudgetSpender B,
          Pricing.PriceSource P}.
Implicit Types (h : handler P) (w : world D S B).

(** The body modifyResponse leaves, read: what the client gets, and the reports made. *)
Definition read_reply (m : option reqMeta) (a : reply) : list byte * list report :=
  match modifyResponse m (a_status a) (a_type a) with
  | Some b => let '(_, out, rs) := body_run b (a_ops a) in (out, rs)
  | None => (concat (op_bytes <$> a_ops a), [])
  end.

Fixpoint report_all h (t : cost_times) (rs : list report) w : world D S B * list effect :=
  match rs with
  | [] => (w, [])
  | (m, p, c) :: rs' =>
      let '(w1, es1, _) := onCost h t m p c w in
      let '(w2, es2) := report_all h t rs' w1 in (w2, es1 ++ es2)
  end.

(** A request through the handler and, when it is sent upstream, its response; what the
    reverse proxy's ErrorHandler answers is not observed. *)
Fixpoint copy_replies h (t : cost_times) (a : reply) (fwds : list (option Request * option reqMeta)) w :
    world D S B * list effect * list byte :=
  match fwds with
  | [] => (w, [], [])
  | (None, _) :: fwds' => copy_replies h t a fwds' w
  | (Some _, m) :: fwds' =>
      let '(out, rs) := read_reply m a in
      let '(w1, es1) := report_all h t rs w in
      let '(w2, es2, out2) := copy_replies h t a fwds' w1 in (w2, es1 ++ es2, out ++ out2)
  end.

Definition serve_call h (t : times) (tc : cost_times) (r : Request) (ctx : option Caller) (a : reply) w :
    world D S B * list effect * list byte :=
  let '(w1, es1, _) := ServeHTTP h t r ctx w in
  let '(w2, es2, out) := copy_replies h tc a (forwards es1) w1 in (w2, es1 ++ es2, out).

(** The metadata as modifyResponse completes it. *)
Definition answered_meta h t r ctx (body : list byte) (p : P) (status : Z) : reqMeta :=
  {| UsageTracking.model := Pricing.ExtractModel body;
     UsageTracking.promptTok := Pricing.ps_EstimatePromptTokens p body;
     UsageTracking.agent := header_Get (ReqHeader r) AgentIDHeader; UsageTracking.fp := sha256_hex body;
     UsageTracking.projectName := header_Get (ReqHeader r) ProjectHeader;
     UsageTracking.callerID := callerID ctx; UsageTracking.statusCode := status;
     UsageTracking.trackCost := true; UsageTracking.start := t_start t |}.

Lemma passed_logs_nothing h t r ctx body : logged (verdict_effects h t r ctx (Passed body)) = [].
Proof. unfold verdict_effects. rewrite logged_app. by destruct (emitter h). Qed.

Lemma passed_forwards h t r ctx body :
  forwards (opt (metrics h) (EMark Metrics.MStart) ++ verdict_effects h t r ctx (Passed body)
            ++ opt (metrics h) (EMark Metrics.MDone))
  = [(outgoing h (rewind r body),
      request_meta h t r ctx (header_Get (ReqHeader r) AgentIDHeader) (sha256_hex body) body)].
Proof. unfold verdict_effects. rewrite !forwards_app. by destruct (metrics h), (emitter h). Qed.


Lemma onCost_logged h (tc : cost_times) m p c w pr :
  price h = Some pr -> store h = true ->
  let cost := Pricing.Cost (Pricing.ps_PriceFor pr (UsageTracking.model m)).1 p c in
  let '(w', es, _) := onCost h tc m p c w in
  logged es = [completion_row tc m p c cost] /\ forwards es = [] /\ responses es = []
  /\ w_store w' = (LogRequest (w_store w) (completion_row tc m p c cost)).1 /\ w_det w' = w_det w.
Proof.
  intros Hp Hs cost. rewrite onCost_run, Hp, Hs. cbn zeta. unfold completion_cost. fold cost.
  set (w1 := Build_world (w_det w) (LogRequest (w_store w) _).1 (w_budget w)).
  destruct (level_views h (budget_outcome h tc w1).2) as (L1 & L2 & L3 & L4 & L5).
  rewrite !logged_app, !forwards_app, !responses_app, L1, L2, L3. unfold logged, forwards, responses.
  rewrite !view_opt. cbn [omap list_omap app].
  destruct (costThreshold h) as [thr|]; rewrite ?view_opt; cbn [omap list_omap app w_store w_det w1]; by rewrite ?app_nil_r.
Qed.

(** What serving a request that passes leaves. *)
Lemma passed_served h t r ctx w body :
  classify h w t r ctx = Passed body ->
  let '(w1, es, _) := ServeHTTP h t r ctx w in
  forwards es = [(outgoing h (rewind r body),
    request_meta h t r ctx (header_Get (ReqHeader r) AgentIDHeader) (sha256_hex body) body)]
  /\ logged es = [] /\ responses es = [] /\ w_store w1 = w_store w /\ w_det w1 = (checked w t r body).1.
Proof.
  intros Hv. rewrite ServeHTTP_run, Hv. cbn [verdict_world w_store w_det verdict_effects].
  rewrite !forwards_app, !logged_app, !responses_app. unfold forwards, logged, responses. rewrite !view_opt. done.
Qed.

(** C5. A call is billed for what its response says. A request that passes the gate and the
    detectors reaches the upstream once; the client gets the upstream's bytes, every one and
    no other, however the copy was cut into reads; when the response ends, and only then,
    exactly one row is recorded, however often the body is read or closed after that: under
    the caller, agent, project and model of the request, with the tokens the response
    reports - the first usage of the event stream or the usage of the JSON document, the
    estimates when there is none - at the model's exact price for them; a response that
    never ends is never billed, nor is a request the reverse proxy refuses to send (an
    upgrade to an unprintable protocol). An event stream must keep within 1 MiB between two
    ends of line ([fits]); beyond it see UsageTracking. *)
Theorem call_billed_once h p t tc r ctx w body status ty chunks fin data more :
  price h = Some p -> store h = true -> classify h w t r ctx = Passed body ->
  final_op fin data -> (is_event_stream ty = true -> fits [] (chunks ++ [data])) ->
  let m := answered_meta h t r ctx body p status in
  let '(pt, ct) := reference (is_event_stream ty) m (concat chunks ++ data) in
  let row := completion_row tc m pt ct (Pricing.Cost (Pricing.ps_PriceFor p (Pricing.ExtractModel body)).1 pt ct) in
  let reads := (fun c => BRead c false) <$> chunks in
  (let '(w', es, out) := serve_call h t tc r ctx {| a_status := status; a_type := ty; a_ops := reads ++ fin :: more |} w in
   (fst <$> forwards es) = [outgoing h (rewind r body)] /\ responses es = [] /\ w_det w' = (checked w t r body).1
   /\ match outgoing h (rewind r body) with
      | Some _ => out = concat chunks ++ data ++ concat (op_bytes <$> more)
                  /\ logged es = [row] /\ w_store w' = (LogRequest (w_store w) row).1
      | None => logged es = [] /\ w_store w' = w_store w
      end)
  /\ (let '(w', es, out) := serve_call h t tc r ctx {| a_status := status; a_type := ty; a_ops := reads |} w in
      (is_Some (outgoing h (rewind r body)) -> out = concat chunks) /\ logged es = [] /\ w_store w' = w_store w).
Proof.
  intros Hp Hs Hv Hfin Hfits m.
  pose proof (run_to_end m (is_event_stream ty) chunks fin data more Hfin Hfits) as Hrun. cbv zeta in Hrun.
  destruct (reference (is_event_stream ty) m (concat chunks ++ data)) as [pt ct]. destruct Hrun as [b Hrun].
  destruct (run_open m (is_event_stream ty) chunks) as [b0 Hopen]. intros row reads.
  pose proof (passed_served h t r ctx w body Hv) as Hserve. unfold serve_call.
  destruct (ServeHTTP h t r ctx w) as [[w1 es1] u]. destruct Hserve as (Hf & Hl & Hr & Hst & Hd).
  rewrite Hf. unfold request_meta. rewrite Hp, Hs. cbn [copy_replies]. unfold read_reply.
  destruct (outgoing h (rewind r body)) as [out|] eqn:Hout;
    [|rewrite !app_nil_r, Hf, Hl, Hr; split; [|split; [by intros []|done]]; split_and!; try done].
  cbn [modifyResponse UsageTracking.trackCost a_status a_type a_ops UsageTracking.model UsageTracking.promptTok
       UsageTracking.agent UsageTracking.fp UsageTracking.projectName UsageTracking.callerID UsageTracking.start].
  fold (answered_meta h t r ctx body p status). fold m. fold reads in Hrun, Hopen. rewrite Hrun, Hopen.
  cbn [report_all]. pose proof (onCost_logged h tc m pt ct w1 p Hp Hs) as Hcost. cbv zeta in Hcost.
  destruct (onCost h tc m pt ct w1) as [[w2 es2] u2]. destruct Hcost as (Hcl & Hcf & Hcr & Hcs & Hcd).
  rewrite Hst in Hcs. split.
  - rewrite !app_nil_r, logged_app, forwards_app, responses_app, Hf, Hcf, Hcl, Hl, Hr, Hcr, Hcd, Hcs, Hd.
    split_and!; try done. by rewrite app_assoc.
  - by rewrite !app_nil_r, Hl, Hst.
Qed.
End Accounting.

Section Witness.
#[local] Existing Instances HashDetector.key_eq_dec HashDetector.key_countable
  HashDetector.hash_detector_Detector HashDetector.hash_detector_laws.
Local Instance order_key : RangeOrder HashDetector.key HashDetector.entry := canonical_range _ _.
Local Instance flat_price : Pricing.PriceSource unit :=
  {| Pricing.ps_PriceFor _ _ := ({| Pricing.InputUSD := 1000000; Pricing.OutputUSD := 1000000 |}, true);
     Pricing.ps_EstimatePromptTokens _ body := Pricing.EstimatePromptTokens_default body;
     Pricing.ps_SavedCost _ _ := 7; Pricing.ps_AssumedCompletionTokens _ := 5 |}.

(** An event stream whose usage line is cut across two reads; the body is closed twice. *)
Definition sample_first : list byte :=
  GoJson.text "data: {'choices':[{'delta':{'content':'hello'}}]}" ++ nl ++ GoJson.text "data: {'usage':{'prom".
Definition sample_second : list byte :=
  GoJson.text "pt_tokens':30,'completion_tokens':12}}" ++ nl ++ GoJson.text "data: [DONE]" ++ nl.

Lemma call_billed_once_witness :
  let '(_, es, out) := serve_call sample_handler (times_at 1000) (cost_times_at 1001) sample_request None
    {| a_status := 200; a_type := "text/event-stream; charset=utf-8";
       a_ops := [BRead sample_first false; BRead sample_second true; BClose; BClose] |} sample_world in
  out = sample_first ++ sample_second
  /\ ((fun row => (r_AgentID row, r_PromptTokens row, r_CompletionTokens row, r_CostUSD row)) <$> logged es)
     = [("a"%string, 30, 12, 42)].
Proof.
  pose proof (call_billed_once sample_handler tt (times_at 1000) (cost_times_at 1001) sample_request None
    sample_world (bytes_of_string "[1,2]") 200 "text/event-stream; charset=utf-8" [sample_first]
    (BRead sample_second true) sample_second [BClose; BClose]) as Hb. cbv zeta in Hb.
  set (m := answered_meta _ _ _ _ _ _ _) in Hb.
  assert (reference (is_event_stream "text/event-stream; charset=utf-8") m (concat [sample_first] ++ sample_second)
          = (30, 12)) as Href by (vm_compute; reflexivity).
  rewrite Href in Hb. destruct Hb as [Hb _].
  - reflexivity.
  - reflexivity.
  - vm_compute. reflexivity.
  - constructor.
  - intros _. split; [vm_compute; discriminate|]. split; [vm_compute; discriminate|exact I].
  - cbn [fmap list_fmap app] in Hb.
    destruct (serve_call _ _ _ _ _ _ _) as [[w' es] out]. assert (is_Some (outgoing sample_handler (rewind sample_request (bytes_of_string "[1,2]")))) as [o Ho]
      by (vm_compute; eexists; reflexivity). rewrite Ho in Hb. destruct Hb as (_ & _ & _ & -> & -> & _).
    split; [cbn [concat op_bytes fmap list_fmap]; by rewrite !app_nil_r|]. vm_compute. reflexivity.
Defined.
End Witness.
