(* ===== verification/EventLog.v ===== *)
(** * From the request path to the log file

    pkg/proxy/handler.go publishes on pkg/logstream/hub.go and notifies
    internal/logging/jsonlog.go, whose goroutine drains its subscription into the same
    encoder. Publishers, the goroutine and notifying requests interleave; this file is that
    interleaving, one channel or encoder operation at a time, and what the log file holds
    after any of it. *)

From S2P Require Import Prelude GoFloat GoJson JsonTyping GoJsonPrint GoFloatPrint GoJsonObject GoStrings Budget Hub Logging.
From S2P Require Handler.

(** ** The entries of the file *)

Inductive entry :=
  | Alert (ev : Event)
  | Live (ev : LogEvent).

Definition live (e : entry) : option LogEvent := match e with Live ev => Some ev | _ => None end.
Definition alert (e : entry) : option Event := match e with Alert ev => Some ev | _ => None end.

(** ** The running logger

    The hub's side of its subscription, the event its goroutine has received and not yet
    written, the encoder, and the calls the encoder got, in order (the mutex's order). *)
Record running := {
  hist : history;
  holding : option LogEvent;
  lg : Logger;
  calls : list (entry * write_result)
}.

Inductive log_act :=
  | Publisher (a : act)                         (* a step of Hub.Publish *)
  | Take                                        (* ev := range sub.C *)
  | Write (w : write_result)                    (* l.Log(ev) *)
  | NotifyCall (ev : Event) (w : write_result). (* a request's Notify *)

(** logger.Subscribe(hub): a fresh logger on a fresh subscription. *)
Definition start_logger : running :=
  {| hist := new_history 1024; holding := None; lg := logging_New; calls := [] |}.

Definition log_step (s : running) (a : log_act) : option running :=
  match a with
  | Publisher Recv => None
  | Publisher a =>
      h ← sub_step (hist s) a;
      Some {| hist := h; holding := holding s; lg := lg s; calls := calls s |}
  | Take =>
      match holding s, ch (sub (hist s)) with
      | None, ev :: _ =>
          h ← sub_step (hist s) Recv;
          Some {| hist := h; holding := Some ev; lg := lg s; calls := calls s |}
      | _, _ => None
      end
  | Write w =>
      ev ← holding s;
      Some {| hist := hist s; holding := None; lg := Logger_Log (lg s) ev w;
              calls := calls s ++ [(Live ev, w)] |}
  | NotifyCall ev w =>
      Some {| hist := hist s; holding := holding s; lg := Logger_Notify (lg s) ev w;
              calls := calls s ++ [(Alert ev, w)] |}
  end.

Fixpoint log_run (s : running) (l : list log_act) : option running :=
  match l with
  | [] => Some s
  | a :: l' => s' ← log_step s a; log_run s' l'
  end.

(** What the requests did: the events they published and those they notified. *)
Definition begun (l : list log_act) : list LogEvent :=
  omap (fun a => match a with Publisher (Begin ev) => Some ev | _ => None end) l.
Definition alerted (l : list log_act) : list Event :=
  omap (fun a => match a with NotifyCall ev _ => Some ev | _ => None end) l.

Lemma begun_app l1 l2 : begun (l1 ++ l2) = begun l1 ++ begun l2.
Proof. apply omap_app. Qed.
Lemma alerted_app l1 l2 : alerted (l1 ++ l2) = alerted l1 ++ alerted l2.
Proof. apply omap_app. Qed.

(** ** Reading the file *)

Definition no_alert : Event :=
  {| ev_Type := EventLoopBlocked; ev_Timestamp := 0; ev_AgentID := ""; ev_Project := ""; ev_Model := "";
     ev_SavedCostMicro := 0; ev_Reason := ""; ev_RetryAfter := 0; ev_BudgetMicroUSD := 0;
     ev_SpentMicroUSD := 0; ev_ThresholdPct := 0; ev_Similarity := f64_zero; ev_IntentScore := f64_zero;
     ev_QuotaKind := ""; ev_QuotaID := "" |}.

Definition event_doc : ty := TStruct (schema (event_fields no_alert)).

Definition event_types : list EventType :=
  [EventLoopBlocked; EventBudgetLevel; EventSemanticLoop; EventIntentDrift; EventQuotaLevel].
Definition event_type_of (s : list byte) : option EventType :=
  head (filter (fun t => bytes_of_string (event_type_string t) = s) event_types).

Definition read_event (v : gov) : option Event :=
  let str i := string_of_bytes (g_str (g_field i v)) in
  let int i := g_int (g_field i v) in
  ty ← event_type_of (g_str (g_field 0 v));
  Some {| ev_Type := ty; ev_Timestamp := int 1%nat; ev_AgentID := str 2%nat; ev_Project := str 3%nat;
          ev_Model := str 4%nat; ev_SavedCostMicro := int 5%nat; ev_Reason := str 6%nat;
          ev_RetryAfter := int 7%nat; ev_BudgetMicroUSD := int 8%nat; ev_SpentMicroUSD := int 9%nat;
          ev_ThresholdPct := int 10%nat; ev_Similarity := g_float (g_field 11 v);
          ev_IntentScore := g_float (g_field 12 v); ev_QuotaKind := str 13%nat; ev_QuotaID := str 14%nat |}.

(** A line is a live event when it has a level, an alert when it has none. *)
Definition has_level (line : list byte) : bool :=
  match parse line with
  | Some (JObj kvs) => existsb (fun kv => bool_decide (kv.1 = bytes_of_string "level")) kvs
  | _ => false
  end.
Definition read_entry (line : list byte) : option entry :=
  if has_level line then Live <$> read_line line
  else v ← unmarshal event_doc line; Alert <$> read_event v.
Definition read_entries (file : list byte) : option (list entry) := mapM read_entry (whole_lines file).

(** ** A line reads back *)

Definition entry_fields (e : entry) : list field :=
  match e with Alert ev => event_fields ev | Live ev => log_event_fields ev end.
Definition entry_text (e : entry) : list byte := print_object (struct_members (entry_fields e)).

(** Text is valid UTF-8, integers fit, and a score has a JSON form and is no negative zero. *)
Definition entry_ok (e : entry) : Prop := Forall field_ok (entry_fields e).

Lemma field_ok_scalar f : field_ok f -> scalar_ok (f_value f).
Proof. unfold field_ok. by destruct (f_value f). Qed.

Lemma event_fields_tagged ev : Forall field_ok (event_fields ev) -> well_tagged (event_fields ev).
Proof.
  intros Hok. split.
  - apply (bool_decide_unpack _). by vm_compute.
  - repeat (constructor; [by vm_compute|]). constructor.
  - eapply Forall_impl; [exact Hok|]. apply field_ok_scalar.
Qed.

Lemma event_fields_read ev :
  entry_ok (Alert ev) -> read_event (GStruct (gov_fields (event_fields ev))) = Some ev.
Proof.
  intros Hok. unfold entry_ok in Hok. cbn [entry_fields] in Hok. unfold event_fields in Hok. rewrite !Forall_cons in Hok.
  unfold field_ok, f_str, f_int, f_float, utf8_valid in Hok. cbn [f_value] in Hok. destruct_and!.
  unfold read_event, gov_fields, event_fields, f_str, f_int, f_float, g_field.
  cbn [fmap list_fmap f_value gov_of lookup list_lookup default id g_str g_int g_bool g_float].
  repeat match goal with H : to_valid ?s = ?s |- _ => rewrite H; clear H end.
  assert (event_type_of (bytes_of_string (event_type_string (ev_Type ev))) = Some (ev_Type ev)) as ->
    by (destruct (ev_Type ev); vm_compute; reflexivity).
  rewrite !string_of_bytes_of_string. by destruct ev.
Qed.

Lemma has_level_spec e : entry_ok e ->
  has_level (entry_text e) = match e with Live _ => true | Alert _ => false end.
Proof.
  intros Hok. unfold has_level, entry_text. rewrite <- (app_nil_r (print_object _)).
  rewrite print_object_parses; [|apply struct_members_ok; eapply Forall_impl; [exact Hok|apply field_ok_scalar]|done].
  destruct e as [ev|ev]; cbn [entry_fields].
  - apply not_true_iff_false. intros (kv & Hin & Heq)%existsb_exists. apply bool_decide_eq_true in Heq.
    apply list_elem_of_In, list_elem_of_fmap in Hin as ([k v] & -> & Hin).
    apply (list_elem_of_fmap_2 fst) in Hin. cbn [fst json_member] in *.
    apply struct_members_names in Hin.
    assert (forall n, n ∈ (f_name <$> event_fields ev) -> to_valid (bytes_of_string n) <> bytes_of_string "level")
      as Hno by (intros n Hn; cbn in Hn; repeat (apply elem_of_cons in Hn as [-> | Hn]; [by vm_compute|]);
                 by apply elem_of_nil in Hn).
    by apply (Hno k).
  - apply existsb_exists. exists (json_member ("level"%string, SStr (bytes_of_string (le_Level ev)))).
    split; [|by vm_compute]. apply list_elem_of_In, (list_elem_of_fmap_2 json_member).
    unfold log_event_fields. rewrite !struct_members_cons. cbn [f_omitempty f_str f_int andb f_name f_value app].
    right. left.
Qed.

Lemma read_entry_back e : entry_ok e -> read_entry (entry_text e) = Some e.
Proof.
  intros Hok. unfold read_entry. rewrite (has_level_spec e Hok). destruct e as [ev|ev].
  - unfold entry_text. rewrite <- (app_nil_r (print_object _)).
    change event_doc with (TStruct (schema (event_fields ev))). cbn [entry_fields].
    rewrite object_roundtrip by (done || by apply event_fields_tagged, Hok). cbn [mbind option_bind].
    by rewrite event_fields_read.
  - unfold entry_text. cbn [entry_fields]. by rewrite read_line_back by apply Hok.
Qed.

(** ** The invariant of the machine *)

Definition pending (p : phase) : list LogEvent :=
  match p with Idle => [] | Popping ev | Pushing ev => [ev] end.

Record log_inv (s : running) (l : list log_act) : Prop := {
  li_hub : hub_inv (hist s);
  li_cap : cap (sub (hist s)) = 1024;
  li_live : omap live (fst <$> calls s) ++ option_list (holding s) = received (hist s);
  li_alert : omap alert (fst <$> calls s) = alerted l;
  li_begun : begun l = published (hist s) ++ pending (pc (hist s));
  li_lost : (exists ev, pc (hist s) = Popping ev) \/ lost (hist s) <> [] ->
            1024 < Z.of_nat (length (published (hist s) ++ pending (pc (hist s))));
  li_file : Forall entry_ok (fst <$> calls s) -> lg s = encode_all entry_text logging_New (calls s)
}.

Lemma log_inv_start : log_inv start_logger [].
Proof.
  split; try done.
  intros [[ev Hev]|Hl]; done.
Qed.

(** What one step on the subscriber changes. *)
Lemma sub_step_publisher h a h' :
  hub_inv h -> cap (sub h) = 1024 -> a <> Recv -> sub_step h a = Some h' ->
  cap (sub h') = 1024 /\ received h' = received h
  /\ published h' ++ pending (pc h')
     = (published h ++ pending (pc h)) ++ (match a with Begin ev => [ev] | _ => [] end)
  /\ (((exists ev, pc h = Popping ev) \/ lost h <> [] ->
       1024 < Z.of_nat (length (published h ++ pending (pc h)))) ->
      (exists ev, pc h' = Popping ev) \/ lost h' <> [] ->
      1024 < Z.of_nat (length (published h' ++ pending (pc h')))).
Proof.
  intros (_ & _ & _ & Hpub & _) Hcap Ha Hs. destruct h as [sb p pb lb rf].
  destruct a as [ev| | |]; cbn in *; [| | |done].
  - destruct p; try done. injection Hs as <-. cbn. split_and!; [done|done| |].
    + rewrite app_nil_r. by destruct (full sb).
    + rewrite !app_nil_r. intros Hold [[ev' Hev]|Hl].
      * destruct (full sb) eqn:Ef; [|done]. unfold full in Ef. zbool.
        rewrite length_app, Hpub, length_app. cbn. lia.
      * specialize (Hold (or_intror Hl)). rewrite length_app. lia.
  - destruct p as [|ev|]; try done. injection Hs as <-. unfold pop_oldest. cbn. split_and!.
    + by destruct (ch sb).
    + unfold received. cbn. rewrite filter_app, fmap_app. unfold tag_head. destruct (ch sb); by rewrite app_nil_r.
    + by rewrite app_nil_r.
    + intros Hold _. apply Hold. left. by exists ev.
  - destruct p as [| |ev]; try done. injection Hs as <-. unfold push_new. cbn. split_and!.
    + by destruct (_ <? _).
    + done.
    + by rewrite !app_nil_r.
    + intros Hold [[ev' Hev]|Hl]; [done|]. rewrite app_nil_r. by apply Hold; right.
Qed.

Lemma sub_step_take h ev l h' :
  ch (sub h) = ev :: l -> sub_step h Recv = Some h' ->
  cap (sub h') = cap (sub h) /\ received h' = received h ++ [ev] /\ lost h' = lost h
  /\ published h' = published h /\ pc h' = pc h.
Proof.
  intros Hch Hs. destruct h as [sb p pb lb rf]. cbn in Hch, Hs. unfold recv in Hs. rewrite Hch in Hs.
  assert (h' = {| sub := with_ch sb l (dropped sb); pc := p; published := pb; left_buf := lb ++ [(true, ev)];
                  refused := rf |}) as -> by (destruct p; by injection Hs as <-).
  unfold received, lost. cbn. rewrite !filter_app, !fmap_app. cbn. by rewrite app_nil_r.
Qed.

Lemma encode_all_snoc cs e w :
  encode_all entry_text logging_New (cs ++ [(e, w)])
  = Encode (encode_all entry_text logging_New cs) (Some (entry_text e ++ [newline])) w.
Proof. unfold encode_all. by rewrite foldl_app. Qed.

Lemma log_inv_step s l a s' : log_inv s l -> log_step s a = Some s' -> log_inv s' (l ++ [a]).
Proof.
  intros [Hh Hc Hl Ha Hb Hlo Hf] Hs.
  destruct a as [pa| |w|ev w]; cbn [log_step] in Hs.
  - assert (pa <> Recv /\ exists h, sub_step (hist s) pa = Some h
      /\ s' = {| hist := h; holding := holding s; lg := lg s; calls := calls s |}) as (Hne & h & Hsub & ->).
    { destruct pa; try done; apply bind_Some in Hs as (h & Hsub & [= <-]); (split; [done|]); by exists h. }
    destruct (sub_step_publisher _ _ _ Hh Hc Hne Hsub) as (Hc' & Hr' & Hp' & Hlo').
    split; cbn [hist holding lg calls]; rewrite ?begun_app, ?alerted_app.
    + by eapply hub_inv_step.
    + done.
    + by rewrite Hr'.
    + rewrite Ha. by rewrite app_nil_r.
    + rewrite Hb, Hp'. by destruct pa.
    + by apply Hlo'.
    + done.
  - destruct (holding s) as [|] eqn:Eh; [done|]. destruct (ch (sub (hist s))) as [|ev rest] eqn:Ech; [done|].
    apply bind_Some in Hs as (h & Hsub & [= <-]).
    destruct (sub_step_take _ _ _ _ Ech Hsub) as (Hc' & Hr' & Hlo' & Hp' & Hpc').
    split; cbn [hist holding lg calls option_list]; rewrite ?begun_app, ?alerted_app, ?Hlo', ?Hp', ?Hpc'; cbn [begun alerted omap list_omap];
      rewrite ?app_nil_r; try done.
    + by eapply hub_inv_step.
    + by rewrite Hc'.
    + rewrite Hr', <- Hl. cbn [option_list]. by rewrite app_nil_r.
  - apply bind_Some in Hs as (ev & Eh & [= <-]). rewrite Eh in Hl.
    split; cbn [hist holding lg calls]; rewrite ?begun_app, ?alerted_app, ?fmap_app, ?omap_app; cbn; rewrite ?app_nil_r; try done.
    intros [Hok1 Hok2]%Forall_app. rewrite encode_all_snoc, log_encoded, Hf by done. done.
  - injection Hs as <-.
    split; cbn [hist holding lg calls]; rewrite ?begun_app, ?alerted_app, ?fmap_app, ?omap_app; cbn; rewrite ?app_nil_r; try done.
    + by rewrite Ha.
    + intros [Hok1 Hok2]%Forall_app. rewrite encode_all_snoc, Hf by done.
      apply Forall_cons in Hok2 as [Hok2 _]. unfold Logger_Notify. rewrite encode_line_all; [done|].
      eapply Forall_impl; [exact Hok2|]. intros x Hx. by apply scalar_ok_encodable, field_ok_scalar.
Qed.

Lemma log_inv_run s l0 l s' : log_inv s l0 -> log_run s l = Some s' -> log_inv s' (l0 ++ l).
Proof.
  revert s l0. induction l as [|a l IH]; intros s l0 Hi Hr; cbn [log_run] in Hr.
  { injection Hr as <-. by rewrite app_nil_r. }
  apply bind_Some in Hr as (s1 & Hs & Hr). rewrite cons_middle, app_assoc.
  eapply IH; [|done]. by eapply log_inv_step.
Qed.

(** ** The file *)

Lemma before_failure_all {A} (cs : list (A * write_result)) :
  Forall (fun ew => snd ew = WroteAll) cs -> before_failure cs = fst <$> cs.
Proof. induction 1 as [|[e w] cs Hw _ IH]; [done|]. cbn in Hw |- *. subst. by rewrite IH. Qed.

(** C15. What reaches the log file, from the requests' effects to the bytes. However
    publishers, notifying requests and the logger's goroutine interleave, and wherever a
    write fails, the file's whole lines decode, field by field, to the entries written before
    the first failure, in the order of the encoder's mutex; the alerts among the calls are
    exactly the events the requests notified, in order; the live events are exactly those
    published, in order, but for the ones dropped from a full buffer, the ones still buffered
    and the one in hand; nothing is dropped before 1024 events were published; and when
    nothing is in flight and no write failed, the file holds every event. *)
Theorem log_file_exact (es : list Handler.effect) l s :
  begun l = Handler.streamed es -> alerted l = Handler.notified es ->
  log_run start_logger l = Some s ->
  Forall entry_ok (fst <$> calls s) -> Forall (cut_short entry_text) (calls s) ->
  let account := left_buf (hist s) in
  let waiting := ch (sub (hist s)) ++ pending (pc (hist s)) in
  read_entries (out (lg s)) = Some (before_failure (calls s))
  /\ omap alert (fst <$> calls s) = Handler.notified es
  /\ Handler.streamed es = (snd <$> account) ++ waiting
  /\ omap live (fst <$> calls s) ++ option_list (holding s) = snd <$> filter (fun p => p.1 = true) account
  /\ dropped (sub (hist s)) = wrapu64 (Z.of_nat (length (filter (fun p => p.1 = false) account)))
  /\ (Z.of_nat (length (Handler.streamed es)) <= 1024 -> filter (fun p => p.1 = false) account = [])
  /\ (Z.of_nat (length (Handler.streamed es)) <= 1024 -> waiting = [] -> holding s = None ->
      Forall (fun ew => snd ew = WroteAll) (calls s) ->
      exists items, read_entries (out (lg s)) = Some items
        /\ omap live items = Handler.streamed es /\ omap alert items = Handler.notified es).
Proof.
  intros Hbegun Halert Hr Hok Hcut account waiting.
  destruct (log_inv_run _ _ _ _ log_inv_start Hr) as [Hh Hc Hl Ha Hb Hlo Hf].
  destruct Hh as (_ & _ & _ & Hpub & Hdrop & _). cbn [app] in Ha, Hb. rewrite Hbegun in Hb. rewrite Halert in Ha.
  rewrite Hpub, <- app_assoc in Hb.
  destruct (encode_all_out entry_text read_entry entry_ok (fun e => print_object_one_line _) read_entry_back
    (calls s) []) as (tl & Hout & Hread).
  cbn [app] in Hout. specialize (Hf Hok).
  assert (read_entries (out (lg s)) = Some (before_failure (calls s))) as Hre.
  { rewrite Hf. unfold logging_New. rewrite Hout. by apply Hread. }
  assert (Z.of_nat (length (Handler.streamed es)) <= 1024 -> filter (fun p => p.1 = false) account = []) as Hno.
  { intros Hlen. destruct (decide (lost (hist s) = [])) as [He|Hne]; [by apply fmap_nil_inv in He|].
    specialize (Hlo (or_intror Hne)). rewrite Hpub, <- app_assoc, <- Hb in Hlo. lia. }
  split_and!; try done.
  - rewrite Hdrop. unfold lost. by rewrite length_fmap.
  - intros Hlen Hw Hho Hall. exists (before_failure (calls s)). split; [done|].
    rewrite before_failure_all by done. split; [|done]. rewrite Hho in Hl. cbn [option_list] in Hl.
    rewrite app_nil_r in Hl. fold waiting account in Hb. rewrite Hl, Hb, Hw, app_nil_r. unfold received.
    fold account. specialize (Hno Hlen). revert Hno. clear. induction account as [|[[] ev] acc IH]; [done| |done].
    intros Hno. rewrite filter_cons in *. cbn [fst] in *. rewrite decide_False in Hno by done.
    rewrite decide_True by done. rewrite !fmap_cons. by rewrite IH.
Qed.

(** A blocked request's alert and live event, and the completion of another request,
    interleaved with the goroutine. *)
Definition sample_alert : Event :=
  {| ev_Type := EventLoopBlocked; ev_Timestamp := 1700000000; ev_AgentID := "a"; ev_Project := "";
     ev_Model := "gpt-4o"; ev_SavedCostMicro := 7; ev_Reason := "loop"; ev_RetryAfter := 299;
     ev_BudgetMicroUSD := 0; ev_SpentMicroUSD := 0; ev_ThresholdPct := 0; ev_Similarity := f64_div (f64_of_Z 7) (f64_of_Z 8);
     ev_IntentScore := f64_zero; ev_QuotaKind := ""; ev_QuotaID := "" |}.
Definition sample_effects : list Handler.effect :=
  [Handler.EPublish no_event; Handler.ENotify sample_alert; Handler.EPublish (set_TenantName no_event "b")].
Definition sample_acts : list log_act :=
  [Publisher (Begin no_event); Publisher Push; Take; NotifyCall sample_alert WroteAll;
   Publisher (Begin (set_TenantName no_event "b")); Write WroteAll; Publisher Push; Take; Write WroteAll].

Lemma log_file_exact_witness :
  exists s items, log_run start_logger sample_acts = Some s
    /\ read_entries (out (lg s)) = Some items
    /\ omap live items = [no_event; set_TenantName no_event "b"] /\ omap alert items = [sample_alert].
Proof.
  destruct (log_run start_logger sample_acts) as [s|] eqn:Hs; [|vm_compute in Hs; discriminate].
  pose proof (log_file_exact sample_effects sample_acts s eq_refl eq_refl Hs) as Hf.
  vm_compute in Hs. injection Hs as Hs. rewrite <- Hs in Hf |- *. clear Hs.
  destruct Hf as (_ & _ & _ & _ & _ & _ & Hq).
  - unfold entry_ok. apply (bool_decide_unpack _). vm_compute. exact I.
  - repeat (constructor; [done|]). constructor.
  - destruct Hq as (items & Hr & Hl & Ha); [vm_compute; discriminate|reflexivity|reflexivity|
      repeat (constructor; [reflexivity|]); constructor|].
    eexists _, items. split; [reflexivity|]. split; [exact Hr|]. split; [exact Hl|exact Ha].
Defined.
