(* ===== verification/Wrapper.v ===== *)
(** * internal/wrapper: the finops-run supervisor

    The child process, the operating system and the HTTP exchange are what an attempt or
    a request turned out to be ([outcome], [delete_answer]); the supervision loop, the
    marker scan, the cleanup call and the exit codes are the code's. *)

From S2P Require Import Prelude GoStrings GoJson GoSha256 GoUrl.

(** ** config.go and args.go *)

Record Config := {
  AgentID : string;
  ProxyURL : string;
  MaxRestarts : Z;
  RecoveryPrompt : string;
  Marker : string;
  KillGrace : Z;
  DeleteTimeout : Z;
  MaxDeleteRetries : Z;
  RetryOnNonzero : bool;
  Watch : bool;
  WatchInterval : Z;
  Version : bool
}.

Definition DefaultConfig : Config :=
  {| AgentID := ""; ProxyURL := "http://localhost:8080"; MaxRestarts := 3;
     RecoveryPrompt := "Loop detected on previous file, try an alternative solution.";
     Marker := "agent_loop_exception"; KillGrace := 5 * Second; DeleteTimeout := 5 * Second;
     MaxDeleteRetries := 3; RetryOnNonzero := true; Watch := false; WatchInterval := Second;
     Version := false |}.

(** DefaultAgentID: each argument followed by a zero byte, hashed. *)
Definition zero_ended (l : list byte) : list byte := l ++ ["000"%byte].
Definition agent_preimage (bin : list byte) (args : list (list byte)) : list byte :=
  concat (zero_ended <$> bin :: args).
Definition DefaultAgentID (bin : list byte) (args : list (list byte)) : string :=
  String.substring 0 16 (sha256_hex (agent_preimage bin args)).

(** ** signals.go: the marker scan *)

Definition matchWindow : nat := 4096.

(** The text at the head of [l] matches [p] up to case, with the one rune beyond ASCII
    that folds to a letter of the patterns (U+017F, to s). What follows it. *)
Fixpoint fold_prefix (p l : list byte) : option (list byte) :=
  match p, l with
  | [], _ => Some l
  | c :: p', b :: l' =>
      if byte_eqb (lower_byte b) (lower_byte c) then fold_prefix p' l'
      else match l with
           | "197"%byte :: "191"%byte :: l'' =>
               if byte_eqb (lower_byte c) "s" then fold_prefix p' l'' else None
           | _ => None
           end
  | _ :: _, [] => None
  end.

(** Some suffix of [l] satisfies [f]. *)
Fixpoint somewhere (f : list byte -> bool) (l : list byte) : bool :=
  f l || match l with [] => false | _ :: l' => somewhere f l' end.

(** (?i)too many requests *)
Definition tooManyRequestsRe (l : list byte) : bool :=
  somewhere (fun s => bool_decide (is_Some (fold_prefix (bytes_of_string "too many requests") s))) l.

(** [^\n]{0,n}429 at the head of [l]: a rune, or one invalid byte, at a time. *)
Fixpoint gap_429 (n : nat) (l : list byte) : bool :=
  has_prefix (bytes_of_string "429") l
  || match n, l with
     | S n', c :: _ => negb (byte_eqb c "010") && gap_429 n' (drop (Nat.max 1 (utf8_len l)) l)
     | _, _ => false
     end.

(** (?i)http[^\n]{0,20}429 *)
Definition http429Re (l : list byte) : bool :=
  somewhere (fun s => match fold_prefix (bytes_of_string "http") s with
                      | Some r => gap_429 20 r | None => false end) l.

Definition matchLoop (window marker : list byte) : bool :=
  if contains marker window then true
  else if tooManyRequestsRe window then true
  else http429Re window.

Record lineTee := { marker : list byte; tail : list byte }.

Definition newLineTee (m : list byte) : lineTee := {| marker := m; tail := [] |}.

(** Write: [dst_ok] is whether the destination took the bytes. What it passed on, and
    whether it fired. *)
Definition tee_Write (t : lineTee) (p : list byte) (dst_ok : bool) : lineTee * list byte * bool :=
  if negb dst_ok then (t, p, false)
  else
    let tl := tail t ++ p in
    let tl := if (matchWindow <? length tl)%nat then drop (length tl - matchWindow) tl else tl in
    ({| marker := marker t; tail := tl |}, p, matchLoop tl (marker t)).

Fixpoint tee_run (t : lineTee) (ps : list (list byte)) : lineTee * list byte * bool :=
  match ps with
  | [] => (t, [], false)
  | p :: ps' =>
      let '(t1, o1, f1) := tee_Write t p true in
      let '(t2, o2, f2) := tee_run t1 ps' in (t2, o1 ++ o2, f1 || f2)
  end.

(** ** child.go: exit codes *)

Inductive process_state :=
  | NoState                 (* cmd.ProcessState == nil *)
  | Signaled (sig : Z)
  | ExitedWith (code : Z).

Definition ExitCode (p : process_state) : Z :=
  match p with
  | NoState => 1
  | Signaled sig => 128 + sig
  | ExitedWith code => code
  end.

(** ** proxyclient.go: the cleanup call *)

Record ProxyClient := { maxRetries : Z; backoff : Z }.

Definition NewProxyClient (retries : Z) : ProxyClient :=
  {| maxRetries := if retries <? 0 then 0 else retries; backoff := 500 * Millisecond |}.

(** buildURL: the path on the wire, u.Path holding the escaped id and String escaping the
    path as a whole. *)
Definition buildURL_path (id : list byte) : list byte :=
  escape encodePath (bytes_of_string "/v1/agent/" ++ PathEscape id ++ bytes_of_string "/history").

(** How a DELETE turned out: no request could be built (a malformed URL), the transport
    failed, or the proxy answered. *)
Inductive delete_answer :=
  | BadRequest
  | NetError
  | Answer (status : Z).

Inductive delete_error :=
  | NotSent                     (* http.NewRequestWithContext failed *)
  | Unreachable                 (* the last transport error *)
  | ServerStatus (status : Z)
  | UnexpectedStatus (status : Z)
  | ContextDone.

(** sleep's delay before [attempt]. *)
Definition retry_delay (c : ProxyClient) (attempt : Z) : Z :=
  let delay := wrap64 (Z.shiftl (backoff c) (attempt - 1)) in
  if 8 * Second <? delay then 8 * Second else delay.

(** One request more. *)
Definition one_more {A C} (r : A * Z * C) : A * Z * C := let '(a, n, c) := r in (a, n + 1, c).

(** The retry loop from [attempt]: [wait] is whether the sleep before an attempt ran to
    its end, [answer] what the request of an attempt got. What it returns (None is nil),
    the requests sent and the delays slept. *)
Fixpoint delete_loop (fuel : nat) (c : ProxyClient) (wait : Z -> bool) (answer : Z -> delete_answer)
    (attempt : Z) (lastErr : option delete_error) : option delete_error * Z * list Z :=
  match fuel with
  | O => (lastErr, 0, [])
  | S fuel' =>
      let slept := if 0 <? attempt then [retry_delay c attempt] else [] in
      if (0 <? attempt) && negb (wait attempt) then (Some ContextDone, 0, slept)
      else
        let '(res, n, ds) :=
          match answer attempt with
          | BadRequest => (Some NotSent, 0, [])
          | NetError => one_more (delete_loop fuel' c wait answer (attempt + 1) (Some Unreachable))
          | Answer status =>
              if (status <? 300) || (status =? 404) then (None, 1, [])
              else if 500 <=? status then
                one_more (delete_loop fuel' c wait answer (attempt + 1) (Some (ServerStatus status)))
              else (Some (UnexpectedStatus status), 1, [])
          end in
        (res, n, slept ++ ds)
  end.

(** for attempt := 0; attempt <= c.maxRetries; attempt++ *)
Definition DeleteHistory (c : ProxyClient) (wait : Z -> bool) (answer : Z -> delete_answer) :
    option delete_error * Z * list Z :=
  delete_loop (Z.to_nat (maxRetries c + 1)) c wait answer 0 None.

(** ** wrapper.go: the supervision loop *)

(** childEnv, after the inherited environment. *)
Definition childEnv (environ : list string) (cfg : Config) (recovery : bool) : list string :=
  let env := environ ++ ["FINOPS_AGENT_ID=" +:+ AgentID cfg] in
  if recovery then env ++ ["FINOPS_RECOVERY_PROMPT=" +:+ RecoveryPrompt cfg] else env.

(** How an attempt turned out: which case of the select ran, and the child's result
    (nil error or not, exit code). *)
Inductive outcome :=
  | StartFailed
  | MarkerSeen
  | Exited (err_nil : bool) (code : Z) (late_marker : bool)
  | Interrupted.

Inductive wrapper_event :=
  | EStart (env : list string)
  | ECancel                       (* cancel(): the child's group is signalled *)
  | EReap                         (* the child's result was received *)
  | EAlert                        (* bar.loopDetected() *)
  | EDelete (id : string).        (* client.DeleteHistory *)

(** One turn of the loop: the events, and the exit code or None to go on. *)
Definition run_attempt (environ : list string) (cfg : Config) (attempt : Z) (o : outcome) :
    list wrapper_event * option Z :=
  let env := childEnv environ cfg (0 <? attempt) in
  match o with
  | StartFailed => ([ECancel], Some 1)
  | Interrupted => ([EStart env; ECancel; EReap], Some 130)
  | _ =>
      let loopDetected := match o with MarkerSeen => true | Exited _ _ late => late | _ => false end in
      let events := match o with MarkerSeen => [EStart env; ECancel; EReap; ECancel]
                               | _ => [EStart env; EReap; ECancel] end in
      if loopDetected then
        (events ++ (if Watch cfg then [EAlert] else []) ++ [EDelete (AgentID cfg)],
         if (0 <=? MaxRestarts cfg) && (MaxRestarts cfg <=? attempt) then Some 42 else None)
      else
        match o with
        | Exited true _ _ => (events, Some 0)
        | Exited false code _ =>
            (events,
             if RetryOnNonzero cfg && ((MaxRestarts cfg <? 0) || (attempt <? MaxRestarts cfg))
             then None else Some code)
        | _ => (events, None)
        end
  end.

(** for attempt := 0; ; attempt++; None when the fuel ran out. *)
Fixpoint run_loop (fuel : nat) (environ : list string) (cfg : Config) (o : Z -> outcome) (attempt : Z) :
    option (Z * list wrapper_event) :=
  match fuel with
  | O => None
  | S fuel' =>
      let '(es, code) := run_attempt environ cfg attempt (o attempt) in
      match code with
      | Some c => Some (c, es)
      | None =>
          '(c, es') ← run_loop fuel' environ cfg o (attempt + 1);
          Some (c, es ++ es')
      end
  end.

Definition Run (fuel : nat) (environ : list string) (cfg : Config) (o : Z -> outcome) :
    option (Z * list wrapper_event) :=
  run_loop fuel environ cfg o 0.

#[export] Instance outcome_eq_dec : EqDecision outcome.
Proof. solve_decision. Defined.

(** ** The supervision loop *)

(** What an attempt decides: restart (None) or the exit code. *)
Definition decision (cfg : Config) (attempt : Z) (o : outcome) : option Z :=
  match o with
  | StartFailed => Some 1
  | Interrupted => Some 130
  | MarkerSeen | Exited _ _ true =>
      if (0 <=? MaxRestarts cfg) && (MaxRestarts cfg <=? attempt) then Some 42 else None
  | Exited true _ false => Some 0
  | Exited false code false =>
      if RetryOnNonzero cfg && ((MaxRestarts cfg <? 0) || (attempt <? MaxRestarts cfg))
      then None else Some code
  end.

Definition is_loop (o : outcome) : bool :=
  match o with MarkerSeen | Exited _ _ true => true | _ => false end.

Definition started (es : list wrapper_event) : list (list string) :=
  omap (fun e => match e with EStart env => Some env | _ => None end) es.
Definition deletes (es : list wrapper_event) : list string :=
  omap (fun e => match e with EDelete id => Some id | _ => None end) es.

Lemma run_attempt_spec environ cfg k o :
  (run_attempt environ cfg k o).2 = decision cfg k o
  /\ started (run_attempt environ cfg k o).1
     = (if bool_decide (o = StartFailed) then [] else [childEnv environ cfg (0 <? k)])
  /\ deletes (run_attempt environ cfg k o).1 = if is_loop o then [AgentID cfg] else [].
Proof.
  destruct o as [| |[] code []|]; cbn; destruct (Watch cfg); by repeat split.
Qed.

(** The run is a sequence of attempts that all restart but the last. *)
Lemma run_loop_spec fuel environ cfg o k code es :
  run_loop fuel environ cfg o k = Some (code, es) ->
  exists n : nat,
    (forall i : nat, (i < n)%nat -> decision cfg (k + Z.of_nat i) (o (k + Z.of_nat i)) = None)
    /\ decision cfg (k + Z.of_nat n) (o (k + Z.of_nat n)) = Some code
    /\ es = concat ((fun i => (run_attempt environ cfg i (o i)).1) <$> seqZ k (Z.of_nat n + 1)).
Proof.
  revert k es. induction fuel as [|fuel IH]; intros k es Hr; [done|]. cbn [run_loop] in Hr.
  destruct (run_attempt_spec environ cfg k (o k)) as (Hd & _).
  destruct (run_attempt environ cfg k (o k)) as [es1 res] eqn:Ea. cbn [snd] in Hd. subst res.
  destruct (decision cfg k (o k)) as [c|] eqn:Ed.
  - injection Hr as -> ->. exists 0%nat. rewrite Z.add_0_r. split_and!; [lia|done|].
    change (seqZ k (Z.of_nat 0 + 1)) with [k]. cbn. rewrite Ea. cbn. by rewrite app_nil_r.
  - apply bind_Some in Hr as ([c es2] & Hr & Heq). injection Heq as -> <-.
    destruct (IH _ _ Hr) as (n & Hall & Hlast & ->). exists (S n). split_and!.
    + intros i Hi. destruct i as [|i]; [by rewrite Z.add_0_r|].
      specialize (Hall i ltac:(lia)).
      by replace (k + Z.of_nat (S i)) with (k + 1 + Z.of_nat i) by lia.
    + by replace (k + Z.of_nat (S n)) with (k + 1 + Z.of_nat n) by lia.
    + rewrite (seqZ_cons k (Z.of_nat (S n) + 1)) by lia. rewrite fmap_cons. cbn [concat].
      rewrite Ea. cbn [fst]. f_equal. replace (Z.succ k) with (k + 1) by lia.
      by replace (Z.pred (Z.of_nat (S n) + 1)) with (Z.of_nat n + 1) by lia.
Qed.

Lemma decision_restarts cfg k o :
  0 <= MaxRestarts cfg -> decision cfg k o = None -> k < MaxRestarts cfg.
Proof.
  intros Hm Ed. destruct o as [| |[] code []|]; cbn in Ed; try done;
    destruct (0 <=? MaxRestarts cfg) eqn:E1, (MaxRestarts cfg <=? k) eqn:E2; zbool; try done; try lia;
    destruct (RetryOnNonzero cfg), (MaxRestarts cfg <? 0) eqn:E3, (k <? MaxRestarts cfg) eqn:E4;
    zbool; try done; lia.
Qed.

Lemma run_loop_mono f f' environ cfg o k r :
  run_loop f environ cfg o k = Some r -> (f <= f')%nat -> run_loop f' environ cfg o k = Some r.
Proof.
  revert f' k r. induction f as [|f IH]; intros f' k r Hr Hle; [done|].
  destruct f' as [|f']; [lia|]. cbn [run_loop] in *.
  destruct (run_attempt environ cfg k (o k)) as [es [c|]]; [done|].
  apply bind_Some in Hr as ([c es'] & Hr & Heq). by rewrite (IH f' _ _ Hr) by lia.
Qed.

(** More fuel than restarts allowed is enough. *)
Lemma run_loop_total fuel environ cfg o k :
  0 <= MaxRestarts cfg -> 0 <= k -> MaxRestarts cfg - k < Z.of_nat fuel -> (0 < fuel)%nat ->
  is_Some (run_loop fuel environ cfg o k).
Proof.
  intros Hm. revert k. induction fuel as [|fuel IH]; intros k Hk Hf Hpos; [lia|]. cbn [run_loop].
  destruct (run_attempt_spec environ cfg k (o k)) as (Hd & _).
  destruct (run_attempt environ cfg k (o k)) as [es1 res]. cbn [snd] in Hd. subst res.
  destruct (decision cfg k (o k)) as [c|] eqn:Ed; [by eexists|].
  pose proof (decision_restarts cfg k (o k) Hm Ed).
  destruct (IH (k + 1) ltac:(lia) ltac:(lia) ltac:(lia)) as [[c es] ->]. by eexists.
Qed.

Lemma concat_omap {A C} (f : A -> option C) (l : list (list A)) :
  omap f (concat l) = concat ((fun x => omap f x : list C) <$> l).
Proof. induction l as [|x l IH]; [done|]. cbn [concat fmap list_fmap]. by rewrite omap_app, IH. Qed.

Lemma seqZ_fmap_nat {A} (f : Z -> A) (n : nat) :
  f <$> seqZ 0 (Z.of_nat n + 1) = (fun i => f (Z.of_nat i)) <$> seq 0 (S n).
Proof.
  unfold seqZ. replace (Z.to_nat (Z.of_nat n + 1)) with (S n) by lia.
  rewrite <- list_fmap_compose. apply list_fmap_ext. intros i x _. cbn. by rewrite Z.add_0_r.
Qed.

Lemma concat_filter {A C} (f : A -> list C) (g : A -> C) (Q : A -> Prop) `{forall x, Decision (Q x)}
    (l : list A) :
  (forall x, f x = if decide (Q x) then [g x] else []) -> concat (f <$> l) = g <$> filter Q l.
Proof.
  intros Hf. induction l as [|x l IH]; [done|]. rewrite fmap_cons, filter_cons. cbn [concat].
  rewrite Hf, IH. by case_decide.
Qed.

(** C30. The supervisor: with a restart limit it always returns, whatever the child does,
    after at most that many restarts; its exit code is what the last attempt decides (42
    exactly for a loop at the limit, 130 for an interrupt, 1 when the child cannot be
    started, 0 for a clean exit, the child's own code otherwise) and every earlier attempt
    decided to restart; the first child runs without the recovery prompt and every
    restarted one with it; and the agent's history is deleted exactly once per detected
    loop. *)
Theorem supervisor_exact environ cfg o :
  0 <= MaxRestarts cfg ->
  exists (n : nat) code es,
    (forall fuel : nat, MaxRestarts cfg < Z.of_nat fuel -> Run fuel environ cfg o = Some (code, es))
    /\ Z.of_nat n <= MaxRestarts cfg
    /\ (forall i : nat, (i < n)%nat -> decision cfg (Z.of_nat i) (o (Z.of_nat i)) = None)
    /\ decision cfg (Z.of_nat n) (o (Z.of_nat n)) = Some code
    /\ started es
       = (fun i => childEnv environ cfg (0 <? Z.of_nat i)) <$>
           filter (fun i => o (Z.of_nat i) <> StartFailed) (seq 0 (S n))
    /\ deletes es = (fun _ => AgentID cfg) <$> filter (fun i => is_loop (o (Z.of_nat i)) = true) (seq 0 (S n)).
Proof.
  intros Hm. set (fuel := S (Z.to_nat (MaxRestarts cfg))).
  destruct (run_loop_total fuel environ cfg o 0) as [[code es] Hr]; [lia..|].
  destruct (run_loop_spec _ _ _ _ _ _ _ Hr) as (n & Hall & Hlast & Hes).
  exists n, code, es. split_and!; try done.
  - intros f Hf. eapply run_loop_mono; [exact Hr|]. lia.
  - destruct (decide (Z.of_nat n <= MaxRestarts cfg)) as [|Hn]; [done|].
    pose proof (decision_restarts cfg _ _ Hm (Hall (Z.to_nat (MaxRestarts cfg)) ltac:(lia))). lia.
  - rewrite Hes. unfold started. rewrite concat_omap, <- list_fmap_compose, seqZ_fmap_nat.
    apply concat_filter. intros i. cbn [compose].
    destruct (run_attempt_spec environ cfg (Z.of_nat i) (o (Z.of_nat i))) as (_ & Hs & _).
    unfold started in Hs. cbn. rewrite Hs. case_bool_decide; case_decide; naive_solver.
  - rewrite Hes. unfold deletes. rewrite concat_omap, <- list_fmap_compose, seqZ_fmap_nat.
    apply concat_filter. intros i. cbn [compose].
    destruct (run_attempt_spec environ cfg (Z.of_nat i) (o (Z.of_nat i))) as (_ & _ & Hs).
    unfold deletes in Hs. cbn. rewrite Hs. destruct (is_loop _); case_decide; naive_solver.
Qed.

Lemma supervisor_exact_witness :
  exists es,
  Run 4 [] DefaultConfig (fun k => if k =? 0 then MarkerSeen else Exited (k =? 2) 7 false) = Some (0, es)
  /\ started es = [childEnv [] DefaultConfig false; childEnv [] DefaultConfig true;
                   childEnv [] DefaultConfig true]
  /\ deletes es = [""%string].
Proof.
  destruct (supervisor_exact [] DefaultConfig
    (fun k => if k =? 0 then MarkerSeen else Exited (k =? 2) 7 false)) as (n & code & es & Hr & _ & _ & _ & _).
  - vm_compute. discriminate.
  - assert (Run 4 [] DefaultConfig (fun k => if k =? 0 then MarkerSeen else Exited (k =? 2) 7 false)
      = Some (code, es)) as Hrun by (apply Hr; vm_compute; reflexivity).
    vm_compute in Hrun. injection Hrun as <- <-. eexists. repeat split; vm_compute; reflexivity.
Defined.

(** ** The marker scan *)

Lemma contains_spec p l : contains p l = true <-> exists a b, l = a ++ p ++ b.
Proof.
  induction l as [|c l IH]; cbn [contains].
  - rewrite orb_false_r, has_prefix_spec. split.
    + intros [r Hr]. by exists [], r.
    + intros (a & b & Hl). exists b. destruct a; [done|by cbn in Hl].
  - rewrite orb_true_iff, IH, has_prefix_spec. split.
    + intros [[r Hr]|(a & b & ->)]; [by exists [], r|by exists (c :: a), b].
    + intros (a & b & Hl). destruct a as [|x a]; [left; by exists b|right].
      injection Hl as _ ->. by exists a, b.
Qed.

(** The last [n] bytes. *)
Definition last_bytes (n : nat) (l : list byte) : list byte := drop (length l - n) l.

Lemma last_bytes_app n x p : last_bytes n (last_bytes n x ++ p) = last_bytes n (x ++ p).
Proof.
  unfold last_bytes. rewrite !length_app, length_drop.
  rewrite <- (drop_app_le x p) by lia. rewrite drop_drop. f_equal. lia.
Qed.

Lemma tee_Write_spec t p :
  (length (tail t) <= matchWindow)%nat ->
  tee_Write t p true
  = ({| marker := marker t; tail := last_bytes matchWindow (tail t ++ p) |}, p,
     matchLoop (last_bytes matchWindow (tail t ++ p)) (marker t)).
Proof.
  intros Hl. unfold tee_Write, last_bytes. cbn [negb].
  destruct (matchWindow <? length (tail t ++ p))%nat eqn:E; [done|].
  apply Nat.ltb_ge in E. by replace (length (tail t ++ p) - matchWindow)%nat with 0%nat by lia.
Qed.

Lemma last_bytes_length n l : (length (last_bytes n l) <= n)%nat.
Proof. unfold last_bytes. rewrite length_drop. lia. Qed.

Lemma tee_run_spec ps t x :
  tail t = last_bytes matchWindow x ->
  let '(t', out, fired) := tee_run t ps in
  out = concat ps /\ marker t' = marker t /\ tail t' = last_bytes matchWindow (x ++ concat ps)
  /\ (fired = true <-> exists qs, qs `prefix_of` ps /\ qs <> []
        /\ matchLoop (last_bytes matchWindow (x ++ concat qs)) (marker t) = true).
Proof.
  revert t x. induction ps as [|p ps IH]; intros t x Ht; cbn [tee_run concat].
  { rewrite app_nil_r. split_and!; try done. split; [done|]. intros (qs & Hq & Hne & _).
    by apply prefix_nil_inv in Hq. }
  rewrite tee_Write_spec by (rewrite Ht; apply last_bytes_length). rewrite Ht, last_bytes_app.
  set (t1 := {| marker := marker t; tail := last_bytes matchWindow (x ++ p) |}).
  specialize (IH t1 (x ++ p) eq_refl). destruct (tee_run t1 ps) as [[t2 o2] f2].
  destruct IH as (-> & -> & -> & Hf). rewrite <- app_assoc. split_and!; try done.
  rewrite orb_true_iff, Hf. cbn [marker t1]. split.
  - intros [Hm|(qs & Hq & Hne & Hm)].
    + exists [p]. cbn. rewrite app_nil_r. split_and!; [|done|done]. apply prefix_cons, prefix_nil.
    + exists (p :: qs). cbn [concat]. rewrite app_assoc. split_and!; [by apply prefix_cons|done|done].
  - intros (qs & Hq & Hne & Hm). destruct qs as [|q qs]; [done|].
    pose proof (prefix_cons_inv_1 _ _ _ _ Hq) as ->. apply prefix_cons_inv_2 in Hq.
    destruct qs as [|q2 qs]; [left; cbn [concat] in Hm; by rewrite app_nil_r in Hm|right].
    exists (q2 :: qs). split_and!; [done|done|]. cbn [concat] in *. by rewrite <- app_assoc.
Qed.

(** C40. The marker scan: the output is passed through byte for byte, and the tee fires
    exactly when, after some write, the last 4096 bytes written so far carry a loop signal
    - however the output was cut into writes; so a marker is caught as soon as a write
    completes it, unless more than 4096 bytes were written from its start on. *)
Theorem tee_exact m ps :
  let '(t, out, fired) := tee_run (newLineTee m) ps in
  out = concat ps /\ (length (tail t) <= 4096)%nat
  /\ (fired = true <-> exists qs, qs `prefix_of` ps /\ qs <> []
        /\ matchLoop (last_bytes 4096 (concat qs)) m = true)
  /\ (forall qs a b, qs `prefix_of` ps -> qs <> [] -> concat qs = a ++ m ++ b ->
        (length (m ++ b) <= 4096)%nat -> fired = true).
Proof.
  pose proof (tee_run_spec ps (newLineTee m) [] eq_refl) as H.
  destruct (tee_run (newLineTee m) ps) as [[t out] fired]. destruct H as (-> & _ & Ht & Hf).
  cbn [app newLineTee marker] in *. change matchWindow with 4096%nat in *.
  split_and!; [done|rewrite Ht; apply last_bytes_length|done|].
  intros qs a b Hq Hne Hc Hl. apply Hf. exists qs. split_and!; [done|done|].
  unfold matchLoop. enough (contains m (last_bytes 4096 (concat qs)) = true) as -> by done.
  apply contains_spec. exists (drop (length (concat qs) - 4096) a), b.
  unfold last_bytes. rewrite Hc, drop_app_le; [done|]. rewrite !length_app in *. lia.
Qed.

(** A marker followed by 5000 bytes in the same write is missed. *)
Lemma early_marker_missed :
  let m := bytes_of_string "agent_loop_exception" in
  (tee_run (newLineTee m) [m ++ replicate 5000 "x"%byte]).2 = false.
Proof. vm_compute. reflexivity. Qed.

(** ** The cleanup call *)

Definition deleted (a : delete_answer) : bool :=
  match a with Answer s => (s <? 300) || (s =? 404) | _ => false end.
Definition transient (a : delete_answer) : bool :=
  match a with BadRequest => false | NetError => true | Answer s => negb ((s <? 300) || (s =? 404)) && (500 <=? s) end.

(** Some attempt of [k, hi) succeeds after transient failures and uninterrupted waits. *)
Definition succeeds (wait : Z -> bool) (answer : Z -> delete_answer) (k hi : Z) : Prop :=
  exists j, k <= j < hi /\ deleted (answer j) = true
    /\ (forall i, k <= i < j -> transient (answer i) = true)
    /\ (forall i, k <= i <= j -> 0 < i -> wait i = true).

Lemma succeeds_now wait answer k hi :
  k < hi -> (0 < k -> wait k = true) -> deleted (answer k) = true -> succeeds wait answer k hi.
Proof.
  intros Hk Hw Hd. exists k. split_and!; [lia|lia|done|intros; lia|].
  intros i Hi. by assert (i = k) as -> by lia.
Qed.

Lemma succeeds_stuck wait answer k hi :
  deleted (answer k) = false -> transient (answer k) = false -> ~ succeeds wait answer k hi.
Proof.
  intros Hd Ht (j & Hj & Hdj & Htj & _). destruct (decide (j = k)) as [->|]; [congruence|].
  specialize (Htj k ltac:(lia)). congruence.
Qed.

Lemma succeeds_step wait answer k hi :
  deleted (answer k) = false -> transient (answer k) = true -> (0 < k -> wait k = true) ->
  succeeds wait answer (k + 1) hi <-> succeeds wait answer k hi.
Proof.
  intros Hd Ht Hw. split; intros (j & Hj & Hdj & Htj & Hwj).
  - exists j. split_and!; [lia|lia|done| |]; intros i Hi; intros;
      (destruct (decide (i = k)) as [->|]; [by auto|]); [apply Htj|apply Hwj]; lia.
  - assert (j <> k) by (intros ->; congruence). exists j.
    split_and!; [lia|lia|done| |]; intros i Hi; intros; [apply Htj|apply Hwj]; lia.
Qed.

(** The delays slept between [k] and [hi]. *)
Definition delays_of (c : ProxyClient) (hi : Z) (ds : list Z) : Prop :=
  Forall (fun d => exists j, 1 <= j < hi /\ d = retry_delay c j) ds.

Lemma delete_loop_spec fuel c wait answer k err :
  0 <= k -> (0 < k -> err <> None) -> 0 < Z.of_nat fuel + k ->
  let '(res, n, ds) := delete_loop fuel c wait answer k err in
  0 <= n <= Z.of_nat fuel /\ delays_of c (k + Z.of_nat fuel) ds
  /\ (res = None <-> succeeds wait answer k (k + Z.of_nat fuel)).
Proof.
  revert k err. induction fuel as [|fuel IH]; intros k err Hk Hpos Hf; cbn [delete_loop].
  { split_and!; [lia|lia|constructor|]. split; [|intros (j & ? & _); lia]. intros ->.
    by destruct (Hpos ltac:(lia)). }
  assert (delays_of c (k + Z.of_nat (S fuel)) (if 0 <? k then [retry_delay c k] else [])) as Hslept.
  { unfold delays_of. zcase (0 <? k); repeat constructor. exists k. split; [lia|done]. }
  destruct ((0 <? k) && negb (wait k)) eqn:Ew.
  { apply andb_true_iff in Ew as [Ek Ew]. apply negb_true_iff in Ew. zbool.
    split_and!; [lia|lia|done|]. split; [done|]. intros (j & Hj & _ & _ & Hwait).
    rewrite Hwait in Ew by lia. done. }
  assert (0 < k -> wait k = true) as Hwk.
  { intros Hk0. replace (0 <? k) with true in Ew by lia. by destruct (wait k). }
  assert (forall err', err' <> None -> transient (answer k) = true -> deleted (answer k) = false ->
    let '(res, n, ds) := one_more (delete_loop fuel c wait answer (k + 1) err') in
    0 <= n <= Z.of_nat (S fuel)
    /\ delays_of c (k + Z.of_nat (S fuel)) ((if 0 <? k then [retry_delay c k] else []) ++ ds)
    /\ (res = None <-> succeeds wait answer k (k + Z.of_nat (S fuel)))) as Hrec.
  { intros err' Herr Htr Hde. specialize (IH (k + 1) err' ltac:(lia) ltac:(done) ltac:(lia)).
    destruct (delete_loop fuel c wait answer (k + 1) err') as [[res n] ds]. cbn [one_more].
    replace (k + 1 + Z.of_nat fuel) with (k + Z.of_nat (S fuel)) in IH by lia.
    destruct IH as (Hn & Hds & ->). split_and!; [lia|lia| |by apply succeeds_step].
    by apply Forall_app. }
  destruct (answer k) as [| |status] eqn:Ea; [| |destruct (deleted (answer k)) eqn:Ed;
    rewrite Ea in Ed; cbn [deleted] in Ed; rewrite Ed; [|destruct (500 <=? status) eqn:E5]].
  - rewrite app_nil_r. split_and!; [lia|lia|done|]. split; [done|]. intros Hs. exfalso. revert Hs.
    apply succeeds_stuck; by rewrite Ea.
  - specialize (Hrec (Some Unreachable) ltac:(done) ltac:(done) ltac:(done)).
    by destruct (one_more _) as [[res n] ds].
  - rewrite app_nil_r. split_and!; [lia|lia|done|]. split; [|done]. intros _.
    apply succeeds_now; [lia|done|]. by rewrite Ea.
  - cbn [deleted transient] in Hrec. rewrite Ed, E5 in Hrec.
    specialize (Hrec (Some (ServerStatus status)) ltac:(done) ltac:(done) ltac:(done)).
    by destruct (one_more _) as [[res n] ds].
  - rewrite app_nil_r. split_and!; [lia|lia|done|]. split; [done|]. intros Hs. exfalso. revert Hs.
    apply succeeds_stuck; rewrite Ea; cbn [deleted transient]; by rewrite Ed, ?E5.
Qed.

(** The delays: 500 ms doubling, capped at 8 s, as long as the shift does not overflow. *)
Lemma retry_delay_exact r j :
  1 <= j <= 35 -> retry_delay (NewProxyClient r) j = Z.min (500000000 * 2 ^ (j - 1)) 8000000000.
Proof.
  intros Hj. unfold retry_delay. cbn [backoff NewProxyClient].
  rewrite Z.shiftl_mul_pow2 by lia. change (500 * Millisecond) with 500000000.
  change (8 * Second) with 8000000000.
  assert (0 < 2 ^ (j - 1) <= 2 ^ 34) by (split; [lia|apply Z.pow_le_mono_r; lia]).
  rewrite wrap64_id by (unfold in_int64, int64_min, int64_max; lia).
  zcase (8000000000 <? 500000000 * 2 ^ (j - 1)).
Qed.

(** The 36th delay overflows into a negative one, which does not wait. *)
Lemma retry_delay_overflows : retry_delay (NewProxyClient 40) 36 < 0.
Proof. vm_compute. reflexivity. Qed.

(** The cleanup call: at most one request more than the retries allowed is sent; it
    reports success exactly when some attempt was answered below 300 or 404 after only
    transient failures (transport errors and 5xx) and uninterrupted waits; and for up to 35
    retries every wait is the doubling backoff capped at eight seconds. *)
Theorem cleanup_call retries wait answer :
  let '(res, n, ds) := DeleteHistory (NewProxyClient retries) wait answer in
  let r := Z.max 0 retries in
  0 <= n <= r + 1
  /\ (res = None <-> exists j, 0 <= j <= r /\ deleted (answer j) = true
        /\ (forall i, 0 <= i < j -> transient (answer i) = true)
        /\ (forall i, 1 <= i <= j -> wait i = true))
  /\ (retries <= 35 -> Forall (fun d => exists j, 1 <= j <= r
        /\ d = Z.min (500000000 * 2 ^ (j - 1)) 8000000000) ds).
Proof.
  unfold DeleteHistory. assert (maxRetries (NewProxyClient retries) = Z.max 0 retries) as ->
    by (cbn; zcase (retries <? 0)).
  pose proof (delete_loop_spec (Z.to_nat (Z.max 0 retries + 1)) (NewProxyClient retries) wait answer 0 None
    ltac:(lia) ltac:(lia) ltac:(lia)) as H.
  destruct (delete_loop _ _ _ _ _ _) as [[res n] ds]. destruct H as (Hn & Hds & Hres). split_and!; try lia.
  - rewrite Hres. split; intros (j & Hj & Hd & Ht & Hw); exists j; split_and!; try lia; try done;
      intros i Hi; intros; apply Hw; lia.
  - intros Hr. eapply Forall_impl; [exact Hds|]. intros d (j & Hj & ->). exists j. split; [lia|].
    apply retry_delay_exact. lia.
Qed.

(** ** The target of the cleanup call *)

(** The target of the cleanup call: the id stays one path segment whatever bytes it
    has, but the proxy's router, decoding the segment once, reads back the escaped form of
    the id and not the id; the two agree exactly for ids no byte of which needs escaping,
    such as the derived hexadecimal ones. *)
Theorem cleanup_target id :
  exists seg,
    buildURL_path id = bytes_of_string "/v1/agent/" ++ seg ++ bytes_of_string "/history"
    /\ ("/"%byte ∉ seg)
    /\ unescape seg = Some (PathEscape id)
    /\ (unescape seg = Some id <-> Forall (fun c => shouldEscape encodePathSegment c = false) id).
Proof.
  exists (escape encodePath (PathEscape id)). split_and!.
  - unfold buildURL_path. by rewrite !escape_app.
  - apply escape_no_slash. intros c Hc. right. intros ->. revert Hc.
    apply escape_no_slash. by left.
  - apply unescape_escape.
  - rewrite unescape_escape, <- escape_id_iff. split; [by intros [= ->]|by intros ->].
Qed.

(** The history of the agent "a b" is not the one cleared. *)
Lemma escaped_agent_not_cleared :
  buildURL_path (bytes_of_string "a b") = bytes_of_string "/v1/agent/a%2520b/history".
Proof. vm_compute. reflexivity. Qed.

(** ** The derived agent id *)

Lemma zero_ended_inj a b x y :
  ("000"%byte ∉ a) -> ("000"%byte ∉ b) -> zero_ended a ++ x = zero_ended b ++ y -> a = b /\ x = y.
Proof.
  unfold zero_ended. rewrite <- !app_assoc. cbn [app]. revert b.
  induction a as [|c a IH]; intros b Ha Hb Heq; destruct b as [|d b]; cbn [app] in Heq; simplify_eq.
  - done.
  - by destruct Hb; left.
  - by destruct Ha; left.
  - destruct (IH b) as [-> ->]; [set_solver|set_solver|done|done].
Qed.

(** Distinct commands hash distinct texts: an argument list is read back from its
    zero-ended concatenation. *)
Lemma agent_preimage_inj bin1 args1 bin2 args2 :
  Forall (fun a => ("000"%byte ∉ a)) (bin1 :: args1) -> Forall (fun a => ("000"%byte ∉ a)) (bin2 :: args2) ->
  agent_preimage bin1 args1 = agent_preimage bin2 args2 -> bin1 = bin2 /\ args1 = args2.
Proof.
  unfold agent_preimage. intros H1 H2 Heq.
  enough (bin1 :: args1 = bin2 :: args2) as [= -> ->] by done.
  revert H1 H2 Heq. generalize (bin1 :: args1) (bin2 :: args2). intros l1.
  induction l1 as [|a l1 IH]; intros l2 H1 H2 Heq; destruct l2 as [|b l2]; [done| | |];
    rewrite ?fmap_cons in Heq; cbn [concat fmap list_fmap] in Heq.
  - unfold zero_ended in Heq. by destruct b.
  - unfold zero_ended in Heq. by destruct a.
  - apply Forall_cons in H1 as [Ha H1]. apply Forall_cons in H2 as [Hb H2].
    destruct (zero_ended_inj _ _ _ _ Ha Hb Heq) as [-> Heq']. f_equal. by apply IH.
Qed.
