(* ===== verification/Recovery.v ===== *)
(** * Recovering from a loop: the proxy and finops-run together

    internal/wrapper/proxyclient.go and signals.go against pkg/proxy/handler.go. The proxy
    answers a looping request 429; the agent prints the answer; finops-run's tee sees the
    marker in it, kills the child and sends DELETE /v1/agent/{id}/history; the proxy's
    router and authentication decide what that request does. This file is the wire between
    the two programs and the theorems about the whole cycle. *)

From S2P Require Import Prelude GoStrings GoUrl GoHttp Detector Store Budget Wrapper Handler.
From S2P Require Auth Pricing Pipeline StructuralHasher ToolMatcher VelocityBreaker HashDetector GoSha256.

(** ** The cleanup request on the wire *)

(** What net/http's server and ServeMux make of a request target: the escaped path, cut at
    its slashes, each segment decoded; a path that is not clean is redirected, not routed. *)
Definition clean_segment (s : list byte) : bool :=
  negb (bool_decide (s ∈ [[]; bytes_of_string "."; bytes_of_string ".."])).
Definition route_segments (path : list byte) : option (list string) :=
  match split_byte "/" path with
  | [] :: segs =>
      if forallb clean_segment segs then mapM (fun s => string_of_bytes <$> unescape s) segs else None
  | _ => None
  end.

(** The supervisor's end of the connection, as the proxy sees it. *)
Record peer := { p_host : string; p_ip : option string; p_tls : bool }.

(** http.NewRequestWithContext(ctx, http.MethodDelete, target, nil), as the proxy reads it:
    no body and no header of the client's own. *)
Definition delete_request (from : peer) (id : string) : option Request :=
  u ← origin_url (buildURL_path (bytes_of_string id));
  segs ← route_segments (EscapedPath u);
  Some {| Method := "DELETE"; URL := u; Host := p_host from; ClientIP := p_ip from; TLS := p_tls from;
          Segments := segs; ReqHeader := ∅; ContentLength := 0; Body := []; BodyErr := false |}.

(** What the network does with one attempt. *)
Inductive link :=
  | Lost          (* the request did not arrive *)
  | ReplyLost     (* it arrived, its answer did not *)
  | Delivered.

Section Exchange.
Context {D S B P : Type}.
Context `{Detector D, PayloadCapability D, Store.RequestLogStore S, Store.BudgetLedger S,
          Budget.BudgetSpender B, Pricing.PriceSource P}.
Implicit Types (h : handler P) (w : world D S B).

(** The proxy after the attempts before [k], each of which may have reached it. *)
Definition reaches (l : link) : bool := match l with Lost => false | _ => true end.
Definition proxy_after h t (req : Request) (net : Z -> link) (k : nat) w : world D S B :=
  foldl (fun w i => if reaches (net (Z.of_nat i)) then (handle h t req w).1.1 else w) w (seq 0 k).

(** c.httpc.Do: the status of the proxy's own answer, or of the upstream's when the proxy
    forwards the request. *)
Definition exchange_answer h t (req : Request) (net : Z -> link) (upstream : Z) w (k : Z) : delete_answer :=
  match net k with
  | Delivered =>
      Answer (match responses (handle h t req (proxy_after h t req net (Z.to_nat k) w)).1.2 with
              | r :: _ => Status r
              | [] => upstream
              end)
  | _ => NetError
  end.

(** client.DeleteHistory(ctx, id) against this proxy: its result, and the proxy after it. *)
Definition cleanup h t (from : peer) (retries : Z) (id : string) (net : Z -> link) (wait : Z -> bool) (upstream : Z) w :
    option delete_error * world D S B :=
  match delete_request from id with
  | None => (Some NotSent, w)
  | Some req =>
      let '(res, n, _) := DeleteHistory (NewProxyClient retries) wait (exchange_answer h t req net upstream w) in
      (res, proxy_after h t req net (Z.to_nat n) w)
  end.
End Exchange.

(** ** Ids that survive the wire *)

Definition plain_id (id : list byte) : Prop :=
  Forall (fun c => shouldEscape encodePathSegment c = false) id /\ clean_segment id = true.

Lemma split_none c l : c ∉ l -> split_byte c l = [l].
Proof.
  induction l as [|b l IH]; intros Hn; [done|]. apply not_elem_of_cons in Hn as [Hb Hn].
  cbn [split_byte]. rewrite (IH Hn). destruct (byte_eqb b c) eqn:E; [|done].
  apply byte_eqb_eq in E. by subst.
Qed.

Lemma split_app c a rest : c ∉ a -> split_byte c (a ++ c :: rest) = a :: split_byte c rest.
Proof.
  induction a as [|b a IH]; intros Hn; cbn [app split_byte].
  - destruct (split_byte c rest) eqn:E; [|by rewrite (proj2 (byte_eqb_eq c c) eq_refl)].
    destruct rest as [|x rest]; cbn in E; [done|]. destruct (split_byte c rest); [done|].
    by destruct (byte_eqb x c).
  - apply not_elem_of_cons in Hn as [Hb Hn]. rewrite (IH Hn). destruct (byte_eqb b c) eqn:E; [|done].
    apply byte_eqb_eq in E. by subst.
Qed.

Lemma escape_path_segment l :
  Forall (fun c => shouldEscape encodePathSegment c = false) l -> escape encodePath l = l.
Proof.
  induction 1 as [|c l Hc _ IH]; [done|]. unfold escape in *. rewrite fmap_cons. cbn [concat].
  rewrite IH. unfold escape_byte.
  assert (shouldEscape encodePath c = false) as ->; [|done].
  unfold shouldEscape in *. destruct (unreserved c); [done|].
  destruct (bool_decide (c ∈ bytes_of_string "$&+,/:;=?@")) eqn:E; [|done].
  destruct (byte_eqb c "?") eqn:Eq; [|done]. apply byte_eqb_eq in Eq as ->. by vm_compute in Hc.
Qed.

(** The path a plain id makes needs no escaping. *)
Lemma plain_path id :
  plain_id id ->
  buildURL_path id = bytes_of_string "/v1/agent/" ++ id ++ bytes_of_string "/history"
  /\ escape encodePath (buildURL_path id) = buildURL_path id.
Proof.
  intros [Hid _].
  assert (escape encodePath (bytes_of_string "/v1/agent/" ++ id ++ bytes_of_string "/history")
          = bytes_of_string "/v1/agent/" ++ id ++ bytes_of_string "/history") as He
    by (rewrite !escape_app, (escape_path_segment id) by done; reflexivity).
  assert (buildURL_path id = bytes_of_string "/v1/agent/" ++ id ++ bytes_of_string "/history") as Hp
    by (unfold buildURL_path; by rewrite (proj2 (escape_id_iff _) Hid)).
  split; [done|]. by rewrite Hp.
Qed.

(** The URL of a path that needs no escaping. *)
Definition plain_url (p : list byte) : url :=
  {| Scheme := ""; u_Host := ""; Path := p; RawPath := []; RawQuery := [] |}.

Lemma origin_plain p :
  escape encodePath p = p -> p <> bytes_of_string "*" ->
  origin_url p = Some (plain_url p) /\ EscapedPath (plain_url p) = p.
Proof.
  intros Hp Hs. assert (("?"%byte : byte) ∉ p) as Hq.
  { rewrite <- Hp. clear. induction p as [|c p IH]; [apply not_elem_of_nil|].
    unfold escape in *. rewrite fmap_cons. cbn [concat]. rewrite not_elem_of_app. split; [|exact IH].
    intros Hin. apply (bool_decide_eq_true_2 _) in Hin. destruct c; vm_compute in Hin; discriminate. }
  unfold origin_url. pose proof (cut_byte_spec "?" p) as Hc. destruct (cut_byte "?" p) as [[x y]|].
  { destruct Hc as [-> _]. destruct Hq. apply elem_of_app. right. by left. }
  cbn [from_option id]. pose proof (unescape_escape encodePath p) as Hu. rewrite Hp in Hu. rewrite Hu.
  cbn [mbind option_bind]. split; [by rewrite Hp, bool_decide_eq_true_2|].
  unfold EscapedPath, plain_url. cbn [RawPath Path]. rewrite bool_decide_eq_true_2 by done. cbn [negb andb].
  by rewrite bool_decide_eq_false_2.
Qed.

(** A plain id is a segment of the path, and the router reads the same id back. *)
Lemma delete_request_plain from id :
  plain_id (bytes_of_string id) ->
  delete_request from id
  = Some {| Method := "DELETE"; URL := plain_url (buildURL_path (bytes_of_string id)); Host := p_host from;
            ClientIP := p_ip from; TLS := p_tls from; Segments := ["v1"; "agent"; id; "history"];
            ReqHeader := ∅; ContentLength := 0; Body := []; BodyErr := false |}.
Proof.
  intros Hpl. destruct (plain_path _ Hpl) as [Hpath Hesc]. destruct Hpl as [Hid Hclean]. unfold delete_request.
  destruct (origin_plain _ Hesc) as [-> Hep]; [by rewrite Hpath|]. cbn [mbind option_bind]. rewrite Hep.
  generalize (plain_url (buildURL_path (bytes_of_string id))). intros u. rewrite Hpath.
  assert (("/"%byte : byte) ∉ bytes_of_string id) as Hs.
  { intros Hin. rewrite Forall_forall in Hid. specialize (Hid _ Hin). by vm_compute in Hid. }
  unfold route_segments.
  assert (split_byte "/" (bytes_of_string "/v1/agent/" ++ bytes_of_string id ++ bytes_of_string "/history")
          = [[]; bytes_of_string "v1"; bytes_of_string "agent"; bytes_of_string id; bytes_of_string "history"])
    as ->.
  { change (bytes_of_string "/v1/agent/" ++ bytes_of_string id ++ bytes_of_string "/history")
      with ([] ++ "/"%byte :: bytes_of_string "v1" ++ "/"%byte :: bytes_of_string "agent" ++ "/"%byte ::
            bytes_of_string id ++ "/"%byte :: bytes_of_string "history").
    rewrite !split_app by (done || (apply (bool_decide_unpack _); by vm_compute)). done. }
  cbn [forallb]. rewrite Hclean. change (clean_segment (bytes_of_string "v1")) with true.
  change (clean_segment (bytes_of_string "agent")) with true.
  change (clean_segment (bytes_of_string "history")) with true. cbn [andb mapM].
  pose proof (unescape_escape encodePathSegment (bytes_of_string id)) as Hun.
  fold (PathEscape (bytes_of_string id)) in Hun. rewrite (proj2 (escape_id_iff _) Hid) in Hun. rewrite Hun.
  cbn. by rewrite !string_of_bytes_of_string.
Qed.

(** The id derived from the command is plain: sixteen hexadecimal digits. *)
Lemma substring_take n s : bytes_of_string (String.substring 0 n s) = take n (bytes_of_string s).
Proof.
  unfold bytes_of_string, String.list_byte_of_string. revert n.
  induction s as [|c s IH]; intros [|n]; try done. cbn. by rewrite IH.
Qed.

Lemma default_agent_id_plain bin args : plain_id (bytes_of_string (DefaultAgentID bin args)).
Proof.
  unfold DefaultAgentID. destruct (GoSha256.sha256_hex_shape (agent_preimage bin args)) as [Hlen Hhex].
  rewrite substring_take. set (d := bytes_of_string _) in *.
  assert (length (take 16 d) = 16%nat) as Hl.
  { rewrite length_take. assert (length d = 64%nat) as ->; [|done]. rewrite <- Hlen. unfold d.
    generalize (GoSha256.sha256_hex (agent_preimage bin args)). clear.
    unfold bytes_of_string, String.list_byte_of_string. induction s as [|c s IH]; [done|]. cbn. by rewrite IH. }
  split.
  - apply (Forall_take _ 16) in Hhex. eapply Forall_impl; [exact Hhex|].
    intros c Hc. by destruct c; vm_compute in Hc |- *.
  - unfold clean_segment. rewrite bool_decide_false; [done|]. intros Hin.
    rewrite !elem_of_cons in Hin. destruct Hin as [E|[E|[E|E%elem_of_nil]]]; try done; by rewrite E in Hl.
Qed.

(** ** The marker in the proxy's answer *)

Definition printed (res : CheckResult) : list byte := bytes_of_string (RespBody (blocked_response res)).

(** Every answer to a blocked request carries the default marker. *)
Lemma blocked_answer_marked res :
  exists a b, printed res = a ++ bytes_of_string (Marker DefaultConfig) ++ b.
Proof.
  unfold printed, blocked_response, too_many. cbn [RespBody]. rewrite !bytes_of_string_app.
  exists (bytes_of_string (quoted "{'error':{'type':'")).
  eexists. cbn [Marker DefaultConfig].
  change (bytes_of_string (quoted "{'error':{'type':'agent_loop_exception','message':'"))
    with (bytes_of_string (quoted "{'error':{'type':'") ++ bytes_of_string "agent_loop_exception"
          ++ bytes_of_string (quoted "','message':'")).
  rewrite <- !app_assoc. reflexivity.
Qed.

(** The tee fires on an answer printed whole within the window, however it is written. *)
Lemma answer_fires res ps qs pre post :
  qs `prefix_of` ps -> qs <> [] -> concat qs = pre ++ printed res ++ post ->
  (length (printed res ++ post) <= matchWindow)%nat ->
  (tee_run (newLineTee (bytes_of_string (Marker DefaultConfig))) ps).2 = true.
Proof.
  intros Hq Hne Hc Hl. set (m := bytes_of_string _).
  pose proof (tee_run_spec ps (newLineTee m) [] eq_refl) as H.
  destruct (tee_run (newLineTee m) ps) as [[t out] fired]. destruct H as (_ & _ & _ & Hf).
  cbn [snd]. apply Hf. exists qs. split_and!; [done|done|]. cbn [marker newLineTee app]. unfold matchLoop.
  enough (contains m (last_bytes matchWindow (concat qs)) = true) as -> by done.
  destruct (blocked_answer_marked res) as (a & b & Ha). fold m in Ha.
  apply contains_spec. exists (drop (length (concat qs) - matchWindow) pre ++ a), (b ++ post).
  unfold last_bytes. rewrite Hc. rewrite drop_app_le by (rewrite length_app; lia).
  rewrite Ha, <- !app_assoc. done.
Qed.

(** ** What recovery asks of a detector *)

Definition consulted {D} `{Detector D, PayloadCapability D} (d : D) (c : Pipeline.clocks) (a : Detector.AgentID)
    (fp : Fingerprint) (body : list byte) : D * CheckResult :=
  match payload_checker with
  | Some check => check d c a fp body
  | None => det_check d (Pipeline.c_exact c) a fp
  end.

(** After a reset of the agent its next request is not blocked, unless the request is one
    the detector stops on sight. *)
Class Recoverable (D : Type) `{Detector D, PayloadCapability D} (ok : D -> Prop)
    (modest : D -> Pipeline.clocks -> list byte -> Prop) := {
  rec_reset_ok d a : ok d -> ok (det_reset d a).1;
  rec_reset_modest d a c body : modest d c body -> modest (det_reset d a).1 c body;
  rec_forgets d a c fp body :
    ok d -> modest d c body -> Block (consulted (det_reset d a).1 c a fp body).2 = false
}.

#[local] Existing Instances Pipeline.pipeline_Detector.

Lemma link_dec : EqDecision link.
Proof. solve_decision. Defined.
#[local] Existing Instance link_dec.

#[export] Instance plain_recoverable {D} `{Detector D, PayloadCapability D} {ok : D -> Prop}
    `{!DetectorLaws D ok} `{Hpc : !TCEq (payload_checker (D := D)) None} :
  Recoverable D ok (fun _ _ _ => True).
Proof.
  split; [apply law_reset_ok|done|]. intros d a c fp body Hok _. unfold consulted.
  rewrite (proj1 (TCEq_eq _ _) Hpc). by rewrite law_reset_proceeds.
Qed.

#[export] Instance pipeline_recoverable {D} `{Detector D} {ok : D -> Prop} `{!DetectorLaws D ok}
    {RS : RangeOrder Detector.AgentID StructuralHasher.structuralState}
    {RT : RangeOrder Detector.AgentID ToolMatcher.toolState}
    {RV : RangeOrder Detector.AgentID VelocityBreaker.velocityState} :
  Recoverable (Pipeline.Pipeline D) (fun p => ok (Pipeline.exact p) /\ Pipeline.configured p)
    (fun p c body => Pipeline.within_burst p body /\ 0 < Pipeline.c_velocity c).
Proof.
  split.
  - intros p a [Hok Hc]. split; [|by apply Pipeline.Reset_configured].
    cbn [det_reset Pipeline.pipeline_Detector]. destruct (Pipeline.Reset_forgets p a) as (_ & -> & _).
    by apply law_reset_ok.
  - intros p a c body [Hb Hv]. split; [by apply Pipeline.Reset_within|done].
  - intros p a c fp body [Hok Hc] [Hb Hv]. unfold consulted. cbn [payload_checker pipeline_payload].
    cbn [det_reset Pipeline.pipeline_Detector]. destruct (Pipeline.Reset_forgets p a) as (Hf & He & _).
    rewrite (Pipeline.forgotten_proceeds _ c a fp body Hf); try done;
      [by apply Pipeline.Reset_configured|by apply Pipeline.Reset_within|].
    rewrite He. by rewrite (law_reset_proceeds (Pipeline.exact p)).
Qed.

Section Cycle.
Context {D S B P : Type}.
Context `{Detector D, PayloadCapability D, Store.RequestLogStore S, Store.BudgetLedger S,
          Budget.BudgetSpender B, Pricing.PriceSource P}.
Implicit Types (h : handler P) (w : world D S B).

(** ** The cleanup against an open proxy *)

Lemma open_delete h t w from id req :
  auth h = None -> plain_id (bytes_of_string id) -> delete_request from id = Some req ->
  handle h t req w
  = (Build_world (det_reset (w_det w) id).1 (w_store w) (w_budget w),
     [ERespond {| Status := StatusNoContent; RespHeader := ∅; RespBody := "" |}], tt).
Proof.
  intros Ha Hid Hreq. rewrite delete_request_plain in Hreq by done. injection Hreq as <-.
  assert (id <> "") as Hne by (intros ->; by destruct Hid as [_ Hid]).
  unfold handle, mux. rewrite Ha. cbn [Segments Method String.eqb Ascii.eqb Bool.eqb andb].
  apply String.eqb_neq in Hne. rewrite Hne. reflexivity.
Qed.

(** What the attempts that reached the proxy left of its detector. *)
Lemma proxy_after_open h t w from id req net k :
  auth h = None -> plain_id (bytes_of_string id) -> delete_request from id = Some req ->
  exists m : nat,
    w_det (proxy_after h t req net k w) = Nat.iter m (fun d => (det_reset d id).1) (w_det w)
    /\ w_store (proxy_after h t req net k w) = w_store w
    /\ w_budget (proxy_after h t req net k w) = w_budget w
    /\ ((exists i, (i < k)%nat /\ reaches (net (Z.of_nat i)) = true) -> (0 < m)%nat).
Proof.
  intros Ha Hid Hreq. unfold proxy_after. induction k as [|k (m & Hd & Hs & Hb & Hm)].
  { exists 0%nat. split_and!; try done. intros (i & Hi & _). lia. }
  rewrite seq_S, foldl_app. cbn [foldl Nat.add]. destruct (reaches (net (Z.of_nat k))) eqn:Er.
  - rewrite (open_delete h t _ from id req Ha Hid Hreq). cbn [fst w_det w_store w_budget].
    exists (Datatypes.S m). rewrite Hd. split_and!; try done. lia.
  - exists m. split_and!; try done. intros (i & Hi & Hr). apply Hm. exists i. split; [|done].
    assert (i <> k) by (intros ->; congruence). lia.
Qed.

Lemma open_answer h t w from id req net upstream k :
  auth h = None -> plain_id (bytes_of_string id) -> delete_request from id = Some req ->
  exchange_answer h t req net upstream w k
  = match net k with Delivered => Answer 204 | _ => NetError end.
Proof.
  intros Ha Hid Hreq. unfold exchange_answer. destruct (net k); try done.
  by rewrite (open_delete h t _ from id req Ha Hid Hreq).
Qed.

(** The first of the indices up to [b] with a property. *)
Lemma first_such (Q : Z -> Prop) `{forall i, Decision (Q i)} b :
  0 <= b -> Q b -> exists i, 0 <= i <= b /\ Q i /\ forall l, 0 <= l < i -> ~ Q l.
Proof.
  intros Hb. induction (Z.lt_wf 0 b) as [b _ IH]. intros HQ.
  destruct (decide (Exists Q (seqZ 0 b))) as [He|Hn].
  - apply Exists_exists in He as (i & Hi%elem_of_seqZ & Hq).
    destruct (IH i) as (i' & ? & ? & ?); [lia|lia|done|]. exists i'. split_and!; [lia|lia|done|done].
  - exists b. split_and!; [lia|lia|done|]. intros l Hl Hq. apply Hn, Exists_exists. exists l.
    split; [|done]. apply elem_of_seqZ. lia.
Qed.

(** A successful cleanup's last request was answered as deleted. *)
Lemma delete_loop_success fuel c wait answer k err n ds :
  delete_loop fuel c wait answer k err = (None, n, ds) -> (fuel = 0%nat -> err <> None) ->
  0 < n /\ deleted (answer (k + n - 1)) = true.
Proof.
  revert k err n ds. induction fuel as [|fuel IH]; intros k err n ds Hr Herr; cbn [delete_loop] in Hr.
  { injection Hr as -> _ _. by destruct (Herr eq_refl). }
  destruct ((0 <? k) && negb (wait k)); [done|].
  assert (forall err' sl, err' <> None ->
    (let '(res, n, ds) := one_more (delete_loop fuel c wait answer (k + 1) err') in (res, n, sl ++ ds))
    = (None, n, ds) -> 0 < n /\ deleted (answer (k + n - 1)) = true) as Hrec.
  { intros err' sl He Heq. destruct (delete_loop fuel c wait answer (k + 1) err') as [[res m] ds'] eqn:El.
    cbn [one_more] in Heq. injection Heq as -> <- _. destruct (IH _ _ _ _ El (fun _ => He)) as [Hm Hd].
    split; [lia|]. by replace (k + (m + 1) - 1) with (k + 1 + m - 1) by lia. }
  destruct (answer k) as [| |status] eqn:Ea; cbn in Hr; [done|by apply (Hrec (Some Unreachable)) in Hr|].
  destruct ((status <? 300) || (status =? 404)) eqn:Es.
  - injection Hr as <- _. split; [lia|]. replace (k + 1 - 1) with k by lia. by rewrite Ea.
  - destruct (500 <=? status); [by apply (Hrec (Some (ServerStatus status))) in Hr|done].
Qed.

Lemma proxy_after_open_ok (ok : D -> Prop) (modest : D -> Pipeline.clocks -> list byte -> Prop)
    `{!Recoverable D ok modest} d a m :
  ok d -> ok (Nat.iter m (fun d => (det_reset d a).1) d)
  /\ (forall c body, modest d c body -> modest (Nat.iter m (fun d => (det_reset d a).1) d) c body).
Proof.
  intros Hok. induction m as [|m [IH1 IH2]]; [done|]. cbn [Nat.iter nat_rect].
  split; [by apply rec_reset_ok|]. intros c body Hm. by apply rec_reset_modest, IH2.
Qed.

Lemma blocked_checked h w t r ctx body res :
  classify h w t r ctx = Blocked body res -> Block (checked w t r body).2 = true.
Proof. unfold classify. intros. repeat case_match; by simplify_eq. Qed.

(** After a cleanup that succeeded, the agent's requests are not blocked. *)
Lemma cleanup_clears (ok : D -> Prop) (modest : D -> Pipeline.clocks -> list byte -> Prop)
    `{!Recoverable D ok modest} h t from retries id net wait upstream w :
  auth h = None -> plain_id (bytes_of_string id) -> ok (w_det w) ->
  (exists j, 0 <= j <= Z.max 0 retries /\ net j = Delivered /\ (forall i, 1 <= i <= j -> wait i = true)) ->
  let '(res, w') := cleanup h t from retries id net wait upstream w in
  res = None /\ w_store w' = w_store w /\ w_budget w' = w_budget w
  /\ forall t2 r2 ctx2 body2 res2,
       header_Get (ReqHeader r2) AgentIDHeader = id -> modest (w_det w) (t_check t2) body2 ->
       classify h w' t2 r2 ctx2 <> Blocked body2 res2.
Proof.
  intros Ha Hid Hok (j & Hj & Hnet & Hwait). unfold cleanup.
  destruct (delete_request from id) as [req|] eqn:Hreq; [|by rewrite delete_request_plain in Hreq].
  unfold DeleteHistory. set (c := NewProxyClient retries).
  assert (maxRetries c = Z.max 0 retries) as Hmax by (unfold c; cbn; zcase (retries <? 0); lia).
  rewrite Hmax. set (answer := exchange_answer h t req net upstream w). 
  assert (forall i, answer i = match net i with Delivered => Answer 204 | _ => NetError end) as Hans
    by (intros i; by apply (open_answer h t w from id)).
  pose proof (delete_loop_spec (Z.to_nat (Z.max 0 retries + 1)) c wait answer 0 None
    ltac:(lia) ltac:(lia) ltac:(lia)) as Hsp.
  destruct (delete_loop _ _ _ _ _ _) as [[res n] ds] eqn:El. destruct Hsp as (Hn & _ & Hres).
  assert (res = None) as ->.
  { apply Hres. 
    destruct (first_such (fun i => net i = Delivered) j) as (i & Hi & Hd & Hfirst); [lia|done|].
    exists i. split_and!; [lia|lia|by rewrite Hans, Hd| |].
    - intros l Hl. rewrite Hans. specialize (Hfirst l Hl). by destruct (net l).
    - intros l Hl Hpos. apply Hwait. lia. }
  destruct (delete_loop_success _ _ _ _ _ _ _ _ El) as [Hpos Hdel]; [lia|].
  rewrite Hans in Hdel. destruct (net (0 + n - 1)) eqn:Hlast; try done.
  destruct (proxy_after_open h t w from id req net (Z.to_nat n) Ha Hid Hreq) as (m & Hd & Hs & Hb & Hm).
  split_and!; try done. intros t2 r2 ctx2 body2 res2 Hag Hmod Hcl.
  assert (0 < m)%nat as Hm0.
  { apply Hm. exists (Z.to_nat (n - 1)). split; [lia|]. replace (Z.of_nat (Z.to_nat (n - 1))) with (0 + n - 1) by lia.
    by rewrite Hlast. }
  destruct m as [|m]; [lia|]. rewrite Nat.iter_succ in Hd.
  destruct (proxy_after_open_ok ok modest (w_det w) id m Hok) as [Hok' Hmod'].
  apply blocked_checked in Hcl. revert Hcl. unfold checked. rewrite Hd, Hag.
  pose proof (rec_forgets _ id (t_check t2) (GoSha256.sha256_hex body2) body2 Hok' (Hmod' _ _ Hmod)) as Hf.
  unfold consulted in Hf. by rewrite Hf.
Qed.

Lemma blocked_answer h t r w body res :
  auth h = None -> classify h w t r None = Blocked body res ->
  responses (handle h t r w).1.2 = [blocked_response res].
Proof.
  intros Ha Hv. unfold handle. rewrite Ha.
  destruct (mux_cases h t r None w) as [(id & Hseg & Hm & _ & _)|Hmux].
  { unfold classify in Hv. by rewrite Hm in Hv. }
  rewrite Hmux, ServeHTTP_run, Hv. cbn [fst snd verdict_effects]. unfold responses.
  rewrite !omap_app. unfold block_effects. rewrite !omap_app, !view_opt.
  destruct (price h); rewrite ?view_opt; cbn; by rewrite ?app_nil_r.
Qed.

(** C4. The recovery cycle, across both programs. The agent of a proxy without keys is
    blocked and prints the answer it got, whole within 4096 bytes of output however it is
    written: the tee fires; the supervisor, unless the restart limit is reached, kills and
    restarts the child, in any case after asking the proxy to clear that agent; and if one
    of the attempts its retries allow gets through, whatever else the proxy served in
    between, the cleanup succeeds, changes neither the log nor the budget, and leaves no
    request of the agent blocked - so the restarted child starts clean. *)
Theorem loop_recovered (ok : D -> Prop) (modest : D -> Pipeline.clocks -> list byte -> Prop)
    `{!Recoverable D ok modest} h cfg environ t r w body res resp ps qs pre post o k
    tc from (wc : world D S B) net wait upstream :
  auth h = None -> Marker cfg = Marker DefaultConfig -> plain_id (bytes_of_string (AgentID cfg)) ->
  classify h w t r None = Blocked body res -> resp ∈ responses (handle h t r w).1.2 ->
  qs `prefix_of` ps -> qs <> [] -> concat qs = pre ++ bytes_of_string (RespBody resp) ++ post ->
  (length (bytes_of_string (RespBody resp) ++ post) <= 4096)%nat ->
  is_loop o = (tee_run (newLineTee (bytes_of_string (Marker cfg))) ps).2 ->
  ok (w_det wc) ->
  (exists j, 0 <= j <= Z.max 0 (MaxDeleteRetries cfg) /\ net j = Delivered
             /\ (forall i, 1 <= i <= j -> wait i = true)) ->
  deletes (run_attempt environ cfg k o).1 = [AgentID cfg]
  /\ (run_attempt environ cfg k o).2
     = (if (0 <=? MaxRestarts cfg) && (MaxRestarts cfg <=? k) then Some 42 else None)
  /\ let '(err, w') := cleanup h tc from (MaxDeleteRetries cfg) (AgentID cfg) net wait upstream wc in
     err = None /\ w_store w' = w_store wc /\ w_budget w' = w_budget wc
     /\ forall t2 r2 ctx2 body2 res2,
          header_Get (ReqHeader r2) AgentIDHeader = AgentID cfg ->
          modest (w_det wc) (t_check t2) body2 -> classify h w' t2 r2 ctx2 <> Blocked body2 res2.
Proof.
  intros Ha Hmk Hid Hv Hresp Hq Hne Hc Hl Ho Hok Hnet.
  rewrite (blocked_answer _ _ _ _ _ _ Ha Hv) in Hresp. apply list_elem_of_singleton in Hresp as ->.
  rewrite Hmk, (answer_fires res ps qs pre post Hq Hne Hc Hl) in Ho.
  destruct (run_attempt_spec environ cfg k o) as (-> & _ & ->). rewrite Ho. split_and!; [done| |].
  - destruct o as [| |[] code []|]; done.
  - by apply (cleanup_clears ok modest).
Qed.

(** C16. A proxy with keys refuses the cleanup: the request carries no API key, so its first
    delivered attempt is answered 401, which is not retried; the history is left as it was. *)
Theorem cleanup_refused h a tc from retries id net wait upstream w :
  auth h = Some a -> a "" = None -> plain_id (bytes_of_string id) -> net 0 = Delivered ->
  cleanup h tc from retries id net wait upstream w = (Some (UnexpectedStatus 401), w).
Proof.
  intros Ha Hno Hid Hnet. unfold cleanup. rewrite delete_request_plain by done.
  set (req := {| Method := _ |}).
  assert (forall w, handle h tc req w = (w, [ERespond Auth.unauthorized], tt)) as Hh.
  { intros w0. unfold handle, Auth.Middleware. rewrite Ha.
    change (header_Get (ReqHeader req) Auth.APIKeyHeader) with ""%string. by rewrite Hno. }
  unfold DeleteHistory. set (c := NewProxyClient retries).
  destruct (Z.to_nat (maxRetries c + 1)) as [|n] eqn:En.
  { cbn in En. destruct (retries <? 0) eqn:E; zbool; lia. }
  cbn [delete_loop]. unfold exchange_answer. rewrite Hnet.
  change (proxy_after h tc req net (Z.to_nat 0) w) with w. rewrite Hh.
  cbn. unfold proxy_after. change (seq 0 (Z.to_nat 1)) with [0%nat]. cbn [foldl].
  change (Z.of_nat 0) with 0. rewrite Hnet. cbn [reaches]. by rewrite Hh.
Qed.
End Cycle.

(** ** A concrete cycle

    The sample proxy and an agent named "a": its second identical request is blocked, it
    prints the answer in three writes, and the third DELETE of the cleanup gets through. *)

Section Witness.
#[local] Existing Instance Auth.keystore_CallerStore.
#[local] Existing Instances HashDetector.key_eq_dec HashDetector.key_countable
  HashDetector.hash_detector_Detector HashDetector.hash_detector_laws.
Local Instance order_key : RangeOrder HashDetector.key HashDetector.entry := canonical_range _ _.
Local Instance flat_price : Pricing.PriceSource unit :=
  {| Pricing.ps_PriceFor _ _ := ({| Pricing.InputUSD := 1000000; Pricing.OutputUSD := 1000000 |}, true);
     Pricing.ps_EstimatePromptTokens _ body := Pricing.EstimatePromptTokens_default body;
     Pricing.ps_SavedCost _ _ := 7; Pricing.ps_AssumedCompletionTokens _ := 5 |}.

Definition sample_config : Config :=
  {| AgentID := "a"; ProxyURL := ProxyURL DefaultConfig; MaxRestarts := MaxRestarts DefaultConfig;
     RecoveryPrompt := RecoveryPrompt DefaultConfig; Marker := Marker DefaultConfig;
     KillGrace := KillGrace DefaultConfig; DeleteTimeout := DeleteTimeout DefaultConfig;
     MaxDeleteRetries := MaxDeleteRetries DefaultConfig; RetryOnNonzero := true; Watch := false;
     WatchInterval := WatchInterval DefaultConfig; Version := false |}.

Definition sample_result : CheckResult :=
  {| Block := true; Reason := ReasonExactHash; RetryAfter := 299; FirstBlock := true |}.
Definition sample_writes : list (list byte) :=
  [bytes_of_string "429: "; take 20 (printed sample_result); drop 20 (printed sample_result)].
Definition sample_net (k : Z) : link := if k =? 0 then Lost else if k =? 1 then ReplyLost else Delivered.

Definition sample_peer : peer := {| p_host := "localhost:8080"; p_ip := Some "127.0.0.1"; p_tls := false |}.

Lemma sample_instance :
  Recoverable HashDetector.HashDetector HashDetector.wf (fun _ _ _ => True).
Proof. apply plain_recoverable. Defined.

Lemma loop_recovered_witness :
  let w := (ServeHTTP sample_handler (times_at 1000) sample_request None sample_world).1.1 in
  let '(err, w') := cleanup sample_handler (times_at 1002) sample_peer 3 "a" sample_net (fun _ => true) 200 w in
  deletes (run_attempt [] sample_config 0 MarkerSeen).1 = ["a"%string] /\ err = None
  /\ forall body2 res2, classify sample_handler w' (times_at 1003) sample_request None <> Blocked body2 res2.
Proof.
  intros w.
  pose proof (loop_recovered HashDetector.wf (fun _ _ _ => True) sample_handler sample_config []
    (times_at 1001) sample_request w (bytes_of_string "[1,2]") sample_result (blocked_response sample_result)
    sample_writes sample_writes (bytes_of_string "429: ") [] MarkerSeen 0 (times_at 1002) sample_peer w sample_net
    (fun _ => true) 200) as Hr.
  change (MaxDeleteRetries sample_config) with 3 in Hr. change (AgentID sample_config) with "a"%string in Hr.
  destruct (cleanup sample_handler (times_at 1002) sample_peer 3 "a" sample_net (fun _ => true) 200 w) as [err w'].
  destruct Hr as (Hd & _ & He & _ & _ & Hn).
  - reflexivity.
  - reflexivity.
  - split; [repeat (constructor; [vm_compute; reflexivity|]); constructor|vm_compute; reflexivity].
  - vm_compute. reflexivity.
  - rewrite (blocked_answer sample_handler (times_at 1001) sample_request w (bytes_of_string "[1,2]") sample_result);
      [by left|reflexivity|vm_compute; reflexivity].
  - done.
  - discriminate.
  - unfold sample_writes. cbn [concat]. rewrite !app_nil_r. by rewrite take_drop.
  - vm_compute. lia.
  - vm_compute. reflexivity.
  - vm_compute. split; [reflexivity|discriminate].
  - exists 2. split_and!; [lia|vm_compute; discriminate|reflexivity|done].
  - split; [exact Hd|]. split; [exact He|]. intros body2 res2. apply Hn; [vm_compute; reflexivity|done].
Defined.

Lemma cleanup_refused_witness :
  let h := WithAuth (Some (Auth.NewAuthenticator Store.NewKeyStore)) sample_handler in
  cleanup h (times_at 1002) sample_peer 3 "a" (fun _ => Delivered) (fun _ => true) 200 sample_world
  = (Some (UnexpectedStatus 401), sample_world).
Proof.
  apply (cleanup_refused (WithAuth (Some (Auth.NewAuthenticator Store.NewKeyStore)) sample_handler)
    (Auth.NewAuthenticator Store.NewKeyStore)).
  - reflexivity.
  - reflexivity.
  - split; [repeat (constructor; [vm_compute; reflexivity|]); constructor|vm_compute; reflexivity].
  - reflexivity.
Defined.
End Witness.
