(* ===== verification/MockServer.v ===== *)
(** * cmd/mockserver/main.go: the mock LLM upstream

    The handler of every path: hanging, forced statuses, the JSON and SSE routes. What the
    client sees is what the handler wrote, [Panicked] when the handler panics (the server
    then drops the connection); the Content-Type net/http sniffs for an answer without one,
    never that of an event stream, and a HEAD request, whose body is not sent, are left
    out. *)

From S2P Require Import Prelude GoJson GoStrings GoUrl GoHttp Store Budget Detector UsageTracking Handler Accounting.
From S2P Require Pricing Metrics.

(** ** The query of a request: net/url's ParseQuery and Get *)

Definition query_Get (q : list byte) (key : string) : list byte :=
  match filter (fun kv => kv.1 = bytes_of_string key) (ParseQuery q) with
  | (_, v) :: _ => v
  | [] => []
  end.

(** ** Requests and answers *)

(** [q_path] is the decoded path, clean (ServeMux redirects any other). *)
Record mock_request := {
  q_method : string;
  q_path : string;
  q_query : list byte
}.

Record written := {
  w_status : Z;
  w_header : Header;
  w_chunks : list (list byte)        (* the body, a chunk per flush *)
}.

Inductive mock_outcome :=
  | Hung                             (* nothing written before the client left *)
  | Panicked
  | Answered (a : written).

(** WriteHeader(code) and a body after it: a code outside 100..999 panics, an informational
    one is sent ahead of an implicit 200, and 101, 204 and 304 allow no body. *)
Definition write_status (code : Z) (body : list byte) : mock_outcome :=
  if (code <? 100) || (999 <? code) then Panicked
  else
    let final := if (code <? 200) && negb (code =? 101) then 200 else code in
    let bodyless := (final =? 101) || (final =? 204) || (final =? 304) in
    Answered {| w_status := final; w_header := ∅;
                w_chunks := if bodyless || bool_decide (body = []) then [] else [body] |}.

Definition plain_text (status : Z) (body : string) : mock_outcome :=
  Answered {| w_status := status;
              w_header := header_Set (header_Set ∅ "Content-Type" "text/plain; charset=utf-8")
                            "X-Content-Type-Options" "nosniff";
              w_chunks := [bytes_of_string body ++ nl] |}.

(** ** serveSSE *)

Definition sse_events : list (list byte) :=
  [ text "data: {'id':'1','role':'assistant','content':'first chunk'}";
    text "data: {'id':'2','role':'assistant','content':'second chunk'}";
    text "data: {'id':'3','role':'assistant','content':'third chunk'}" ].
Definition sse_done : list byte := bytes_of_string "data: [DONE]" ++ nl ++ nl.

(** The loop from the [i]-th check of the context on: what it flushed, and whether it ran
    to its end. *)
Fixpoint send_events (live : nat -> bool) (i : nat) (evs : list (list byte)) : list (list byte) * bool :=
  match evs with
  | [] => ([], true)
  | ev :: evs' =>
      if live i then let '(out, ok) := send_events live (S i) evs' in ((ev ++ nl ++ nl) :: out, ok)
      else ([], false)
  end.

(** [flusher] is whether the writer is an http.Flusher; [live i] whether the request's
    context is not yet done at the [i]-th check. *)
Definition serveSSE (flusher : bool) (live : nat -> bool) : mock_outcome :=
  if negb flusher then plain_text 500 "streaming unsupported"
  else
    let hd := header_Set (header_Set ∅ "Content-Type" "text/event-stream") "Cache-Control" "no-cache" in
    let '(out, ok) := send_events live 0 sse_events in
    Answered {| w_status := StatusOK; w_header := hd;
                w_chunks := if ok && live (length sse_events) then out ++ [sse_done] else out |}.

(** ** The handler *)

Definition mock_handle (flusher : bool) (live : nat -> bool) (counter : Z) (r : mock_request) :
    Z * mock_outcome :=
  let counter := wrap64 (counter + 1) in
  let status := query_Get (q_query r) "status" in
  (counter,
   if bool_decide (query_Get (q_query r) "hang" = bytes_of_string "1") then Hung
   else if negb (bool_decide (status = [])) then
     let code := default 500 (parse_int64 status) in
     write_status code (bytes_of_string ("mock error " +:+ itoa code) ++ nl)
   else if String.eqb (q_path r) "/v1/chat/completions" then
     if negb (String.eqb (q_method r) "POST") then write_status 405 []
     else Answered {| w_status := StatusOK; w_header := header_Set ∅ "Content-Type" "application/json";
                      w_chunks := [text "{'id':'mock-1','ok':true}"] |}
   else if String.eqb (q_path r) "/sse" then serveSSE flusher live
   else if String.eqb (q_path r) "/healthz" then write_status 200 (bytes_of_string "OK" ++ nl)
   else plain_text 404 "404 page not found").

Example mock_examples :
  let ask m p q := (mock_handle true (fun _ => true) 0
    {| q_method := m; q_path := p; q_query := bytes_of_string q |}).2 in
  ask "GET"%string "/x"%string "hang=1&status=500" = Hung
  /\ ask "GET"%string "/x"%string "a=%zz&status=+503"
     = Answered {| w_status := 500; w_header := ∅; w_chunks := [bytes_of_string "mock error 500" ++ nl] |}
  /\ ask "GET"%string "/x"%string "status=%2B503"
     = Answered {| w_status := 503; w_header := ∅; w_chunks := [bytes_of_string "mock error 503" ++ nl] |}
  /\ ask "GET"%string "/x"%string "status=99" = Panicked
  /\ ask "POST"%string "/healthz"%string ""
     = Answered {| w_status := 200; w_header := ∅; w_chunks := [bytes_of_string "OK" ++ nl] |}.
Proof. vm_compute. repeat split. Qed.

(** ** The stream *)

Definition whole_stream : list (list byte) := ((fun ev => ev ++ nl ++ nl) <$> sse_events) ++ [sse_done].

(** A client that leaves stops the stream at the next check: what was sent is the first [k]
    whole events. *)
Lemma sse_stops_at_event live :
  exists k : nat, (k <= 4)%nat /\ (forall i, (i < k)%nat -> live i = true) /\ (k = 4%nat \/ live k = false)
    /\ exists hd, serveSSE true live
         = Answered {| w_status := StatusOK; w_header := hd; w_chunks := take k whole_stream |}
       /\ header_Get hd "Content-Type" = "text/event-stream"%string.
Proof.
  unfold serveSSE. cbn [negb send_events sse_events length].
  assert (forall k : nat, (forall i, (i < k)%nat -> live i = true) -> live k = false -> (k <= 4)%nat ->
    (k <= 4)%nat /\ (forall i, (i < k)%nat -> live i = true) /\ (k = 4%nat \/ live k = false)) as Hk by naive_solver.
  destruct (live 0%nat) eqn:E0; [destruct (live 1%nat) eqn:E1; [destruct (live 2%nat) eqn:E2;
    [destruct (live 3%nat) eqn:E3|]|]|].
  - exists 4%nat. split_and!; [lia| |by left|eexists; split; [reflexivity|by vm_compute]].
    intros i Hi. by destruct i as [|[|[|[|]]]]; try lia.
  - exists 3%nat. split_and!; [lia| |by right|eexists; split; [reflexivity|by vm_compute]].
    intros i Hi. by destruct i as [|[|[|]]]; try lia.
  - exists 2%nat. split_and!; [lia| |by right|eexists; split; [reflexivity|by vm_compute]].
    intros i Hi. by destruct i as [|[|]]; try lia.
  - exists 1%nat. split_and!; [lia| |by right|eexists; split; [reflexivity|by vm_compute]].
    intros i Hi. by destruct i; try lia.
  - exists 0%nat. split_and!; [lia|intros; lia|by right|eexists; split; [reflexivity|by vm_compute]].
Qed.

(** ** The mock behind the proxy *)

(** What a body of the mock tells the proxy's observer: nothing. *)
Definition silent (sse : bool) (data : list byte) : Prop :=
  forall m, reference sse m data = (promptTok m, 0).

Lemma stream_silent k : (k <= 4)%nat -> silent true (concat (take k whole_stream)).
Proof.
  intros Hk m. unfold reference, sse_reference. set (evs := omap line_event _).
  assert (omap event_usage evs = [] /\ estimateCompletionTokens (wrap64 (sumZ (event_content <$> evs))) = 0) as [-> ->];
    [|done]. subst evs. destruct k as [|[|[|[|[|]]]]]; try lia; split; vm_compute; reflexivity.
Qed.

(** A text that does not start a JSON document, or is none, reports nothing. *)
Lemma json_silent data : parseJSONUsage data = None -> silent false data.
Proof. intros Hp m. unfold reference, json_reference. rewrite Hp. by destruct (usageBufferCap <? len data). Qed.

Lemma text_unparsed (c : byte) l : c ∈ bytes_of_string "m4s" \/ (c = "O"%byte) ->
  (c = "4"%byte -> l = bytes_of_string "04 page not found" ++ nl) -> parseJSONUsage (c :: l) = None.
Proof.
  intros Hc H4. unfold parseJSONUsage, unmarshal, parse.
  assert (c = "m" \/ c = "4" \/ c = "s" \/ c = "O")%byte as Hcs.
  { destruct Hc as [Hc| ->]; [|tauto]. cbn in Hc. rewrite !elem_of_cons, elem_of_nil in Hc. tauto. }
  destruct Hcs as [-> |[-> |[-> | ->]]]; try reflexivity. rewrite (H4 eq_refl). vm_compute. reflexivity.
Qed.

Lemma mock_silent flusher live n r a :
  (mock_handle flusher live n r).2 = Answered a ->
  silent (is_event_stream (header_Get (w_header a) "Content-Type")) (concat (w_chunks a)).
Proof.
  assert (forall code body, write_status code body = Answered a -> (body = [] \/ parseJSONUsage body = None) ->
    silent (is_event_stream (header_Get (w_header a) "Content-Type")) (concat (w_chunks a))) as Hst.
  { intros code body Hw Hb. unfold write_status in Hw. destruct (_ || _); [done|]. injection Hw as <-. cbn [w_header w_chunks].
    change (is_event_stream (header_Get ∅ "Content-Type")) with false. apply json_silent.
    case_match; [done|]. cbn [concat]. rewrite app_nil_r. destruct Hb as [-> |Hb]; done. }
  assert (forall status body, plain_text status body = Answered a -> parseJSONUsage (bytes_of_string body ++ nl) = None ->
    silent (is_event_stream (header_Get (w_header a) "Content-Type")) (concat (w_chunks a))) as Hpl.
  { intros status body Hw Hb. unfold plain_text in Hw. injection Hw as <-. cbn [w_header w_chunks concat].
    rewrite app_nil_r.
    assert (is_event_stream (header_Get (header_Set (header_Set ∅ "Content-Type" "text/plain; charset=utf-8")
      "X-Content-Type-Options" "nosniff") "Content-Type") = false) as -> by (vm_compute; reflexivity).
    by apply json_silent. }
  unfold mock_handle. cbn [snd]. case_bool_decide; [done|]. case_bool_decide as Hs; cbn [negb].
  2:{ intros Hw. eapply Hst; [exact Hw|]. right. rewrite bytes_of_string_app.
      change (bytes_of_string "mock error ") with ("m"%byte :: bytes_of_string "ock error "). cbn [app].
      apply text_unparsed; [left; by left|done]. }
  destruct (String.eqb (q_path r) "/v1/chat/completions").
  { destruct (negb _); [intros Hw; eapply Hst; [exact Hw|by left]|]. intros [= <-]. cbn [w_header w_chunks].
    assert (is_event_stream (header_Get (header_Set ∅ "Content-Type" "application/json") "Content-Type") = false) as ->
      by (vm_compute; reflexivity). apply json_silent. vm_compute. reflexivity. }
  destruct (String.eqb (q_path r) "/sse").
  { destruct flusher; [|intros Hw; eapply Hpl; [exact Hw|vm_compute; reflexivity]].
    destruct (sse_stops_at_event live) as (k & Hk & _ & _ & hd & -> & Hty). intros [= <-].
    cbn [w_header w_chunks]. rewrite Hty. by apply stream_silent. }
  destruct (String.eqb (q_path r) "/healthz"); intros Hw;
    [eapply Hst; [exact Hw|right; vm_compute; reflexivity]|eapply Hpl; [exact Hw|vm_compute; reflexivity]].
Qed.

Lemma small_fits chunks rest : len (rest ++ concat chunks) <= usageBufferCap -> fits rest chunks.
Proof.
  revert rest. induction chunks as [|c cs IH]; intros rest Hl; [done|]. cbn [concat fits] in *.
  pose proof (split_rest_len (rest ++ c)) as Hs. unfold len in *. rewrite !length_app in Hl.
  rewrite length_app in Hs |- *. split; [lia|]. apply IH. rewrite length_app. lia.
Qed.

(** The mock behind the proxy: whatever it is asked - a JSON call, the event stream, cut
    short by a leaving client or not, a forced status, an unknown path - its answer passes
    through the proxy's observer byte for byte however it is read, and reports the estimate
    of the request's tokens and no completion tokens, exactly once: nothing the mock writes
    is mistaken for a usage report. The stream itself is cut at whole events only. *)
Theorem mock_calls_estimated flusher live n r a m chunks data :
  (mock_handle flusher live n r).2 = Answered a ->
  concat chunks ++ data = concat (w_chunks a) -> len (concat (w_chunks a)) <= usageBufferCap ->
  (let '(_, out, rs) :=
     body_run (new_body m (is_event_stream (header_Get (w_header a) "Content-Type")))
       (((fun c => BRead c false) <$> chunks) ++ [BRead data true; BClose]) in
   out = concat (w_chunks a) /\ rs = [(m, promptTok m, 0)])
  /\ (q_path r = "/sse" -> w_status a = 200 -> flusher = true ->
      query_Get (q_query r) "status" = [] -> exists k : nat, w_chunks a = take k whole_stream
        /\ (k = 4%nat \/ live k = false)).
Proof.
  intros Ha Hcut Hlen. split.
  - pose proof (mock_silent _ _ _ _ _ Ha m) as Href.
    pose proof (run_to_end m (is_event_stream (header_Get (w_header a) "Content-Type")) chunks (BRead data true) data
      [BClose] (final_eof data)) as Hrun. cbv zeta in Hrun. rewrite Hcut, Href in Hrun.
    destruct Hrun as [b ->]; [|by rewrite app_nil_r].
    intros _. apply small_fits. cbn [app]. rewrite concat_app. cbn [concat]. by rewrite app_nil_r, Hcut.
  - intros Hp Hst -> Hq. unfold mock_handle in Ha. cbn [snd] in Ha. rewrite Hq, Hp in Ha.
    case_bool_decide; [done|]. rewrite bool_decide_true in Ha by done. cbn [negb String.eqb Ascii.eqb Bool.eqb andb] in Ha.
    destruct (sse_stops_at_event live) as (k & Hk & _ & Hlast & hd & Hsse & _). rewrite Hsse in Ha. injection Ha as <-.
    exists k. done.
Qed.

(** A client that leaves after two events, the copy cut inside the first. *)
Lemma mock_calls_estimated_witness :
  let r := {| q_method := "GET"; q_path := "/sse"; q_query := [] |} in
  let live := fun i => bool_decide (i < 2)%nat in
  let body := concat (take 2 whole_stream) in
  exists b, body_run (new_body sample_meta true) [BRead (take 9 body) false; BRead (drop 9 body) true; BClose]
            = (b, body, [(sample_meta, 11, 0)])
  /\ (mock_handle true live 0 r).1 = 1.
Proof.
  intros r live body.
  set (a := {| w_status := 200;
               w_header := header_Set (header_Set ∅ "Content-Type" "text/event-stream") "Cache-Control" "no-cache";
               w_chunks := take 2 whole_stream |}).
  destruct (mock_calls_estimated true live 0 r a sample_meta [take 9 body] (drop 9 body)) as [Hb _].
  - vm_compute. reflexivity.
  - cbn [concat]. rewrite app_nil_r. apply take_drop.
  - vm_compute. discriminate.
  - assert (is_event_stream (header_Get (w_header a) "Content-Type") = true) as Hty by (vm_compute; reflexivity).
    rewrite Hty in Hb. cbn [fmap list_fmap app] in Hb.
    destruct (body_run _ _) as [[b out] rs]. destruct Hb as [-> ->]. exists b. split; [reflexivity|vm_compute; reflexivity].
Defined.
