(* ===== verification/Child.v ===== *)
(** * internal/wrapper/child.go: the child process and its watchdog

    A child runs beside three goroutines of the supervisor: the one os/exec starts for the
    context (it calls Cancel and backs Wait with WaitDelay), the watchdog of startChild, and
    the one that calls Wait. They and the operating system are the actions of one transition
    system; signals, processes and pipes are what the code relies on of them: SIGKILL to a
    group ends its members, and a process that ended stays a zombie until it is reaped. *)

From S2P Require Import Prelude Fairness Wrapper.

(** ** The state *)

Inductive leader_state :=
  | Running
  | Zombie (s : process_state)
  | Reaped (s : process_state).

Inductive wait_phase :=
  | WaitProcess        (* in c.cmd.Wait, on the process *)
  | WaitCopy           (* in c.cmd.Wait, on the goroutines that copy the output *)
  | WaitReturned       (* c.cmd.Wait returned, done is not closed yet *)
  | WaitClosed.        (* done is closed *)

Inductive watch_phase :=
  | OnContext          (* select on ctx.Done() and c.done *)
  | OnGrace            (* select on time.After(c.grace) and c.done *)
  | WatchEnded.

Inductive exec_phase :=
  | ExecIdle           (* the context is not done, or Wait has the process *)
  | ExecDelay          (* Cancel was called, the WaitDelay timer runs *)
  | ExecEnded.

Inductive group_signal := GroupTerm | GroupKill | LeaderKill.

Record Child := {
  ctx_done : bool;
  leader : leader_state;
  members : bool;                  (* other processes of the group are alive *)
  outside : bool;                  (* a process outside the group holds an output pipe *)
  pipes_closed : bool;
  wait_at : wait_phase;
  watch_at : watch_phase;
  exec_at : exec_phase;
  signals : list (group_signal * leader_state * bool)   (* sent, with the group's state then *)
}.

(** startChild, after a successful cmd.Start(). *)
Definition startChild (outside_pipe : bool) : Child :=
  {| ctx_done := false; leader := Running; members := false; outside := outside_pipe;
     pipes_closed := false; wait_at := WaitProcess; watch_at := OnContext; exec_at := ExecIdle;
     signals := [] |}.

(** cmd.WaitDelay. *)
Definition WaitDelay (cfg : Config) : Z := wrap64 (KillGrace cfg + 3 * Second).

(** sigGroup: its error. *)
Inductive signal_error := ErrProcessDone | OtherErrno.
Definition sigGroup (started : bool) (kill : option bool) : option signal_error :=
  if negb started then Some ErrProcessDone
  else match kill with
       | None => None
       | Some esrch => Some (if esrch then ErrProcessDone else OtherErrno)
       end.

Definition set_leader (c : Child) (l : leader_state) : Child :=
  {| ctx_done := ctx_done c; leader := l; members := members c; outside := outside c;
     pipes_closed := pipes_closed c; wait_at := wait_at c; watch_at := watch_at c;
     exec_at := exec_at c; signals := signals c |}.
Definition set_wait (c : Child) (p : wait_phase) : Child :=
  {| ctx_done := ctx_done c; leader := leader c; members := members c; outside := outside c;
     pipes_closed := pipes_closed c; wait_at := p; watch_at := watch_at c;
     exec_at := exec_at c; signals := signals c |}.
Definition set_watch (c : Child) (p : watch_phase) : Child :=
  {| ctx_done := ctx_done c; leader := leader c; members := members c; outside := outside c;
     pipes_closed := pipes_closed c; wait_at := wait_at c; watch_at := p;
     exec_at := exec_at c; signals := signals c |}.
Definition set_exec (c : Child) (p : exec_phase) : Child :=
  {| ctx_done := ctx_done c; leader := leader c; members := members c; outside := outside c;
     pipes_closed := pipes_closed c; wait_at := wait_at c; watch_at := watch_at c;
     exec_at := p; signals := signals c |}.
Definition set_world (c : Child) (ctx mem out closed : bool) : Child :=
  {| ctx_done := ctx; leader := leader c; members := mem; outside := out;
     pipes_closed := closed; wait_at := wait_at c; watch_at := watch_at c;
     exec_at := exec_at c; signals := signals c |}.

Definition SIGKILL : Z := 9.
Definition SIGTERM : Z := 15.

(** A signal: what the system does, and the record of it. *)
Definition killed (l : leader_state) : leader_state :=
  match l with Running => Zombie (Signaled SIGKILL) | _ => l end.
Definition send (c : Child) (s : group_signal) : Child :=
  {| ctx_done := ctx_done c;
     leader := match s with GroupTerm => leader c | GroupKill | LeaderKill => killed (leader c) end;
     members := match s with GroupKill => false | _ => members c end;
     outside := outside c; pipes_closed := pipes_closed c; wait_at := wait_at c;
     watch_at := watch_at c; exec_at := exec_at c;
     signals := signals c ++ [(s, leader c, members c)] |}.

(** ** The actions *)

Inductive action :=
  (* the environment *)
  | EnvCancel                      (* the context is cancelled *)
  | EnvExit (s : process_state)    (* the child ends, on its own or on a signal it handles *)
  | EnvFork                        (* a process of the group forks *)
  | EnvMembersEnd
  | EnvOutsideEnd
  (* os/exec's goroutine for the context *)
  | ExecCancel                     (* cmd.Cancel: the group gets SIGTERM *)
  | ExecDelayOver                  (* WaitDelay passed: Process.Kill, the pipes are closed *)
  (* the goroutine in Child.Wait *)
  | WaitReap                       (* cmd.Wait has the process *)
  | WaitCopied                     (* the copying goroutines saw the end of the output *)
  | WaitDelayOver                  (* WaitDelay passed after the process: the pipes are closed *)
  | WaitClose                      (* close(c.done) *)
  (* the watchdog *)
  | WatchContext                   (* case <-ctx.Done() *)
  | WatchDone                      (* case <-c.done *)
  | WatchGrace.                    (* case <-time.After(c.grace) *)

Definition guard {A} (b : bool) (a : A) : option A := if b then Some a else None.

Definition is_running (l : leader_state) : bool := match l with Running => true | _ => false end.
Definition is_closed (c : Child) : bool := match wait_at c with WaitClosed => true | _ => false end.

(** The watchdog's second select, once the grace is over: look at done again, then kill. *)
Definition watch_fire (c : Child) : Child :=
  if is_closed c then set_watch c WatchEnded
  else set_watch (send c GroupKill) WatchEnded.

Definition child_step (a : action) (c : Child) : option Child :=
  match a with
  | EnvCancel => guard (negb (ctx_done c)) (set_world c true (members c) (outside c) (pipes_closed c))
  | EnvExit s => guard (is_running (leader c)) (set_leader c (Zombie s))
  | EnvFork => guard (is_running (leader c) || members c)
                 (set_world c (ctx_done c) true (outside c) (pipes_closed c))
  | EnvMembersEnd => guard (members c) (set_world c (ctx_done c) false (outside c) (pipes_closed c))
  | EnvOutsideEnd => guard (outside c) (set_world c (ctx_done c) (members c) false (pipes_closed c))
  | ExecCancel =>
      match exec_at c, wait_at c with
      | ExecIdle, WaitProcess => guard (ctx_done c) (set_exec (send c GroupTerm) ExecDelay)
      | _, _ => None
      end
  | ExecDelayOver =>
      match exec_at c, wait_at c with
      | ExecDelay, WaitProcess =>
          let c' := set_exec (send c LeaderKill) ExecEnded in
          Some (set_world c' (ctx_done c') (members c') (outside c') true)
      | _, _ => None
      end
  | WaitReap =>
      match wait_at c, leader c with
      | WaitProcess, Zombie s => Some (set_wait (set_leader c (Reaped s)) WaitCopy)
      | _, _ => None
      end
  | WaitCopied =>
      match wait_at c with
      | WaitCopy => guard (pipes_closed c || negb (members c || outside c)) (set_wait c WaitReturned)
      | _ => None
      end
  | WaitDelayOver =>
      match wait_at c with
      | WaitCopy => Some (set_wait (set_world c (ctx_done c) (members c) (outside c) true) WaitReturned)
      | _ => None
      end
  | WaitClose => match wait_at c with WaitReturned => Some (set_wait c WaitClosed) | _ => None end
  | WatchContext =>
      match watch_at c with OnContext => guard (ctx_done c) (set_watch c OnGrace) | _ => None end
  | WatchDone =>
      match watch_at c with
      | WatchEnded => None
      | _ => guard (is_closed c) (set_watch c WatchEnded)
      end
  | WatchGrace => match watch_at c with OnGrace => Some (watch_fire c) | _ => None end
  end.

(** Child.ExitCode once Wait returned. *)
Definition child_exit_code (c : Child) : Z :=
  match leader c with Reaped s => ExitCode s | _ => ExitCode NoState end.

(** ** Progress *)

(** Wait returned, the child is reaped and the watchdog is gone. *)
Definition settled (c : Child) : bool :=
  match wait_at c, watch_at c, leader c with
  | WaitClosed, WatchEnded, Reaped _ => true
  | _, _, _ => false
  end.

Definition waiting (c : Child) : bool := match wait_at c with WaitProcess => true | _ => false end.
Definition is_reaped (l : leader_state) : bool := match l with Reaped _ => true | _ => false end.
Definition watch_ended (c : Child) : bool := match watch_at c with WatchEnded => true | _ => false end.

(** Wait is past the process exactly when the child is reaped; and a watchdog that ended has
    killed the child, or found done closed. *)
Definition consistent (c : Child) : bool :=
  Bool.eqb (negb (waiting c)) (is_reaped (leader c))
  && implb (watch_ended c) (negb (is_running (leader c))).

(** The end has begun: the context is done, or the child ended. *)
Definition ending (c : Child) : bool := ctx_done c || negb (is_running (leader c)).

Definition helpful (c : Child) : action :=
  match wait_at c with
  | WaitClosed => WatchDone
  | WaitReturned => WaitClose
  | WaitCopy => WaitDelayOver
  | WaitProcess =>
      if is_running (leader c)
      then match watch_at c with OnContext => WatchContext | _ => WatchGrace end
      else WaitReap
  end.

Definition remaining (c : Child) : nat :=
  match wait_at c with WaitProcess => 30 | WaitCopy => 20 | WaitReturned => 10 | WaitClosed => 0 end
  + (if is_running (leader c) then 5 else 0)
  + match watch_at c with OnContext => 2 | OnGrace => 1 | WatchEnded => 0 end.

(** Inverts a step: one case per action, with the phases it needs. *)
Ltac invert_step Hs :=
  match type of Hs with child_step ?a _ = _ => destruct a end;
  cbn [child_step wait_at watch_at exec_at leader ctx_done members outside pipes_closed] in Hs;
  unfold guard, watch_fire, is_closed in Hs; repeat case_match; simplify_eq;
  cbn in *; simplify_eq; try done.

(** What is left of a case depends on the phases alone. *)
Ltac by_phases :=
  repeat match goal with
    | l : leader_state |- _ => destruct l
    | w : wait_phase |- _ => destruct w
    | wd : watch_phase |- _ => destruct wd
    end; cbn in *; try done; try (by rewrite orb_true_r).

Lemma consistent_step a c c' : consistent c = true -> child_step a c = Some c' -> consistent c' = true.
Proof.
  intros Hc Hs. destruct c as [ctx l mem out cl w wd ex sg]. unfold consistent in *.
  invert_step Hs; by_phases.
Qed.

Lemma ending_step a c c' :
  consistent c && ending c = true -> child_step a c = Some c' -> consistent c' && ending c' = true.
Proof.
  rewrite !andb_true_iff. intros [Hc He] Hs. split; [by eapply consistent_step|]. clear Hc.
  destruct c as [ctx l mem out cl w wd ex sg]. unfold ending in *. invert_step Hs; by_phases.
Qed.

Lemma child_helpful c :
  consistent c && ending c = true -> settled c <> true ->
  exists c', child_step (helpful c) c = Some c' /\ (remaining c' < remaining c)%nat.
Proof.
  unfold consistent, ending, settled, helpful, remaining, child_step, guard, watch_fire, is_closed.
  destruct c as [ctx l mem out cl w wd ex sg]. destruct w, l, wd, ctx; cbn; try done; intros _ _;
    eexists; (split; [done|]); cbn; lia.
Qed.

Lemma child_other a c c' :
  consistent c && ending c = true -> settled c <> true -> child_step a c = Some c' ->
  settled c' = true \/ (remaining c' < remaining c)%nat
  \/ (remaining c' = remaining c /\ helpful c' = helpful c).
Proof.
  intros _ _ Hs. right. destruct c as [ctx l mem out cl w wd ex sg]. unfold remaining, helpful.
  destruct a; cbn in Hs; unfold guard, watch_fire, is_closed in Hs; cbn in Hs;
    repeat (match type of Hs with context [match ?x with _ => _ end] => destruct x eqn:? end;
            cbn in Hs; try discriminate Hs);
    injection Hs as <-; cbn [wait_at leader watch_at set_leader set_wait set_watch set_exec set_world send];
    first [by right | destruct l; cbn in *; first [by right | left; lia | done]].
Qed.

(** The actions of the supervisor's goroutines and of the system's timers. *)
Definition goroutine_actions : list action :=
  [WatchDone; WaitClose; WaitDelayOver; WatchContext; WatchGrace; WaitReap].

Lemma helpful_goroutine c : helpful c ∈ goroutine_actions.
Proof. unfold helpful, goroutine_actions. destruct (wait_at c), (is_running (leader c)), (watch_at c); set_solver. Qed.

(** Signals, the grace and WaitDelay all come after the context. *)
Definition quiet (c : Child) : Prop :=
  ctx_done c = false -> signals c = [] /\ watch_at c <> OnGrace /\ exec_at c <> ExecDelay.

Lemma quiet_step a c c' : quiet c -> child_step a c = Some c' -> quiet c'.
Proof.
  unfold quiet. intros Hq Hs. destruct c as [ctx l mem out cl w wd ex sg].
  destruct a; cbn in Hs; unfold guard, watch_fire, is_closed in Hs; cbn in Hs;
    repeat (match type of Hs with context [match ?x with _ => _ end] => destruct x eqn:? end;
            cbn in Hs; try discriminate Hs);
    injection Hs as <-; cbn in *; intros Hctx; try done;
    destruct (Hq Hctx) as (? & ? & ?); split_and!; done.
Qed.

(** C10. The child is always reaped: on every weakly fair schedule of the supervisor's
    goroutines and timers, once the context is done or the child has ended, Wait eventually
    returns with the child reaped and its exit code, and the watchdog is gone - whatever
    the child does about SIGTERM, whatever it forks, and whoever keeps its output pipe
    open; and as long as the context is not done no signal is ever sent. *)
Theorem child_always_reaped out st act n :
  st 0%nat = startChild out -> is_run child_step st act ->
  Forall (weakly_fair child_step st act) goroutine_actions ->
  ctx_done (st n) = true \/ leader (st n) <> Running ->
  (exists m s, (n <= m)%nat /\ wait_at (st m) = WaitClosed /\ watch_at (st m) = WatchEnded
               /\ leader (st m) = Reaped s /\ child_exit_code (st m) = ExitCode s)
  /\ forall k, ctx_done (st k) = false -> signals (st k) = [].
Proof.
  intros H0 Hrun Hfair Hend.
  assert (forall k, consistent (st k) = true /\ quiet (st k)) as Hinv.
  { induction k as [|k [IHc IHq]]; [by rewrite H0|]. specialize (Hrun k).
    destruct (act k) as [a|]; [|by rewrite Hrun].
    split; [by eapply consistent_step|by eapply quiet_step]. }
  split; [|intros k Hk; by apply Hinv].
  destruct (fair_progress child_step (fun c => consistent c && ending c = true)
    (fun c => settled c = true) remaining helpful ending_step child_helpful child_other st act n Hrun)
    as (m & Hm & Hset).
  - intros c _. apply (proj1 (Forall_forall _ _) Hfair), helpful_goroutine.
  - apply andb_true_iff. split; [apply Hinv|]. unfold ending.
    destruct Hend as [->|Hl]; [done|]. destruct (leader (st n)); [done|..]; by rewrite orb_true_r.
  - unfold settled in Hset. exists m. unfold child_exit_code.
    destruct (wait_at (st m)), (watch_at (st m)), (leader (st m)) as [| |s]; try done. by exists s.
Qed.

(** ** A run *)

(** A child that ignores SIGTERM and leaves a daemon holding its pipe. *)
Definition stubborn : list action :=
  [EnvFork; EnvCancel; ExecCancel; WatchContext; WatchGrace; WaitReap; WaitDelayOver; WaitClose].

Lemma child_always_reaped_witness :
  exists m, (2 <= m)%nat /\ wait_at (play child_step (startChild true) stubborn m) = WaitClosed
            /\ child_exit_code (play child_step (startChild true) stubborn 8) = 137.
Proof.
  destruct (child_always_reaped true (play child_step (startChild true) stubborn) (fun n => stubborn !! n) 2)
    as [(m & s & Hm & Hw & _) _].
  - reflexivity.
  - apply play_run. reflexivity.
  - repeat (apply Forall_cons_2; [apply play_fair; reflexivity|]). apply Forall_nil_2.
  - left. reflexivity.
  - exists m. split; [exact Hm|]. split; [exact Hw|]. reflexivity.
Defined.

(** The re-check before the SIGKILL does not cover the time between the reaping of the
    child and close(c.done), which a process that keeps the output pipe open stretches up
    to WaitDelay, beyond the grace: the group is then signalled though its leader is reaped
    and it has no member left. *)
Example kill_after_reap :
  signals (play child_step (startChild true) [EnvCancel; ExecCancel; WatchContext; EnvExit (ExitedWith 0); WaitReap;
                                   WatchGrace] 6)
  = [(GroupTerm, Running, false); (GroupKill, Reaped (ExitedWith 0), false)].
Proof. reflexivity. Qed.
