(* ===== verification/StatusBar.v ===== *)
(** * internal/wrapper/stats.go: the live status line of finops-run

    The bar polls the proxy's metrics endpoint at every tick until its context ends, and
    draws on a terminal only. What a poll's exchange turned out to be and what the terminal
    is are inputs; a drawn line is the values it shows, their text being fmt's. *)

From S2P Require Import Prelude GoFloat GoJson JsonTyping.

(** ** The snapshot *)

Record metricsSnapshot := {
  ActiveRequests : Z;
  TotalRequests : Z;
  LoopBlocks : Z;
  BlockedAgents : Z;
  SavedCostMicroUSD : Z;
  AvgLatencyMicro : Z;
  TokenVelocity : float64;
  UptimeSeconds : Z
}.

Definition snapshot_doc : ty :=
  TStruct [("active_requests"%string, TInt); ("total_requests"%string, TInt); ("loop_blocks"%string, TInt);
           ("blocked_agents"%string, TInt); ("saved_cost_micro_usd"%string, TInt);
           ("avg_latency_micro"%string, TInt); ("token_velocity"%string, TFloat);
           ("uptime_seconds"%string, TInt)].

Definition snapshot_of (v : gov) : metricsSnapshot :=
  {| ActiveRequests := g_int (g_field 0 v); TotalRequests := g_int (g_field 1 v);
     LoopBlocks := g_int (g_field 2 v); BlockedAgents := g_int (g_field 3 v);
     SavedCostMicroUSD := g_int (g_field 4 v); AvgLatencyMicro := g_int (g_field 5 v);
     TokenVelocity := g_float (g_field 6 v); UptimeSeconds := g_int (g_field 7 v) |}.

(** ** The client *)

Inductive metrics_exchange :=
  | BadRequest                              (* http.NewRequestWithContext failed *)
  | NoResponse                              (* Do failed *)
  | Answered (status : Z) (body : list byte).

Inductive metrics_error := RequestError | TransportError | StatusError (status : Z) | DecodeError.

(** json.NewDecoder(body).Decode: the first value of the body, whatever follows it. *)
Definition decode_first (t : ty) (l : list byte) : option gov :=
  match parse_value (2 * length l + 2) 0 l with
  | None => None
  | Some (j, _) => let '(v, ok) := decode j t (zero_of t) in if ok then Some v else None
  end.

Definition Metrics (x : metrics_exchange) : result metrics_error metricsSnapshot :=
  match x with
  | BadRequest => Err RequestError
  | NoResponse => Err TransportError
  | Answered status body =>
      if negb (status =? 200) then Err (StatusError status)
      else match decode_first snapshot_doc body with
           | None => Err DecodeError
           | Some v => Ok (snapshot_of v)
           end
  end.

(** metricsURL: the path it sets on the base URL. *)
Definition metricsURL_path : list string := ["v1"; "metrics"].

(** ** The bar *)

(** What a redraw shows; [saved] is in dollars. *)
Inductive drawn :=
  | Line (active : Z) (velocity : float64) (blocks blocked : Z) (saved : float64) (avg : Z)
  | LoopLine.

Record statusBar := { interval : Z; tty : bool; out : list drawn }.

Definition newStatusBar (interval : Z) (tty : bool) : statusBar :=
  {| interval := if interval <=? 0 then Second else interval; tty := tty; out := [] |}.

Definition draw (s : statusBar) (d : drawn) : statusBar :=
  {| interval := interval s; tty := tty s; out := out s ++ [d] |}.

Definition million : float64 := f64_of_Z 1000000.
Definition render (s : statusBar) (snap : metricsSnapshot) : statusBar :=
  if negb (tty s) then s
  else draw s (Line (ActiveRequests snap) (TokenVelocity snap) (LoopBlocks snap) (BlockedAgents snap)
                 (f64_div (f64_of_Z (SavedCostMicroUSD snap)) million) (AvgLatencyMicro snap)).

Definition loopDetected (s : statusBar) : statusBar := if negb (tty s) then s else draw s LoopLine.

Definition poll (s : statusBar) (x : metrics_exchange) : statusBar :=
  match Metrics x with Err _ => s | Ok snap => render s snap end.

(** isTerminal: [mode] is the Stat result of a file, None for a writer that is no file or
    whose Stat fails; os.ModeCharDevice is bit 21. *)
Definition isTerminal (mode : option Z) : bool :=
  match mode with None => false | Some m => negb (Z.land m (2 ^ 21) =? 0) end.

(** The polling goroutine and the supervisor's alerts, as a sequence: a tick before the
    context is done polls, the goroutine returns at the first Done it takes. *)
Inductive bar_event := Tick (x : metrics_exchange) | Done | LoopFound.

Fixpoint bar_run (polling : bool) (s : statusBar) (evs : list bar_event) : statusBar :=
  match evs with
  | [] => s
  | Tick x :: evs' => bar_run polling (if polling then poll s x else s) evs'
  | Done :: evs' => bar_run false s evs'
  | LoopFound :: evs' => bar_run polling (loopDetected s) evs'
  end.

(** ** What a terminal shows *)

(** The line of a poll, if it draws one. *)
Definition line_of (x : metrics_exchange) : list drawn :=
  match x with
  | Answered status body =>
      if status =? 200 then
        match decode_first snapshot_doc body with
        | Some v =>
            [Line (g_int (g_field 0 v)) (g_float (g_field 6 v)) (g_int (g_field 2 v)) (g_int (g_field 3 v))
               (f64_div (f64_of_Z (g_int (g_field 4 v))) million) (g_int (g_field 5 v))]
        | None => []
        end
      else []
  | _ => []
  end.

Fixpoint shown (polling : bool) (evs : list bar_event) : list drawn :=
  match evs with
  | [] => []
  | Tick x :: evs' => (if polling then line_of x else []) ++ shown polling evs'
  | Done :: evs' => shown false evs'
  | LoopFound :: evs' => LoopLine :: shown polling evs'
  end.

Lemma poll_out s x : poll s x = {| interval := interval s; tty := tty s;
                                   out := out s ++ if tty s then line_of x else [] |}.
Proof.
  destruct s as [i [|] o]; unfold poll, line_of, Metrics; destruct x as [| |st body];
    try (destruct (st =? 200); cbn [negb]); try destruct (decode_first snapshot_doc body);
    cbn; by rewrite ?app_nil_r.
Qed.

(** The status bar. Off a terminal nothing is ever written. On one, the output is
    exactly one line per poll that got a snapshot - a 200 whose body starts with a
    well-typed JSON value - before the context ended, with the snapshot's figures, and one
    alert per loop, in the order they happened; a failed poll, whatever the failure, leaves
    no trace, and the next one is made as usual. *)
Theorem status_bar_exact interval tty evs :
  let s := bar_run true (newStatusBar interval tty) evs in
  out s = (if tty then shown true evs else [])
  /\ (forall i j x, evs !! i = Some Done -> (i < j)%nat -> evs !! j = Some (Tick x) ->
        bar_run true (newStatusBar interval tty) (<[j := Tick NoResponse]> evs) = s).
Proof.
  assert (forall evs polling s,
    bar_run polling s evs = {| StatusBar.interval := StatusBar.interval s; StatusBar.tty := StatusBar.tty s;
      out := out s ++ if StatusBar.tty s then shown polling evs else [] |}) as Hrun.
  { clear. induction evs as [|[x| |] evs IH]; intros polling s; cbn [bar_run shown].
    - destruct s as [i [|] o]; cbn; by rewrite app_nil_r.
    - rewrite IH. destruct polling; [|done]. rewrite poll_out. cbn. destruct (StatusBar.tty s); by rewrite <- app_assoc.
    - apply IH.
    - rewrite IH. unfold loopDetected, draw. destruct s as [i [|] o]; cbn; [by rewrite <- app_assoc|done]. }
  assert (forall evs j x, evs !! j = Some (Tick x) -> shown false (<[j := Tick NoResponse]> evs) = shown false evs)
    as Hlate.
  { clear. induction evs as [|e evs IH]; intros [|j] x Hj; try done; [cbn in Hj; by injection Hj as ->|].
    cbn [lookup list_lookup] in Hj. destruct e; cbn; by erewrite IH. }
  assert (forall evs polling i j x, evs !! i = Some Done -> (i < j)%nat -> evs !! j = Some (Tick x) ->
    shown polling (<[j := Tick NoResponse]> evs) = shown polling evs) as Hdone.
  { clear -Hlate. induction evs as [|e evs IH]; intros polling [|i] [|j] x Hi Hij Hj; try done; try lia.
    - cbn in Hi. injection Hi as ->. cbn. by eapply Hlate.
    - cbn [lookup list_lookup] in Hi, Hj. destruct e; cbn; by erewrite (IH _ i j) by (done || lia). }
  cbn zeta. rewrite !Hrun. cbn. split; [by destruct tty|]. intros i j x Hi Hij Hj. rewrite Hrun.
  cbn. by erewrite Hdone.
Qed.

Definition sample_events : list bar_event :=
  [Tick (Answered 200 (text "{'active_requests':2,'loop_blocks':1,'blocked_agents':1,'token_series':[],'token_velocity':12.5}"));
   Tick NoResponse; LoopFound; Done; Tick (Answered 500 [])].

Lemma status_bar_exact_witness :
  out (bar_run true (newStatusBar 0 true) sample_events)
  = [Line 2 (f64_div (f64_of_Z 25) (f64_of_Z 2)) 1 1 f64_zero 0; LoopLine]
  /\ bar_run true (newStatusBar 0 true) (<[4%nat := Tick NoResponse]> sample_events)
     = bar_run true (newStatusBar 0 true) sample_events.
Proof.
  destruct (status_bar_exact 0 true sample_events) as [Hout Hlate]. split.
  - rewrite Hout. vm_compute. reflexivity.
  - apply (Hlate 3%nat 4%nat (Answered 500 [])); [reflexivity|lia|reflexivity].
Defined.
