(* ===== verification/MetricsWire.v ===== *)
(** * The metrics endpoint on the wire: pkg/proxy/metrics.go against
    internal/wrapper/stats.go

    MetricsHandler encodes the snapshot of the registry with encoding/json; finops-run's
    status bar fetches and decodes it. The two sides declare the document independently;
    this file is the bytes between them. *)

From S2P Require Import Prelude GoFloat GoJson JsonTyping GoJsonPrint GoFloatPrint GoJsonObject GoJsonTree GoHttp.
From S2P Require Metrics StatusBar.

(** ** The encoder *)

Definition m_int (name : string) (z : Z) : string * jtree := (name, JtScalar (SInt z)).
Definition m_str (name : string) (s : string) : string * jtree := (name, JtScalar (SStr (bytes_of_string s))).
(** A string tagged omitempty. *)
Definition m_str_omit (name : string) (s : string) : list (string * jtree) :=
  if String.eqb s "" then [] else [m_str name s].

Definition TokenPoint_tree (p : Metrics.TokenPoint) : jtree :=
  JtStruct [m_int "second" (Metrics.tp_Second p); m_int "tokens" (Metrics.tp_Tokens p)].

Definition TriggerEvent_tree (t : Metrics.TriggerEvent) : jtree :=
  JtStruct ([m_int "timestamp" (Metrics.te_Timestamp t)]
            ++ m_str_omit "agent_id" (Metrics.te_AgentID t) ++ m_str_omit "model" (Metrics.te_Model t)
            ++ [m_str "reason" (Metrics.te_Reason t); m_int "saved_cost_micro_usd" (Metrics.te_SavedMicro t)]).

(** MetricsSnapshot: [made] is whether the two slices were made (a snapshot of no registry
    has nil slices, which are encoded as null); [velocity] is the text of TokenVelocity. *)
Definition MetricsSnapshot_tree (made : bool) (velocity : list byte) (s : Metrics.MetricsSnapshot) : jtree :=
  let slice l := if made then JtSlice l else JtNull in
  JtStruct
    [m_int "active_requests" (Metrics.ActiveRequests s); m_int "total_requests" (Metrics.TotalRequests s);
     m_int "loop_blocks" (Metrics.LoopBlocks s); m_int "blocked_agents" (Metrics.BlockedAgents s);
     m_int "saved_cost_micro_usd" (Metrics.SavedCostMicroUSD s);
     m_int "avg_latency_micro" (Metrics.AvgLatencyMicro s); ("token_velocity"%string, JtNumber velocity);
     ("token_series"%string, slice (TokenPoint_tree <$> Metrics.TokenSeries s));
     ("recent_triggers"%string, slice (TriggerEvent_tree <$> Metrics.RecentTriggers s));
     m_int "uptime_seconds" (Metrics.UptimeSeconds s)].

(** json.NewEncoder(w).Encode(snap): nothing is written when a value cannot be encoded. *)
Definition encode_snapshot (made : bool) (s : Metrics.MetricsSnapshot) : list byte :=
  match print_float (Metrics.TokenVelocity s) with
  | Some v => print_tree (MetricsSnapshot_tree made v s) ++ ["010"%byte]
  | None => []
  end.

(** The whole of MetricsHandler: status, headers and body. *)
Definition MetricsHandler (m : option Metrics.Metrics) (blocked : option (list Detector.AgentStatus))
    (method : string) (now : Z) : option Metrics.Metrics * (Z * Header * list byte) :=
  match Metrics.MetricsHandler m blocked method now with
  | (m', (status, Some snap)) =>
      (m', (status, header_Set ∅ "Content-Type" "application/json",
            encode_snapshot (match m with Some _ => true | None => false end) snap))
  | (m', (status, None)) => (m', (status, header_Set ∅ "Allow" "GET", []))
  end.

(** ** The document is read back *)

(** Every integer fits its width. *)
Definition snapshot_ok (s : Metrics.MetricsSnapshot) : Prop :=
  in_int64 (Metrics.ActiveRequests s) /\ in_int64 (Metrics.TotalRequests s)
  /\ in_int64 (Metrics.LoopBlocks s) /\ in_int64 (Metrics.BlockedAgents s)
  /\ in_int64 (Metrics.SavedCostMicroUSD s) /\ in_int64 (Metrics.AvgLatencyMicro s)
  /\ in_int64 (Metrics.UptimeSeconds s)
  /\ Forall (fun p => in_int64 (Metrics.tp_Second p) /\ in_int64 (Metrics.tp_Tokens p)) (Metrics.TokenSeries s)
  /\ Forall (fun t => in_int64 (Metrics.te_Timestamp t) /\ in_int64 (Metrics.te_SavedMicro t)) (Metrics.RecentTriggers s).

Lemma slice_ok {A} (f : A -> jtree) (l : list A) (Q : A -> Prop) (h : Z) :
  Forall Q l -> (forall a, Q a -> tree_ok (f a) /\ height (f a) <= h) -> 0 <= h ->
  tree_ok (JtSlice (f <$> l)) /\ height (JtSlice (f <$> l)) <= 1 + h.
Proof.
  intros Hl Hf Hh. cbn [tree_ok height]. induction Hl as [|a l Ha Hl [IH1 IH2]]; [cbn; split; [done|lia]|].
  rewrite fmap_cons. cbn [foldr]. destruct (Hf a Ha). split; [done|]. lia.
Qed.

Lemma snapshot_tree_ok made v s :
  snapshot_ok s -> print_float (Metrics.TokenVelocity s) = Some v ->
  tree_ok (MetricsSnapshot_tree made v s) /\ height (MetricsSnapshot_tree made v s) <= 3.
Proof.
  intros (? & ? & ? & ? & ? & ? & ? & Hser & Htr) Hv. apply float_number_ok in Hv.
  assert (tree_ok (if made then JtSlice (TokenPoint_tree <$> Metrics.TokenSeries s) else JtNull)
          /\ height (if made then JtSlice (TokenPoint_tree <$> Metrics.TokenSeries s) else JtNull) <= 2) as [Hs1 Hs2].
  { destruct made; [|cbn; split; [done|lia]]. eapply (slice_ok _ _ _ 1 Hser); [|lia].
    intros p [Hp1 Hp2]. split; [by cbn|cbn; lia]. }
  assert (tree_ok (if made then JtSlice (TriggerEvent_tree <$> Metrics.RecentTriggers s) else JtNull)
          /\ height (if made then JtSlice (TriggerEvent_tree <$> Metrics.RecentTriggers s) else JtNull) <= 2) as [Ht1 Ht2].
  { destruct made; [|cbn; split; [done|lia]]. eapply (slice_ok _ _ _ 1 Htr); [|lia].
    intros t [Hp1 Hp2]. unfold TriggerEvent_tree, m_str_omit.
    destruct (String.eqb (Metrics.te_AgentID t) ""), (String.eqb (Metrics.te_Model t) "");
      (split; [by cbn|cbn; lia]). }
  unfold MetricsSnapshot_tree. cbn [tree_ok height foldr snd m_int]. split; [by split_and!|]. lia.
Qed.

(** What finops-run keeps of a snapshot. *)
Definition figures (s : Metrics.MetricsSnapshot) : StatusBar.metricsSnapshot :=
  {| StatusBar.ActiveRequests := Metrics.ActiveRequests s; StatusBar.TotalRequests := Metrics.TotalRequests s;
     StatusBar.LoopBlocks := Metrics.LoopBlocks s; StatusBar.BlockedAgents := Metrics.BlockedAgents s;
     StatusBar.SavedCostMicroUSD := Metrics.SavedCostMicroUSD s;
     StatusBar.AvgLatencyMicro := Metrics.AvgLatencyMicro s; StatusBar.TokenVelocity := Metrics.TokenVelocity s;
     StatusBar.UptimeSeconds := Metrics.UptimeSeconds s |}.

Definition bar_fields : list (string * ty) :=
  match StatusBar.snapshot_doc with TStruct fs => fs | _ => [] end.

Ltac known_field lem :=
  erewrite (member_known bar_fields); [|vm_compute; reflexivity|reflexivity|reflexivity|eapply lem; eassumption];
  cbn [insert list_insert].

Lemma members_decoded made v s :
  snapshot_ok s -> parse_float v = Some (Metrics.TokenVelocity s) ->
  match tree_json (MetricsSnapshot_tree made v s) with
  | JObj kvs =>
      foldl (member_step bar_fields) (snd <$> map (fun f => (fst f, zero_of (snd f))) bar_fields, true) kvs
      = ([GInt (Metrics.ActiveRequests s); GInt (Metrics.TotalRequests s); GInt (Metrics.LoopBlocks s);
          GInt (Metrics.BlockedAgents s); GInt (Metrics.SavedCostMicroUSD s); GInt (Metrics.AvgLatencyMicro s);
          GFloat (Metrics.TokenVelocity s); GInt (Metrics.UptimeSeconds s)], true)
  | _ => False
  end.
Proof.
  intros (? & ? & ? & ? & ? & ? & ? & _) Hv. cbn [MetricsSnapshot_tree tree_json map fst snd m_int json_of].
  cbn [bar_fields StatusBar.snapshot_doc map fmap list_fmap fst snd zero_of].
  cbn [foldl].
  known_field decode_int. known_field decode_int. known_field decode_int. known_field decode_int.
  known_field decode_int. known_field decode_int. known_field decode_float.
  rewrite (member_unknown bar_fields) by (vm_compute; reflexivity).
  rewrite (member_unknown bar_fields) by (vm_compute; reflexivity).
  known_field decode_int. reflexivity.
Qed.

(** Over the wire, a snapshot arrives whole. *)
Lemma snapshot_arrives made v s :
  snapshot_ok s -> print_float (Metrics.TokenVelocity s) = Some v ->
  StatusBar.Metrics (StatusBar.Answered 200 (encode_snapshot made s)) = Ok (figures s).
Proof.
  intros Hok Hv. destruct (snapshot_tree_ok made v s Hok Hv) as [Ht Hh].
  destruct (print_float_back _ _ [","%byte] Hv) as (Hf & _);
    [exists ","%byte, []; split; [done|by left]|].
  pose proof (members_decoded made v s Hok Hf) as Hm.
  unfold StatusBar.Metrics. change (200 =? 200) with true. cbn [negb].
  unfold encode_snapshot. rewrite Hv. unfold StatusBar.decode_first.
  rewrite (tree_back _ Ht); [|rewrite length_app; lia|lia|unfold maxNestingDepth; lia|by right].
  destruct (tree_json (MetricsSnapshot_tree made v s)) as [| | | | |kvs]; try done.
  assert (decode (JObj kvs) StatusBar.snapshot_doc (zero_of StatusBar.snapshot_doc)
    = (let '(vs, ok) := foldl (member_step bar_fields)
         (snd <$> map (fun f => (fst f, zero_of (snd f))) bar_fields, true) kvs in (GStruct vs, ok))) as ->
    by reflexivity.
  by rewrite Hm.
Qed.

(** ** The registry's own values fit *)

Definition buckets_ok (w : Metrics.tokenWindow) : Prop := Forall in_int64 (Metrics.buckets w).

Lemma advance_buckets w sec : buckets_ok w -> buckets_ok (Metrics.advance w sec).
Proof.
  unfold buckets_ok, Metrics.advance. intros Hw. destruct (sec <=? Metrics.last w); [done|]. cbn [Metrics.buckets].
  revert Hw. generalize (Metrics.buckets w). generalize (seqZ (if Metrics.velocityBuckets <? sec - Metrics.last w
    then sec - Metrics.velocityBuckets + 1 else Metrics.last w + 1) (sec - (if Metrics.velocityBuckets <? sec - Metrics.last w
    then sec - Metrics.velocityBuckets + 1 else Metrics.last w + 1) + 1)). intros l.
  induction l as [|i l IH]; intros b Hb; cbn [foldl]; [done|]. apply IH, Forall_insert; [done|].
  by split; vm_compute.
Qed.

Lemma add_buckets w now tok w' : buckets_ok w -> Metrics.window_add w now tok = Some w' -> buckets_ok w'.
Proof.
  unfold Metrics.window_add. intros Hw. destruct (tok <=? 0); [by intros [= <-]|].
  destruct (_ <? 0); [done|]. intros [= <-]. apply (advance_buckets _ (time_unix now)) in Hw.
  unfold buckets_ok. cbn [Metrics.buckets]. apply Forall_alter; [done|]. intros. apply wrap64_range.
Qed.

Lemma marks_buckets l m m' :
  buckets_ok (Metrics.tokens m) -> Metrics.apply_marks m l = Some m' -> buckets_ok (Metrics.tokens m').
Proof.
  revert m. induction l as [|k l IH]; intros m Hm Hr; cbn [Metrics.apply_marks] in Hr; [by injection Hr as <-|].
  apply bind_Some in Hr as (m1 & Hk & Hr). apply (IH m1); [|done].
  destruct k; cbn [Metrics.apply_mark] in Hk; unfold Metrics.markLoopBlocked, Metrics.markForwarded in Hk;
    try (apply bind_Some in Hk as (w & Hw & Hk)); injection Hk as <-; cbn [Metrics.tokens]; try done;
    by eapply add_buckets.
Qed.

Lemma bucket_fits w s : buckets_ok w -> in_int64 (Metrics.bucket w s).
Proof.
  intros Hw. unfold Metrics.bucket. destruct (Metrics.buckets w !! _) as [x|] eqn:E; [|by split; vm_compute].
  cbn. by apply (Forall_lookup_1 _ _ _ _ Hw E).
Qed.

Lemma series_fits w now :
  buckets_ok w -> in_int64 (time_unix now) ->
  Forall (fun p => in_int64 (Metrics.tp_Second p) /\ in_int64 (Metrics.tp_Tokens p)) (Metrics.series w now).2.
Proof.
  intros Hw Hn. unfold Metrics.series. cbn [snd]. set (w1 := Metrics.advance w (time_unix now)).
  assert (buckets_ok w1) as Hw1 by (by apply advance_buckets).
  assert (forall l out, (forall s, s ∈ l -> s <= time_unix now) ->
    Forall (fun p => in_int64 (Metrics.tp_Second p) /\ in_int64 (Metrics.tp_Tokens p)) out ->
    Forall (fun p => in_int64 (Metrics.tp_Second p) /\ in_int64 (Metrics.tp_Tokens p))
      (foldl (fun out s => if s <? 0 then out
         else out ++ [{| Metrics.tp_Second := s; Metrics.tp_Tokens := Metrics.bucket w1 s |}]) out l)) as Hfold.
  { induction l as [|s l IH]; intros out Hl Ho; cbn [foldl]; [done|].
    apply IH; [intros; apply Hl; by right|]. assert (s <= time_unix now) by (apply Hl; by left).
    destruct (s <? 0) eqn:E; [done|]. zbool. apply Forall_app. split; [done|]. constructor; [|done]. cbn.
    split; [unfold in_int64, int64_min, int64_max in *; lia|by apply bucket_fits]. }
  apply Hfold; [|done]. intros s Hs%elem_of_seqZ. unfold Metrics.velocityBuckets in Hs. lia.
Qed.

Lemma quot_fits a n : in_int64 a -> 0 < n -> in_int64 (Z.quot a n).
Proof.
  assert (forall x, 0 <= x -> 0 < n -> 0 <= Z.quot x n <= x) as Hq.
  { intros x Hx Hn. split; [by apply Z.quot_pos|]. apply Z.quot_le_upper_bound; [done|nia]. }
  unfold in_int64. intros Ha Hn. destruct (decide (0 <= a)).
  - specialize (Hq a ltac:(lia) Hn). unfold int64_min in *. lia.
  - specialize (Hq (- a) ltac:(lia) Hn). rewrite Z.quot_opp_l in Hq by lia. unfold int64_max in *. lia.
Qed.

Lemma uptime_fits f : in_int64 (f64_to_int64 f).
Proof.
  assert (in_int64 int64_min /\ in_int64 0) as [Hm H0] by (split; split; vm_compute; discriminate).
  destruct f as [s|s| |s m e]; [done|done|done|]. unfold f64_to_int64.
  match goal with |- in_int64 (if ?b then _ else _) => destruct b eqn:Eb; [|done] end.
  apply andb_true_iff in Eb as [H1 H2]. zbool. by split.
Qed.

(** What a read leaves in the token window fits too. *)
Lemma snapshot_buckets m now :
  buckets_ok (Metrics.tokens m) -> buckets_ok (Metrics.tokens (Metrics.Snapshot m now).1).
Proof.
  intros Hb. unfold Metrics.Snapshot, Metrics.velocity, Metrics.series. cbn. by repeat apply advance_buckets.
Qed.

Lemma new_buckets now : buckets_ok (Metrics.tokens (Metrics.NewMetrics now)).
Proof. apply Forall_replicate. by split; vm_compute. Qed.

(** A snapshot of a registry that the request path's marks led to. *)
Lemma registry_snapshot_ok l m now :
  Metrics.counts m l -> buckets_ok (Metrics.tokens m) -> in_int64 (time_unix now) ->
  Forall (fun t => in_int64 (Metrics.te_Timestamp t) /\ in_int64 (Metrics.te_SavedMicro t)) (Metrics.mark_triggers l) ->
  snapshot_ok (Metrics.Snapshot m now).2.
Proof.
  intros Hc Hb Hn Ht. destruct (Metrics.cn_ok _ _ Hc) as (? & ? & ? & ? & ? & ?).
  pose proof (Metrics.cn_triggers _ _ Hc) as Htr.
  unfold Metrics.Snapshot, Metrics.velocity. cbn [snd fst].
  pose proof (series_fits (Metrics.advance (Metrics.tokens m) (time_unix now)) now
    ltac:(by apply advance_buckets) Hn) as Hs.
  destruct (Metrics.series _ now) as [w2 ser]. cbn [snd] in *.
  unfold snapshot_ok. cbn [Metrics.ActiveRequests Metrics.TotalRequests Metrics.LoopBlocks Metrics.BlockedAgents
    Metrics.SavedCostMicroUSD Metrics.AvgLatencyMicro Metrics.UptimeSeconds Metrics.TokenSeries Metrics.RecentTriggers].
  pose proof (uptime_fits (duration_seconds (time_sub now (Metrics.started m)))) as Hup.
  revert Hup. generalize (f64_to_int64 (duration_seconds (time_sub now (Metrics.started m)))). intros up Hup.
  assert (in_int64 0) by (split; vm_compute; discriminate).
  do 5 (split; [assumption|]). split; [|split; [assumption|split; [assumption|]]].
  - destruct (0 <? Metrics.latencyN m) eqn:E; [|done]. zbool.
    apply quot_fits; [by apply quot_fits|done].
  - unfold Metrics.snapshot. apply Forall_reverse. rewrite Htr, Metrics.push_fold by (cbn; lia).
    by apply Forall_drop.
Qed.

(** The blocked agents a detector reports, none when it reports no status. *)
Definition agent_count (blocked : option (list Detector.AgentStatus)) : Z :=
  match blocked with Some l => Z.of_nat (length l) | None => 0 end.

(** The mean latency of the forwarded calls, in microseconds. *)
Definition mean_micro (l : list Metrics.mark) : Z :=
  if 0 <? Metrics.forwarded_count l
  then Z.quot (Z.quot (Metrics.latency_total l) (Metrics.forwarded_count l)) 1000 else 0.

(** What finops-run reads of a registry: whatever was marked on it and read from it, the
    answer to GET /v1/metrics decodes to the figures the registry holds - no counter is
    truncated, no rounding of a float happens on the wire; any other method is refused 405,
    with nothing to draw. *)
Lemma registry_figures l m blocked now v :
  Metrics.counts m l -> buckets_ok (Metrics.tokens m) ->
  in_int64 (Metrics.in_flight l) -> in_int64 (Metrics.forwarded_count l) -> in_int64 (Metrics.blocked_count l) ->
  in_int64 (Metrics.saved_total l) -> in_int64 (Metrics.latency_total l) ->
  Forall (fun t => in_int64 (Metrics.te_Timestamp t) /\ in_int64 (Metrics.te_SavedMicro t)) (Metrics.mark_triggers l) ->
  in_int64 (time_unix now) -> in_int64 (agent_count blocked) ->
  print_float (Metrics.velocity (Metrics.tokens m) now).2 = Some v ->
  (let '(_, (status, _, body)) := MetricsHandler (Some m) blocked "GET" now in
   StatusBar.Metrics (StatusBar.Answered status body)
   = Ok {| StatusBar.ActiveRequests := Metrics.in_flight l; StatusBar.TotalRequests := Metrics.forwarded_count l;
           StatusBar.LoopBlocks := Metrics.blocked_count l; StatusBar.BlockedAgents := agent_count blocked;
           StatusBar.SavedCostMicroUSD := Metrics.saved_total l; StatusBar.AvgLatencyMicro := mean_micro l;
           StatusBar.TokenVelocity := (Metrics.velocity (Metrics.tokens m) now).2;
           StatusBar.UptimeSeconds := f64_to_int64 (duration_seconds (time_sub now (Metrics.started m))) |})
  /\ forall method bar, method <> "GET"%string ->
       let '(_, (status, _, body)) := MetricsHandler (Some m) blocked method now in
       status = 405 /\ StatusBar.poll bar (StatusBar.Answered status body) = bar.
Proof.
  intros Hr Hbk H1 H2 H3 H4 H5 Htr Hn Hag Hv.
  pose proof (registry_snapshot_ok l m now Hr Hbk Hn Htr) as Hok.
  pose proof (Metrics.counts_exact m l now Hr H1 H2 H3 H4 H5) as (Ha & Hq & Hb & Hs & Hl & _).
  unfold MetricsHandler, Metrics.MetricsHandler. change (negb (String.eqb "GET" "GET")) with false. cbv iota.
  assert (Metrics.TokenVelocity (Metrics.Snapshot m now).2 = (Metrics.velocity (Metrics.tokens m) now).2
    /\ Metrics.BlockedAgents (Metrics.Snapshot m now).2 = 0
    /\ Metrics.UptimeSeconds (Metrics.Snapshot m now).2
       = f64_to_int64 (duration_seconds (time_sub now (Metrics.started m)))) as (Hvel & Hno & Hup)
    by (unfold Metrics.Snapshot, Metrics.velocity; by destruct (Metrics.series _ now)).
  destruct (Metrics.Snapshot m now) as [m' snap]. cbn [snd] in *. split.
  2:{ intros method bar Hm. apply String.eqb_neq in Hm. by rewrite Hm. }
  match goal with |- context [encode_snapshot true ?s] => set (snap' := s) end.
  assert (snapshot_ok snap' /\ Metrics.TokenVelocity snap' = Metrics.TokenVelocity snap) as (Hok' & Hv')
    by (unfold snapshot_ok in *; subst snap'; destruct blocked; cbn in *; naive_solver).
  rewrite (snapshot_arrives true v snap' Hok') by congruence. subst snap'. unfold figures.
  destruct blocked; cbn; by rewrite Ha, Hq, Hb, Hs, Hl, Hvel, Hup, ?Hno.
Qed.
