(* ===== verification/Main.v ===== *)
(** * cmd/proxy/main.go: startup and wiring *)

From S2P Require Import Prelude GoJson GoStrings GoHttp GoSha256 GoFloat Store.
From S2P Require HashDetector StructuralHasher ToolMatcher VelocityBreaker Pipeline Budget Auth Pricing.
#[local] Existing Instances HashDetector.key_eq_dec HashDetector.key_countable
  Auth.keystore_CallerStore Auth.memory_CallerStore.

(** ** parseThresholds *)

(** strconv.Atoi is [parse_int64] on a 64-bit int. *)
Definition threshold_step (out : list Z) (part : list byte) : list Z :=
  let part := trim_space part in
  if bool_decide (part = []) then out
  else match parse_int64 part with
       | Some n => if (n <=? 0) || (100 <? n) then out else out ++ [n]
       | None => out
       end.
Definition parseThresholds (s : list byte) : list Z :=
  foldl threshold_step [] (split_byte "," s).

(** ** loadKeys *)

Record keyEntry := {
  k_Key : string;
  k_ID : string;
  k_Name : string;
  k_MonthlyBudgetMicro : Z;
  k_DailyBudgetMicro : Z
}.

Definition keys_doc : ty :=
  TSlice (TStruct [("key"%string, TString); ("id"%string, TString); ("name"%string, TString);
                   ("monthly_budget_micro"%string, TInt); ("daily_budget_micro"%string, TInt)]).

Definition entry_of (v : gov) : keyEntry :=
  {| k_Key := string_of_bytes (g_str (g_field 0 v)); k_ID := string_of_bytes (g_str (g_field 1 v));
     k_Name := string_of_bytes (g_str (g_field 2 v)); k_MonthlyBudgetMicro := g_int (g_field 3 v);
     k_DailyBudgetMicro := g_int (g_field 4 v) |}.

Definition entry_caller (e : keyEntry) : Caller :=
  {| c_ID := k_ID e; c_Name := k_Name e; MonthlyBudgetMicro := k_MonthlyBudgetMicro e;
     DailyBudgetMicro := k_DailyBudgetMicro e |}.

Inductive keys_error := ReadKeysFile | ParseKeysFile | EntryMissing.

(** A caller store that can be seeded: the key store and the memory store. *)
Class KeySetter (S : Type) := { key_set : S -> string -> Caller -> S }.
#[export] Instance keystore_setter : KeySetter KeyStore := {| key_set := KeyStore_Set |}.
#[export] Instance memory_setter : KeySetter MemoryStore := {| key_set := Store.Set_ |}.

(** Its contract: the seeded entry is the one found, and no other changes. *)
Class KeySetterLaws (S : Type) `{KeySetter S, Auth.CallerStore S} := {
  law_key_set (cs : S) hash c hash' :
    Auth.caller_by_key_hash (key_set cs hash c) hash'
    = if String.eqb hash hash' then Some c else Auth.caller_by_key_hash cs hash'
}.
Lemma keystore_set_get k hash c hash' :
  KeyStore_CallerByKeyHash (KeyStore_Set k hash c) hash'
  = if String.eqb hash hash' then Some c else KeyStore_CallerByKeyHash k hash'.
Proof.
  unfold KeyStore_CallerByKeyHash, KeyStore_Set. cbn [ks_callers].
  destruct (String.eqb_spec hash hash') as [->|Hne]; [by rewrite lookup_insert_eq|by rewrite lookup_insert_ne].
Qed.
#[export] Instance keystore_setter_laws : KeySetterLaws KeyStore.
Proof. split. apply keystore_set_get. Qed.
#[export] Instance memory_setter_laws : KeySetterLaws MemoryStore.
Proof. split. intros cs. apply (keystore_set_get (callers cs)). Qed.

(** The seeding loop; an entry without a key or an id stops it. *)
Fixpoint seed_keys {S} `{KeySetter S} (cs : S) (entries : list keyEntry) : result keys_error S :=
  match entries with
  | [] => Ok cs
  | e :: es =>
      if String.eqb (k_Key e) "" || String.eqb (k_ID e) "" then Err EntryMissing
      else seed_keys (key_set cs (Auth.HashAPIKey (k_Key e)) (entry_caller e)) es
  end.

(** [file]: the keys file's content, None when it cannot be read. *)
Definition loadKeys {S} `{KeySetter S} (file : option (list byte)) (cs : S) : result keys_error S :=
  match file with
  | None => Err ReadKeysFile
  | Some data =>
      match unmarshal keys_doc data with
      | None => Err ParseKeysFile
      | Some v => seed_keys cs (entry_of <$> g_elems v)
      end
  end.

(** ** The flags, as flag.Parse leaves them *)

Record flags := {
  f_addr : string;
  f_upstream : string;
  f_ttl : Z;
  f_limit : Z;
  f_pricingPath : string;
  f_pricingURL : string;
  f_dbPath : string;
  f_keysPath : string;
  f_dailyBudget : Z;
  f_thresholds : list byte;
  f_metrics : bool;
  f_dashboard : bool;
  f_dynamic : bool;
  f_structural : bool;
  f_toolLoop : bool;
  f_velocity : bool;
  f_version : bool
}.

Definition default_flags : flags :=
  {| f_addr := ":8080"; f_upstream := "http://localhost:11434/v1"; f_ttl := 5 * Minute; f_limit := 2;
     f_pricingPath := "config/pricing.json"; f_pricingURL := ""; f_dbPath := ""; f_keysPath := "";
     f_dailyBudget := 0; f_thresholds := bytes_of_string "50,80,100"; f_metrics := true;
     f_dashboard := true; f_dynamic := false; f_structural := false; f_toolLoop := false;
     f_velocity := false; f_version := false |}.

(** ** The detector *)

(** The detector the handler gets: the exact one, or a pipeline on top of it. *)
Inductive wired :=
  | Plain (d : HashDetector.HashDetector)
  | Piped (p : Pipeline.Pipeline HashDetector.HashDetector).

Section Wiring.
Context {RH : RangeOrder HashDetector.key HashDetector.entry}.
Context {RS : RangeOrder Detector.AgentID StructuralHasher.structuralState}.
Context {RT : RangeOrder Detector.AgentID ToolMatcher.toolState}.
Context {RV : RangeOrder Detector.AgentID VelocityBreaker.velocityState}.

Definition pipeline_opts (f : flags) :
    list (Pipeline.Pipeline HashDetector.HashDetector -> Pipeline.Pipeline HashDetector.HashDetector) :=
  (if f_dynamic f || f_structural f
   then [Pipeline.WithStructural (StructuralHasher.NewStructuralHasher
           {| StructuralHasher.Threshold := f64_zero; StructuralHasher.Window := 0;
              StructuralHasher.Limit := 0; StructuralHasher.TTL := 0;
              StructuralHasher.MaxEntries := 0 |})] else [])
  ++ (if f_dynamic f || f_toolLoop f then [Pipeline.WithTools ToolMatcher.default_matcher] else [])
  ++ (if f_dynamic f || f_velocity f then [Pipeline.WithVelocity VelocityBreaker.default_breaker] else []).

(** The exact detector after startup: built from the flags, then given the settings row's
    threshold ([settings] is None when reading the row fails). A pipeline holds the same
    detector, so it sees the new threshold too. *)
Definition exact_detector (f : flags) (settings : option SettingsRow) : HashDetector.HashDetector :=
  let exact := HashDetector.NewHashDetector (f_ttl f) (f_limit f) in
  match settings with
  | Some row => HashDetector.SetLimit exact (LoopThresholdCount row)
  | None => exact
  end.

Definition wire_detector (f : flags) (settings : option SettingsRow) (estimate : list byte -> Z) : wired :=
  let exact := exact_detector f settings in
  match pipeline_opts f with
  | [] => Plain exact
  | opts => Piped (Pipeline.NewPipeline exact (opts ++ [Pipeline.WithTokenEstimator estimate]))
  end.
End Wiring.

(** The budget monitor, when the flag sets a daily budget. *)
Definition wire_budget (f : flags) : option Budget.BudgetMonitor :=
  if 0 <? f_dailyBudget f then
    Some (Budget.NewBudgetMonitor {| Budget.DailyBudgetMicro := f_dailyBudget f;
                                     Budget.ThresholdPct := parseThresholds (f_thresholds f) |})
  else None.

(** ** The root mux *)

Inductive root_route := Healthz | MetricsRoute | DashboardRoute | ProxyRoute.

(** A GET pattern also matches HEAD. *)
Definition route (metricsFlag dashboardFlag : bool) (method : string) (segments : list string) : root_route :=
  let get := String.eqb method "GET" || String.eqb method "HEAD" in
  if get && bool_decide (segments = ["healthz"%string]) then Healthz
  else if get && metricsFlag && bool_decide (segments = ["v1"%string; "metrics"%string]) then MetricsRoute
  else if get && dashboardFlag && bool_decide (segments = ["dashboard"%string]) then DashboardRoute
  else ProxyRoute.

(** ** Keys *)

(** The entry a raw key belongs to: the last one with its hash. *)
Fixpoint last_entry (hash : string) (entries : list keyEntry) : option keyEntry :=
  match entries with
  | [] => None
  | e :: es =>
      match last_entry hash es with
      | Some e' => Some e'
      | None => if String.eqb (Auth.HashAPIKey (k_Key e)) hash then Some e else None
      end
  end.

Lemma seed_keys_lookup {S} `{KeySetterLaws S} (cs cs' : S) entries hash :
  seed_keys cs entries = Ok cs' ->
  Auth.caller_by_key_hash cs' hash
  = match last_entry hash entries with
    | Some e => Some (entry_caller e) | None => Auth.caller_by_key_hash cs hash end
  /\ Forall (fun e => k_Key e <> "" /\ k_ID e <> "") entries.
Proof.
  revert cs. induction entries as [|e es IH]; intros cs Hs; cbn [seed_keys last_entry] in *.
  { injection Hs as ->. by split. }
  destruct (String.eqb_spec (k_Key e) ""), (String.eqb_spec (k_ID e) ""); try done. cbn [orb] in Hs.
  destruct (IH _ Hs) as [-> Hall]. split; [|by repeat constructor].
  rewrite law_key_set. destruct (last_entry hash es); [done|]. by case_match.
Qed.

(** Keys from file to request: when the keys file loads, a request authenticates
    exactly when its key is non-empty and has the hash of some entry's key, and then as the
    last such entry's caller, whose id is never empty; a file that cannot be read or
    parsed, or has an entry without key or id, stops the start. *)
Theorem keys_authenticate data v (cs : KeyStore) :
  unmarshal keys_doc data = Some v ->
  let entries := entry_of <$> g_elems v in
  (loadKeys (Some data) NewKeyStore = Ok cs ->
     forall raw,
       Auth.NewAuthenticator cs raw
       = (if String.eqb raw "" then None
          else entry_caller <$> last_entry (Auth.HashAPIKey raw) entries)
       /\ forall c, Auth.NewAuthenticator cs raw = Some c -> c_ID c <> "")
  /\ ((exists cs', loadKeys (Some data) NewKeyStore = Ok cs')
      <-> Forall (fun e => k_Key e <> "" /\ k_ID e <> "") entries)
  /\ loadKeys (S := KeyStore) None NewKeyStore = Err ReadKeysFile.
Proof.
  intros Hv entries. unfold loadKeys. rewrite Hv. fold entries. split_and!; [| |done].
  - intros Hs raw.
    destruct (seed_keys_lookup _ _ _ (Auth.HashAPIKey raw) Hs) as [Hl Hall].
    assert (Auth.NewAuthenticator cs raw
      = (if String.eqb raw "" then None
         else entry_caller <$> last_entry (Auth.HashAPIKey raw) entries)) as Heq.
    { unfold Auth.NewAuthenticator. destruct (String.eqb raw ""); [done|].
      rewrite Hl. cbn [Auth.caller_by_key_hash Auth.keystore_CallerStore]. by destruct (last_entry _ entries). }
    split; [exact Heq|]. intros c Hc. rewrite Heq in Hc. destruct (String.eqb raw ""); [done|].
    apply fmap_Some in Hc as (e & He & ->). cbn [c_ID entry_caller].
    assert (forall l, Forall (fun e => k_Key e <> "" /\ k_ID e <> "") l ->
      last_entry (Auth.HashAPIKey raw) l = Some e -> k_ID e <> "") as Hid.
    { induction l as [|x l IH]; intros Hl' He'; [done|]. apply Forall_cons in Hl' as [Hx Hl'].
      cbn [last_entry] in He'. destruct (last_entry _ l) as [e'|]; [injection He' as ->; by apply IH|].
      destruct (String.eqb _ _); [|done]. injection He' as ->. by destruct Hx. }
    by apply (Hid entries).
  - split.
    + intros [cs' Hs]. by destruct (seed_keys_lookup _ _ _ "" Hs).
    + clear cs. generalize NewKeyStore as cs. induction entries as [|e es IH]; intros cs Hall; [by exists cs|].
      apply Forall_cons in Hall as [[Hk Hi] Hall]. cbn [seed_keys].
      destruct (String.eqb_spec (k_Key e) ""), (String.eqb_spec (k_ID e) ""); try done. by apply IH.
Qed.

Definition sample_keys : list byte :=
  text "[{'key':'sk-1','id':'team-a','monthly_budget_micro':500},{'key':'sk-1','id':'team-b'}]".

Lemma keys_authenticate_witness :
  match loadKeys (Some sample_keys) NewKeyStore with
  | Ok cs => Auth.NewAuthenticator cs "sk-1"
             = Some {| c_ID := "team-b"; c_Name := ""; MonthlyBudgetMicro := 0; DailyBudgetMicro := 0 |}
             /\ Auth.NewAuthenticator cs "sk-2" = None
  | Err _ => False
  end.
Proof.
  destruct (unmarshal keys_doc sample_keys) as [v|] eqn:Hv; [|vm_compute in Hv; discriminate].
  assert (match loadKeys (Some sample_keys) NewKeyStore with Ok _ => true | Err _ => false end = true)
    as Hok by (vm_compute; reflexivity).
  destruct (loadKeys (Some sample_keys) NewKeyStore) as [cs|] eqn:Hl; [|discriminate]. clear Hok.
  destruct (keys_authenticate sample_keys v cs Hv) as (Ha & _ & _). specialize (Ha Hl).
  vm_compute in Hv. injection Hv as <-.
  split; rewrite (proj1 (Ha _)); vm_compute; reflexivity.
Defined.

(** ** Settings and thresholds *)

Lemma threshold_fold parts out :
  Forall (fun p => 1 <= p <= 100) out -> Forall (fun p => 1 <= p <= 100) (foldl threshold_step out parts).
Proof.
  revert out. induction parts as [|part parts IH]; intros out Hout; cbn [foldl]; [done|].
  apply IH. unfold threshold_step. case_bool_decide; [done|].
  destruct (parse_int64 (trim_space part)) as [n|]; [|done].
  destruct ((n <=? 0) || (100 <? n)) eqn:E; [done|]. zbool.
  apply Forall_app. split; [done|]. repeat constructor; lia.
Qed.

(** The -budget-thresholds flag: whatever it holds, every percentage it yields is
    within 1..100, so the monitor built from it keeps them all, sorted and without
    repeats. *)
Theorem thresholds_survive s :
  Forall (fun p => 1 <= p <= 100) (parseThresholds s)
  /\ (forall p, p ∈ Budget.sanitizeThresholds (parseThresholds s) <-> p ∈ parseThresholds s)
  /\ NoDup (Budget.sanitizeThresholds (parseThresholds s))
  /\ Sorted Z.le (Budget.sanitizeThresholds (parseThresholds s)).
Proof.
  assert (Forall (fun p => 1 <= p <= 100) (parseThresholds s)) as Hall by (by apply threshold_fold).
  destruct (Budget.sanitize_spec (parseThresholds s)) as (Hs & Hn & Hin). split_and!; try done.
  intros p. rewrite Hin. split; [by intros [? _]|]. intros Hp. split; [done|].
  by apply (proj1 (list.Forall_forall _ _) Hall).
Qed.

Example thresholds_example :
  parseThresholds (bytes_of_string " 80, 50,x,+100,0,101,,50") = [80; 50; 100; 50].
Proof. vm_compute. reflexivity. Qed.

(** The -limit flag has no effect on a fresh memory store: the default settings row's
    threshold replaces it. *)
Lemma limit_flag_overridden f :
  forall now, HashDetector.limit (exact_detector f (GetSettings Store.New now).2) = 2.
Proof. done. Qed.
