(* ===== verification/Documents.v ===== *)
(** * Documents written and read back: the keys file and the usage object

    The two JSON documents whose numbers become money: the keys file an operator writes
    (cmd/proxy/main.go, loadKeys), and the usage object an upstream answers with
    (pkg/proxy/cost_tracking.go). The text encoding/json prints for them is what the code
    decodes, field by field. *)

From S2P Require Import Prelude GoJson JsonTyping GoJsonPrint GoFloatPrint GoJsonObject GoJsonTree Store Main.
From S2P Require UsageTracking Auth.
#[local] Existing Instance Auth.keystore_CallerStore.

(** ** The keys file *)

(** The members of an entry; [omit] leaves out the name and the budgets when they are
    empty. *)
Definition entry_fields (omit : bool) (e : keyEntry) : list field :=
  [Field "key" false (SStr (bytes_of_string (k_Key e)));
   Field "id" false (SStr (bytes_of_string (k_ID e)));
   Field "name" omit (SStr (bytes_of_string (k_Name e)));
   Field "monthly_budget_micro" omit (SInt (k_MonthlyBudgetMicro e));
   Field "daily_budget_micro" omit (SInt (k_DailyBudgetMicro e))].

Definition struct_tree (fs : list field) : jtree :=
  JtStruct ((fun kv => (kv.1, JtScalar kv.2)) <$> struct_members fs).
Definition keys_tree (l : list (bool * keyEntry)) : jtree :=
  JtSlice ((fun x => struct_tree (entry_fields x.1 x.2)) <$> l).
Definition keys_text (l : list (bool * keyEntry)) : list byte := print_tree (keys_tree l) ++ ["010"%byte].

(** Texts are valid UTF-8 and budgets int64. *)
Definition entry_ok (e : keyEntry) : Prop :=
  utf8_valid (bytes_of_string (k_Key e)) /\ utf8_valid (bytes_of_string (k_ID e))
  /\ utf8_valid (bytes_of_string (k_Name e))
  /\ in_int64 (k_MonthlyBudgetMicro e) /\ in_int64 (k_DailyBudgetMicro e).

Lemma struct_tree_json fs : tree_json (struct_tree fs) = JObj (json_member <$> struct_members fs).
Proof. unfold struct_tree. cbn [tree_json]. f_equal. generalize (struct_members fs). induction l as [|x l IH]; [done|]. cbn. by rewrite IH. Qed.

Lemma struct_tree_ok fs :
  Forall (fun f => scalar_ok (f_value f)) fs -> tree_ok (struct_tree fs) /\ height (struct_tree fs) <= 1.
Proof.
  intros Hok. apply struct_members_ok in Hok. unfold struct_tree. cbn [tree_ok height].
  induction Hok as [|kv kvs Hkv Hok [IH1 IH2]]; [done|]. rewrite fmap_cons. cbn [foldr snd tree_ok height].
  split; [done|lia].
Qed.

Lemma entry_values omit e : entry_ok e -> Forall (fun f => scalar_ok (f_value f)) (entry_fields omit e).
Proof. intros (_ & _ & _ & Hm & Hd). repeat (apply Forall_cons_2; [by cbn|]). apply Forall_nil_2. Qed.

Lemma entry_tagged omit e : entry_ok e -> well_tagged (entry_fields omit e).
Proof.
  intros He. split; [apply (bool_decide_unpack _); vm_compute; exact I| |by apply entry_values].
  repeat constructor.
Qed.

(** An entry is read back whole. *)
Lemma entry_back omit e : entry_ok e -> entry_of (GStruct (gov_fields (entry_fields omit e))) = e.
Proof.
  intros (Hk & Hi & Hn & _). unfold utf8_valid in *. 
  change (entry_of _) with
    {| k_Key := string_of_bytes (to_valid (bytes_of_string (k_Key e)));
       k_ID := string_of_bytes (to_valid (bytes_of_string (k_ID e)));
       k_Name := string_of_bytes (to_valid (bytes_of_string (k_Name e)));
       k_MonthlyBudgetMicro := k_MonthlyBudgetMicro e; k_DailyBudgetMicro := k_DailyBudgetMicro e |}.
  rewrite Hk, Hi, Hn.
  rewrite !string_of_bytes_of_string. by destruct e.
Qed.

(** The file decodes to its entries. *)
Lemma keys_text_back l :
  Forall (fun x => entry_ok x.2) l ->
  exists v, unmarshal keys_doc (keys_text l) = Some v /\ (entry_of <$> g_elems v) = snd <$> l.
Proof.
  intros Hl. unfold unmarshal, keys_text.
  assert (tree_ok (keys_tree l) /\ height (keys_tree l) <= 2) as [Hok Hh].
  { unfold keys_tree. cbn [tree_ok height]. induction Hl as [|x l Hx Hl [IH1 IH2]]; [cbn; split; [done|lia]|].
    rewrite fmap_cons. cbn [foldr].
    destruct (struct_tree_ok (entry_fields x.1 x.2)) as [H1 H2]; [by apply entry_values|]. split; [done|lia]. }
  rewrite tree_parses; [|done|unfold maxNestingDepth; lia|by right|done]. unfold keys_tree. cbn [tree_json].
  destruct (slice_decoded (TStruct (schema (entry_fields false (default (Build_keyEntry "" "" "" 0 0) (snd <$> head l)))))
    (map tree_json ((fun x => struct_tree (entry_fields x.1 x.2)) <$> l))
    ((fun x => GStruct (gov_fields (entry_fields x.1 x.2))) <$> l)) as [stale Hd].
  { clear Hok Hh. change (TStruct (schema _)) with (TStruct [("key"%string, TString); ("id"%string, TString);
      ("name"%string, TString); ("monthly_budget_micro"%string, TInt); ("daily_budget_micro"%string, TInt)]).
    induction Hl as [|x l Hx Hl IH]; [constructor|]. rewrite !fmap_cons. cbn [map]. constructor; [|exact IH].
    rewrite struct_tree_json. by apply (object_decoded (entry_fields x.1 x.2)), entry_tagged. }
  change (TSlice (TStruct (schema _))) with keys_doc in Hd. change (zero_of keys_doc) with (GSlice [] []).
  rewrite Hd. eexists. split; [reflexivity|]. cbn [g_elems]. rewrite <- list_fmap_compose.
  clear -Hl. induction Hl as [|x l Hx Hl IH]; [done|]. rewrite !fmap_cons, IH. f_equal. by apply entry_back.
Qed.

(** ** The usage object *)

Section Usage.
Import UsageTracking.

(** A chat completion with its usage. *)
Definition usage_tree (p c total : Z) : jtree :=
  struct_tree [Field "prompt_tokens" false (SInt p); Field "completion_tokens" false (SInt c);
               Field "total_tokens" false (SInt total)].
Definition completion_text (id : list byte) (p c total : Z) : list byte :=
  print_tree (JtStruct [("id"%string, JtScalar (SStr id)); ("choices"%string, JtSlice []);
                        ("usage"%string, usage_tree p c total)]) ++ ["010"%byte].

Lemma usage_decoded p c total :
  in_int64 p -> in_int64 c ->
  decode (tree_json (usage_tree p c total)) usage_doc GNil = (GRef (GStruct [GInt p; GInt c]), true).
Proof.
  intros Hp Hc. unfold usage_tree. rewrite struct_tree_json. unfold usage_doc. rewrite decode_ptr by done.
  set (fs := [("prompt_tokens"%string, TInt); ("completion_tokens"%string, TInt)]).
  assert (foldl (member_step fs) ([GInt 0; GInt 0], true)
    [(bytes_of_string "prompt_tokens", JNum (print_int p)); (bytes_of_string "completion_tokens", JNum (print_int c));
     (bytes_of_string "total_tokens", JNum (print_int total))] = ([GInt p; GInt c], true)) as Hm.
  { cbn [foldl].
    erewrite (member_known fs); [|vm_compute; reflexivity|reflexivity|reflexivity|by apply decode_int]. cbn [insert list_insert].
    erewrite (member_known fs); [|vm_compute; reflexivity|reflexivity|reflexivity|by apply decode_int]. cbn [insert list_insert].
    by rewrite (member_unknown fs) by (vm_compute; reflexivity). }
  unfold member_step in Hm.
  change (decode (JObj _) (TStruct fs) _) with
    (let '(vs, ok) := foldl (member_step fs) ([GInt 0; GInt 0], true)
       [(bytes_of_string "prompt_tokens", JNum (print_int p)); (bytes_of_string "completion_tokens", JNum (print_int c));
        (bytes_of_string "total_tokens", JNum (print_int total))] in (GStruct vs, ok)).
  unfold member_step. by rewrite Hm.
Qed.

(** The usage a completion carries is the one parsed. *)
Lemma usage_back id p c total :
  in_int64 p -> in_int64 c -> in_int64 total -> parseJSONUsage (completion_text id p c total) = Some (p, c).
Proof.
  intros Hp Hc Ht. unfold parseJSONUsage, unmarshal, completion_text.
  set (t := JtStruct _).
  assert (tree_ok t /\ height t <= 2) as [Hok Hh].
  { destruct (struct_tree_ok [Field "prompt_tokens" false (SInt p); Field "completion_tokens" false (SInt c);
      Field "total_tokens" false (SInt total)]) as [H1 H2]; [repeat (apply Forall_cons_2; [by cbn|]); apply Forall_nil_2|].
    fold (usage_tree p c total) in H1, H2. subst t. cbn [tree_ok height foldr snd]. split; [done|]. lia. }
  rewrite tree_parses; [|done|unfold maxNestingDepth; lia|by right|done]. subst t. cbn [tree_json map fst snd].
  set (fs := [("usage"%string, usage_doc)]).
  assert (foldl (member_step fs) ([GNil], true)
    [(bytes_of_string "id", JStr (to_valid id)); (bytes_of_string "choices", JArr []);
     (bytes_of_string "usage", tree_json (usage_tree p c total))] = ([GRef (GStruct [GInt p; GInt c])], true)) as Hm.
  { cbn [foldl]. rewrite !(member_unknown fs) by (vm_compute; reflexivity).
    erewrite (member_known fs); [|vm_compute; reflexivity|reflexivity|reflexivity|by apply usage_decoded]. reflexivity. }
  change (decode (JObj _) (TStruct fs) _) with
    (let '(vs, ok) := foldl (member_step fs) ([GNil], true)
       [(bytes_of_string "id", JStr (to_valid id)); (bytes_of_string "choices", JArr []);
        (bytes_of_string "usage", tree_json (usage_tree p c total))] in (GStruct vs, ok)).
  by rewrite Hm.
Qed.
End Usage.

(** ** Seeding *)

Definition complete (e : keyEntry) : Prop := k_Key e <> "" /\ k_ID e <> "".

Lemma seed_keys_complete {S} `{KeySetter S} (cs : S) entries :
  match seed_keys cs entries with
  | Ok _ => Forall complete entries
  | Err e => e = EntryMissing /\ ~ Forall complete entries
  end.
Proof.
  revert cs. induction entries as [|e es IH]; intros cs; cbn [seed_keys]; [constructor|].
  destruct (String.eqb_spec (k_Key e) "") as [Hk|Hk]; [split; [done|]; by intros [[] _]%Forall_cons|].
  destruct (String.eqb_spec (k_ID e) "") as [Hi|Hi]; [split; [done|]; by intros [[] _]%Forall_cons|].
  cbn [orb]. specialize (IH (key_set cs (Auth.HashAPIKey (k_Key e)) (entry_caller e))).
  destruct (seed_keys _ es); [by constructor|]. destruct IH as [-> Hn]. split; [done|]. by intros [_ ?]%Forall_cons.
Qed.

Lemma last_entry_filter hash entries :
  last_entry hash entries = last (filter (fun e => Auth.HashAPIKey (k_Key e) = hash) entries).
Proof.
  induction entries as [|e es IH]; [done|]. cbn [last_entry]. rewrite IH, filter_cons.
  destruct (String.eqb_spec (Auth.HashAPIKey (k_Key e)) hash) as [Heq|Hne];
    [rewrite decide_True by done|rewrite decide_False by done; by destruct (last _)].
  rewrite last_cons. by destruct (last _).
Qed.

(** C34. Documents are read back as written. A keys file printed from a list of entries -
    valid text, int64 budgets, empty names and budgets written or left out - seeds a caller
    store with exactly those callers: under the hash of a key, the last entry with it, with
    its own id, name, monthly and daily budget; the store's other callers stay. An entry
    without a key or an id makes the whole file fail. A chat completion that carries a usage
    object is reported with its prompt and completion tokens, in this order and to the
    number, however the response was cut into reads and whatever else it holds, up to
    1 MiB. *)
Theorem documents_read_back {S} `{KeySetterLaws S} (cs : S) (l : list (bool * keyEntry)) :
  Forall (fun x => entry_ok x.2) l ->
  let entries := snd <$> l in
  (Forall (fun e => k_Key e <> "" /\ k_ID e <> "") entries ->
     exists cs', loadKeys (Some (keys_text l)) cs = Ok cs'
     /\ forall hash,
        Auth.caller_by_key_hash cs' hash
        = match last (filter (fun e => Auth.HashAPIKey (k_Key e) = hash) entries) with
          | Some e => Some {| c_ID := k_ID e; c_Name := k_Name e; MonthlyBudgetMicro := k_MonthlyBudgetMicro e;
                              DailyBudgetMicro := k_DailyBudgetMicro e |}
          | None => Auth.caller_by_key_hash cs hash
          end)
  /\ (~ Forall (fun e => k_Key e <> "" /\ k_ID e <> "") entries ->
      loadKeys (Some (keys_text l)) cs = Err EntryMissing)
  /\ (forall m id p c total chunks fin data more,
      in_int64 p -> in_int64 c -> in_int64 total -> UsageTracking.final_op fin data ->
      concat chunks ++ data = completion_text id p c total -> Z.of_nat (length (concat chunks ++ data)) <= 2 ^ 20 ->
      (UsageTracking.body_run (UsageTracking.new_body m false)
         (((fun c => UsageTracking.BRead c false) <$> chunks) ++ fin :: more)).2 = [(m, p, c)]).
Proof.
  intros Hl entries. destruct (keys_text_back l Hl) as (v & Hv & Hes). fold entries in Hes.
  assert (loadKeys (Some (keys_text l)) cs = seed_keys cs entries) as -> by (unfold loadKeys; by rewrite Hv, Hes).
  pose proof (seed_keys_complete cs entries) as Hseed. unfold complete in Hseed. split; [|split].
  - intros Hall. destruct (seed_keys cs entries) as [cs'|e] eqn:Hs; [|by destruct Hseed as [_ []]].
    exists cs'. split; [done|]. intros hash. destruct (seed_keys_lookup cs cs' entries hash Hs) as [-> _].
    by rewrite last_entry_filter.
  - intros Hn. destruct (seed_keys cs entries) as [cs'|e]; [by destruct Hn|]. by destruct Hseed as [-> _].
  - intros m id p c total chunks fin data more Hp Hc Ht Hfin Htext Hlen.
    pose proof (UsageTracking.run_to_end m false chunks fin data more Hfin ltac:(done)) as Hrun. cbv zeta in Hrun.
    unfold UsageTracking.reference, UsageTracking.json_reference, UsageTracking.len, UsageTracking.usageBufferCap in Hrun.
    replace (2 ^ 20 <? Z.of_nat (length (concat chunks ++ data))) with false in Hrun by lia.
    rewrite Htext, usage_back in Hrun by done. by destruct Hrun as [b ->].
Qed.

(** Two keys, the first of them twice, and a completion cut in its usage. *)
Definition two_keys : list (bool * keyEntry) :=
  [(false, {| k_Key := "sk-1"; k_ID := "a"; k_Name := ""; k_MonthlyBudgetMicro := 5; k_DailyBudgetMicro := 0 |});
   (true, {| k_Key := "sk-2"; k_ID := "b"; k_Name := "B"; k_MonthlyBudgetMicro := 0; k_DailyBudgetMicro := 9 |});
   (true, {| k_Key := "sk-1"; k_ID := "c"; k_Name := "C"; k_MonthlyBudgetMicro := 7; k_DailyBudgetMicro := 3 |})].

Lemma documents_read_back_witness :
  (exists cs, loadKeys (Some (keys_text two_keys)) NewKeyStore = Ok cs
   /\ Auth.caller_by_key_hash cs (Auth.HashAPIKey "sk-1")
      = Some {| c_ID := "c"; c_Name := "C"; MonthlyBudgetMicro := 7; DailyBudgetMicro := 3 |})
  /\ let text := completion_text (bytes_of_string "x") 30 12 42 in
     (UsageTracking.body_run (UsageTracking.new_body UsageTracking.sample_meta false)
        [UsageTracking.BRead (take 40 text) false; UsageTracking.BRead (drop 40 text) true]).2
     = [(UsageTracking.sample_meta, 30, 12)].
Proof.
  destruct (documents_read_back NewKeyStore two_keys) as (Hload & _ & Huse).
  - unfold two_keys. repeat (apply Forall_cons_2;
      [unfold entry_ok, in_int64, utf8_valid; cbn [snd]; split_and!; vm_compute; (reflexivity || discriminate)|]).
    apply Forall_nil_2.
  - split.
    + destruct Hload as (cs & Hcs & Hlk).
      { repeat (apply Forall_cons_2; [split; vm_compute; discriminate|]). apply Forall_nil_2. }
      exists cs. split; [exact Hcs|]. rewrite Hlk. vm_compute. reflexivity.
    + intros text. apply (Huse UsageTracking.sample_meta (bytes_of_string "x") 30 12 42 [take 40 text]
        (UsageTracking.BRead (drop 40 text) true) (drop 40 text) []);
        [split; vm_compute; discriminate..| | |].
      * constructor.
      * cbn [concat]. rewrite app_nil_r. apply take_drop.
      * vm_compute. discriminate.
Defined.
