(* ===== verification/Startup.v ===== *)
(** * cmd/proxy/main.go, run: from the flags to the serving proxy

    The whole start, in the order of the code: the version flag, the upstream URL, the price
    table and its registry, the detector, the store with its seeded price book, the keys
    file, the settings row, the logger on the hub, the handler's options and the root mux.
    What the start reads from outside is an [environment]. *)

From S2P Require Import Prelude GoJson GoUrl GoHttp GoFloat Store Budget Sqlite Detector Handler Main.
From S2P Require Pricing Fetcher Registry Auth Hub.
From S2P Require HashDetector StructuralHasher ToolMatcher VelocityBreaker Pipeline.
#[local] Existing Instances HashDetector.key_eq_dec HashDetector.key_countable
  HashDetector.hash_detector_Detector Pipeline.pipeline_Detector Auth.keystore_CallerStore
  Auth.memory_CallerStore Pricing.Pricing_source Registry.Registry_source.
#[local] Open Scope result_scope.

Section Startup.
Context {G E : Type} `{Gorm G E}.
Context {RH : RangeOrder HashDetector.key HashDetector.entry}.
Context {RS : RangeOrder Detector.AgentID StructuralHasher.structuralState}.
Context {RT : RangeOrder Detector.AgentID ToolMatcher.toolState}.
Context {RV : RangeOrder Detector.AgentID VelocityBreaker.velocityState}.
Context {RP : RangeOrder string Pricing.ModelPrice}.
Context {RJ : RangeOrder string gov}.

(** What the start reads: net/url.Parse, the files, the catalog server, the clock. *)
Record environment := {
  e_url : string -> option url;
  e_file : string -> option (list byte);
  e_catalog : Fetcher.Request -> Fetcher.exchange;
  e_bootstrap : Z;
  e_seed : nat -> Z;
  e_settings : Z
}.

(** ** The store: one object, or a database and a key store beside it *)

Inductive core_store :=
  | SqliteStore (d : DB G) (keys : KeyStore)
  | MemStore (m : MemoryStore).

Definition core_LogRequest (s : core_store) (r : RequestRecord) : core_store * bool :=
  match s with
  | SqliteStore d k => let '(d', ok) := LogRequest d r in (SqliteStore d' k, ok)
  | MemStore m => let '(m', ok) := LogRequest m r in (MemStore m', ok)
  end.
Definition core_Sum (s : core_store) (since : Z) : option Z :=
  match s with SqliteStore d _ => SumActualCostSince d since | MemStore m => SumActualCostSince m since end.
Definition core_KeySum (s : core_store) (key : string) (since : Z) : option Z :=
  match s with
  | SqliteStore d _ => SumActualCostForKeySince d key since
  | MemStore m => SumActualCostForKeySince m key since
  end.
Definition core_GetSettings (s : core_store) (now : Z) : core_store * option SettingsRow :=
  match s with
  | SqliteStore d k => let '(d', r) := GetSettings d now in (SqliteStore d' k, r)
  | MemStore m => let '(m', r) := GetSettings m now in (MemStore m', r)
  end.
Definition core_caller (s : core_store) (hash : string) : option Caller :=
  match s with
  | SqliteStore _ k => Auth.caller_by_key_hash k hash
  | MemStore m => Auth.caller_by_key_hash m hash
  end.
Definition core_set (s : core_store) (hash : string) (c : Caller) : core_store :=
  match s with
  | SqliteStore d k => SqliteStore d (key_set k hash c)
  | MemStore m => MemStore (key_set m hash c)
  end.

#[local] Instance core_log : RequestLogStore core_store := {| LogRequest := core_LogRequest |}.
#[local] Instance core_ledger : BudgetLedger core_store :=
  {| SumActualCostSince := core_Sum; SumActualCostForKeySince := core_KeySum |}.
#[local] Instance core_callers : Auth.CallerStore core_store := {| Auth.caller_by_key_hash := core_caller |}.
#[local] Instance core_setter : KeySetter core_store := {| key_set := core_set |}.

#[local] Instance core_setter_laws : KeySetterLaws core_store.
Proof. split. intros [d k|m]; [apply (law_key_set k)|apply (law_key_set m)]. Qed.

(** ** The price source and the detector *)

Inductive price_source := StaticPrices (p : Pricing.Pricing) | LivePrices (r : Registry.Registry).

#[local] Instance price_source_prices : Pricing.PriceSource price_source :=
  {| Pricing.ps_PriceFor s := match s with
       | StaticPrices p => Pricing.ps_PriceFor p | LivePrices r => Pricing.ps_PriceFor r end;
     Pricing.ps_EstimatePromptTokens s := match s with
       | StaticPrices p => Pricing.ps_EstimatePromptTokens p
       | LivePrices r => Pricing.ps_EstimatePromptTokens r end;
     Pricing.ps_SavedCost s := match s with
       | StaticPrices p => Pricing.ps_SavedCost p | LivePrices r => Pricing.ps_SavedCost r end;
     Pricing.ps_AssumedCompletionTokens s := match s with
       | StaticPrices p => Pricing.ps_AssumedCompletionTokens p
       | LivePrices r => Pricing.ps_AssumedCompletionTokens r end |}.

Definition choose_prices (f : flags) (env : environment) (base : Pricing.Pricing) : price_source :=
  if String.eqb (f_pricingURL f) "" then StaticPrices base
  else
    let d := Fetcher.DefaultConfig in
    let cfg := {| Fetcher.PricingPath := f_pricingPath f; Fetcher.Endpoint := f_pricingURL f;
                  Fetcher.APIKey := Fetcher.APIKey d; Fetcher.UserAgent := Fetcher.UserAgent d;
                  Fetcher.RefreshInterval := 6 * Hour; Fetcher.StartupTimeout := Fetcher.StartupTimeout d;
                  Fetcher.HTTPTimeout := Fetcher.HTTPTimeout d; Fetcher.BackoffBase := Fetcher.BackoffBase d;
                  Fetcher.BackoffMax := Fetcher.BackoffMax d; Fetcher.StaleAfter := Fetcher.StaleAfter d;
                  Fetcher.HardFailOnEmpty := Fetcher.HardFailOnEmpty d;
                  Fetcher.MaxBodyBytes := Fetcher.MaxBodyBytes d |} in
    LivePrices (Registry.Bootstrap (Registry.NewRegistry base (Fetcher.NewFetcher cfg) cfg)
                  (e_catalog env) (e_bootstrap env)).

(** The wired detector; only a pipeline has the payload capability, the exact detector
    reads the same clock either way. *)
Definition wired_check (w : wired) (now : Z) (a : AgentID) (fp : Fingerprint) : wired * CheckResult :=
  match w with
  | Plain d => let '(d', r) := det_check d now a fp in (Plain d', r)
  | Piped p => let '(p', r) := det_check p now a fp in (Piped p', r)
  end.
Definition wired_payload (w : wired) (c : Pipeline.clocks) (a : AgentID) (fp : Fingerprint) (body : list byte) :
    wired * CheckResult :=
  match w with
  | Plain d => let '(d', r) := det_check d (Pipeline.c_exact c) a fp in (Plain d', r)
  | Piped p => let '(p', r) := Pipeline.CheckPayload p c a fp body in (Piped p', r)
  end.
Definition wired_reset (w : wired) (a : AgentID) : wired * Z :=
  match w with
  | Plain d => let '(d', n) := det_reset d a in (Plain d', n)
  | Piped p => let '(p', n) := det_reset p a in (Piped p', n)
  end.
#[local] Instance wired_detector : Detector wired := {| det_check := wired_check; det_reset := wired_reset |}.
#[local] Instance wired_capability : PayloadCapability wired := {| payload_checker := Some wired_payload |}.

(** ** The start *)

Inductive start_error :=
  | ParseUpstream
  | LoadPricing (e : Pricing.load_error)
  | OpenStore (e : sqlite_error E)
  | SeedPrices (e : sqlite_error E)
  | LoadKeys (e : keys_error).

(** The serving proxy: what the handler and the root mux were built from. *)
Record server := {
  s_upstream : url;
  s_prices : price_source;
  s_handler : handler price_source;
  s_world : world wired core_store BudgetMonitor;
  s_hub : Hub.Hub;
  s_logger : nat;
  s_metrics : bool;
  s_dashboard : bool;
  s_addr : string;
  s_store : string
}.

(** A failed start, with the database it leaves behind (its deferred Close has run). *)
Inductive outcome :=
  | PrintedVersion
  | StartFailed (e : start_error) (db : option (DB G))
  | Started (srv : server).

(** priceRowsFrom: a seed row per configured model, in the map's traversal order. *)
Definition priceRowsFrom (p : Pricing.Pricing) : list PriceRow :=
  (fun kv => {| pr_Model := kv.1; pr_Provider := ""; pr_InputMicroUSD := Pricing.InputUSD kv.2;
                pr_OutputMicroUSD := Pricing.OutputUSD kv.2; pr_Source := PriceSourceSeed |})
    <$> range (Pricing.Models (Some p)).

(** storeKind. *)
Definition storeKind (dbPath : string) : string :=
  if String.eqb dbPath "" then "memory" else "sqlite(" +:+ dbPath +:+ ")".

(** defer sqliteDB.Close(). *)
Definition deferred_close (s : core_store) : option (DB G) :=
  match s with SqliteStore d _ => Some (sqlite_Close d).1 | MemStore _ => None end.

Definition open_store (f : flags) (env : environment) (base : Pricing.Pricing) :
    result (start_error * option (DB G)) core_store :=
  if String.eqb (f_dbPath f) "" then Ok (MemStore Store.New)
  else
    match Sqlite.Open (bytes_of_string (f_dbPath f)) with
    | Err e => Err (OpenStore e, None)
    | Ok d =>
        let '(d, r) := SeedModelPrices d (e_seed env) (priceRowsFrom base) in
        match r with
        | Err e => Err (SeedPrices e, deferred_close (SqliteStore d NewKeyStore))
        | Ok _ => Ok (SqliteStore d NewKeyStore)
        end
    end.

Definition seed_callers (f : flags) (env : environment) (s : core_store) :
    result (start_error * option (DB G)) core_store :=
  if String.eqb (f_keysPath f) "" then Ok s
  else match loadKeys (e_file env (f_keysPath f)) s with
       | Err e => Err (LoadKeys e, deferred_close s)
       | Ok s => Ok s
       end.

(** The handler's options, in order. The logger is a notifier without an alert gate, and no
    reference store records incidents. *)
Definition handler_opts (f : flags) (threshold : Z) (s : core_store) :
    list (handler price_source -> handler price_source) :=
  [WithStore false; WithNotifier (Some None); WithLogStream true; WithCostThreshold (Some threshold);
   WithMetrics true]
  ++ (if String.eqb (f_keysPath f) "" then [] else [WithAuth (Some (Auth.NewAuthenticator s))])
  ++ match wire_budget f with Some _ => [WithBudgetSpender true] | None => [] end.

(** The monitor of a proxy without a daily budget is never consulted. *)
Definition no_budget : BudgetMonitor := NewBudgetMonitor {| DailyBudgetMicro := 0; ThresholdPct := [] |}.

Definition build_server (f : flags) (upstream : url) (prices : price_source) (s : core_store)
    (settings : option SettingsRow) : server :=
  let threshold := match settings with Some row => CostAlertThresholdMicro row | None => 0 end in
  let '(hub, logger) := Hub.Subscribe (Hub.NewHub None) 1024 in
  {| s_upstream := upstream; s_prices := prices;
     s_handler := NewHandler upstream (Some prices) (handler_opts f threshold s);
     s_world := Build_world
       (wire_detector f settings (Pricing.ps_EstimatePromptTokens prices)) s
       (default no_budget (wire_budget f));
     s_hub := hub; s_logger := logger; s_metrics := f_metrics f; s_dashboard := f_dashboard f;
     s_addr := f_addr f; s_store := storeKind (f_dbPath f) |}.

Definition run (f : flags) (env : environment) : outcome :=
  if f_version f then PrintedVersion
  else
    match e_url env (f_upstream f) with
    | None => StartFailed ParseUpstream None
    | Some upstream =>
        match Pricing.Load (e_file env (f_pricingPath f)) with
        | Err e => StartFailed (LoadPricing e) None
        | Ok base =>
            let prices := choose_prices f env base in
            match open_store f env base with
            | Err (e, db) => StartFailed e db
            | Ok s =>
                match seed_callers f env s with
                | Err (e, db) => StartFailed e db
                | Ok s =>
                    let '(s, settings) := core_GetSettings s (e_settings env) in
                    Started (build_server f upstream prices s settings)
                end
            end
        end
    end.

(** main: the exit code, ListenAndServe ending only with an error. *)
Definition main (o : outcome) : Z := match o with PrintedVersion => 0 | StartFailed _ _ | Started _ => 1 end.

(** ** The root mux *)

Definition healthz : Response := json_response StatusOK (quoted "{'status':'ok'}").

(** One request through it; [page] is what the metrics and dashboard handlers answer. *)
Definition root_serve (srv : server) (page : root_route -> Response) (t : times) (r : Request) :
    M (world wired core_store BudgetMonitor) unit :=
  match route (s_metrics srv) (s_dashboard srv) (Method r) (Segments r) with
  | Healthz => respond healthz
  | ProxyRoute => handle (s_handler srv) t r
  | p => respond (page p)
  end.

(** ** What a finished start guarantees *)

(** The caller store a start ends with knows the keys of the file, and no others. *)
Definition seeded (s : core_store) (entries : list keyEntry) : Prop :=
  forall hash, core_caller s hash = entry_caller <$> last_entry hash entries.

(** A store no caller was put in yet. *)
Definition no_callers (s : core_store) : Prop := forall hash, core_caller s hash = None.

Lemma open_store_callers f env base s : open_store f env base = Ok s -> no_callers s.
Proof.
  unfold open_store. destruct (String.eqb (f_dbPath f) ""); [by intros [= <-] hash|].
  destruct (Sqlite.Open _) as [d|e]; [|done]. destruct (SeedModelPrices _ _ _) as [d' [u|e]]; [|done].
  by intros [= <-] hash.
Qed.

Lemma seed_callers_spec f env s s' :
  no_callers s -> seed_callers f env s = Ok s' ->
  if String.eqb (f_keysPath f) "" then s' = s
  else exists data v, e_file env (f_keysPath f) = Some data /\ unmarshal keys_doc data = Some v
       /\ seeded s' (entry_of <$> g_elems v)
       /\ Forall (fun e => k_Key e <> "" /\ k_ID e <> "") (entry_of <$> g_elems v).
Proof.
  intros Hno. unfold seed_callers. destruct (String.eqb (f_keysPath f) ""); [by intros [= <-]|].
  destruct (loadKeys (e_file env (f_keysPath f)) s) as [s1|e] eqn:Hl; [|done]. intros [= <-].
  unfold loadKeys in Hl. destruct (e_file env (f_keysPath f)) as [data|]; [|done].
  destruct (unmarshal keys_doc data) as [v|] eqn:Hv; [|done]. exists data, v. split_and!; [done|done| |].
  - intros hash. destruct (seed_keys_lookup _ _ _ hash Hl) as [Hlk _].
    cbn [Auth.caller_by_key_hash core_callers] in Hlk. rewrite Hlk.
    destruct (last_entry hash (entry_of <$> g_elems v)); [done|apply Hno].
  - by destruct (seed_keys_lookup _ _ _ "" Hl) as [_ Hall].
Qed.

Lemma get_settings_callers s now hash : core_caller (core_GetSettings s now).1 hash = core_caller s hash.
Proof. destruct s as [d k|m]; [|done]. cbn [core_GetSettings]. by destruct (GetSettings d now). Qed.

Lemma handler_auth f threshold s upstream prices :
  auth (NewHandler upstream (Some prices) (handler_opts f threshold s))
  = if String.eqb (f_keysPath f) "" then None else Some (Auth.NewAuthenticator s).
Proof. unfold handler_opts. destruct (String.eqb (f_keysPath f) ""), (wire_budget f); done. Qed.


(** The stages a started server went through. *)
Lemma run_started f env srv :
  run f env = Started srv ->
  f_version f = false
  /\ exists upstream base s0 s1,
       e_url env (f_upstream f) = Some upstream
       /\ Pricing.Load (e_file env (f_pricingPath f)) = Ok base
       /\ open_store f env base = Ok s0 /\ seed_callers f env s0 = Ok s1
       /\ let '(s2, settings) := core_GetSettings s1 (e_settings env) in
          srv = build_server f upstream (choose_prices f env base) s2 settings.
Proof.
  unfold run. destruct (f_version f); [done|]. split; [done|].
  destruct (e_url env (f_upstream f)) as [upstream|]; [|done].
  destruct (Pricing.Load _) as [base|]; [|done].
  destruct (open_store f env base) as [s0|[e db]] eqn:Ho; [|done].
  destruct (seed_callers f env s0) as [s1|[e db]] eqn:Hs; [|done].
  exists upstream, base, s0, s1. destruct (core_GetSettings s1 (e_settings env)) as [s2 settings].
  split_and!; [done|done|done|done|]. congruence.
Qed.

(** C8. A proxy started with a keys file admits the keys of that file and nothing else.
    When the start finishes with -keys set, the file was readable and every entry of it has
    a key and an id; and every request that reaches the proxy's own route - the history
    deletion included - without a key, or with a key that has no entry in the file, is
    answered 401 and leaves no trace: it is not forwarded, logged, counted or shown to the
    detector. A request with a listed key runs as the last such entry's caller. *)
Theorem started_keys_enforced f env srv page :
  run f env = Started srv -> f_keysPath f <> "" ->
  exists data v,
    e_file env (f_keysPath f) = Some data /\ unmarshal keys_doc data = Some v
    /\ let entries := entry_of <$> g_elems v in
       Forall (fun e => k_Key e <> "" /\ k_ID e <> "") entries
       /\ forall t r w,
            route (f_metrics f) (f_dashboard f) (Method r) (Segments r) = ProxyRoute ->
            let raw := header_Get (ReqHeader r) Auth.APIKeyHeader in
            root_serve srv page t r w
            = match (if String.eqb raw "" then None else last_entry (Auth.HashAPIKey raw) entries) with
              | None => (w, [ERespond Auth.unauthorized], tt)
              | Some e => mux (s_handler srv) t
                            (set_header r (header_Del (ReqHeader r) Auth.APIKeyHeader))
                            (Some (entry_caller e)) w
              end.
Proof.
  intros Hrun Hk. apply run_started in Hrun as (_ & up & base & s0 & s1 & _ & _ & Ho & Hs & Hsrv).
  pose proof (seed_callers_spec f env s0 s1 (open_store_callers _ _ _ _ Ho) Hs) as Hspec.
  destruct (String.eqb_spec (f_keysPath f) "") as [?|_]; [done|].
  destruct Hspec as (data & v & Hd & Hv & Hseed & Hall). exists data, v. split; [done|]. split; [done|].
  split; [done|]. intros t r w Hroute raw.
  destruct (core_GetSettings s1 (e_settings env)) as [s2 settings] eqn:Hg.
  assert (forall hash, core_caller s2 hash = core_caller s1 hash) as Hsame.
  { intros hash. by rewrite <- (get_settings_callers s1 (e_settings env) hash), Hg. }
  subst srv. unfold root_serve, build_server. cbn [s_metrics s_dashboard s_handler Hub.Subscribe].
  rewrite Hroute. unfold handle. rewrite handler_auth.
  destruct (String.eqb_spec (f_keysPath f) "") as [?|_]; [done|]. cbn beta iota.
  unfold Auth.Middleware, Auth.NewAuthenticator. fold raw. destruct (String.eqb raw ""); [done|].
  cbn [Auth.caller_by_key_hash core_callers]. rewrite Hsame, Hseed.
  by destruct (last_entry _ _).
Qed.




(** The exact detector of a started proxy. *)
Definition exact_of (w : wired) : HashDetector.HashDetector :=
  match w with Plain d => d | Piped p => Pipeline.exact p end.

Lemma with_opts_exact (opts : list (Pipeline.Pipeline HashDetector.HashDetector -> Pipeline.Pipeline HashDetector.HashDetector)) e :
  (forall o p, In o opts -> Pipeline.exact (o p) = Pipeline.exact p) ->
  Pipeline.exact (Pipeline.NewPipeline e opts) = e.
Proof.
  intros Ho. unfold Pipeline.NewPipeline.
  match goal with |- context [foldl _ ?q _] => generalize (eq_refl e : Pipeline.exact q = e); generalize q end.
  induction opts as [|o opts IH]; intros p Hp; [done|]. cbn [foldl].
  apply IH; [intros; apply Ho; by right|]. rewrite Ho by (by left). done.
Qed.

(** Without a database the settings are the memory store's defaults: whatever -limit says,
    the threshold is 2, and no request is costly enough for a cost alert. *)
Lemma memory_start_settings f env srv :
  run f env = Started srv -> f_dbPath f = "" ->
  HashDetector.limit (exact_of (w_det (s_world srv))) = 2 /\ costThreshold (s_handler srv) = Some 0.
Proof.
  intros Hrun Hdb. apply run_started in Hrun as (_ & up & base & s0 & s1 & _ & _ & Ho & Hs & Hsrv).
  assert (exists m, s1 = MemStore m /\ haveSet m = false) as (m & -> & Hm).
  { unfold open_store in Ho. rewrite Hdb in Ho. cbn in Ho. injection Ho as <-. unfold seed_callers in Hs.
    destruct (String.eqb (f_keysPath f) ""); [injection Hs as <-; by eexists|].
    destruct (loadKeys (e_file env (f_keysPath f)) (MemStore New)) as [s|] eqn:Hl; [|done]. injection Hs as ->.
    unfold loadKeys in Hl. destruct (e_file env _); [|done]. destruct (unmarshal _ _) as [v|]; [|done].
    assert (forall es m, haveSet m = false -> seed_keys (MemStore m) es = Ok s1 ->
      exists m', s1 = MemStore m' /\ haveSet m' = false) as Hseed.
    { clear. induction es as [|e es IH]; intros m Hm Hs; cbn [seed_keys] in Hs; [injection Hs as <-; by eexists|].
      destruct (_ || _); [done|]. by apply (IH (key_set m (Auth.HashAPIKey (k_Key e)) (entry_caller e))). }
    by apply (Hseed (entry_of <$> g_elems v) New). }
  cbn [core_GetSettings GetSettings memory_SettingsStore] in Hsrv. unfold memory_GetSettings in Hsrv.
  rewrite Hm in Hsrv. subst srv. split.
  - unfold build_server, wire_detector. cbn [Hub.Subscribe s_world w_det].
    assert (HashDetector.limit (exact_detector f (Some {| LoopThresholdCount := Store.DefaultLoopThreshold;
      CostAlertThresholdMicro := 0 |})) = 2) as He by done.
    destruct (pipeline_opts f) as [|o opts] eqn:Hopts; [done|]. cbn [exact_of].
    rewrite with_opts_exact; [done|]. rewrite <- Hopts. intros o' p Hin.
    apply in_app_or in Hin as [Hin|[<-|[]]]; [|done].
    unfold pipeline_opts in Hin. repeat (apply in_app_or in Hin as [Hin|Hin]);
      case_match; try done; destruct Hin as [<-|[]]; done.
  - unfold build_server, handler_opts. cbn [Hub.Subscribe s_handler].
    destruct (String.eqb (f_keysPath f) ""), (wire_budget f); done.
Qed.
End Startup.

(** ** A concrete start

    A price table, a keys file and a database, all detectors on. *)

Section Witness.
#[local] Existing Instances Sqlite.tables_gorm.
#[local] Instance order_exact : RangeOrder HashDetector.key HashDetector.entry := canonical_range _ _.
#[local] Instance order_struct : RangeOrder Detector.AgentID StructuralHasher.structuralState :=
  canonical_range _ _.
#[local] Instance order_tool : RangeOrder Detector.AgentID ToolMatcher.toolState := canonical_range _ _.
#[local] Instance order_vel : RangeOrder Detector.AgentID VelocityBreaker.velocityState :=
  canonical_range _ _.
#[local] Instance order_price : RangeOrder string Pricing.ModelPrice := canonical_range _ _.
#[local] Instance order_json : RangeOrder string gov := canonical_range _ _.

Definition sample_flags : flags :=
  {| f_addr := ":8080"; f_upstream := "http://localhost:11434/v1"; f_ttl := 5 * Minute; f_limit := 7;
     f_pricingPath := "pricing.json"; f_pricingURL := ""; f_dbPath := "data/finops.db";
     f_keysPath := "keys.json"; f_dailyBudget := 1000; f_thresholds := bytes_of_string "50,80,100";
     f_metrics := true; f_dashboard := true; f_dynamic := true; f_structural := false;
     f_toolLoop := false; f_velocity := false; f_version := false |}.

Definition sample_prices_file : list byte :=
  text "{'version':1,'currency':'USD','per_million_tokens':true,'default':{'input_usd_per_1m':2.5,'output_usd_per_1m':10},'models':{'gpt-4':{'input_usd_per_1m':30,'output_usd_per_1m':60}}}".

Definition sample_env : environment :=
  {| e_url _ := Some sample_upstream;
     e_file p := if String.eqb p "keys.json" then Some sample_keys
                 else if String.eqb p "pricing.json" then Some sample_prices_file else None;
     e_catalog _ := Fetcher.NoResponse; e_bootstrap := 0; e_seed _ := 0; e_settings := 0 |}.

Definition keyed_request (key : string) : Request :=
  local_request "POST" ["v1"; "chat"] (header_Set ∅ Auth.APIKeyHeader key) (bytes_of_string "[1,2]").

Definition is_started (o : outcome (G := Tables) (E := unit)) : bool :=
  match o with Started _ => true | _ => false end.

Lemma started_keys_enforced_witness :
  match run sample_flags sample_env with
  | Started srv => forall page t w,
      root_serve srv page t (keyed_request "sk-2") w = (w, [ERespond Auth.unauthorized], tt)
  | _ => False
  end.
Proof.
  assert (is_started (run sample_flags sample_env) = true) as Hok by (vm_compute; reflexivity).
  destruct (run sample_flags sample_env) as [|e db|srv] eqn:Hrun; [discriminate Hok|discriminate Hok|].
  intros page t w.
  destruct (started_keys_enforced sample_flags sample_env srv page Hrun ltac:(discriminate))
    as (data & v & Hd & Hv & _ & Hserve).
  change (Some sample_keys = Some data) in Hd. injection Hd as <-.
  rewrite Hserve by reflexivity. clear Hserve Hrun Hok. vm_compute in Hv. injection Hv as <-.
  vm_compute (String.eqb _ _). vm_compute (last_entry _ _). reflexivity.
Defined.
End Witness.
