(* ===== verification/CommandLine.v ===== *)
(** * internal/wrapper/args.go, cmd/finops-run/main.go and the flags of cmd/proxy

    The two command lines on the flag sets of GoFlag, and what finops-run's main does with
    the outcome. *)

From S2P Require Import Prelude GoJson GoFlag Wrapper.
From S2P Require Main.

(** ** finops-run *)

Definition with_flags (c : Config) (agent url : string) (restarts : Z) (prompt : string) (retry watch : bool)
    (interval : Z) (version : bool) : Config :=
  {| AgentID := agent; ProxyURL := url; MaxRestarts := restarts; RecoveryPrompt := prompt;
     Marker := Marker c; KillGrace := KillGrace c; DeleteTimeout := DeleteTimeout c;
     MaxDeleteRetries := MaxDeleteRetries c; RetryOnNonzero := retry; Watch := watch;
     WatchInterval := interval; Version := version |}.

Definition set_AgentID (v : string) (c : Config) : Config :=
  with_flags c v (ProxyURL c) (MaxRestarts c) (RecoveryPrompt c) (RetryOnNonzero c) (Watch c)
    (WatchInterval c) (Version c).
Definition set_Watch (v : bool) (c : Config) : Config :=
  with_flags c (AgentID c) (ProxyURL c) (MaxRestarts c) (RecoveryPrompt c) (RetryOnNonzero c) v
    (WatchInterval c) (Version c).

Definition finops_flags : list (string * setter Config) :=
  [("agent-id"%string, SetString set_AgentID);
   ("proxy-url"%string, SetString (fun v c =>
      with_flags c (AgentID c) v (MaxRestarts c) (RecoveryPrompt c) (RetryOnNonzero c) (Watch c)
        (WatchInterval c) (Version c)));
   ("max-restarts"%string, SetInt (fun v c =>
      with_flags c (AgentID c) (ProxyURL c) v (RecoveryPrompt c) (RetryOnNonzero c) (Watch c)
        (WatchInterval c) (Version c)));
   ("recovery-prompt"%string, SetString (fun v c =>
      with_flags c (AgentID c) (ProxyURL c) (MaxRestarts c) v (RetryOnNonzero c) (Watch c)
        (WatchInterval c) (Version c)));
   ("retry-on-nonzero"%string, SetBool (fun v c =>
      with_flags c (AgentID c) (ProxyURL c) (MaxRestarts c) (RecoveryPrompt c) v (Watch c)
        (WatchInterval c) (Version c)));
   ("watch"%string, SetBool set_Watch);
   ("stats"%string, SetBool set_Watch);
   ("watch-interval"%string, SetDuration (fun v c =>
      with_flags c (AgentID c) (ProxyURL c) (MaxRestarts c) (RecoveryPrompt c) (RetryOnNonzero c) (Watch c)
        v (Version c)));
   ("version"%string, SetBool (fun v c =>
      with_flags c (AgentID c) (ProxyURL c) (MaxRestarts c) (RecoveryPrompt c) (RetryOnNonzero c) (Watch c)
        (WatchInterval c) v))].

(** What ParseArgs returns. *)
Inductive parsed :=
  | ArgsError (e : flag_error)
  | MissingBinary
  | VersionAsked (cfg : Config)
  | Child (cfg : Config) (bin : string) (passthrough : list string).

Definition resolve_agent (cfg : Config) (bin : string) (args : list string) : Config :=
  if String.eqb (AgentID cfg) ""
  then set_AgentID (DefaultAgentID (bytes_of_string bin) (bytes_of_string <$> args)) cfg else cfg.

Definition ParseArgs (args : list string) : parsed :=
  match Parse finops_flags args DefaultConfig with
  | Err e => ArgsError e
  | Ok (cfg, rest) =>
      if Version cfg then VersionAsked cfg
      else match rest with
           | [] => MissingBinary
           | bin :: passthrough => Child (resolve_agent cfg bin passthrough) bin passthrough
           end
  end.

(** main: its exit code, [run] being wrapper.Run's on the parsed configuration. *)
Definition finops_main (run : Config -> string -> list string -> Z) (args : list string) : Z :=
  match ParseArgs args with
  | ArgsError _ | MissingBinary => 2
  | VersionAsked _ => 0
  | Child cfg bin passthrough => run cfg bin passthrough
  end.

(** ** cmd/proxy: the flags of run, each on its field, in the record's order *)

Section proxy_flags.
Import Main.
Definition proxy_flags : list (string * setter flags) :=
  [("addr"%string, SetString (fun v f => let '(Build_flags _ b c d e f g h i j k l m n o p q) := f in
      Build_flags v b c d e f g h i j k l m n o p q));
   ("upstream"%string, SetString (fun v f => let '(Build_flags a _ c d e f g h i j k l m n o p q) := f in
      Build_flags a v c d e f g h i j k l m n o p q));
   ("ttl"%string, SetDuration (fun v f => let '(Build_flags a b _ d e f g h i j k l m n o p q) := f in
      Build_flags a b v d e f g h i j k l m n o p q));
   ("limit"%string, SetInt (fun v f => let '(Build_flags a b c _ e f g h i j k l m n o p q) := f in
      Build_flags a b c v e f g h i j k l m n o p q));
   ("pricing"%string, SetString (fun v f => let '(Build_flags a b c d _ f g h i j k l m n o p q) := f in
      Build_flags a b c d v f g h i j k l m n o p q));
   ("pricing-url"%string, SetString (fun v f => let '(Build_flags a b c d e _ g h i j k l m n o p q) := f in
      Build_flags a b c d e v g h i j k l m n o p q));
   ("db"%string, SetString (fun v f => let '(Build_flags a b c d e f _ h i j k l m n o p q) := f in
      Build_flags a b c d e f v h i j k l m n o p q));
   ("keys"%string, SetString (fun v f => let '(Build_flags a b c d e f g _ i j k l m n o p q) := f in
      Build_flags a b c d e f g v i j k l m n o p q));
   ("daily-budget-micro"%string, SetInt (fun v f => let '(Build_flags a b c d e f g h _ j k l m n o p q) := f in
      Build_flags a b c d e f g h v j k l m n o p q));
   ("budget-thresholds"%string, SetString (fun v f => let '(Build_flags a b c d e f g h i _ k l m n o p q) := f in
      Build_flags a b c d e f g h i (bytes_of_string v) k l m n o p q));
   ("metrics"%string, SetBool (fun v f => let '(Build_flags a b c d e f g h i j _ l m n o p q) := f in
      Build_flags a b c d e f g h i j v l m n o p q));
   ("dashboard"%string, SetBool (fun v f => let '(Build_flags a b c d e f g h i j k _ m n o p q) := f in
      Build_flags a b c d e f g h i j k v m n o p q));
   ("dynamic"%string, SetBool (fun v f => let '(Build_flags a b c d e f g h i j k l _ n o p q) := f in
      Build_flags a b c d e f g h i j k l v n o p q));
   ("structural"%string, SetBool (fun v f => let '(Build_flags a b c d e f g h i j k l m _ o p q) := f in
      Build_flags a b c d e f g h i j k l m v o p q));
   ("tool-loop"%string, SetBool (fun v f => let '(Build_flags a b c d e f g h i j k l m n _ p q) := f in
      Build_flags a b c d e f g h i j k l m n v p q));
   ("velocity"%string, SetBool (fun v f => let '(Build_flags a b c d e f g h i j k l m n o _ q) := f in
      Build_flags a b c d e f g h i j k l m n o v q));
   ("version"%string, SetBool (fun v f => let '(Build_flags a b c d e f g h i j k l m n o p _) := f in
      Build_flags a b c d e f g h i j k l m n o p v))].
End proxy_flags.

(** flag.Parse: the flags, or the exit code; arguments after the flags are ignored. *)
Definition parse_proxy_flags (args : list string) : result Z Main.flags :=
  match Parse proxy_flags args Main.default_flags with
  | Ok (f, _) => Ok f
  | Err HelpRequested => Err 0
  | Err _ => Err 2
  end.

Example proxy_flags_example :
  match parse_proxy_flags ["-ttl=90s"; "--limit"; "3"; "-dynamic"; "-db"; "x.db"; "-metrics=false"]%string with
  | Ok f => (Main.f_ttl f, Main.f_limit f, Main.f_dynamic f, Main.f_dbPath f, Main.f_metrics f, Main.f_addr f)
            = (90 * Second, 3, true, "x.db"%string, false, ":8080"%string)
  | Err _ => False
  end.
Proof. vm_compute. reflexivity. Qed.

(** ** Where the flags end *)

Lemma set_flag_split {C} (table : list (string * setter C)) name value rest c c' rest' :
  set_flag table name value rest c = Ok (c', rest') ->
  exists taken, rest = taken ++ rest' /\ forall r, set_flag table name value (taken ++ r) c = Ok (c', r).
Proof.
  unfold set_flag. destruct (lookup_flag table name) as [s|]; [|done].
  assert (forall v (r0 : list string), match set_value s v c with Some c => Ok (c, r0) | None => Err (InvalidValue name v) end
            = Ok (c', rest') ->
          r0 = rest' /\ forall r : list string, match set_value s v c with Some c => Ok (c, r) | None => Err (InvalidValue name v) end
            = Ok (c', r)) as Hset.
  { intros v r0. destruct (set_value s v c); [|done]. intros Heq. by injection Heq as -> ->. }
  destruct s as [f|f|f|f];
    try (intros Heq; apply Hset in Heq as [-> Hr]; exists []; by split);
    (destruct value as [v|]; [intros Heq; apply Hset in Heq as [-> Hr]; exists []; by split|];
     destruct rest as [|v rest]; [done|]; intros Heq; apply Hset in Heq as [-> Hr]; exists [v]; by split).
Qed.

Lemma parse_flags_split {C} (table : list (string * setter C)) fuel args c c' bin rest :
  (length args <= fuel)%nat -> parse_flags table fuel args c = Ok (c', bin :: rest) ->
  exists pre, args = pre ++ bin :: rest
    /\ forall fuel' r, (length (pre ++ bin :: r) <= fuel')%nat ->
         parse_flags table fuel' (pre ++ bin :: r) c = Ok (c', bin :: r).
Proof.
  revert args c. induction fuel as [|fuel IH]; intros [|a args] c Hf Hp; [done|cbn in Hf; lia|done|].
  cbn [parse_flags] in Hp. destruct (arg_shape a) as [| | |name value] eqn:Ha; [| |done|].
  - injection Hp as -> -> ->. exists []. split; [done|]. intros [|fuel'] r Hr; [cbn in Hr; lia|].
    cbn [app parse_flags]. by rewrite Ha.
  - injection Hp as -> ->. exists [a]. split; [done|]. intros [|fuel'] r Hr; [cbn in Hr; lia|].
    cbn [app parse_flags]. by rewrite Ha.
  - destruct (set_flag table name value args c) as [[c1 rest1]|] eqn:Hs; [|done].
    apply set_flag_split in Hs as (taken & -> & Hs).
    destruct (IH rest1 c1) as (pre & -> & Hpre); [|done|].
    { cbn in Hf. rewrite length_app in Hf. lia. }
    exists (a :: taken ++ pre). split; [by rewrite <- app_comm_cons, <- app_assoc|].
    intros [|fuel'] r Hr; [cbn in Hr; lia|]. rewrite <- app_comm_cons, <- app_assoc in Hr |- *.
    cbn [parse_flags]. rewrite Ha, Hs. apply Hpre. cbn in Hr. rewrite length_app in Hr. lia.
Qed.

(** C38. What comes after the binary is the child's. When ParseArgs finds a child, its
    arguments are exactly what follows the binary on the command line, and no text there -
    flags of finops-run included - changes the configuration or the binary: any other tail
    is passed on as it is, under the same flags; only an agent id that no flag gave depends
    on it, being derived from the child's whole command line. *)
Theorem passthrough_untouched args cfg bin rest :
  ParseArgs args = Child cfg bin rest ->
  exists pre flags, args = pre ++ bin :: rest /\ cfg = resolve_agent flags bin rest
    /\ forall rest', ParseArgs (pre ++ bin :: rest') = Child (resolve_agent flags bin rest') bin rest'.
Proof.
  unfold ParseArgs, Parse. destruct (parse_flags finops_flags (length args) args DefaultConfig)
    as [[flags rest0]|] eqn:Hp; [|done].
  destruct (Version flags) eqn:Hv; [done|]. destruct rest0 as [|b r]; [done|].
  intros [= <- <- <-]. destruct (parse_flags_split _ _ _ _ _ _ _ (Nat.le_refl _) Hp) as (pre & -> & Hpre).
  exists pre, flags. split_and!; [done|done|]. intros rest'. by rewrite Hpre, Hv.
Qed.

Lemma passthrough_untouched_witness :
  ParseArgs ["-max-restarts"; "5"; "--watch"; "claude"; "-x"]%string
  = Child (resolve_agent (with_flags DefaultConfig "" (ProxyURL DefaultConfig) 5 (RecoveryPrompt DefaultConfig)
                            true true Second false) "claude" ["-x"%string]) "claude" ["-x"%string]
  /\ exists pre flags, ["-max-restarts"; "5"; "--watch"; "claude"; "-x"]%string = pre ++ "claude"%string :: ["-x"%string]
       /\ ParseArgs (pre ++ ["claude"; "--version"; "-max-restarts"; "oops"]%string)
          = Child (resolve_agent flags "claude" ["--version"; "-max-restarts"; "oops"]%string) "claude"
              ["--version"; "-max-restarts"; "oops"]%string.
Proof.
  assert (ParseArgs ["-max-restarts"; "5"; "--watch"; "claude"; "-x"]%string
    = Child (resolve_agent (with_flags DefaultConfig "" (ProxyURL DefaultConfig) 5 (RecoveryPrompt DefaultConfig)
                              true true Second false) "claude" ["-x"%string]) "claude" ["-x"%string]) as Hp
    by (vm_compute; reflexivity).
  split; [exact Hp|]. destruct (passthrough_untouched _ _ _ _ Hp) as (pre & flags & Hargs & _ & Hrest).
  exists pre, flags. split; [exact Hargs|apply Hrest].
Defined.
