(* ===== verification/Serving.v ===== *)
(** * The proxy in operation (cmd/proxy/main.go, pkg/proxy/metrics.go, dashboard.go)

    A started server answering whatever arrives at its root mux: proxied requests, whose
    responses are copied and billed later, history deletions, polls of the metrics, the
    dashboard page. Beside the world of Handler it holds the metrics registry the request
    path marks and the requests that are still being forwarded; the theorems relate what
    the metrics say, up to the status line of finops-run, to what the request log holds. *)

From S2P Require Import Prelude GoFloat GoJson GoFloatPrint GoHttp Store Budget Sqlite Detector Handler Main Startup Traffic.
From S2P Require Metrics MetricsWire StatusBar UsageTracking Auth Pricing Registry Pipeline Hub.
From S2P Require HashDetector StructuralHasher ToolMatcher VelocityBreaker.
#[local] Existing Instances HashDetector.key_eq_dec HashDetector.key_countable
  HashDetector.hash_detector_Detector Pipeline.pipeline_Detector Auth.keystore_CallerStore
  Auth.memory_CallerStore Pricing.Pricing_source Registry.Registry_source
  core_log core_ledger price_source_prices wired_detector wired_capability.

(** ** A request that is being forwarded

    ServeHTTP's deferred markDone runs when h.rp.ServeHTTP has returned, the response
    copied. Its effects are those up to the forward and those after it. *)

Fixpoint until_forward (es : list effect) : list effect :=
  match es with
  | [] => []
  | EForward out m :: _ => [EForward out m]
  | e :: es' => e :: until_forward es'
  end.
Fixpoint after_forward (es : list effect) : option (list effect) :=
  match es with
  | [] => None
  | EForward _ _ :: es' => Some es'
  | _ :: es' => after_forward es'
  end.

(** ** The books

    What the marks of a list of effects count against the rows it logs. *)

Definition billed (rows : list RequestRecord) : list RequestRecord :=
  filter (fun r => r_IsLoopBlocked r = false) rows.
Definition refused (rows : list RequestRecord) : list RequestRecord :=
  filter (fun r => r_IsLoopBlocked r = true) rows.
Definition saved (rows : list RequestRecord) : Z := sumZ (r_CostUSD <$> refused rows).

Record balanced (es : list effect) (in_flight : Z) : Prop := {
  bal_flight : Metrics.in_flight (marks_of es) = in_flight;
  bal_billed : Metrics.forwarded_count (marks_of es) = Z.of_nat (length (billed (logged es)));
  bal_refused : Metrics.blocked_count (marks_of es) = Z.of_nat (length (refused (logged es)));
  bal_saved : Metrics.saved_total (marks_of es) = saved (logged es)
}.

Lemma balanced_app es1 es2 a b : balanced es1 a -> balanced es2 b -> balanced (es1 ++ es2) (a + b).
Proof.
  intros [A1 A2 A3 A4] [B1 B2 B3 B4]. unfold Metrics.in_flight, Metrics.forwarded_count,
    Metrics.blocked_count, Metrics.saved_total, saved, billed, refused in *.
  split; unfold Metrics.in_flight, Metrics.forwarded_count, Metrics.blocked_count,
    Metrics.saved_total, saved, billed, refused;
    rewrite marks_app, ?logged_app, !fmap_app, ?filter_app, ?fmap_app, !sumZ_app, ?length_app; lia.
Qed.

(** Effects that neither mark nor log. *)
Lemma balanced_silent es : marks_of es = [] -> logged es = [] -> balanced es 0.
Proof. intros Hm Hl. by split; rewrite Hm, ?Hl. Qed.

Section Books.
Context {D S B P : Type}.
Context `{Detector D, PayloadCapability D, RequestLogStore S, BudgetLedger S, BudgetSpender B,
          Pricing.PriceSource P}.
Implicit Types (h : handler P) (w : world D S B).

(** A handler with prices, a log and metrics, as every start of cmd/proxy wires it. *)
Definition wired_for_books h : Prop :=
  store h = true /\ metrics h = true /\ exists p, price h = Some p.

(** What a request does on its way in, and what remains for its return. *)
Lemma serve_books h t r ctx w :
  wired_for_books h ->
  let '(_, es, _) := ServeHTTP h t r ctx w in
  balanced (until_forward es) (match after_forward es with Some _ => 1 | None => 0 end)
  /\ (after_forward es = None \/ after_forward es = Some [EMark Metrics.MDone]).
Proof.
  intros (Hs & Hm & p & Hp). rewrite ServeHTTP_run, Hm. cbn [opt app].
  destruct (classify h w t r ctx) as [|c sp ra rs| |body res|body];
    cbn [verdict_effects]; unfold exceeded_effects, block_effects; rewrite ?Hm, ?Hp, ?Hs.
  - split; [by split|by right].
  - destruct (hub h); (split; [by split|by left]).
  - split; [by split|by left].
  - destruct (emitter h), (incidents h), (FirstBlock res && loopAlertsEnabled h), (hub h);
      (split; [|by left]); split; try done; cbn; unfold saved; cbn; lia.
  - destruct (emitter h); (split; [by split|by right]).
Qed.

Lemma handle_books h t r w :
  wired_for_books h ->
  let '(_, es, _) := handle h t r w in
  balanced (until_forward es) (match after_forward es with Some _ => 1 | None => 0 end)
  /\ (after_forward es = None \/ after_forward es = Some [EMark Metrics.MDone]).
Proof.
  intros Hw. assert (forall r ctx, let '(_, es, _) := mux h t r ctx w in
    balanced (until_forward es) (match after_forward es with Some _ => 1 | None => 0 end)
    /\ (after_forward es = None \/ after_forward es = Some [EMark Metrics.MDone])) as Hmux.
  { intros r0 ctx. destruct (mux_cases h t r0 ctx w) as [(id & _ & _ & _ & ->)| ->].
    - split; [by split|by left].
    - by apply serve_books. }
  unfold handle, Auth.Middleware. destruct (auth h) as [a|]; [|apply Hmux].
  destruct (a _) as [c|]; [apply Hmux|]. split; [by split|by left].
Qed.

Lemma level_marks h evs : marks_of (level_effects h evs) = [].
Proof.
  unfold level_effects. induction evs as [|ev evs IH]; [done|]. rewrite fmap_cons. cbn [concat].
  rewrite marks_app, IH. by destruct (hub h).
Qed.

Lemma onCost_books h t m pt ct w :
  wired_for_books h -> let '(_, es, _) := onCost h t m pt ct w in balanced es 0.
Proof.
  intros (Hs & Hm & p & Hp). rewrite onCost_run, Hp, Hs, Hm. cbn zeta.
  assert (forall row rest, r_IsLoopBlocked row = false -> marks_of rest = [] -> logged rest = [] -> forall now d,
    balanced (opt true (EMark (Metrics.MForwarded now d pt ct)) ++ [ELog row] ++ rest) 0) as Hb.
  { intros row rest Hr Hrm Hrl now d. apply (balanced_app [EMark _; ELog row] rest 0 0); [|by apply balanced_silent].
    split; unfold saved, billed, refused; cbn; rewrite ?Hr; done. }
  apply Hb; [done| |].
  - rewrite !marks_app, level_marks. unfold marks_of. rewrite !view_opt.
    destruct (costThreshold h); by rewrite ?view_opt.
  - rewrite !logged_app. destruct (level_views h (budget_outcome h t
      {| w_det := w_det w; w_store := (LogRequest (w_store w) (completion_row t m pt ct
           (completion_cost p m pt ct))).1; w_budget := w_budget w |}).2) as (_ & _ & -> & _).
    unfold logged. rewrite !view_opt. destruct (costThreshold h); by rewrite ?view_opt.
Qed.
End Books.

(** ** The running proxy *)

Section Serving.
Context {G E : Type} `{Gorm G E}.
Context {RH : RangeOrder HashDetector.key HashDetector.entry}.
Context {RA : RangeOrder Detector.AgentID Detector.AgentStatus}.
Context {RS : RangeOrder Detector.AgentID StructuralHasher.structuralState}.
Context {RT : RangeOrder Detector.AgentID ToolMatcher.toolState}.
Context {RV : RangeOrder Detector.AgentID VelocityBreaker.velocityState}.
Context {RP : RangeOrder string Pricing.ModelPrice}.
Context {RJ : RangeOrder string gov}.

(** det.(circuitbreaker.DetectorStatus).BlockedAgents(): only the exact detector alone
    implements it. *)
Definition blocked_agents (w : wired) (now : Z) : wired * option (list Detector.AgentStatus) :=
  match w with
  | Plain d => let '(d', l) := HashDetector.BlockedAgents d now in (Plain d', Some l)
  | Piped p => (Piped p, None)
  end.

(** DashboardHandler: the embedded page, whatever the method. *)
Definition DashboardHandler (page : string) : Response :=
  {| Status := StatusOK; RespHeader := header_Set ∅ "Content-Type" "text/html; charset=utf-8"; RespBody := page |}.

Record proxy := {
  p_traffic : traffic wired (core_store (G := G)) BudgetMonitor;
  p_open : list (list effect);       (* a forwarded request's effects on its return *)
  p_metrics : Metrics.Metrics
}.

(** proxy.NewMetrics(), with the rest of the start. *)
Definition start_serving (srv : server (G := G)) (now : Z) : proxy :=
  {| p_traffic := Build_traffic (s_world srv) []; p_open := []; p_metrics := Metrics.NewMetrics now |}.

(** The clocks of a poll: Snapshot's and BlockedAgents'. *)
Record poll_times := { m_snapshot : Z; m_blocked : Z }.

Inductive proxy_event :=
  | Arrive (t : times) (pt : poll_times) (r : Request)       (* a request at the root mux *)
  | Copied (e : traffic_event)                               (* a response ends, or fails *)
  | Returned (i : nat).                                      (* the i-th open ServeHTTP returns *)

Definition with_det (tr : traffic wired (core_store (G := G)) BudgetMonitor) (det : wired) :
    traffic wired (core_store (G := G)) BudgetMonitor :=
  let w := t_world tr in Build_traffic (Build_world det (w_store w) (w_budget w)) (inflight tr).

(** What GET /v1/metrics answers, and what it leaves. *)
Definition serve_metrics (pt : poll_times) (method : string) (s : proxy) : proxy * Response :=
  let det := w_det (t_world (p_traffic s)) in
  let '(det, blocked) :=
    if String.eqb method "GET" then blocked_agents det (m_blocked pt) else (det, None) in
  let '(m, (status, hd, body)) := MetricsWire.MetricsHandler (Some (p_metrics s)) blocked method (m_snapshot pt) in
  ({| p_traffic := with_det (p_traffic s) det; p_open := p_open s;
      p_metrics := default (p_metrics s) m |},
   {| Status := status; RespHeader := hd; RespBody := string_of_bytes body |}).

(** None: a bucket index computed from a clock before 1970 is out of range. *)
Definition proxy_step (srv : server) (page : string) (s : proxy) (e : proxy_event) :
    option (proxy * list effect) :=
  match e with
  | Arrive t pt r =>
      let '(s, resp) :=
        match route (s_metrics srv) (s_dashboard srv) (Method r) (Segments r) with
        | MetricsRoute => serve_metrics pt (Method r) s
        | _ => (s, DashboardHandler page)
        end in
      let '(w, es, _) := root_serve srv (fun _ => resp) t r (t_world (p_traffic s)) in
      m ← Metrics.apply_marks (p_metrics s) (marks_of (until_forward es));
      Some ({| p_traffic := Build_traffic w (inflight (p_traffic s) ++ omap snd (forwards es));
               p_open := p_open s ++ option_list (after_forward es); p_metrics := m |}, until_forward es)
  | Copied e =>
      match e with
      | Serve _ _ _ => None
      | _ =>
          let '(tr, es) := traffic_step (s_handler srv) e (p_traffic s) in
          m ← Metrics.apply_marks (p_metrics s) (marks_of es);
          Some ({| p_traffic := tr; p_open := p_open s; p_metrics := m |}, es)
      end
  | Returned i =>
      es ← p_open s !! i;
      m ← Metrics.apply_marks (p_metrics s) (marks_of es);
      Some ({| p_traffic := p_traffic s; p_open := delete i (p_open s); p_metrics := m |}, es)
  end.

Fixpoint proxy_run (srv : server) (page : string) (s : proxy) (l : list proxy_event) :
    option (proxy * list effect) :=
  match l with
  | [] => Some (s, [])
  | e :: l' =>
      '(s1, es1) ← proxy_step srv page s e;
      '(s2, es2) ← proxy_run srv page s1 l'; Some (s2, es1 ++ es2)
  end.

(** ** The registry keeps the books of what was done *)

Record serving_inv (s : proxy) (es : list effect) : Prop := {
  sv_counts : Metrics.counts (p_metrics s) (marks_of es);
  sv_buckets : MetricsWire.buckets_ok (Metrics.tokens (p_metrics s));
  sv_open : Forall (eq [EMark Metrics.MDone]) (p_open s);
  sv_books : balanced es (Z.of_nat (length (p_open s)))
}.

Lemma registry_marked m es es' m' :
  Metrics.counts m (marks_of es) -> MetricsWire.buckets_ok (Metrics.tokens m) ->
  Metrics.apply_marks m (marks_of es') = Some m' ->
  Metrics.counts m' (marks_of (es ++ es')) /\ MetricsWire.buckets_ok (Metrics.tokens m').
Proof.
  intros Hc Hb Hr. rewrite marks_app. split; [by eapply Metrics.counts_marks|by eapply MetricsWire.marks_buckets].
Qed.

Lemma root_books (srv : server) resp t r w :
  wired_for_books (s_handler srv) ->
  let '(_, es, _) := root_serve srv (fun _ => resp) t r w in
  balanced (until_forward es) (match after_forward es with Some _ => 1 | None => 0 end)
  /\ (after_forward es = None \/ after_forward es = Some [EMark Metrics.MDone]).
Proof.
  intros Hw. unfold root_serve. destruct (route _ _ _ _); try (split; [by split|by left]). by apply handle_books.
Qed.

(** A poll counts nothing and leaves the traffic's store and the open requests. *)
Lemma serve_metrics_inv pt method s es :
  serving_inv s es -> serving_inv (serve_metrics pt method s).1 es.
Proof.
  intros [Hc Hb Ho Hk]. unfold serve_metrics.
  destruct (if String.eqb method "GET" then _ else _) as [det blocked].
  unfold MetricsWire.MetricsHandler, Metrics.MetricsHandler. destruct (negb (String.eqb method "GET")); [by split|].
  pose proof (Metrics.counts_snapshot _ _ (m_snapshot pt) Hc) as Hc'.
  pose proof (MetricsWire.snapshot_buckets _ (m_snapshot pt) Hb) as Hb'.
  destruct (Metrics.Snapshot (p_metrics s) (m_snapshot pt)) as [m' snap]. by split.
Qed.

Lemma serving_step (srv : server) page s es e s' es' :
  wired_for_books (s_handler srv) -> serving_inv s es -> proxy_step srv page s e = Some (s', es') ->
  serving_inv s' (es ++ es').
Proof.
  intros Hw Hi Hs. destruct e as [t pt r|e|i]; cbn [proxy_step] in Hs.
  - assert (exists s1 resp, serving_inv s1 es /\
      (let '(w, es, _) := root_serve srv (fun _ => resp) t r (t_world (p_traffic s1)) in
       m ← Metrics.apply_marks (p_metrics s1) (marks_of (until_forward es));
       Some ({| p_traffic := Build_traffic w (inflight (p_traffic s1) ++ omap snd (forwards es));
                p_open := p_open s1 ++ option_list (after_forward es); p_metrics := m |}, until_forward es))
      = Some (s', es')) as (s1 & resp & [Hc Hb Ho Hk] & Hs1).
    { destruct (route _ _ _ _); try (by exists s, (DashboardHandler page)).
      pose proof (serve_metrics_inv pt (Method r) s es Hi) as Hi1.
      destruct (serve_metrics pt (Method r) s) as [s1 resp]. by exists s1, resp. }
    pose proof (root_books srv resp t r (t_world (p_traffic s1)) Hw) as Hr.
    destruct (root_serve _ _ _ _ _) as [[w es1] u]. destruct Hr as [Hbal Hafter].
    apply bind_Some in Hs1 as (m & Hm & [= <- <-]).
    destruct (registry_marked _ _ _ _ Hc Hb Hm) as [Hc' Hb']. split; cbn [p_metrics p_open]; [done|done| |].
    + apply Forall_app. split; [done|]. destruct Hafter as [-> | ->]; by repeat constructor.
    + rewrite length_app, Nat2Z.inj_add. apply balanced_app; [done|]. by destruct Hafter as [Ha|Ha]; rewrite Ha in Hbal |- *.
  - destruct Hi as [Hc Hb Ho Hk].
    assert (let '(_, es1) := traffic_step (s_handler srv) e (p_traffic s) in
      match e with Serve _ _ _ => True | _ => balanced es1 0 end) as Hbal.
    { destruct e as [|i t st ty pt ct|]; cbn [traffic_step]; [by repeat case_match| |by apply balanced_silent].
      unfold finish. destruct (inflight (p_traffic s) !! i) as [m|]; [|by apply balanced_silent].
      destruct (modifyResponse _ _ _) as [b|]; [|by apply balanced_silent].
      pose proof (onCost_books (s_handler srv) t (UsageTracking.meta b) pt ct (t_world (p_traffic s)) Hw) as Hcost.
      by destruct (onCost _ _ _ _ _ _) as [[w es1] u]. }
    destruct e as [|i t st ty pt ct|i]; [done|..]; destruct (traffic_step _ _ _) as [tr es1];
      apply bind_Some in Hs as (m & Hm & [= <- <-]);
      destruct (registry_marked _ _ _ _ Hc Hb Hm) as [Hc' Hb']; (split; cbn [p_metrics p_open]; [done|done|done|]);
      rewrite <- (Z.add_0_r (Z.of_nat _)); by apply balanced_app.
  - destruct Hi as [Hc Hb Ho Hk]. apply bind_Some in Hs as (es1 & Hlk & Hs).
    apply bind_Some in Hs as (m & Hm & [= <- <-]).
    destruct (registry_marked _ _ _ _ Hc Hb Hm) as [Hc' Hb']. split; cbn [p_metrics p_open]; [done|done| |].
    + by apply Forall_delete.
    + assert (es1 = [EMark Metrics.MDone]) as -> by (symmetry; by apply (Forall_lookup_1 _ _ _ _ Ho Hlk)).
      replace (Z.of_nat (length (delete i (p_open s)))) with (Z.of_nat (length (p_open s)) + -1).
      { apply balanced_app; [done|by split]. }
      rewrite length_delete by (by eexists). apply lookup_lt_Some in Hlk. lia.
Qed.

Lemma serving_run (srv : server) page l s es s' es' :
  wired_for_books (s_handler srv) -> serving_inv s es -> proxy_run srv page s l = Some (s', es') ->
  serving_inv s' (es ++ es').
Proof.
  intros Hw. revert s es es'. induction l as [|e l IH]; intros s es es' Hi Hr; cbn [proxy_run] in Hr.
  { injection Hr as <- <-. by rewrite app_nil_r. }
  apply bind_Some in Hr as ([s1 es1] & Hs & Hr). apply bind_Some in Hr as ([s2 es2] & Hr & [= <- <-]).
  rewrite app_assoc. eapply IH; [|done]. by eapply serving_step.
Qed.

Lemma serving_start (srv : server) now : serving_inv (start_serving srv now) [].
Proof. split; [apply Metrics.counts_new|apply MetricsWire.new_buckets|constructor|by split]. Qed.

Lemma started_wired f env (srv : server) :
  run f env = Started srv -> wired_for_books (s_handler srv) /\ s_metrics srv = f_metrics f.
Proof.
  intros Hrun. apply run_started in Hrun as (_ & up & base & s0 & s1 & _ & _ & _ & _ & Hsrv).
  destruct (core_GetSettings s1 (e_settings env)) as [s2 settings]. subst srv.
  unfold build_server. cbn [Hub.Subscribe s_handler s_metrics]. split; [|done]. unfold handler_opts.
  destruct (String.eqb (f_keysPath f) ""), (wire_budget f); (split; [done|split; [done|by eexists]]).
Qed.

(** The figures of the metrics fit an int64. *)
Record figures_fit (s : proxy) (es : list effect) (pt : poll_times) : Prop := {
  fit_open : in_int64 (Z.of_nat (length (p_open s)));
  fit_billed : in_int64 (Z.of_nat (length (billed (logged es))));
  fit_refused : in_int64 (Z.of_nat (length (refused (logged es))));
  fit_saved : in_int64 (saved (logged es));
  fit_latency : in_int64 (Metrics.latency_total (marks_of es));
  fit_triggers : Forall (fun t => in_int64 (Metrics.te_Timestamp t) /\ in_int64 (Metrics.te_SavedMicro t))
                   (Metrics.mark_triggers (marks_of es));
  fit_now : in_int64 (time_unix (m_snapshot pt));
  fit_agents : in_int64 (MetricsWire.agent_count (blocked_agents (w_det (t_world (p_traffic s))) (m_blocked pt)).2)
}.

(** C3. The books agree, from the start of the process to the developer's terminal. Start
    cmd/proxy with its metrics on and let anything happen at it - requests of any callers,
    responses ending or failing in any order, deletions, polls, pages; a poll of GET
    /v1/metrics then decodes to exactly: the requests still being forwarded, as many
    completed calls as billed rows were logged, as many loop blocks as loop-blocked rows,
    the sum of those rows as the money saved, and the blocked agents of the exact detector -
    zero when dynamic detectors are on, whatever they blocked. finops-run draws these
    figures on its terminal. The poll itself logs, forwards and counts nothing. *)
Theorem metrics_keep_the_books f env (srv : server) page now0 evs s es t pt r v bar :
  run f env = Started srv -> f_metrics f = true ->
  proxy_run srv page (start_serving srv now0) evs = Some (s, es) ->
  Method r = "GET" -> Segments r = ["v1"; "metrics"] -> figures_fit s es pt ->
  print_float (Metrics.velocity (Metrics.tokens (p_metrics s)) (m_snapshot pt)).2 = Some v ->
  let agents := match w_det (t_world (p_traffic s)) with
                | Plain d => Z.of_nat (length (HashDetector.BlockedAgents d (m_blocked pt)).2)
                | Piped _ => 0
                end in
  exists s' resp fig,
    proxy_step srv page s (Arrive t pt r) = Some (s', [ERespond resp])
    /\ p_open s' = p_open s /\ w_store (t_world (p_traffic s')) = w_store (t_world (p_traffic s))
    /\ StatusBar.Metrics (StatusBar.Answered (Status resp) (bytes_of_string (RespBody resp))) = Ok fig
    /\ StatusBar.ActiveRequests fig = Z.of_nat (length (p_open s))
    /\ StatusBar.TotalRequests fig = Z.of_nat (length (billed (logged es)))
    /\ StatusBar.LoopBlocks fig = Z.of_nat (length (refused (logged es)))
    /\ StatusBar.SavedCostMicroUSD fig = saved (logged es)
    /\ StatusBar.BlockedAgents fig = agents
    /\ StatusBar.poll bar (StatusBar.Answered (Status resp) (bytes_of_string (RespBody resp)))
       = if StatusBar.tty bar then
           StatusBar.draw bar (StatusBar.Line (Z.of_nat (length (p_open s))) (StatusBar.TokenVelocity fig)
             (Z.of_nat (length (refused (logged es)))) agents
             (f64_div (f64_of_Z (saved (logged es))) (f64_of_Z 1000000)) (StatusBar.AvgLatencyMicro fig))
         else bar.
Proof.
  intros Hrun Hflag Hr Hget Hseg Hfit Hv agents.
  destruct (started_wired f env srv Hrun) as [Hw Hm]. rewrite Hflag in Hm.
  destruct (serving_run srv page evs _ [] s es Hw (serving_start srv now0) Hr) as [Hc Hb _ [K1 K2 K3 K4]].
  cbn [app] in *. destruct Hfit as [F1 F2 F3 F4 F5 F6 F7 F8]. rewrite <- K1 in F1 |- *.
  rewrite <- K2 in F2 |- *. rewrite <- K3 in F3 |- *. rewrite <- K4 in F4 |- *.
  pose proof (MetricsWire.registry_figures _ _ _ _ v Hc Hb F1 F2 F3 F4 F5 F6 F7 F8 Hv) as [Hf _].
  cbn [proxy_step]. unfold root_serve. rewrite Hget, Hseg, Hm. change (route _ _ _ _) with MetricsRoute. cbv iota.
  unfold serve_metrics. change (String.eqb "GET" "GET") with true. cbv iota.
  assert (agents = MetricsWire.agent_count (blocked_agents (w_det (t_world (p_traffic s))) (m_blocked pt)).2) as ->.
  { unfold agents, blocked_agents. destruct (w_det _) as [d|q]; [|done]. by destruct (HashDetector.BlockedAgents _ _). }
  destruct (blocked_agents _ _) as [det blocked]. cbn [snd] in *.
  destruct (MetricsWire.MetricsHandler _ _ _ _) as [m [[status hd] body]].
  eexists _, _, _. split; [reflexivity|]. cbn [Status RespBody p_open p_traffic]. rewrite bytes_of_string_of_bytes.
  split; [by rewrite app_nil_r|]. split; [done|]. split; [exact Hf|]. do 5 (split; [reflexivity|]).
  unfold StatusBar.poll. rewrite Hf. unfold StatusBar.render. cbn. by destruct (StatusBar.tty bar).
Qed.
End Serving.

(** ** A proxy started and asked

    The memory store, the exact detector, no keys: a call forwarded, billed and returned,
    its repeat blocked, another call still being forwarded. *)

Section Witness.
#[local] Existing Instances Sqlite.tables_gorm order_exact order_struct order_tool order_vel order_price order_json.
Local Instance order_agents : RangeOrder Detector.AgentID Detector.AgentStatus := canonical_range _ _.

Definition plain_flags : flags :=
  {| f_addr := ":8080"; f_upstream := "http://localhost:11434/v1"; f_ttl := 5 * Minute; f_limit := 7;
     f_pricingPath := "pricing.json"; f_pricingURL := ""; f_dbPath := ""; f_keysPath := "";
     f_dailyBudget := 0; f_thresholds := []; f_metrics := true; f_dashboard := true; f_dynamic := false;
     f_structural := false; f_toolLoop := false; f_velocity := false; f_version := false |}.

Definition no_poll : poll_times := {| m_snapshot := 0; m_blocked := 0 |}.
Definition other_request : Request :=
  local_request "POST" ["v1"; "chat"] (header_Set ∅ AgentIDHeader "a") (bytes_of_string "[3]").
Definition metrics_request : Request :=
  local_request "GET" ["v1"; "metrics"] ∅ [].

Definition sample_events : list proxy_event :=
  [Arrive (times_at 1000) no_poll sample_request;
   Copied (Finish 0 (cost_times_at 1003) 200 "application/json" 5 7); Returned 0;
   Arrive (times_at 1002) no_poll sample_request; Arrive (times_at 1004) no_poll other_request].

Definition sample_poll : poll_times := {| m_snapshot := unix_time 1005; m_blocked := unix_time 1005 |}.
Definition blocked_count (s : proxy (G := Tables)) (pt : poll_times) : Z :=
  match w_det (t_world (p_traffic s)) with
  | Plain d => Z.of_nat (length (HashDetector.BlockedAgents d (m_blocked pt)).2)
  | Piped _ => 0
  end.

Lemma metrics_keep_the_books_witness :
  match run plain_flags sample_env with
  | Started srv =>
      match proxy_run srv "" (start_serving srv (unix_time 990)) sample_events with
      | Some (s, es) =>
          exists s' resp fig,
            proxy_step srv "" s (Arrive (times_at 1005) sample_poll metrics_request) = Some (s', [ERespond resp])
            /\ StatusBar.Metrics (StatusBar.Answered (Status resp) (bytes_of_string (RespBody resp))) = Ok fig
            /\ StatusBar.ActiveRequests fig = 1 /\ StatusBar.TotalRequests fig = 1 /\ StatusBar.LoopBlocks fig = 1
            /\ StatusBar.BlockedAgents fig = 1
      | None => False
      end
  | _ => False
  end.
Proof.
  assert (match run plain_flags sample_env with
          | Started srv =>
              match proxy_run srv "" (start_serving srv (unix_time 990)) sample_events with
              | Some (s, es) =>
                  length (p_open s) = 1%nat /\ length (billed (logged es)) = 1%nat
                  /\ length (refused (logged es)) = 1%nat /\ blocked_count s sample_poll = 1
                  /\ bool_decide (in_int64 (saved (logged es))) = true
                  /\ bool_decide (in_int64 (Metrics.latency_total (marks_of es))) = true
                  /\ forallb (fun t => bool_decide (in_int64 (Metrics.te_Timestamp t) /\ in_int64 (Metrics.te_SavedMicro t)))
                       (Metrics.mark_triggers (marks_of es)) = true
                  /\ print_float (Metrics.velocity (Metrics.tokens (p_metrics s)) (m_snapshot sample_poll)).2
                     = Some (bytes_of_string "2.8")
              | None => False
              end
          | _ => False
          end) as Hfacts by (vm_compute; repeat split).
  destruct (run plain_flags sample_env) as [|e db|srv] eqn:Hrun; [destruct Hfacts|destruct Hfacts|].
  destruct (proxy_run srv "" (start_serving srv (unix_time 990)) sample_events) as [[s es]|] eqn:Hr; [|destruct Hfacts].
  destruct Hfacts as (A1 & A2 & A3 & A4 & A5 & A6 & A7 & A8).
  pose proof (metrics_keep_the_books plain_flags sample_env srv "" (unix_time 990) sample_events s es
    (times_at 1005) sample_poll metrics_request (bytes_of_string "2.8") (StatusBar.newStatusBar 0 true)
    Hrun eq_refl Hr eq_refl eq_refl) as Hbooks.
  fold (blocked_count s sample_poll) in Hbooks. rewrite A1, A2, A3, A4 in Hbooks.
  destruct Hbooks as (s' & resp & fig & Hstep & _ & _ & Hfig & Ha & Ht & Hl & _ & Hb & _).
  - split.
    + rewrite A1. split; vm_compute; discriminate.
    + rewrite A2. split; vm_compute; discriminate.
    + rewrite A3. split; vm_compute; discriminate.
    + by apply bool_decide_eq_true in A5.
    + by apply bool_decide_eq_true in A6.
    + apply Forall_forall. intros t Hin. apply forallb_forall with (x := t) in A7; [|by apply list_elem_of_In].
      by apply bool_decide_eq_true in A7.
    + split; vm_compute; discriminate.
    + assert (MetricsWire.agent_count (blocked_agents (w_det (t_world (p_traffic s))) (m_blocked sample_poll)).2
              = blocked_count s sample_poll) as ->.
      { unfold blocked_count, blocked_agents. destruct (w_det _) as [d|q]; [|done]. by destruct (HashDetector.BlockedAgents _ _). }
      rewrite A4. split; vm_compute; discriminate.
  - exact A8.
  - exists s', resp, fig. split; [exact Hstep|]. split; [exact Hfig|]. exact (conj Ha (conj Ht (conj Hl Hb))).
Defined.
End Witness.
